(* ===== verification/_CoqProject ===== *)
-Q . S2P
Prelude.v
Bytes.v
Channel.v
TbMessage.v
WireTypes.v
Framing.v
CMap.v
HashHistory.v
Types.v
MessageFields.v
TxStore.v
TxStoreFacts.v
TxStoreSpec.v
TxStoreThreads.v
TxStoreConcurrency.v
TxStoreAlone.v
TxStoreLife.v
BlockProcessor.v
EthTypes.v
Chain.v
ChainFacts.v
ChainExamples.v
ChainClean.v
ChainSpec.v
ChainUpdate.v
ChainCanonical.v
ChainProps.v
ChainHeaders.v
Bridge.v
Peer.v
PeerFacts.v
PeerProps.v
NetworkConfig.v
Converter.v
PeerSet.v
Backend.v
BackendFacts.v
BackendProps.v
NodeBlocks.v
Handlers.v
SystemProps.v
NodeConfig.v
Keys.v
Flags.v
Logger.v
LoggerCalls.v
Conn.v
Gateway.v
GatewayProps.v
GatewaySystem.v
GatewayRel.v
Pipeline.v
EndToEnd.v
TxToNodes.v
BridgeCalls.v
Process.v
Relays.v
Certified.v
Startup.v
EthTransaction.v
EthTransactionProps.v
