(* ===== verification/Prelude.v ===== *)
(** * Verification of the turbo gateway

    The program (package github.com/massbitprotocol/turbo, under src/) is a gateway between Ethereum
    nodes and a block distribution network (BDN). It is a peer of its operator's Ethereum nodes
    (blockchain/eth), takes their blocks and transactions over a bridge of channels (blockchain/bridge.go)
    and broadcasts them to relays over TLS connections (nodes, connections, tbmessage), and hands what
    relays send to the nodes. This library models these parts and proves what makes them correct.

    ** How the code is modelled

    A Go function is a function here. What it changes is passed and returned; [outcome] says whether it
    returns ([Ret]), crashes the process ([Panics], with the kind of run-time panic) or waits for ever
    ([Blocks]); a Go error is a value of [go_error], and an operation that returns (T, error) gives a
    [result]. Integers are [Z], with [uint32], [uint64] and [int64] where the code converts or can wrap
    around; byte slices are lists of bytes, with the run-time checks of slicing and indexing ([Bytes]).
    Objects that are shared through pointers (peers in the backend, connections in the gateway) are
    entries of a finite map from addresses, so that two lists can name one object. Time is an argument in
    nanoseconds. Go maps whose order matters, and the concurrent map of a third party, are a class ([CMap])
    with an iteration order of its own. Code that is not in the repository (go-ethereum's types, RLP,
    the cryptography, sockets) is a parameter, with the documented behaviour a theorem needs as named
    laws, and a toy instance that satisfies them for the witnesses.

    ** Files

    - [Prelude]: outcomes, integers, tactics. [Bytes]: slices, encoding/binary, hex. [Channel]: buffered
      channels. [CMap]: the concurrent map.
    - tbmessage: [TbMessage] (header.go, broadcast_header.go, broadcast.go, tx.go, message.go,
      constants.go) with packing and unpacking byte by byte; [WireTypes] its typing; [MessageFields] its
      setters. [Framing]: cutting a byte stream into messages (sslconn.go's ReadMessages, cmd/relay/main.go).
    - types: [Types] (hashes, transactions, blocks, flags); [EthTransaction] and [EthTransactionProps]
      (ethtransaction.go: filters, chosen fields, JSON).
    - services: [HashHistory], [TxStore] with [TxStoreFacts] and [TxStoreSpec] (tbtxstore.go); [TxStoreThreads],
      its [Add] and [remove] step by step, with [TxStoreConcurrency], what interleavings keep, and [TxStoreAlone],
      the refinement of [TxStore]; [TxStoreLife], the start and stop of its clean-up; [BlockProcessor] (block_processor.go).
    - blockchain/eth: [EthTypes] (the interface of go-ethereum), [Chain] (chain.go, block references of
      util.go) with [ChainFacts], [ChainExamples], [ChainClean], [ChainSpec], [ChainUpdate] (the update of the chain state
      without its loops), [ChainCanonical], [ChainProps] and [ChainHeaders]; [Peer] (peer.go) with [PeerFacts] and [PeerProps]; [PeerSet] (peerset.go);
      [Converter] (converter.go); [Backend] (backend.go) with [BackendFacts], [BackendProps] and
      [NodeBlocks], what becomes of the blocks a node sends; [Handlers] (handlers.go, protocol.go); [SystemProps], the whole Ethereum side; [Keys] (the key of
      server.go and util.go, and utils/ssl.go).
    - blockchain: [Bridge] (bridge.go); [NetworkConfig] (network/config.go, network/preset.go).
    - [NodeConfig] (utils/nodetype.go, config); [Flags] (utils/flags.go, utils/eth_flags.go and the list of
      flags in cmd/gateway/main.go); [Conn] (connections/sslconn.go, info.go, blockchain.go); [Gateway]
      (nodes/gateway.go, nodes/base.go, connections/handler, services/async_handler.go) with
      [GatewayProps]; [GatewaySystem], the gateway over its life, and [GatewayRel], the relations all its
      steps preserve; [Relays] (connections/socket.go, manager.go, handler/relay.go, and [Run] of
      nodes/gateway.go), how it comes by its connection to a relay; [Certified], with its certificates in place.
    - The parts together: [Pipeline], from the bridge to a relay; [EndToEnd], from a node to a relay;
      [TxToNodes], from a relay to the nodes; [BridgeCalls] and [Process], backend and gateway on one bridge;
      [Startup] (cmd/gateway/main.go, blockchain/eth/server.go), how the program makes and starts them.
    - [Logger] (logger/nonblocking.go, logger/log.go) and [LoggerCalls] (logger/exported.go, logger/entry.go).

    The bridge between the two halves is an interface ([BridgeOps] with [BridgeLaws]) that the backend is
    modelled against and [TurboBridge] implements. What the halves do to the rest is proved once for all
    relations their elementary updates preserve: [BridgeRel] with [safe] for the backend, [GatewayRel] with
    [moves] for the gateway; the calls on the bridge, connections that never open and connections that left
    the list are instances.

    Definitions keep the names of the code; a method is named after its type where two types have one of
    the same name ([Broadcast_Pack], [SSLConn_Send]); part of a function (the body of a loop, a branch) is a
    definition of its own, whose name says what it does ([send_head], [clean_item], [fill_missing]).

    ** What is proved

    - The two halves over their whole life. [system_reachable_ok]: whatever peers send and the gateway
      does, the chain is consistent and every peer in the set is registered under its ID, once.
      [gateway_reachable_ok]: the store is consistent, the pool of connections is sound, what was written
      on a connection are whole messages in order, and broadcasts never crash.
    - The process. [process_reachable_ok]: backend and gateway on one bridge keep both invariants, in every
      order of their steps; the bridge is the one after a sequence of their own calls, and blocks cross it
      in order. [relay_transactions_pile_up]: what relays send to nodes is never taken from the bridge.
    - End to end. [node_blocks_reach_relay]: a chain of new blocks a node announces arrives at the relay, one
      message per block, in order, each with an encoding that converts back to the block.
      [certified_gateway_delivers]: so it is from the start on, for a gateway with certificates.
      [relay_tx_reaches_nodes]: a transaction of a relay reaches every peer once, if the loop over the bridge
      runs; [packed_tx_not_delivered]: one that [Tx.Pack] packed does not.
    - The start. [command_line_spec]: the configurations command lines give; [gateway_started]: what is
      started, with which server; [spoiled_key_ends_silently]: a start that fails without an error;
      [first_start_never_connects] and [failed_connection_lost]: how the gateway stays without a relay.
    - Wire format: round trips of broadcasts, typing of whatever is unpacked, what transactions lose, and
      the exact inputs on which unpacking crashes; framing does not depend on how a stream is cut.
    - Transaction store: the invariant of all reachable stores, [Add] on every path, the clean-up, and the
      protection of removed transactions. Under concurrency: [concurrent_adds], who reports a transaction and its
      content as new; [store_goroutines_end], no deadlock and no infinite run; [removal_inside_addition], what a
      removal in the middle of an addition leaves; [calls_alone], undisturbed calls do what [TxStore] says;
      [stop_handshake], when the clean-up stops, which calls of [Stop] return and which wait for what.
    - Chain: the invariant of all reachable chains, [AddBlock] on every path, with the one number and chain
      state each path gives ([update_result], [update_result_unique]), new heads, header requests,
      difficulties, validation and clean-up. Peers: the invariant of the block queue and what is sent.
    - Backend: heads go to the bridge parents first, and exactly those the bridge took are marked.
    - Connections: [send_in_order], and what a reconnection does to the stream. Gateway: what becomes of
      a transaction, on every path, and two inputs that crash the process.
    - Configuration, converter, keys and the users' view of transactions: round trips and exact results.
      Logging: lines in order, and [what_ends_the_process].

    Several theorems state a defect of the code as it is written, such as [canonical_block_twice],
    [Tx_pack_unpack], [late_block_not_sent], [duplicate_block_crashes], [relay_transactions_pile_up],
    [failed_connection_lost] or [spoiled_key_ends_silently].

    ** Fuel

    Loops without a structural argument take fuel, and running out of it is [Blocks], never a result.
    The extraction of messages from a buffer gets one step per byte and one more, and every message takes
    at least 20 bytes ([extract_total] proves that it returns). The walk along parents in
    updateChainState gets [fill_fuel], and the limit minValidChain stops it before that ([AddBlock_spec]);
    GetHeaders gets what [GetHeaders_total] proves to be enough; [drain] gets the length of the queue,
    which is what one round of the send loop finds, as receiving shortens it; [LoggerCalls.wait] gets one turn per line that
    waits and one to return ([what_ends_the_process] proves that it ends).

    ** What is not modelled

    The buffer of a connection's bufio.Writer: [conn_written] is what the send loop handed to the writer, a
    flush is only a success or a failure, and bytes that a failed flush loses count as written. The
    times between two readings of the clock inside one call: a call of the store has one time. The state
    of a call that waits for ever ([Blocks]): where it changes something before it waits, the change is a step of its
    own in the life of the object ([ps_response_waits], for a response nobody receives any more).
    Methods that take a lock run one at a time, and a method without one is a single step: interleavings
    inside a method are modelled for [Add] and [remove] of the transaction store only; nor is the time a wait takes. Once a connection's context is
    cancelled its send loop is taken to stop at once, although Go's select may still choose a waiting
    message. A step of the process is a whole step of one half: what the other half does to the bridge in
    the middle of it is not modelled. The models leave out what they log, the formatting for logs and plain
    getters. Parsing a command line (urfave/cli), the p2p server (go-ethereum) and the log file are
    parameters with their documented behaviour. The profiling server, signals, dialling and the handshake
    of TLS, the clock and the interfaces (conn.go, node.go) have no state of the program's own. utils/sslextension.go
    panics and is not called. Package gRPCtalking is generated and unused; nodes/grpc_gateway.go is a copy
    of nodes/gateway.go. *)
From Stdlib Require Export ZArith Lia Ascii.
From Stdlib Require String.
From Stdlib.Strings Require Export Byte.
From Stdlib Require Import DecimalString DecimalN DecimalNat.
From stdpp Require Export prelude gmap strings list sorting.

#[global] Open Scope Z_scope.
#[global] Open Scope list_scope.

(** ** Outcomes of Go code

    A Go function can return, crash the process with a run-time panic, or wait
    for ever on a channel nobody serves. Errors are ordinary values. *)

Inductive go_panic :=
  | IndexOutOfRange
  | SliceOutOfRange
  | NilDereference
  | MakeSliceTooLarge
  | TypeAssertion
  | Explicit (msg : string).

Inductive outcome (A : Type) :=
  | Ret (a : A)
  | Panics (p : go_panic)
  | Blocks.
Arguments Ret {A} a.
Arguments Panics {A} p.
Arguments Blocks {A}.

#[export] Instance outcome_ret : MRet outcome := fun A a => Ret a.
#[export] Instance outcome_bind : MBind outcome := fun A B f m =>
  match m with Ret a => f a | Panics p => Panics p | Blocks => Blocks end.
#[export] Instance outcome_fmap : FMap outcome := fun A B f m =>
  match m with Ret a => Ret (f a) | Panics p => Panics p | Blocks => Blocks end.

(** Go's [error]: the sentinel values the code compares with [==], and the
    values made on the spot by [errors.New] and [fmt.Errorf], which are equal to
    no sentinel. *)
Inductive go_error :=
  | ErrInvalidRequest | ErrInvalidPacketType | ErrBodyNotFound | ErrAlreadySeen
  | ErrAncientHeaders | ErrFutureHeaders | ErrChannelFull | ErrResponseTimeout
  | ErrUnknownRequestID | ErrAlreadyProcessed | ErrMissingShortIDs
  | Errorf (msg : string)
  | ExternalError (code : Z).

#[export] Instance go_panic_eq_dec : EqDecision go_panic.
Proof. solve_decision. Defined.
#[export] Instance go_error_eq_dec : EqDecision go_error.
Proof. solve_decision. Defined.

Inductive result (A : Type) :=
  | Ok (a : A)
  | Fail (e : go_error).
Arguments Ok {A} a.
Arguments Fail {A} e.

#[export] Instance result_ret : MRet result := fun A a => Ok a.
#[export] Instance result_bind : MBind result := fun A B f m =>
  match m with Ok a => f a | Fail e => Fail e end.

Definition is_ok {A} (r : result A) : bool := if r is Ok _ then true else false.
Definition is_ret {A} (o : outcome A) : bool := if o is Ret _ then true else false.

(** Dereferencing a pointer that may be nil. *)
Definition deref {A} (p : option A) : outcome A :=
  match p with Some a => Ret a | None => Panics NilDereference end.

(** *** Postconditions: what holds of the value if the code returns *)
Definition post {A} (m : outcome A) (Q : A -> Prop) : Prop := forall a, m = Ret a -> Q a.

Lemma post_ret {A} (a : A) (Q : A -> Prop) : Q a -> post (mret a) Q.
Proof. by intros Ha ? [= <-]. Qed.

Lemma post_bind {A B} (m : outcome A) (f : A -> outcome B) (P : A -> Prop) (Q : B -> Prop) :
  post m P -> (forall a, P a -> post (f a) Q) -> post (m ≫= f) Q.
Proof. intros Hm Hf b. destruct m as [a| |]; [|done..]. apply Hf. by apply Hm. Qed.

Lemma post_true {A} (m : outcome A) : post m (fun _ => True).
Proof. by intros a _. Qed.

(** ** Machine integers *)

Definition uint8 (z : Z) : Z := z mod 2 ^ 8.
Definition uint32 (z : Z) : Z := z mod 2 ^ 32.
Definition uint64 (z : Z) : Z := z mod 2 ^ 64.
Definition int64 (z : Z) : Z := (z + 2 ^ 63) mod 2 ^ 64 - 2 ^ 63.

Definition is_uint32 (z : Z) : Prop := 0 <= z < 2 ^ 32.
Definition is_uint64 (z : Z) : Prop := 0 <= z < 2 ^ 64.
Definition is_int64 (z : Z) : Prop := - 2 ^ 63 <= z < 2 ^ 63.

(** [make([]T, 0, n)]: the run time refuses a negative capacity and one whose
    size in bytes exceeds the address space (2^48 bytes on the 64-bit targets). *)
Definition max_alloc : Z := 2 ^ 48.
Definition make_cap (n elem_size : Z) : outcome () :=
  if decide (n < 0 \/ max_alloc < n * elem_size)
  then Panics MakeSliceTooLarge else Ret tt.

(** ** [strconv]: decimal text of unsigned integers and [Atoi] *)

Definition format_uint (z : Z) : string :=
  NilEmpty.string_of_uint (N.to_uint (Z.to_N z)).

Definition parse_digits (s : string) : option Z :=
  match s with
  | EmptyString => None
  | _ => d ← NilEmpty.uint_of_string s; Some (Z.of_N (N.of_uint d))
  end.

Definition in_int64 (z : Z) : option Z :=
  if decide (- 2 ^ 63 <= z < 2 ^ 63) then Some z else None.

Definition atoi (s : string) : option Z :=
  match s with
  | String "+"%char s' => z ← parse_digits s'; in_int64 z
  | String "-"%char s' => z ← parse_digits s'; in_int64 (- z)
  | _ => z ← parse_digits s; in_int64 z
  end.

(** ** Tactics *)

(** Unfold the monadic plumbing of [outcome] and [result] and reduce. *)
Ltac go_simpl :=
  cbn [mret mbind fmap outcome_ret outcome_bind outcome_fmap result_ret result_bind deref] in *.

(** Case analysis on the first scrutinee in sight. *)
Ltac case_match_goal :=
  match goal with
  | |- context [match ?x with _ => _ end] => destruct x eqn:?
  | H : context [match ?x with _ => _ end] |- _ => destruct x eqn:?
  end.

Ltac go_cases := repeat (case_match_goal; simplify_eq/=; try done).

(** Close concrete side conditions of witnesses by evaluation. *)
Ltac concrete :=
  repeat match goal with
  | |- _ /\ _ => split
  | |- Forall _ _ => constructor
  end; vm_compute; intuition congruence.

(** ** Shared lemmas *)

Create HintDb go discriminated.
Create Rewrite HintDb go.

Lemma int64_small z : is_int64 z -> int64 z = z.
Proof. unfold is_int64, int64. intros. rewrite Z.mod_small; lia. Qed.

Lemma int64_bounds z : is_int64 (int64 z).
Proof.
  unfold is_int64, int64.
  pose proof (Z.mod_pos_bound (z + 2 ^ 63) (2 ^ 64)). lia.
Qed.

Lemma uint64_small z : is_uint64 z -> uint64 z = z.
Proof. unfold is_uint64, uint64. intros. by rewrite Z.mod_small. Qed.

Lemma uint32_small z : is_uint32 z -> uint32 z = z.
Proof. unfold is_uint32, uint32. intros. by rewrite Z.mod_small. Qed.

Lemma uint64_bounds z : is_uint64 (uint64 z).
Proof. unfold is_uint64, uint64. apply Z.mod_pos_bound. lia. Qed.

Lemma uint32_bounds z : is_uint32 (uint32 z).
Proof. unfold is_uint32, uint32. apply Z.mod_pos_bound. lia. Qed.

(** Reading an unsigned value as signed: the top half becomes negative. *)
Lemma int64_uint64 z : int64 (uint64 z) = int64 z.
Proof. unfold int64, uint64. by rewrite Zplus_mod_idemp_l. Qed.

Lemma int64_high z : 2 ^ 63 <= z < 2 ^ 64 -> int64 z = z - 2 ^ 64.
Proof.
  intros Hz. unfold int64.
  replace (z + 2 ^ 63) with (z - 2 ^ 63 + 1 * 2 ^ 64) by lia.
  rewrite Z_mod_plus_full, Z.mod_small; lia.
Qed.

(** Remove the [int64] wrap-arounds whose argument is provably in range. *)
Ltac drop_int64 :=
  repeat match goal with
  | |- context [int64 ?x] => rewrite (int64_small x) by (unfold is_int64; lia)
  | H : context [int64 ?x] |- _ => rewrite (int64_small x) in H by (unfold is_int64; lia)
  end.

#[export] Hint Resolve int64_bounds uint64_bounds uint32_bounds : go.
#[export] Hint Rewrite int64_small uint64_small uint32_small using done : go.

Lemma format_uint_inj x y : 0 <= x -> 0 <= y -> format_uint x = format_uint y -> x = y.
Proof.
  intros Hx Hy Heq. unfold format_uint in Heq.
  apply (f_equal NilEmpty.uint_of_string) in Heq.
  rewrite !NilEmpty.usu in Heq. injection Heq as Heq.
  apply (f_equal N.of_uint) in Heq.
  rewrite !DecimalN.Unsigned.of_to in Heq. lia.
Qed.

Lemma string_of_uint_digit d c s :
  NilEmpty.string_of_uint d = String c s -> c <> "+"%char /\ c <> "-"%char.
Proof. by destruct d; intros [= <- _]. Qed.

Lemma format_uint_nonempty z : format_uint z <> EmptyString.
Proof.
  unfold format_uint. intros Heq.
  assert (N.to_uint (Z.to_N z) = Decimal.Nil) as Hnil.
  { by destruct (N.to_uint (Z.to_N z)). }
  pose proof (DecimalN.Unsigned.of_to (Z.to_N z)) as Hof. rewrite Hnil in Hof.
  destruct (Z.to_N z); discriminate.
Qed.

Lemma parse_format_uint z : 0 <= z -> parse_digits (format_uint z) = Some z.
Proof.
  intros Hz. pose proof (format_uint_nonempty z) as Hne. unfold parse_digits.
  destruct (format_uint z) as [|c s] eqn:Heq; [done|]. rewrite <- Heq.
  unfold format_uint. rewrite NilEmpty.usu. simpl.
  rewrite DecimalN.Unsigned.of_to. f_equal. lia.
Qed.

(** [strconv.Atoi] undoes [strconv.FormatUint] on the values an [int] can hold
    and fails on the others. *)
Lemma atoi_format_uint z :
  0 <= z -> atoi (format_uint z) = if decide (z < 2 ^ 63) then Some z else None.
Proof.
  intros Hz.
  assert (atoi (format_uint z) = (z' ← parse_digits (format_uint z); in_int64 z')) as ->.
  { destruct (format_uint z) as [|c s] eqn:Heq; [by apply format_uint_nonempty in Heq|].
    apply string_of_uint_digit in Heq as [Hplus Hminus].
    unfold atoi. by repeat case_match. }
  rewrite parse_format_uint by done. simpl. unfold in_int64.
  repeat case_decide; try done; lia.
Qed.

Lemma make_cap_ok n k : 0 <= n -> n * k <= max_alloc -> make_cap n k = Ret tt.
Proof. intros. unfold make_cap. rewrite decide_False by lia. done. Qed.

Lemma make_cap_panics n k : n < 0 \/ max_alloc < n * k -> make_cap n k = Panics MakeSliceTooLarge.
Proof. intros. unfold make_cap. by rewrite decide_True. Qed.

(** Folding with two step functions that agree. *)
Lemma foldl_agree {A B} (f g : A -> B -> A) (l : list B) a :
  (forall a x, x ∈ l -> f a x = g a x) -> foldl f a l = foldl g a l.
Proof.
  revert a. induction l as [|x l IH]; intros a Hfg; [done|]. simpl.
  rewrite Hfg by (by left). apply IH. intros b y Hy. apply Hfg. by right.
Qed.

(** A property every step keeps holds after the fold. *)
Lemma foldl_inv {A B} (P : A -> Prop) (f : A -> B -> A) (l : list B) a :
  P a -> (forall a x, x ∈ l -> P a -> P (f a x)) -> P (foldl f a l).
Proof.
  revert a. induction l as [|x l IH]; intros a Ha Hf; [done|]. simpl.
  apply IH; [apply Hf; [by left|done]|]. intros b y Hy. apply Hf. by right.
Qed.

(** Filtering by two tests that agree on the list. *)
Lemma filter_agree {A} (P Q : A -> Prop) `{!forall x, Decision (P x), !forall x, Decision (Q x)} (l : list A) :
  (forall x, x ∈ l -> P x <-> Q x) -> filter P l = filter Q l.
Proof.
  induction l as [|x l IH]; intros Hpq; [done|]. rewrite !filter_cons, IH by (intros; apply Hpq; by right).
  pose proof (Hpq x ltac:(by left)). repeat case_decide; tauto.
Qed.
