(* ===== verification/Bytes.v ===== *)
(** Go byte slices: slicing and indexing with their run-time checks, [copy], the
    fixed-width accessors of [encoding/binary], [bytes.Trim], [bytes.Equal] and
    [encoding/hex]; with the lemmas that let a buffer be read and written chunk
    by chunk. A slice is a list of bytes whose capacity equals its length, as for
    the buffers [make([]byte, n)] returns. *)
From S2P Require Import Prelude.

#[export] Instance byte_eq_dec_inst : EqDecision byte := Byte.byte_eq_dec.
#[export] Instance byte_inhabited : Inhabited byte := populate x00.

Definition byte_of_Z (z : Z) : byte :=
  match Byte.of_N (Z.to_N (z mod 256)) with Some b => b | None => x00 end.
Definition Z_of_byte (b : byte) : Z := Z.of_N (Byte.to_N b).

(** [len(b)] as a Go [int]. *)
Definition len (buf : list byte) : Z := Z.of_nat (length buf).

(** [buf[lo:hi]] and [buf[lo:]]. *)
Definition slice (buf : list byte) (lo hi : Z) : outcome (list byte) :=
  if decide (0 <= lo <= hi /\ hi <= len buf)
  then Ret (take (Z.to_nat (hi - lo)) (drop (Z.to_nat lo) buf))
  else Panics SliceOutOfRange.

Definition slice_from (buf : list byte) (lo : Z) : outcome (list byte) :=
  slice buf lo (len buf).

(** [buf[i]] and [buf[i] = b]. *)
Definition index (buf : list byte) (i : Z) : outcome byte :=
  if decide (0 <= i) then
    match buf !! Z.to_nat i with Some b => Ret b | None => Panics IndexOutOfRange end
  else Panics IndexOutOfRange.

Definition set_index (buf : list byte) (i : Z) (b : byte) : outcome (list byte) :=
  if decide (0 <= i < len buf) then Ret (<[Z.to_nat i := b]> buf)
  else Panics IndexOutOfRange.

(** [copy(dst, src)]: the first [min (len dst) (len src)] bytes are replaced. *)
Definition copy_bytes (dst src : list byte) : list byte :=
  take (length dst) src ++ drop (length src) dst.

(** [copy(buf[off:], src)]. *)
Definition copy_at (buf : list byte) (off : Z) (src : list byte) : outcome (list byte) :=
  if decide (0 <= off <= len buf)
  then Ret (take (Z.to_nat off) buf ++ copy_bytes (drop (Z.to_nat off) buf) src)
  else Panics SliceOutOfRange.

(** Little- and big-endian encodings of an unsigned integer on [n] bytes. *)
Fixpoint le_bytes (n : nat) (z : Z) : list byte :=
  match n with
  | O => []
  | S n' => byte_of_Z z :: le_bytes n' (z / 256)
  end.
Definition be_bytes (n : nat) (z : Z) : list byte := reverse (le_bytes n z).

Fixpoint le_val (bs : list byte) : Z :=
  match bs with
  | [] => 0
  | b :: bs' => Z_of_byte b + 256 * le_val bs'
  end.

(** [binary.LittleEndian.PutUint32(buf[off:], v)] and its kin: the slice expression is
    checked first, then the accessor touches its last byte. *)
Definition put_bytes (buf : list byte) (off : Z) (enc : list byte) : outcome (list byte) :=
  rest ← slice_from buf off;
  if decide (len rest < len enc) then Panics IndexOutOfRange
  else copy_at buf off enc.
Definition put_le (n : nat) (buf : list byte) (off v : Z) : outcome (list byte) :=
  put_bytes buf off (le_bytes n v).
Definition put_be (n : nat) (buf : list byte) (off v : Z) : outcome (list byte) :=
  put_bytes buf off (be_bytes n v).
Definition get_le (n : nat) (buf : list byte) (off : Z) : outcome Z :=
  rest ← slice_from buf off;
  if decide (len rest < Z.of_nat n) then Panics IndexOutOfRange
  else Ret (le_val (take n rest)).

(** [bytes.Trim(b, NullByte)]. *)
Fixpoint trim_left (bs : list byte) : list byte :=
  match bs with
  | x00 :: bs' => trim_left bs'
  | _ => bs
  end.
Definition trim_nul (bs : list byte) : list byte :=
  reverse (trim_left (reverse (trim_left bs))).

(** Go strings are byte sequences. *)
Definition to_string (bs : list byte) : string := String.string_of_list_byte bs.
Definition of_string (s : string) : list byte := String.list_byte_of_string s.

(** [hex.EncodeToString] and [hex.DecodeString]. *)
Definition hex_digit (z : Z) : byte :=
  byte_of_Z (if decide (z < 10) then 48 + z else 87 + z).
Definition hex_encode_bytes (bs : list byte) : list byte :=
  bs ≫= (fun b => [hex_digit (Z_of_byte b / 16); hex_digit (Z_of_byte b mod 16)]).
Definition hex_encode (bs : list byte) : string := to_string (hex_encode_bytes bs).

Definition hex_value (b : byte) : option Z :=
  let c := Z_of_byte b in
  if decide (48 <= c <= 57) then Some (c - 48)
  else if decide (97 <= c <= 102) then Some (c - 87)
  else if decide (65 <= c <= 70) then Some (c - 55)
  else None.
Fixpoint hex_decode (bs : list byte) : option (list byte) :=
  match bs with
  | [] => Some []
  | [_] => None
  | h :: l :: bs' =>
      vh ← hex_value h; vl ← hex_value l; rest ← hex_decode bs';
      Some (byte_of_Z (16 * vh + vl) :: rest)
  end.

(** ** Bytes and integers *)

Lemma Z_of_byte_bounds b : 0 <= Z_of_byte b < 256.
Proof. unfold Z_of_byte. pose proof (Byte.to_N_bounded b). lia. Qed.

Lemma byte_of_Z_of_byte b : byte_of_Z (Z_of_byte b) = b.
Proof. destruct b; reflexivity. Qed.

Lemma Z_of_byte_of_Z z : Z_of_byte (byte_of_Z z) = z mod 256.
Proof.
  unfold byte_of_Z, Z_of_byte.
  pose proof (Z.mod_pos_bound z 256 ltac:(lia)) as Hb.
  destruct (Byte.of_N (Z.to_N (z mod 256))) as [b|] eqn:Heq.
  - apply Byte.to_of_N in Heq. rewrite Heq. lia.
  - apply Byte.of_N_None_iff in Heq. lia.
Qed.

Lemma byte_of_Z_mod z : byte_of_Z (z mod 256) = byte_of_Z z.
Proof. unfold byte_of_Z. by rewrite Zmod_mod. Qed.

Lemma length_le_bytes n z : length (le_bytes n z) = n.
Proof. revert z. induction n; intros; simpl; auto. Qed.

Lemma length_be_bytes n z : length (be_bytes n z) = n.
Proof. unfold be_bytes. by rewrite length_reverse, length_le_bytes. Qed.

Lemma le_val_bytes n z : le_val (le_bytes n z) = z mod 256 ^ Z.of_nat n.
Proof.
  revert z. induction n as [|n IH]; intros z; cbn [le_bytes le_val].
  - by rewrite Z.mod_1_r.
  - rewrite IH, Z_of_byte_of_Z, Nat2Z.inj_succ, Z.pow_succ_r by lia.
    rewrite (Z.rem_mul_r z 256) by lia. lia.
Qed.

Lemma le_bytes_val bs : le_bytes (length bs) (le_val bs) = bs.
Proof.
  induction bs as [|b bs IH]; [done|]. cbn [length le_bytes le_val].
  pose proof (Z_of_byte_bounds b) as Hb. f_equal.
  - rewrite <- byte_of_Z_mod, Z.mul_comm, Z_mod_plus_full.
    rewrite byte_of_Z_mod. apply byte_of_Z_of_byte.
  - rewrite Z.mul_comm, Z_div_plus_full, (Z.div_small _ _ Hb) by lia. exact IH.
Qed.

Lemma le_val_bounds bs : 0 <= le_val bs < 256 ^ Z.of_nat (length bs).
Proof.
  rewrite <- (le_bytes_val bs) at 1 2. rewrite le_val_bytes.
  apply Z.mod_pos_bound. lia.
Qed.

Lemma get_le_4 buf off v : get_le 4 buf off = Ret v -> is_uint32 v.
Proof.
  unfold get_le. destruct (slice_from buf off) as [rest| |]; go_simpl; [|done..].
  destruct (decide _) as [Hl|Hl]; [done|]. intros [= <-]. pose proof (le_val_bounds (take 4 rest)) as Hb.
  unfold len in Hl. rewrite length_take, Nat.min_l in Hb by lia. unfold is_uint32. lia.
Qed.

Lemma le_val_bytes_small n z : 0 <= z < 256 ^ Z.of_nat n -> le_val (le_bytes n z) = z.
Proof. intros. rewrite le_val_bytes. by apply Z.mod_small. Qed.

Lemma len_nonneg buf : 0 <= len buf.
Proof. unfold len. lia. Qed.

Lemma len_app b1 b2 : len (b1 ++ b2) = len b1 + len b2.
Proof. unfold len. rewrite length_app. lia. Qed.

Lemma len_nat buf : Z.to_nat (len buf) = length buf.
Proof. unfold len. lia. Qed.

#[export] Hint Resolve len_nonneg Z_of_byte_bounds : go.
#[export] Hint Rewrite len_app len_nat length_le_bytes length_be_bytes : go.

(** ** Buffers made of chunks

    A packed message is a concatenation of fields. The lemmas below say that the
    slice operations act on one chunk of such a concatenation. *)

Definition offset_of (cs : list (list byte)) (i : nat) : Z := len (concat (take i cs)).

Lemma concat_split (cs : list (list byte)) i c :
  cs !! i = Some c -> concat cs = concat (take i cs) ++ c ++ concat (drop (S i) cs).
Proof.
  intros Hi. rewrite <- (take_drop_middle cs i c Hi) at 1.
  by rewrite concat_app.
Qed.

Lemma concat_insert (cs : list (list byte)) i c c' :
  cs !! i = Some c ->
  concat (<[i := c']> cs) = concat (take i cs) ++ c' ++ concat (drop (S i) cs).
Proof.
  intros Hi. rewrite insert_take_drop by eauto using lookup_lt_Some.
  by rewrite concat_app.
Qed.

Lemma take_drop_app3 {A} (l1 l2 l3 : list A) :
  take (length l2) (drop (length l1) (l1 ++ l2 ++ l3)) = l2.
Proof. by rewrite drop_app_length, take_app_length. Qed.

Lemma slice_app pre mid post :
  slice (pre ++ mid ++ post) (len pre) (len pre + len mid) = Ret mid.
Proof.
  unfold slice. rewrite decide_True; [f_equal|].
  - replace (Z.to_nat (len pre + len mid - len pre)) with (length mid) by (unfold len; lia).
    rewrite len_nat. apply take_drop_app3.
  - rewrite !len_app. unfold len. lia.
Qed.

Lemma slice_from_app pre post : slice_from (pre ++ post) (len pre) = Ret post.
Proof.
  unfold slice_from, slice. rewrite decide_True; [f_equal|rewrite len_app; unfold len; lia].
  rewrite len_app, len_nat, drop_app_length.
  replace (Z.to_nat _) with (length post) by (unfold len; lia). apply take_ge. lia.
Qed.

Lemma copy_bytes_app d1 d2 src :
  length src = length d1 -> copy_bytes (d1 ++ d2) src = src ++ d2.
Proof.
  intros Hl. unfold copy_bytes. rewrite take_ge by (rewrite length_app; lia).
  by rewrite Hl, drop_app_length.
Qed.

Lemma copy_bytes_same dst src : length src = length dst -> copy_bytes dst src = src.
Proof.
  intros Hl. rewrite <- (app_nil_r dst), copy_bytes_app by done. by rewrite app_nil_r.
Qed.

(** [copy] into an array shorter than the source keeps a prefix of the source. *)
Lemma copy_bytes_prefix dst src :
  (length dst <= length src)%nat -> copy_bytes dst src = take (length dst) src.
Proof. intros Hl. unfold copy_bytes. by rewrite drop_ge, app_nil_r. Qed.

Lemma length_copy_bytes dst src : length (copy_bytes dst src) = length dst.
Proof. unfold copy_bytes. rewrite length_app, length_take, length_drop. lia. Qed.

Lemma copy_at_app pre mid post src :
  length src = length mid ->
  copy_at (pre ++ mid ++ post) (len pre) src = Ret (pre ++ src ++ post).
Proof.
  intros Hl. unfold copy_at.
  rewrite decide_True by (rewrite len_app; unfold len; lia).
  by rewrite len_nat, take_app_length, drop_app_length, copy_bytes_app.
Qed.

Lemma put_bytes_app pre mid post enc :
  length enc = length mid ->
  put_bytes (pre ++ mid ++ post) (len pre) enc = Ret (pre ++ enc ++ post).
Proof.
  intros Hl. unfold put_bytes. rewrite slice_from_app. go_simpl.
  rewrite decide_False by (rewrite len_app; unfold len; lia). by apply copy_at_app.
Qed.

Lemma get_le_app n pre mid post :
  length mid = n -> get_le n (pre ++ mid ++ post) (len pre) = Ret (le_val mid).
Proof.
  intros <-. unfold get_le. rewrite slice_from_app. go_simpl.
  rewrite decide_False by (rewrite len_app; unfold len; lia). by rewrite take_app_length.
Qed.

Lemma set_index_last pre old b :
  set_index (pre ++ [old]) (len pre) b = Ret (pre ++ [b]).
Proof.
  unfold set_index.
  rewrite decide_True by (rewrite len_app; unfold len; simpl; lia).
  rewrite len_nat, insert_app_r_alt by lia. by rewrite Nat.sub_diag.
Qed.

Section Chunks.
Context (cs : list (list byte)) (i : nat) (c : list byte) (Hi : cs !! i = Some c).

Lemma slice_chunk lo hi :
  lo = offset_of cs i -> hi = lo + len c -> slice (concat cs) lo hi = Ret c.
Proof. intros -> ->. rewrite (concat_split _ _ _ Hi). apply slice_app. Qed.

Lemma slice_from_chunk lo :
  lo = offset_of cs i -> slice_from (concat cs) lo = Ret (concat (drop i cs)).
Proof.
  intros ->. rewrite <- (take_drop i cs) at 1. rewrite concat_app. apply slice_from_app.
Qed.

Lemma get_le_chunk n off :
  off = offset_of cs i -> length c = n -> get_le n (concat cs) off = Ret (le_val c).
Proof. intros -> ?. rewrite (concat_split _ _ _ Hi). by apply get_le_app. Qed.

Lemma copy_at_chunk off src :
  off = offset_of cs i -> length src = length c ->
  copy_at (concat cs) off src = Ret (concat (<[i := src]> cs)).
Proof.
  intros -> ?. rewrite (concat_insert _ _ _ _ Hi), (concat_split _ _ _ Hi).
  by apply copy_at_app.
Qed.

Lemma put_bytes_chunk off enc :
  off = offset_of cs i -> length enc = length c ->
  put_bytes (concat cs) off enc = Ret (concat (<[i := enc]> cs)).
Proof.
  intros -> ?. rewrite (concat_insert _ _ _ _ Hi), (concat_split _ _ _ Hi).
  by apply put_bytes_app.
Qed.
End Chunks.

(** Splitting a zero buffer into zero chunks. *)
Definition zeros (n : nat) : list byte := replicate n x00.

Lemma zeros_concat ns : zeros (sum_list ns) = concat (map zeros ns).
Proof.
  induction ns as [|n ns IH]; [done|]. cbn [sum_list map concat].
  rewrite <- IH. unfold zeros. apply replicate_add.
Qed.

Lemma length_zeros n : length (zeros n) = n.
Proof. apply length_replicate. Qed.
#[export] Hint Rewrite length_zeros : go.

(** ** Hexadecimal text *)

Lemma hex_digit_value z : 0 <= z < 16 -> hex_value (hex_digit z) = Some z.
Proof.
  intros Hz. assert (z ∈ seqZ 0 16) as Hin by (apply elem_of_seqZ; lia).
  revert Hin. apply (Forall_forall (fun z => hex_value (hex_digit z) = Some z)).
  by repeat constructor.
Qed.

(** [hex.DecodeString] inverts [hex.EncodeToString]. *)
Lemma hex_decode_encode bs : hex_decode (hex_encode_bytes bs) = Some bs.
Proof.
  induction bs as [|b bs IH]; [done|].
  unfold hex_encode_bytes in *. cbn [mbind list_bind app hex_decode].
  pose proof (Z_of_byte_bounds b) as Hb.
  rewrite !hex_digit_value.
  - cbn [mbind option_bind]. change (hex_decode _) with (hex_decode (hex_encode_bytes bs)).
    unfold hex_encode_bytes. rewrite IH. cbn. rewrite <- Z.div_mod by lia.
    by rewrite byte_of_Z_of_byte.
  - split; [apply Z.div_pos; lia|apply Z.div_lt_upper_bound; lia].
  - apply Z.mod_pos_bound. lia.
Qed.

Lemma of_to_string bs : of_string (to_string bs) = bs.
Proof. apply String.list_byte_of_string_of_list_byte. Qed.

#[export] Instance to_string_inj : Inj eq eq to_string.
Proof. intros x y Heq. by rewrite <- (of_to_string x), Heq, of_to_string. Qed.

#[export] Instance hex_encode_inj : Inj eq eq hex_encode.
Proof.
  intros x y Heq. apply (inj to_string) in Heq.
  apply (f_equal hex_decode) in Heq. rewrite !hex_decode_encode in Heq. congruence.
Qed.

Lemma trim_left_head b bs : b <> x00 -> trim_left (b :: bs) = b :: bs.
Proof. by destruct b. Qed.

Lemma trim_left_zeros n bs : trim_left (zeros n ++ bs) = trim_left bs.
Proof. induction n; simpl; auto. Qed.

(** A NUL-free nonempty name padded with NULs is recovered by [bytes.Trim]. *)
Lemma trim_nul_padded n bs b0 b1 pre suf :
  bs = b0 :: suf -> bs = pre ++ [b1] -> b0 <> x00 -> b1 <> x00 ->
  trim_nul (bs ++ zeros n) = bs.
Proof.
  intros Hb0 Hb1 H0 H1. unfold trim_nul.
  assert (trim_left (bs ++ zeros n) = bs ++ zeros n) as ->.
  { rewrite Hb0. by apply trim_left_head. }
  rewrite reverse_app. unfold zeros at 1. rewrite reverse_replicate.
  change (replicate n x00) with (zeros n). rewrite trim_left_zeros, Hb1, reverse_snoc.
  rewrite trim_left_head by done. by rewrite reverse_cons, reverse_involutive.
Qed.
