(* ===== verification/Channel.v ===== *)
(** Go channels with a buffer, as the program uses them: a send in a [select] with a [default]
    branch, a send that waits, and a receive. A channel that is full, or has no receiver waiting if it
    is unbuffered, refuses the first and blocks the second. *)
From S2P Require Import Prelude.

Section Channel.
Context {A : Type}.

Record chan := mkchan { ch_cap : Z; ch_buf : list A }.

Definition make_chan (cap : Z) : chan := mkchan cap [].

Definition chan_full (c : chan) : Prop := ch_cap c <= Z.of_nat (length (ch_buf c)).
#[export] Instance chan_full_dec c : Decision (chan_full c).
Proof. unfold chan_full. apply _. Defined.

Definition chan_push (c : chan) (v : A) : chan := mkchan (ch_cap c) (ch_buf c ++ [v]).

(** [select { case c <- v: return nil; default: return ErrChannelFull }] *)
Definition try_send (c : chan) (v : A) : option go_error * chan :=
  if decide (chan_full c) then (Some ErrChannelFull, c) else (None, chan_push c v).

(** [c <- v] *)
Definition send (c : chan) (v : A) : outcome chan :=
  if decide (chan_full c) then Blocks else mret (chan_push c v).

(** [<-c] *)
Definition recv (c : chan) : outcome (A * chan) :=
  match ch_buf c with
  | [] => Blocks
  | v :: buf => mret (v, mkchan (ch_cap c) buf)
  end.

(** ** Histories of a channel *)
Inductive chan_event :=
  | TrySend (v : A)
  | Receive.

(** The values accepted and received over a sequence of events, and the channel after it; a receive
    on an empty channel waits, which leaves everything as it is. *)
Fixpoint chan_run (c : chan) (events : list chan_event) : list A * list A * chan :=
  match events with
  | [] => ([], [], c)
  | TrySend v :: events =>
      let '(err, c) := try_send c v in
      let '(accepted, received, c) := chan_run c events in
      ((if err is None then v :: accepted else accepted), received, c)
  | Receive :: events =>
      match recv c with
      | Ret (v, c) => let '(accepted, received, c) := chan_run c events in (accepted, v :: received, c)
      | _ => chan_run c events
      end
  end.

Lemma try_send_spec c v :
  (chan_full c -> try_send c v = (Some ErrChannelFull, c)) /\
  (~ chan_full c -> try_send c v = (None, chan_push c v)).
Proof. unfold try_send. split; intros; case_decide; done. Qed.

(** What sends alone do to a channel: values are added at its end, within its capacity. *)
Definition chan_grows (c c' : chan) : Prop :=
  ch_buf c `prefix_of` ch_buf c' /\ ch_cap c' = ch_cap c /\
  (Z.of_nat (length (ch_buf c)) <= ch_cap c -> Z.of_nat (length (ch_buf c')) <= ch_cap c').

#[export] Instance chan_grows_preorder : PreOrder chan_grows.
Proof.
  split; [by intros c|]. intros c1 c2 c3 (Hp1 & Hc1 & Hl1) (Hp2 & Hc2 & Hl2).
  split_and!; [by etransitivity|congruence|auto].
Qed.

Lemma try_send_grows c v : chan_grows c (snd (try_send c v)).
Proof.
  unfold try_send. case_decide as Hf; [done|]. unfold chan_full in Hf.
  split_and!; [by apply prefix_app_r|done|]. cbn. rewrite length_app. cbn. lia.
Qed.

Lemma chan_run_order c events :
  Z.of_nat (length (ch_buf c)) <= ch_cap c ->
  let '(accepted, received, c') := chan_run c events in
  ch_buf c ++ accepted = received ++ ch_buf c' /\
  ch_cap c' = ch_cap c /\ Z.of_nat (length (ch_buf c')) <= ch_cap c'.
Proof.
  revert c. induction events as [|[v|] events IH]; intros c Hc; cbn [chan_run].
  - by rewrite app_nil_r.
  - unfold try_send. case_decide as Hf.
    { specialize (IH c Hc). by destruct (chan_run c events) as [[acc rec] c']. }
    specialize (IH (chan_push c v)). destruct (chan_run (chan_push c v) events) as [[acc rec] c'].
    destruct IH as (Ho & Hcap & Hlen).
    { unfold chan_push, chan_full in *. simpl. rewrite length_app. simpl. lia. }
    split_and!; [|done|done]. rewrite <- Ho. unfold chan_push. simpl. by rewrite <- app_assoc.
  - unfold recv. destruct c as [cap [|v buf]]; simpl in *; [by apply (IH (mkchan cap []))|].
    specialize (IH (mkchan cap buf)). destruct (chan_run (mkchan cap buf) events) as [[acc rec] c'].
    destruct IH as (Ho & Hcap & Hlen); [simpl in *; lia|]. split_and!; [|done|done]. simpl in *. by rewrite Ho.
Qed.
End Channel.
Arguments chan A : clear implicits.
Arguments chan_event A : clear implicits.
