(* ===== verification/TbMessage.v ===== *)
(** The wire format of turbo messages: package [tbmessage] (header.go,
    broadcast_header.go, broadcast.go, tx.go, message.go, constants.go).
    A message is packed into a zeroed buffer field by field and unpacked with the
    run-time checks of Go slices. Receivers mutated by [Pack]/[Unpack] are returned
    next to the result; an [error] result is an [option go_error]. *)
From S2P Require Import Prelude Bytes.

(** ** constants.go *)
Definition ControlByteLen : Z := 1.
Definition ValidControlByte : byte := x01.
Definition HeaderLen : Z := 20.
Definition BroadcastHeaderLen : Z := 72.
Definition PayloadSizeOffset : Z := 16.
Definition TypeOffset : Z := 4.
Definition TypeLength : Z := 12.
Definition EncryptedTypeLen : Z := 1.
Definition BroadcastTypeLen : Z := 4.
Definition TxType : string := "tx".
Definition BroadcastType : string := "broadcast".
Definition SenderLen : Z := 20.
Definition ShortTimestampLen : Z := 4.
Definition SourceIDLen : Z := 16.
(** types/common.go and types/hash.go *)
Definition UInt32Len : Z := 4.
Definition UInt64Len : Z := 8.
Definition TxIDLen : Z := 4.
Definition NetworkNumLen : Z := 4.
Definition SHA256HashLen : Z := 32.

(** ** header.go *)
Record Header := mkHeader { msgType : string }.

Definition Header_Pack (h : Header) (buf : list byte) (mt : string) : outcome (Header * list byte) :=
  buf ← put_be 4 buf 0 0xfffefdfc;
  buf ← copy_at buf TypeOffset (of_string mt);
  buf ← put_le 4 buf PayloadSizeOffset (uint32 (uint32 (len buf) - HeaderLen));
  buf ← set_index buf (len buf - ControlByteLen) ValidControlByte;
  mret (mkHeader mt, buf).

Definition Header_Unpack (h : Header) (buf : list byte) : outcome Header :=
  field ← slice buf TypeOffset (TypeOffset + TypeLength);
  mret (mkHeader (to_string (trim_nul field))).

Definition Header_Size : Z := HeaderLen + ControlByteLen.

Definition checkBufSize (buf : list byte) (offset size : Z) : option go_error :=
  if decide (len buf < int64 (offset + size))
  then Some (Errorf "invalid message format") else None.

(** message.go: [MessageBytes.TbType] *)
Definition TbType (mb : list byte) : outcome string :=
  field ← slice mb TypeOffset (TypeOffset + TypeLength);
  mret (to_string (trim_nul field)).

(** ** broadcast_header.go *)
Record BroadcastHeader := mkBroadcastHeader {
  bh_header : Header;
  bh_hash : list byte;        (* [32]byte *)
  bh_networkNum : Z;          (* uint32 *)
  bh_sourceID : list byte     (* [16]byte *)
}.

Definition BroadcastHeader_Size : Z := Header_Size + (SHA256HashLen + NetworkNumLen + SourceIDLen).

Definition BroadcastHeader_Pack (b : BroadcastHeader) (buf : list byte) (mt : string)
    : outcome (BroadcastHeader * list byte) :=
  let offset := HeaderLen in
  buf ← copy_at buf offset (bh_hash b);
  let offset := offset + SHA256HashLen in
  buf ← put_le 4 buf offset (bh_networkNum b);
  let offset := offset + NetworkNumLen in
  buf ← copy_at buf offset (bh_sourceID b);
  '(h, buf) ← Header_Pack (bh_header b) buf mt;
  mret (mkBroadcastHeader h (bh_hash b) (bh_networkNum b) (bh_sourceID b), buf).

Definition BroadcastHeader_Unpack (b : BroadcastHeader) (buf : list byte)
    : outcome (BroadcastHeader * option go_error) :=
  h ← Header_Unpack (bh_header b) buf;
  let b := mkBroadcastHeader h (bh_hash b) (bh_networkNum b) (bh_sourceID b) in
  match checkBufSize buf 0 BroadcastHeader_Size with
  | Some err => mret (b, Some err)
  | None =>
      src ← slice_from buf HeaderLen;
      let hash := copy_bytes (bh_hash b) src in
      let offset := HeaderLen + SHA256HashLen in
      nn ← get_le 4 buf offset;
      let offset := offset + NetworkNumLen in
      src ← slice_from buf offset;
      mret (mkBroadcastHeader h hash nn (copy_bytes (bh_sourceID b) src), None)
  end.

(** ** broadcast.go *)
Record Broadcast := mkBroadcast {
  bc_header : BroadcastHeader;
  bc_broadcastType : list byte;   (* [4]byte *)
  bc_encrypted : bool;
  bc_block : list byte;
  bc_txIDs : list Z               (* []uint32 *)
}.

Definition empty_broadcast_header : BroadcastHeader :=
  mkBroadcastHeader (mkHeader "") (zeros 32) 0 (zeros 16).

Definition NewBlockBroadcast (hash block : list byte) (txIDs : list Z) (networkNum : Z) : Broadcast :=
  mkBroadcast
    (mkBroadcastHeader (mkHeader "") hash networkNum (zeros 16))
    (copy_bytes (zeros 4) (of_string "blok")) false block txIDs.

Definition Broadcast_fixedSize : Z :=
  uint32 (BroadcastHeader_Size + BroadcastTypeLen + EncryptedTypeLen).

Definition Broadcast_Size (b : Broadcast) : Z :=
  uint32 (Broadcast_fixedSize + UInt64Len + uint32 (len (bc_block b)) + UInt32Len
          + uint32 (uint32 (Z.of_nat (length (bc_txIDs b))) * UInt32Len)).

Fixpoint pack_txIDs (buf : list byte) (offset : Z) (ids : list Z) : outcome (list byte) :=
  match ids with
  | [] => mret buf
  | sid :: ids =>
      buf ← put_le 4 buf offset sid;
      pack_txIDs buf (offset + UInt32Len) ids
  end.

Definition Broadcast_Pack (b : Broadcast) : outcome (Broadcast * list byte) :=
  let buf := zeros (Z.to_nat (Broadcast_Size b)) in
  '(bh, buf) ← BroadcastHeader_Pack (bc_header b) buf BroadcastType;
  let b := mkBroadcast bh (bc_broadcastType b) (bc_encrypted b) (bc_block b) (bc_txIDs b) in
  let offset := BroadcastHeaderLen in
  buf ← copy_at buf offset (bc_broadcastType b);
  let offset := offset + BroadcastTypeLen in
  buf ← copy_at buf offset (if bc_encrypted b then [x01] else [x00]);
  let offset := offset + EncryptedTypeLen in
  buf ← put_le 8 buf offset (uint64 (len (bc_block b) + UInt64Len));
  let offset := offset + UInt64Len in
  buf ← copy_at buf offset (bc_block b);
  let offset := offset + len (bc_block b) in
  buf ← put_le 4 buf offset (uint32 (Z.of_nat (length (bc_txIDs b))));
  let offset := offset + UInt32Len in
  buf ← pack_txIDs buf offset (bc_txIDs b);
  mret (b, buf).

Fixpoint unpack_txIDs (buf : list byte) (offset : Z) (n : nat) (acc : list Z) : outcome (list Z) :=
  match n with
  | O => mret acc
  | S n =>
      txID ← get_le 4 buf offset;
      unpack_txIDs buf (offset + UInt32Len) n (acc ++ [txID])
  end.

Definition Broadcast_Unpack (b : Broadcast) (buf : list byte)
    : outcome (Broadcast * option go_error) :=
  '(bh, e) ← BroadcastHeader_Unpack (bc_header b) buf;
  let b := mkBroadcast bh (bc_broadcastType b) (bc_encrypted b) (bc_block b) (bc_txIDs b) in
  if e is Some err then mret (b, Some err) else
  let offset := BroadcastHeaderLen in
  src ← slice_from buf offset;
  let btype := copy_bytes (bc_broadcastType b) src in
  let offset := offset + BroadcastTypeLen in
  field ← slice buf offset (offset + EncryptedTypeLen);
  flag ← index field 0;
  let enc := bool_decide (Z_of_byte flag <> 0) in
  let b := mkBroadcast bh btype enc (bc_block b) (bc_txIDs b) in
  let offset := offset + EncryptedTypeLen in
  if checkBufSize buf offset UInt64Len is Some err then mret (b, Some err) else
  v ← get_le 8 buf offset;
  let sidsOffset := int64 v in
  if checkBufSize buf offset sidsOffset is Some err then mret (b, Some err) else
  block ← slice buf (offset + UInt64Len) (int64 (offset + sidsOffset));
  let b := mkBroadcast bh btype enc block (bc_txIDs b) in
  let offset := int64 (offset + sidsOffset) in
  if checkBufSize buf offset UInt32Len is Some err then mret (b, Some err) else
  sidsLen ← get_le 4 buf offset;
  let offset := offset + UInt32Len in
  if checkBufSize buf offset (UInt32Len * sidsLen) is Some err then mret (b, Some err) else
  ids ← unpack_txIDs buf offset (Z.to_nat sidsLen) (bc_txIDs b);
  mret (mkBroadcast bh btype enc block ids, None).

(** ** tx.go *)
Record Tx := mkTx {
  tx_header : BroadcastHeader;
  tx_txID : Z;                (* uint32 *)
  tx_timestamp : Z;           (* time.Time, as UnixNano *)
  tx_content : list byte;
  tx_sender : list byte       (* [20]byte *)
}.

Definition empty_tx : Tx := mkTx empty_broadcast_header 0 0 [] (zeros 20).

Definition NewTx (now : Z) (hash content : list byte) (networkNum : Z) : Tx :=
  mkTx (mkBroadcastHeader (mkHeader "") hash networkNum (zeros 16)) 0 now content (zeros 20).

Definition SetSender (m : Tx) (sender : list byte) : Tx :=
  mkTx (tx_header m) (tx_txID m) (tx_timestamp m) (tx_content m) (copy_bytes (tx_sender m) sender).
Definition SetTimestamp (m : Tx) (timestamp : Z) : Tx :=
  mkTx (tx_header m) (tx_txID m) timestamp (tx_content m) (tx_sender m).

Definition Tx_size (m : Tx) : Z :=
  let contentSize := uint32 (len (tx_content m)) in
  let contentSize := if decide (0 < contentSize) then uint32 (contentSize + SenderLen) else contentSize in
  uint32 (BroadcastHeader_Size + contentSize).

Definition Tx_Pack (m : Tx) : outcome (list byte) :=
  let buf := zeros (Z.to_nat (Tx_size m)) in
  '(_, buf) ← BroadcastHeader_Pack (tx_header m) buf TxType;
  let offset := BroadcastHeaderLen in
  buf ← put_le 4 buf offset (tx_txID m);
  let offset := offset + TxIDLen in
  let timestamp := Z.shiftr (tx_timestamp m) 10 in
  buf ← put_le 4 buf offset (uint32 timestamp);
  let offset := offset + ShortTimestampLen in
  if decide (0 < len (tx_content m)) then
    buf ← copy_at buf offset (tx_content m);
    let offset := offset + len (tx_content m) in
    copy_at buf offset (tx_sender m)
  else mret buf.

(** [time.Hour.Nanoseconds()] and the period of the packed timestamp. *)
Definition hour_ns : Z := 3600 * 1000 * 1000 * 1000.
Definition ts_period : Z := 0x40000000000.

(** The reconstruction of the timestamp in [Tx.Unpack]. *)
Definition unpack_timestamp (now timestamp : Z) : Z :=
  let toMerge := Z.shiftl timestamp 10 in
  let nanoseconds := Z.lor toMerge (Z.land (uint64 now) 0xFFFFFC0000000000) in
  let result := int64 nanoseconds in
  let result := if decide (hour_ns <= int64 (result - now)) then int64 (result - ts_period) else result in
  if decide (hour_ns <= int64 (now - result)) then int64 (result + ts_period) else result.

Definition Tx_Unpack (now : Z) (m : Tx) (buf : list byte) : outcome (Tx * option go_error) :=
  '(bh, e) ← BroadcastHeader_Unpack (tx_header m) buf;
  let m := mkTx bh (tx_txID m) (tx_timestamp m) (tx_content m) (tx_sender m) in
  if e is Some err then mret (m, Some err) else
  let offset := BroadcastHeaderLen in
  txID ← get_le 4 buf offset;
  let offset := offset + TxIDLen in
  timestamp ← get_le 4 buf offset;
  let offset := offset + ShortTimestampLen in
  let ts := unpack_timestamp now timestamp in
  content ← slice buf offset (len buf - SenderLen - ControlByteLen);
  let offset := offset + len content in
  src ← slice_from buf offset;
  mret (mkTx bh txID ts content (copy_bytes (tx_sender m) src), None).

(** ** Well-formed messages: Go's array types fix the lengths, its integer types the
    ranges. *)
Definition wf_bh (b : BroadcastHeader) : Prop :=
  length (bh_hash b) = 32%nat /\ length (bh_sourceID b) = 16%nat /\ is_uint32 (bh_networkNum b).
Definition wf_broadcast (b : Broadcast) : Prop :=
  wf_bh (bc_header b) /\ length (bc_broadcastType b) = 4%nat /\ Forall is_uint32 (bc_txIDs b).
Definition wf_tx (m : Tx) : Prop :=
  wf_bh (tx_header m) /\ is_uint32 (tx_txID m) /\ length (tx_sender m) = 20%nat.

(** The length of a packed broadcast, before any 32-bit wrap-around. *)
Definition broadcast_length (b : Broadcast) : Z :=
  90 + len (bc_block b) + 4 * Z.of_nat (length (bc_txIDs b)).

(** The chunks of a packed header named [mt], of total length [n], before the body. *)
Definition header_chunks (b : BroadcastHeader) (mt : string) (n : Z) : list (list byte) :=
  [be_bytes 4 0xfffefdfc; of_string mt; zeros (12 - length (of_string mt));
   le_bytes 4 (uint32 (uint32 n - HeaderLen)); bh_hash b; le_bytes 4 (bh_networkNum b); bh_sourceID b].

Definition broadcast_chunks (b : Broadcast) : list (list byte) :=
  header_chunks (bc_header b) BroadcastType (broadcast_length b) ++
  [bc_broadcastType b; (if bc_encrypted b then [x01] else [x00]);
   le_bytes 8 (len (bc_block b) + 8); bc_block b;
   le_bytes 4 (Z.of_nat (length (bc_txIDs b))); bc_txIDs b ≫= le_bytes 4; [x01]].

(** ** Proof automation for chunked buffers *)
Lemma length_bind_le4 (ids : list Z) : length (ids ≫= le_bytes 4) = (4 * length ids)%nat.
Proof.
  induction ids as [|x ids IH]; [done|].
  rewrite bind_cons, length_app, length_le_bytes, IH. simpl. lia.
Qed.

Ltac chunk_side :=
  rewrite ?length_le_bytes, ?length_be_bytes, ?length_zeros, ?length_bind_le4;
  unfold offset_of, len, HeaderLen, BroadcastHeaderLen, SHA256HashLen, NetworkNumLen, SourceIDLen, TypeOffset,
    TypeLength, PayloadSizeOffset, BroadcastTypeLen, EncryptedTypeLen, UInt32Len, UInt64Len,
    TxIDLen, ShortTimestampLen, SenderLen, ControlByteLen in *;
  cbn [take concat app];
  rewrite ?length_app, ?length_le_bytes, ?length_be_bytes, ?length_zeros, ?length_bind_le4;
  cbn [length]; rewrite ?length_zeros, ?length_le_bytes, ?length_be_bytes; try lia.

Ltac list_cbn :=
  cbn [insert list_insert lookup list_lookup app take drop map].

Tactic Notation "write_chunk" constr(i) :=
  unfold put_le, put_be;
  first [erewrite (copy_at_chunk _ i) | erewrite (put_bytes_chunk _ i)];
  [|reflexivity|chunk_side|chunk_side]; go_simpl; list_cbn.

(** The read at the head of the computation, wherever the buffer is read again later. *)
Tactic Notation "read_chunk" constr(i) :=
  match goal with
  | |- get_le ?n (concat ?cs) ?off ≫= _ = _ => erewrite (get_le_chunk cs i _ eq_refl n off)
  | |- slice (concat ?cs) ?lo ?hi ≫= _ = _ => erewrite (slice_chunk cs i _ eq_refl lo hi)
  end; [|chunk_side..]; go_simpl.
Tactic Notation "read_from" constr(i) :=
  match goal with
  | |- slice_from (concat ?cs) ?lo ≫= _ = _ =>
      rewrite (slice_from_chunk cs i lo) by chunk_side
  end; go_simpl; list_cbn.

Lemma set_control_byte cs o :
  set_index (concat (cs ++ [[o]])) (len (concat (cs ++ [[o]])) - ControlByteLen) ValidControlByte
  = Ret (concat (cs ++ [[x01]])).
Proof.
  rewrite !concat_app. cbn [concat]. rewrite !app_nil_r.
  replace (len (concat cs ++ [o]) - ControlByteLen) with (len (concat cs)); [apply set_index_last|].
  rewrite len_app. unfold len, ControlByteLen. simpl. lia.
Qed.

Lemma concat_snoc_last cs (o : byte) :
  concat cs ++ [o] = concat (cs ++ [[o]]).
Proof. rewrite concat_app. cbn. done. Qed.

(** What packing the shared header does to a zeroed buffer. *)
Lemma BroadcastHeader_Pack_chunks b mt rest o :
  wf_bh b -> (length (of_string mt) <= 12)%nat ->
  let n := len (concat rest) + 73 in
  BroadcastHeader_Pack b
    (concat ([zeros 4; zeros (length (of_string mt)); zeros (12 - length (of_string mt));
              zeros 4; zeros 32; zeros 4; zeros 16] ++ rest ++ [[o]])) mt
  = Ret (mkBroadcastHeader (mkHeader mt) (bh_hash b) (bh_networkNum b) (bh_sourceID b),
         concat (header_chunks b mt n ++ rest ++ [[x01]])).
Proof.
  intros (Hh & Hs & _) Hmt n. unfold BroadcastHeader_Pack, Header_Pack. list_cbn.
  write_chunk 4%nat. write_chunk 5%nat. write_chunk 6%nat.
  write_chunk 0%nat. write_chunk 1%nat.
  write_chunk 3%nat.
  match goal with |- context [uint32 (len ?buf)] => replace (len buf) with n end.
  2:{ unfold n, len. cbn [concat]. rewrite concat_app. cbn [concat app].
      rewrite !length_app, !length_zeros, length_be_bytes, Hh, Hs, length_le_bytes. cbn [length]. lia. }
  match goal with |- context [set_index (concat (?a :: ?b :: ?c :: ?d :: ?e :: ?f :: ?g :: ?r))] =>
    change (a :: b :: c :: d :: e :: f :: g :: r) with ((a :: b :: c :: d :: e :: f :: g :: rest) ++ [[o]]) end.
  by rewrite set_control_byte.
Qed.

Lemma pack_txIDs_app pre mid post ids :
  length mid = (4 * length ids)%nat ->
  pack_txIDs (pre ++ mid ++ post) (len pre) ids = Ret (pre ++ (ids ≫= le_bytes 4) ++ post).
Proof.
  revert pre mid. induction ids as [|x ids IH]; intros pre mid Hl.
  { by destruct mid. }
  cbn [pack_txIDs]. rewrite <- (take_drop 4 mid), <- app_assoc. unfold put_le.
  rewrite put_bytes_app by (rewrite length_le_bytes, length_take; cbn [length] in *; lia). go_simpl.
  rewrite app_assoc.
  replace (len pre + UInt32Len) with (len (pre ++ le_bytes 4 x))
    by (rewrite len_app; unfold len; rewrite length_le_bytes; done).
  rewrite IH by (rewrite length_drop; cbn [length] in *; lia).
  by rewrite bind_cons, <- !app_assoc.
Qed.

Lemma unpack_txIDs_app pre ids post acc :
  Forall is_uint32 ids ->
  unpack_txIDs (pre ++ (ids ≫= le_bytes 4) ++ post) (len pre) (length ids) acc = Ret (acc ++ ids).
Proof.
  intros Hids. revert pre acc. induction Hids as [|x ids Hx Hids IH]; intros pre acc.
  { cbn. by rewrite app_nil_r. }
  cbn [unpack_txIDs length]. rewrite bind_cons, <- app_assoc.
  rewrite get_le_app by apply length_le_bytes. go_simpl. rewrite app_assoc.
  replace (len pre + UInt32Len) with (len (pre ++ le_bytes 4 x))
    by (rewrite len_app; unfold len; rewrite length_le_bytes; done).
  rewrite IH, le_val_bytes_small by exact Hx. by rewrite <- app_assoc.
Qed.

Lemma pack_txIDs_chunk cs i c off ids :
  cs !! i = Some c -> off = offset_of cs i -> length c = (4 * length ids)%nat ->
  pack_txIDs (concat cs) off ids = Ret (concat (<[i := ids ≫= le_bytes 4]> cs)).
Proof.
  intros Hi -> Hl. rewrite (concat_insert _ _ _ _ Hi), (concat_split _ _ _ Hi).
  by apply pack_txIDs_app.
Qed.

Lemma unpack_txIDs_chunk cs i off n ids acc :
  cs !! i = Some (ids ≫= le_bytes 4) -> off = offset_of cs i -> n = length ids ->
  Forall is_uint32 ids ->
  unpack_txIDs (concat cs) off n acc = Ret (acc ++ ids).
Proof.
  intros Hi -> -> Hids. rewrite (concat_split _ _ _ Hi). by apply unpack_txIDs_app.
Qed.

Lemma Broadcast_Size_small b :
  broadcast_length b < 2 ^ 32 -> Broadcast_Size b = broadcast_length b.
Proof.
  intros Hb. unfold Broadcast_Size, Broadcast_fixedSize, broadcast_length in *.
  pose proof (len_nonneg (bc_block b)).
  assert (uint32 (len (bc_block b)) = len (bc_block b)) as -> by (apply uint32_small; unfold is_uint32; lia).
  assert (forall k, k = Z.of_nat (length (bc_txIDs b)) -> uint32 (uint32 k * UInt32Len) = 4 * k) as Hids.
  { intros k ->. unfold UInt32Len. rewrite (uint32_small (Z.of_nat _)), uint32_small; unfold is_uint32; lia. }
  rewrite Hids by done. change (uint32 (BroadcastHeader_Size + BroadcastTypeLen + EncryptedTypeLen)) with 78.
  unfold UInt32Len, UInt64Len. rewrite uint32_small; unfold is_uint32; lia.
Qed.

(** The result of packing a message fills in the message type of its header. *)
Definition packed_header (b : BroadcastHeader) (mt : string) : BroadcastHeader :=
  mkBroadcastHeader (mkHeader mt) (bh_hash b) (bh_networkNum b) (bh_sourceID b).

Lemma Broadcast_Pack_chunks b :
  wf_broadcast b -> broadcast_length b < 2 ^ 32 ->
  Broadcast_Pack b
  = Ret (mkBroadcast (packed_header (bc_header b) BroadcastType) (bc_broadcastType b)
           (bc_encrypted b) (bc_block b) (bc_txIDs b), concat (broadcast_chunks b)).
Proof.
  intros (Hbh & Ht & Hids) Hlt. unfold Broadcast_Pack.
  rewrite Broadcast_Size_small by done.
  pose (ns := [4; 9; 3; 4; 32; 4; 16]%nat).
  pose (ms := [4; 1; 8; length (bc_block b); 4; 4 * length (bc_txIDs b)]%nat).
  assert (zeros (Z.to_nat (broadcast_length b)) = concat (map zeros ns ++ map zeros ms ++ [[x00]])) as ->.
  { change [[x00]] with (map zeros [1%nat]). rewrite <- !map_app, <- zeros_concat. f_equal.
    unfold broadcast_length, len, ns, ms. simpl. lia. }
  pose proof (BroadcastHeader_Pack_chunks (bc_header b) BroadcastType (map zeros ms) x00 Hbh ltac:(vm_compute; lia)) as Hp.
  cbn zeta in Hp. change (map zeros ns) with
    [zeros 4; zeros (length (of_string BroadcastType)); zeros (12 - length (of_string BroadcastType));
     zeros 4; zeros 32; zeros 4; zeros 16].
  rewrite Hp. clear Hp. go_simpl. unfold header_chunks, ms. list_cbn. cbn [bc_header bc_block bc_broadcastType bc_txIDs bc_encrypted].
  destruct Hbh as (Hh & Hs & _).
  assert (length (of_string BroadcastType) = 9%nat) as Hmt by done.
  assert (length (if bc_encrypted b then [x01] else [x00]) = 1%nat) as Henc by by destruct (bc_encrypted b).
  write_chunk 7%nat. write_chunk 8%nat. write_chunk 9%nat. write_chunk 10%nat. write_chunk 11%nat.
  erewrite (pack_txIDs_chunk _ 12); [|reflexivity|chunk_side|chunk_side]. go_simpl. list_cbn.
  do 3 f_equal. unfold broadcast_chunks, header_chunks. list_cbn.
  rewrite uint64_small, (uint32_small (Z.of_nat _)).
  2,3: unfold is_uint32, is_uint64, broadcast_length, len, UInt64Len in *; lia.
  do 3 f_equal. f_equal. f_equal. f_equal. f_equal. unfold broadcast_length, len. cbn [concat].
  rewrite !length_app, !length_zeros. cbn [length]. f_equal. lia.
Qed.

Lemma checkBufSize_ok buf off size :
  0 <= off + size <= len buf -> len buf < 2 ^ 63 -> checkBufSize buf off size = None.
Proof.
  intros. unfold checkBufSize. by rewrite int64_small, decide_False by (unfold is_int64; lia).
Qed.

Lemma len_broadcast_chunks b :
  wf_broadcast b -> len (concat (broadcast_chunks b)) = broadcast_length b.
Proof.
  intros ((Hh & Hs & _) & Ht & _). unfold len, broadcast_chunks, broadcast_length, header_chunks.
  cbn [concat app]. rewrite !length_app, !length_le_bytes, length_be_bytes, length_bind_le4, Hh, Hs, Ht.
  destruct (bc_encrypted b); unfold len; simpl; lia.
Qed.

(** Unpacking a buffer that starts with the chunks of a packed header. *)
Lemma BroadcastHeader_Unpack_chunks b0 b mt n rest :
  wf_bh b0 -> wf_bh b -> (length (of_string mt) <= 12)%nat ->
  trim_nul (of_string mt ++ zeros (12 - length (of_string mt))) = of_string mt ->
  1 <= len (concat rest) ->
  BroadcastHeader_Unpack b0 (concat (header_chunks b mt n ++ rest)) = Ret (packed_header b mt, None).
Proof.
  intros (Hh0 & Hs0 & _) (Hh & Hs & Hn) Hmt Htrim Hrest.
  unfold BroadcastHeader_Unpack, Header_Unpack, header_chunks. list_cbn.
  set (tail := le_bytes 4 _ :: _).
  assert (slice (concat (be_bytes 4 4294901244 :: of_string mt :: zeros (12 - length (of_string mt)) :: tail))
            TypeOffset (TypeOffset + TypeLength)
          = Ret (of_string mt ++ zeros (12 - length (of_string mt)))) as ->.
  { assert (forall (x y z : list byte) t, concat (x :: y :: z :: t) = concat (x :: (y ++ z) :: t)) as ->
      by (intros; cbn [concat]; by rewrite <- !app_assoc).
    apply (slice_chunk _ 1); [done|chunk_side..]. }
  go_simpl. rewrite Htrim. unfold tail. clear tail.
  unfold checkBufSize. rewrite decide_False; cycle 1.
  { change (int64 (0 + BroadcastHeader_Size)) with 73. unfold len in *. cbn [concat].
    rewrite !length_app, !length_le_bytes, length_be_bytes, length_zeros, Hh, Hs. lia. }
  read_from 4%nat. read_chunk 5%nat. read_from 6%nat. cbn [concat bh_hash bh_sourceID].
  rewrite !copy_bytes_prefix by (rewrite !length_app; lia).
  rewrite Hh0, Hs0, (le_val_bytes_small 4) by exact Hn.
  rewrite <- Hh at 1. rewrite <- Hs at 1. rewrite !take_app_length.
  unfold packed_header. do 3 f_equal. f_equal.
  pose proof (String.string_of_list_byte_of_string mt). done.
Qed.

(** The receiver of [Unpack] may already hold short IDs: the message's are appended. *)
Lemma TbType_broadcast b : TbType (concat (broadcast_chunks b)) = Ret BroadcastType.
Proof.
  unfold TbType, broadcast_chunks, header_chunks. list_cbn.
  cbn [concat]. rewrite (app_assoc (of_string BroadcastType)).
  match goal with |- context [slice (?x ++ ?y ++ ?z) _ _] =>
    change (slice (x ++ y ++ z) TypeOffset (TypeOffset + TypeLength))
      with (slice (x ++ y ++ z) (len x) (len x + len y)) end.
  by rewrite slice_app.
Qed.

Lemma Broadcast_Unpack_chunks b0 b :
  wf_broadcast b0 -> wf_broadcast b -> broadcast_length b < 2 ^ 32 ->
  Broadcast_Unpack b0 (concat (broadcast_chunks b))
  = Ret (mkBroadcast (packed_header (bc_header b) BroadcastType) (bc_broadcastType b)
           (bc_encrypted b) (bc_block b) (bc_txIDs b0 ++ bc_txIDs b), None).
Proof.
  intros (Hbh0 & Ht0 & _) Hwf Hlt. pose proof (len_broadcast_chunks b Hwf) as Hlen.
  destruct Hwf as (Hbh & Ht & Hids). unfold Broadcast_Unpack, broadcast_chunks in *.
  rewrite BroadcastHeader_Unpack_chunks; [|done|done|by vm_compute; lia|done|];
    [|cbn [concat app]; unfold len; rewrite !length_app; lia].
  go_simpl. cbn [bc_broadcastType bc_encrypted bc_block bc_txIDs bc_header].
  destruct Hbh as (Hh & Hs & _). unfold header_chunks. list_cbn.
  assert (length (of_string BroadcastType) = 9%nat) as Hmt by done.
  set (enc := if bc_encrypted b then [x01] else [x00]).
  assert (length enc = 1%nat) as Henc by by subst enc; destruct (bc_encrypted b).
  unfold header_chunks in Hlen. cbn [app] in Hlen. fold enc in Hlen.
  pose proof (len_nonneg (bc_block b)) as Hnn.
  assert (90 + len (bc_block b) + 4 * Z.of_nat (length (bc_txIDs b)) < 2 ^ 32) as Hsmall by done.
  assert (index enc 0 = Ret (if bc_encrypted b then x01 else x00)) as Hix by by subst enc; destruct (bc_encrypted b).
  pose proof (le_val_bytes_small 8 (len (bc_block b) + 8) ltac:(lia)) as Hv8.
  pose proof (le_val_bytes_small 4 (Z.of_nat (length (bc_txIDs b))) ltac:(lia)) as Hv4.
  change BroadcastHeaderLen with 72. change BroadcastTypeLen with 4. change EncryptedTypeLen with 1.
  change UInt64Len with 8. change UInt32Len with 4.
  assert (broadcast_length b = 90 + len (bc_block b) + 4 * Z.of_nat (length (bc_txIDs b))) as Hbl by done.
  read_from 7%nat. read_chunk 8%nat. rewrite Hix. go_simpl.
  rewrite checkBufSize_ok by (rewrite Hlen, Hbl; lia).
  read_chunk 9%nat. rewrite Hv8, int64_small by (unfold is_int64; lia).
  rewrite checkBufSize_ok by (rewrite Hlen, Hbl; lia).
  rewrite int64_small by (unfold is_int64; lia).
  read_chunk 10%nat.
  rewrite checkBufSize_ok by (rewrite Hlen, Hbl; lia).
  read_chunk 11%nat. rewrite Hv4, Nat2Z.id.
  rewrite checkBufSize_ok by (rewrite Hlen, Hbl; lia).
  erewrite (unpack_txIDs_chunk _ 12); [|reflexivity|chunk_side|done|done]. go_simpl.
  do 3 f_equal.
  - cbn [concat]. rewrite copy_bytes_prefix by (rewrite length_app; lia).
    rewrite Ht0, <- Ht. apply take_app_length.
  - by destruct (bc_encrypted b).
Qed.

(** ** Arbitrary buffers: when the accessors panic *)
Lemma get_le_ret n buf off :
  0 <= off -> off + Z.of_nat n <= len buf ->
  get_le n buf off = Ret (le_val (take n (drop (Z.to_nat off) buf))).
Proof.
  intros Ho Hn. unfold get_le, slice_from, slice. rewrite decide_True by lia. go_simpl.
  rewrite decide_False by (unfold len in *; rewrite length_take, length_drop; lia).
  do 2 f_equal. rewrite take_take. f_equal. unfold len in *. lia.
Qed.

Lemma get_le_panics n buf off :
  0 <= off -> len buf < off + Z.of_nat n -> exists p, get_le n buf off = Panics p.
Proof.
  intros Ho Hn. unfold get_le, slice_from, slice. case_decide; [|by eauto]. go_simpl.
  rewrite decide_True by (unfold len in *; rewrite length_take, length_drop; lia). by eauto.
Qed.

Lemma slice_ret buf lo hi :
  0 <= lo <= hi -> hi <= len buf ->
  slice buf lo hi = Ret (take (Z.to_nat (hi - lo)) (drop (Z.to_nat lo) buf)).
Proof. intros. unfold slice. by rewrite decide_True. Qed.

Lemma slice_panics buf lo hi :
  ~ (0 <= lo <= hi /\ hi <= len buf) -> slice buf lo hi = Panics SliceOutOfRange.
Proof. intros. unfold slice. by rewrite decide_False. Qed.

Lemma slice_from_ret buf lo :
  0 <= lo <= len buf -> slice_from buf lo = Ret (drop (Z.to_nat lo) buf).
Proof.
  intros. unfold slice_from. rewrite slice_ret by lia. f_equal.
  apply take_ge. unfold len in *. rewrite length_drop. lia.
Qed.

Lemma BroadcastHeader_Unpack_any b buf :
  len buf < 2 ^ 63 ->
  (len buf < 16 /\ BroadcastHeader_Unpack b buf = Panics SliceOutOfRange) \/
  (16 <= len buf < 73 /\ exists b', BroadcastHeader_Unpack b buf = Ret (b', Some (Errorf "invalid message format"))
     /\ bh_hash b' = bh_hash b) \/
  (73 <= len buf /\ exists b', BroadcastHeader_Unpack b buf = Ret (b', None)).
Proof.
  intros Hmax. unfold BroadcastHeader_Unpack, Header_Unpack. pose proof (len_nonneg buf).
  destruct (decide (len buf < 16)).
  { left. split; [done|]. by rewrite slice_panics by (unfold TypeOffset, TypeLength; lia). }
  right. rewrite slice_ret by (unfold TypeOffset, TypeLength; lia). go_simpl.
  unfold checkBufSize. change (int64 (0 + BroadcastHeader_Size)) with 73.
  destruct (decide (len buf < 73)).
  { left. rewrite ?decide_True by done. split; [lia|]. eauto. }
  right. split; [lia|].
  rewrite (slice_from_ret buf HeaderLen) by (unfold HeaderLen; lia). go_simpl.
  rewrite get_le_ret by (unfold HeaderLen, SHA256HashLen; lia). go_simpl.
  change (HeaderLen + SHA256HashLen + NetworkNumLen) with 56.
  rewrite slice_from_ret by lia. go_simpl. eauto.
Qed.

Lemma Tx_Unpack_any now m buf :
  len buf < 2 ^ 63 ->
  (exists p, (len buf < 16 \/ 73 <= len buf < 101) /\ Tx_Unpack now m buf = Panics p) \/
  (16 <= len buf < 73 /\ exists m' e, Tx_Unpack now m buf = Ret (m', Some e)
     /\ bh_hash (tx_header m') = bh_hash (tx_header m)
     /\ tx_content m' = tx_content m /\ tx_txID m' = tx_txID m) \/
  (101 <= len buf /\ exists m', Tx_Unpack now m buf = Ret (m', None)).
Proof.
  intros Hmax. unfold Tx_Unpack.
  destruct (BroadcastHeader_Unpack_any (tx_header m) buf Hmax)
    as [[Hl ->]|[(Hl & b' & -> & Hh)|(Hl & b' & ->)]]; go_simpl.
  - left. eauto.
  - right; left. split; [done|]. eauto 10.
  - change BroadcastHeaderLen with 72. change (72 + TxIDLen) with 76.
    change (76 + ShortTimestampLen) with 80.
    destruct (decide (76 <= len buf)).
    2:{ left. destruct (get_le_panics 4 buf 72 ltac:(lia) ltac:(lia)) as [p ->]. exists p. split; [lia|done]. }
    rewrite (get_le_ret 4 buf 72) by lia. go_simpl.
    destruct (decide (80 <= len buf)).
    2:{ left. destruct (get_le_panics 4 buf 76 ltac:(lia) ltac:(lia)) as [p ->]. exists p. split; [lia|done]. }
    rewrite get_le_ret by lia. go_simpl.
    change SenderLen with 20. change ControlByteLen with 1.
    destruct (decide (101 <= len buf)).
    2:{ left. rewrite slice_panics by lia. eexists; split; [lia|done]. }
    right; right. split; [done|]. rewrite slice_ret by lia. go_simpl.
    rewrite slice_from_ret; [eauto|].
    unfold len in *. rewrite length_take, length_drop. lia.
Qed.

(** ** The packed timestamp *)
Lemma lor_shiftl_add a b n :
  0 <= n -> 0 <= a < 2 ^ n -> Z.lor a (Z.shiftl b n) = a + b * 2 ^ n.
Proof.
  intros Hn Ha. rewrite <- Z.shiftl_mul_pow2 by done.
  assert (Z.land a (Z.shiftl b n) = 0) as Hl.
  { apply Z.bits_inj'. intros i Hi. rewrite Z.land_spec, Z.bits_0.
    destruct (decide (i < n)).
    - rewrite (Z.shiftl_spec_low b n i) by lia. apply andb_false_r.
    - rewrite (proj2 (Z.testbit_false a i Hi)); [done|].
      rewrite Z.div_small; [done|]. split; [lia|].
      apply Z.lt_le_trans with (2 ^ n); [lia|]. apply Z.pow_le_mono_r; lia. }
  by rewrite Z.add_nocarry_lxor, Z.lxor_lor by done.
Qed.

Lemma land_high_bits n :
  0 <= n < 2 ^ 64 -> Z.land n 0xFFFFFC0000000000 = Z.shiftl (n / 2 ^ 42) 42.
Proof.
  intros Hn. change 0xFFFFFC0000000000 with (Z.shiftl (Z.ones 22) 42).
  apply Z.bits_inj'. intros i Hi. rewrite Z.land_spec.
  destruct (decide (i < 42)) as [Hlt|Hge].
  { rewrite !Z.shiftl_spec_low by lia. apply andb_false_r. }
  rewrite !Z.shiftl_spec by lia.
  rewrite <- Z.shiftr_div_pow2, Z.shiftr_spec by lia. replace (i - 42 + 42) with i by lia.
  destruct (decide (i < 64)).
  - rewrite Z.ones_spec_low by lia. apply andb_true_r.
  - rewrite Z.ones_spec_high by lia. rewrite andb_false_r.
    destruct (decide (n = 0)) as [->|]; [by rewrite Z.bits_0|].
    symmetry. apply Z.bits_above_log2; [lia|]. apply Z.log2_lt_pow2; [lia|].
    apply Z.lt_le_trans with (2 ^ 64); [lia|]. apply Z.pow_le_mono_r; lia.
Qed.

(** The nanoseconds the message format keeps of an instant: all but the last ten bits. *)
Definition ts_kept (t : Z) : Z := Z.shiftl (Z.shiftr t 10) 10.

Lemma ts_merge now t :
  0 <= t -> 0 <= now < 2 ^ 64 ->
  Z.lor (Z.shiftl (uint32 (Z.shiftr t 10)) 10) (Z.land (uint64 now) 0xFFFFFC0000000000)
  = ts_kept t mod ts_period + (now / ts_period) * ts_period.
Proof.
  intros Ht Hnow. rewrite uint64_small by done. rewrite land_high_bits by done.
  unfold ts_kept, ts_period, uint32. change 0x40000000000 with (2 ^ 42).
  rewrite Z.shiftr_div_pow2, !(Z.shiftl_mul_pow2 _ 10) by lia.
  assert ((t / 2 ^ 10 * 2 ^ 10) mod 2 ^ 42 = (t / 2 ^ 10) mod 2 ^ 32 * 2 ^ 10) as ->
    by (change (2 ^ 42) with (2 ^ 32 * 2 ^ 10); apply Zmult_mod_distr_r).
  apply lor_shiftl_add; [lia|].
  pose proof (Z.mod_pos_bound (t / 2 ^ 10) (2 ^ 32) ltac:(lia)). lia.
Qed.

Lemma unpack_timestamp_close now t :
  0 <= t -> 0 <= now < 2 ^ 62 ->
  Z.abs (ts_kept t - now) <= ts_period - hour_ns ->
  unpack_timestamp now (uint32 (Z.shiftr t 10)) = ts_kept t.
Proof.
  intros Ht Hnow Hgap. unfold unpack_timestamp. rewrite ts_merge by lia.
  set (k := ts_kept t) in *.
  unfold ts_period, hour_ns in *.
  pose proof (Z.div_mod k 0x40000000000 ltac:(lia)).
  pose proof (Z.div_mod now 0x40000000000 ltac:(lia)).
  pose proof (Z.mod_pos_bound k 0x40000000000 ltac:(lia)).
  pose proof (Z.mod_pos_bound now 0x40000000000 ltac:(lia)).
  set (q := k / 0x40000000000) in *. set (r := k mod 0x40000000000) in *.
  set (q' := now / 0x40000000000) in *.
  assert (0 <= q' <= 2 ^ 20) by (split; lia).
  rewrite !(int64_small (r + _)) by (unfold is_int64; lia).
  assert (q = q' \/ q = q' + 1 \/ q = q' - 1) as [Hq|[Hq|Hq]] by lia;
    drop_int64; case_decide; try lia; drop_int64; case_decide; try lia; drop_int64; lia.
Qed.

(** ** Packing transactions *)
Lemma copy_at_tail pre rest src :
  (length rest <= length src)%nat ->
  copy_at (pre ++ rest) (len pre) src = Ret (pre ++ take (length rest) src).
Proof.
  intros Hl. unfold copy_at. rewrite decide_True by (rewrite len_app; unfold len; lia).
  by rewrite len_nat, take_app_length, drop_app_length, copy_bytes_prefix.
Qed.

Lemma copy_at_chunk_tail cs i off src :
  off = offset_of cs i -> (length (concat (drop i cs)) <= length src)%nat ->
  copy_at (concat cs) off src = Ret (concat (take i cs) ++ take (length (concat (drop i cs))) src).
Proof.
  intros -> Hl. rewrite <- (take_drop i cs) at 1. rewrite concat_app. by apply copy_at_tail.
Qed.

Definition tx_chunks (m : Tx) : list (list byte) :=
  header_chunks (tx_header m) TxType (93 + len (tx_content m)) ++
  [le_bytes 4 (tx_txID m); le_bytes 4 (uint32 (Z.shiftr (tx_timestamp m) 10));
   tx_content m; take 13 (tx_sender m)].

Lemma Tx_size_content m :
  0 < len (tx_content m) -> 93 + len (tx_content m) < 2 ^ 32 ->
  Tx_size m = 93 + len (tx_content m).
Proof.
  intros Hc Hlt. unfold Tx_size.
  rewrite (uint32_small (len _)) by (unfold is_uint32; lia). cbn zeta.
  rewrite decide_True by done. change BroadcastHeader_Size with 73. change SenderLen with 20.
  rewrite (uint32_small (_ + 20)) by (unfold is_uint32; lia).
  rewrite uint32_small; unfold is_uint32; lia.
Qed.

Lemma Tx_Pack_chunks m :
  wf_tx m -> 0 < len (tx_content m) -> 93 + len (tx_content m) < 2 ^ 32 ->
  Tx_Pack m = Ret (concat (tx_chunks m)).
Proof.
  intros (Hbh & Hid & Hsd) Hc Hlt. unfold Tx_Pack. rewrite Tx_size_content by done.
  pose (ns := [4; 2; 10; 4; 32; 4; 16]%nat).
  pose (ms := [4; 4; length (tx_content m); 12]%nat).
  assert (zeros (Z.to_nat (93 + len (tx_content m))) = concat (map zeros ns ++ map zeros ms ++ [[x00]])) as ->.
  { change [[x00]] with (map zeros [1%nat]). rewrite <- !map_app, <- zeros_concat. f_equal.
    unfold len, ns, ms. simpl. lia. }
  pose proof (BroadcastHeader_Pack_chunks (tx_header m) TxType (map zeros ms) x00 Hbh ltac:(vm_compute; lia)) as Hp.
  cbn zeta in Hp. change (map zeros ns) with
    [zeros 4; zeros (length (of_string TxType)); zeros (12 - length (of_string TxType));
     zeros 4; zeros 32; zeros 4; zeros 16].
  assert (len (concat (map zeros ms)) + 73 = 93 + len (tx_content m)) as Hn.
  { unfold ms, len. cbn [map concat]. rewrite !length_app, !length_zeros. cbn [length]. lia. }
  rewrite Hp, Hn. clear Hp. go_simpl. unfold header_chunks, ms. list_cbn.
  destruct Hbh as (Hh & Hs & _).
  assert (length (of_string TxType) = 2%nat) as Hmt by done.
  write_chunk 7%nat. write_chunk 8%nat.
  rewrite decide_True by done. write_chunk 9%nat.
  unfold tx_chunks, header_chunks. list_cbn.
  erewrite (copy_at_chunk_tail _ 10); [|chunk_side|list_cbn; cbn [concat]; rewrite app_nil_r, length_app, length_zeros; simpl; lia].
  list_cbn. cbn [concat]. rewrite !app_nil_r, !length_app, length_zeros. cbn [length Nat.add].
  f_equal. by rewrite <- !app_assoc.
Qed.

(** Unpacking a packed transaction. The fields behind the content are shifted by eight
    bytes: the buffer is eight bytes too short for them. *)
Lemma tx_chunks_split m k :
  concat (tx_chunks m)
  = concat (header_chunks (tx_header m) TxType (93 + len (tx_content m)) ++
      [le_bytes 4 (tx_txID m); le_bytes 4 (uint32 (Z.shiftr (tx_timestamp m) 10));
       take k (tx_content m); drop k (tx_content m) ++ take 13 (tx_sender m)]).
Proof.
  unfold tx_chunks. rewrite !concat_app. f_equal. cbn [concat].
  do 2 f_equal. rewrite !app_nil_r, app_assoc. f_equal. by rewrite take_drop.
Qed.

Lemma Tx_Unpack_chunks now m0 m :
  wf_tx m0 -> wf_tx m -> 8 <= len (tx_content m) -> 93 + len (tx_content m) < 2 ^ 32 ->
  Tx_Unpack now m0 (concat (tx_chunks m))
  = Ret (mkTx (packed_header (tx_header m) TxType) (tx_txID m)
           (unpack_timestamp now (uint32 (Z.shiftr (tx_timestamp m) 10)))
           (take (length (tx_content m) - 8) (tx_content m))
           (drop (length (tx_content m) - 8) (tx_content m) ++ take 12 (tx_sender m)), None).
Proof.
  intros (Hbh0 & _ & Hsd0) (Hbh & Hid & Hsd) Hc Hlt. unfold Tx_Unpack.
  set (k := (length (tx_content m) - 8)%nat). rewrite (tx_chunks_split m k).
  assert (length (take k (tx_content m)) = k) as Hk by (rewrite length_take; unfold len in *; lia).
  assert (length (drop k (tx_content m)) = 8%nat) as Hk' by (rewrite length_drop; unfold len in *; lia).
  generalize dependent (take k (tx_content m)). intros c1 Hk.
  generalize dependent (drop k (tx_content m)). intros c2 Hk'.
  rewrite BroadcastHeader_Unpack_chunks; [|done|done|by vm_compute; lia|done|];
    [|cbn [concat app]; unfold len; rewrite !length_app, length_le_bytes; lia].
  go_simpl. destruct Hbh as (Hh & Hs & _). unfold header_chunks. list_cbn.
  assert (length (of_string TxType) = 2%nat) as Hmt by done.
  assert (length (take 13 (tx_sender m)) = 13%nat) as H13 by (rewrite length_take; lia).
  read_chunk 7%nat. read_chunk 8%nat.
  rewrite (le_val_bytes_small 4 _ Hid), (le_val_bytes_small 4 (uint32 _)) by apply uint32_bounds.
  match goal with |- context [len (concat ?l) - SenderLen] =>
    assert (len (concat l) = 101 + Z.of_nat k) as Hlen end.
  { unfold len. cbn [concat]. rewrite !length_app, !length_le_bytes, length_be_bytes, length_zeros. simpl. lia. }
  rewrite Hlen. read_chunk 9%nat. read_from 10%nat.
  cbn [concat tx_sender]. rewrite app_nil_r, copy_bytes_prefix by (rewrite length_app; lia).
  do 3 f_equal. rewrite Hsd0, take_app_ge by lia. rewrite Hk', take_take. done.
Qed.

(** ** Arbitrary broadcast buffers *)
Lemma unpack_txIDs_ret buf off n acc :
  0 <= off -> off + 4 * Z.of_nat n <= len buf ->
  exists ids, unpack_txIDs buf off n acc = Ret ids /\ length ids = (length acc + n)%nat.
Proof.
  revert off acc. induction n as [|n IH]; intros off acc Ho Hn; cbn [unpack_txIDs].
  { exists acc. split; [done|lia]. }
  rewrite get_le_ret by lia. go_simpl.
  edestruct (IH (off + UInt32Len)) as (ids & -> & Hl); [unfold UInt32Len; lia..|].
  eexists; split; [done|]. rewrite Hl, length_app. simpl. lia.
Qed.

(** The offset of the short-ID list that a broadcast buffer declares. *)
Definition declared_sidsOffset (buf : list byte) : Z := int64 (le_val (take 8 (drop 77 buf))).

Lemma checkBufSize_spec buf off size :
  checkBufSize buf off size = None /\ int64 (off + size) <= len buf \/
  checkBufSize buf off size = Some (Errorf "invalid message format") /\ len buf < int64 (off + size).
Proof. unfold checkBufSize. case_decide; [right|left]; split; (done || lia). Qed.

Lemma index_ret0 b buf : index (b :: buf) 0 = Ret b.
Proof. done. Qed.

Definition broadcast_panics_on (buf : list byte) : Prop :=
  len buf < 16 \/ 73 <= len buf < 77 \/
  (85 <= len buf /\ int64 (77 + declared_sidsOffset buf) < 85).

(** [Broadcast.Unpack] behind the block: no accessor panics any more. *)
Lemma Broadcast_Unpack_tail (mk : list Z -> Broadcast) (b : Broadcast) buf off acc :
  0 <= off <= len buf -> len buf <= max_alloc ->
  exists r, (if checkBufSize buf off UInt32Len is Some err then mret (b, Some err) else
    sidsLen ← get_le 4 buf off;
    if checkBufSize buf (off + UInt32Len) (UInt32Len * sidsLen) is Some err then mret (b, Some err) else
    ids ← unpack_txIDs buf (off + UInt32Len) (Z.to_nat sidsLen) acc;
    mret (mk ids, None)) = Ret r.
Proof.
  intros Ho Hmax. unfold max_alloc in Hmax. unfold UInt32Len.
  destruct (checkBufSize_spec buf off 4) as [[-> Hc]|[-> _]]; [|by eexists]. drop_int64.
  rewrite get_le_ret by lia. go_simpl.
  pose proof (le_val_bounds (take 4 (drop (Z.to_nat off) buf))) as Hv.
  assert (length (take 4 (drop (Z.to_nat off) buf)) = 4%nat) as Hl.
  { unfold len in *. rewrite length_take, length_drop. lia. }
  rewrite Hl in Hv. change (256 ^ Z.of_nat 4) with (2 ^ 32) in Hv.
  set (n := le_val _) in *. clearbody n.
  destruct (checkBufSize_spec buf (off + 4) (4 * n)) as [[-> Hc']|[-> _]]; [|by eexists]. drop_int64.
  edestruct (unpack_txIDs_ret buf (off + 4) (Z.to_nat n) acc) as (ids & -> & _); [lia..|].
  by eexists.
Qed.

Lemma Broadcast_Unpack_panics b buf :
  len buf <= max_alloc ->
  (exists p, Broadcast_Unpack b buf = Panics p) /\ broadcast_panics_on buf \/
  (exists r, Broadcast_Unpack b buf = Ret r) /\ ~ broadcast_panics_on buf.
Proof.
  intros Hmax. unfold Broadcast_Unpack, broadcast_panics_on.
  pose proof Hmax as Hmax'. unfold max_alloc in Hmax'.
  destruct (BroadcastHeader_Unpack_any (bc_header b) buf ltac:(lia))
    as [[Hl ->]|[(Hl & b' & -> & _)|(Hl & b' & ->)]]; go_simpl.
  { left. eauto. }
  { right. split; [by eexists|lia]. }
  change BroadcastHeaderLen with 72. change (72 + BroadcastTypeLen) with 76.
  change (76 + EncryptedTypeLen) with 77.
  rewrite slice_from_ret by lia. go_simpl.
  destruct (decide (77 <= len buf)).
  2:{ left. rewrite slice_panics by lia. split; [by eexists|lia]. }
  rewrite slice_ret by lia. go_simpl.
  assert (exists flag, take (Z.to_nat (77 - 76)) (drop (Z.to_nat 76) buf) = [flag]) as [flag ->].
  { destruct (drop (Z.to_nat 76) buf) as [|f rest] eqn:Hd; [|by exists f].
    apply (f_equal length) in Hd. rewrite length_drop in Hd. unfold len in *. simpl in Hd. lia. }
  rewrite index_ret0. go_simpl. unfold UInt64Len.
  destruct (checkBufSize_spec buf 77 8) as [[-> Hc]|[-> Hc]]; drop_int64; [|right; split; [by eexists|lia]].
  rewrite get_le_ret by lia. go_simpl.
  change (int64 (le_val (take 8 (drop (Z.to_nat 77) buf)))) with (declared_sidsOffset buf).
  set (so := declared_sidsOffset buf).
  destruct (checkBufSize_spec buf 77 so) as [[-> Hs]|[-> Hs]]; [|right; split; [by eexists|lia]].
  change (77 + 8) with 85. destruct (decide (int64 (77 + so) < 85)).
  { left. rewrite slice_panics by lia. split; [by eexists|lia]. }
  right. split; [|lia]. rewrite slice_ret by lia. go_simpl.
  apply (Broadcast_Unpack_tail (mkBroadcast b' _ _ _)); lia.
Qed.

(** ** Properties *)

(** C15: Broadcast messages round-trip. Packing a well-formed broadcast never fails or panics; the
    buffer has exactly the length [Size] announces, its length field counts the bytes behind the
    20-byte header, its last byte is the control byte, and unpacking it into a fresh receiver gives
    back every field, with the message type set. *)
Theorem Broadcast_roundtrip b b0 :
  wf_broadcast b -> wf_broadcast b0 -> bc_txIDs b0 = [] -> broadcast_length b < 2 ^ 32 ->
  exists b' buf,
    Broadcast_Pack b = Ret (b', buf) /\
    len buf = Broadcast_Size b /\
    get_le 4 buf PayloadSizeOffset = Ret (len buf - HeaderLen) /\
    last buf = Some ValidControlByte /\
    TbType buf = Ret BroadcastType /\
    bc_header b' = packed_header (bc_header b) BroadcastType /\
    bc_block b' = bc_block b /\ bc_txIDs b' = bc_txIDs b /\
    Broadcast_Unpack b0 buf = Ret (b', None).
Proof.
  intros Hwf Hwf0 Hempty Hlt. eexists _, _. rewrite Broadcast_Pack_chunks by done.
  split; [done|]. rewrite len_broadcast_chunks, Broadcast_Size_small by done.
  split; [done|]. rewrite Broadcast_Unpack_chunks, Hempty by done.
  destruct Hwf as ((Hh & Hs & Hn) & Ht & Hids).
  pose proof (len_nonneg (bc_block b)) as Hblk.
  repeat split.
  - unfold broadcast_chunks, header_chunks. list_cbn.
    assert (length (of_string BroadcastType) = 9%nat) as Hmt by done.
    erewrite (get_le_chunk _ 3); [|reflexivity|chunk_side..].
    rewrite (le_val_bytes_small 4) by apply uint32_bounds.
    unfold HeaderLen, broadcast_length in *.
    rewrite (uint32_small (90 + _ + _)), uint32_small by (unfold is_uint32; lia). done.
  - unfold broadcast_chunks, header_chunks. list_cbn. cbn [concat].
    rewrite !app_assoc, app_nil_r. apply last_snoc.
  - apply TbType_broadcast.
Qed.

Definition ex_broadcast : Broadcast :=
  NewBlockBroadcast (replicate 32 x07) [x01; x02; x03] [5; 70000] 1.
Definition ex_receiver : Broadcast := mkBroadcast empty_broadcast_header (zeros 4) false [] [].

Lemma ex_receiver_wf : wf_broadcast ex_receiver.
Proof. unfold wf_broadcast, wf_bh, is_uint32. concrete. Qed.

Example Broadcast_roundtrip_witness :
  exists b' buf,
    Broadcast_Pack ex_broadcast = Ret (b', buf) /\
    len buf = Broadcast_Size ex_broadcast /\
    get_le 4 buf PayloadSizeOffset = Ret (len buf - HeaderLen) /\
    last buf = Some ValidControlByte /\
    TbType buf = Ret BroadcastType /\
    bc_header b' = packed_header (bc_header ex_broadcast) BroadcastType /\
    bc_block b' = [x01; x02; x03] /\ bc_txIDs b' = [5; 70000] /\
    Broadcast_Unpack ex_receiver buf = Ret (b', None).
Proof.
  apply (Broadcast_roundtrip ex_broadcast ex_receiver); unfold wf_broadcast, wf_bh, is_uint32; concrete.
Defined.

(** When [Broadcast.Unpack] crashes. On a buffer from the network it panics exactly when the
    buffer is shorter than the message type field, ends inside the broadcast type or the encryption
    flag (73 to 76 bytes), or declares a block end before the block's first byte: the bounds checks
    do not cover these cases. On every other buffer it returns, with a message or an error. *)
Theorem Broadcast_Unpack_panics_iff b buf :
  len buf <= max_alloc ->
  ((exists p, Broadcast_Unpack b buf = Panics p) <-> broadcast_panics_on buf) /\
  ((exists r, Broadcast_Unpack b buf = Ret r) <-> ~ broadcast_panics_on buf).
Proof.
  intros Hmax.
  destruct (Broadcast_Unpack_panics b buf Hmax) as [[[p Hp] H]|[[r Hr] H]]; split; split;
    (by eauto) || (by intros [? ?]; congruence) || done.
Qed.

Example Broadcast_Unpack_panics_iff_witness :
  ((exists p, Broadcast_Unpack ex_receiver (zeros 73) = Panics p) <-> broadcast_panics_on (zeros 73)) /\
  ((exists r, Broadcast_Unpack ex_receiver (zeros 73) = Ret r) <-> ~ broadcast_panics_on (zeros 73)).
Proof. apply (Broadcast_Unpack_panics_iff ex_receiver (zeros 73)). vm_compute. congruence. Defined.

(** What a transaction message carries across the wire. [Tx.size] leaves out the short ID and the
    timestamp (8 bytes), so a packed transaction of content length [c >= 8] unpacks to the right
    header, short ID and timestamp bits, but to the first [c - 8] bytes of its content, and to a
    sender made of the content's last eight bytes and the sender's first twelve. *)
Theorem Tx_pack_unpack now m m0 :
  wf_tx m -> wf_tx m0 -> 8 <= len (tx_content m) -> 93 + len (tx_content m) < 2 ^ 32 ->
  exists buf,
    Tx_Pack m = Ret buf /\ len buf = Tx_size m /\
    Tx_Unpack now m0 buf
    = Ret (mkTx (packed_header (tx_header m) TxType) (tx_txID m)
             (unpack_timestamp now (uint32 (Z.shiftr (tx_timestamp m) 10)))
             (take (length (tx_content m) - 8) (tx_content m))
             (drop (length (tx_content m) - 8) (tx_content m) ++ take 12 (tx_sender m)), None).
Proof.
  intros Hwf Hwf0 Hc Hlt. eexists. rewrite Tx_Pack_chunks by (done || lia). split; [done|].
  rewrite Tx_size_content by lia. rewrite Tx_Unpack_chunks by done. split; [|done].
  destruct Hwf as ((Hh & Hs & _) & _ & Hsd).
  unfold tx_chunks, header_chunks, len. cbn [app concat].
  rewrite !length_app, !length_le_bytes, length_be_bytes, length_zeros, length_take, Hh, Hs, Hsd.
  simpl. lia.
Qed.

Definition ex_tx : Tx :=
  SetSender (NewTx 1650000000000000000 (replicate 32 x07) (replicate 9 x41) 1) (replicate 20 x53).

Example Tx_pack_unpack_witness :
  exists buf,
    Tx_Pack ex_tx = Ret buf /\ len buf = 102 /\
    Tx_Unpack 1650000000000000000 empty_tx buf
    = Ret (mkTx (packed_header (tx_header ex_tx) TxType) 0 1650000000000000000
             [x41] (replicate 8 x41 ++ replicate 12 x53), None).
Proof.
  apply (Tx_pack_unpack 1650000000000000000 ex_tx empty_tx); unfold wf_tx, wf_bh, is_uint32; concrete.
Defined.

(** A transaction without content cannot be packed: the 73-byte buffer has no room for the short ID
    and [PutUint32] panics. *)
Theorem Tx_Pack_empty_panics m :
  wf_bh (tx_header m) -> tx_content m = [] -> Tx_Pack m = Panics IndexOutOfRange.
Proof.
  intros Hbh Hc. unfold Tx_Pack.
  assert (Tx_size m = 73) as -> by (unfold Tx_size; rewrite Hc; done).
  pose proof (BroadcastHeader_Pack_chunks (tx_header m) TxType [] x00 Hbh ltac:(vm_compute; lia)) as Hp.
  cbn zeta in Hp.
  assert (zeros (Z.to_nat 73)
    = concat ([zeros 4; zeros (length (of_string TxType)); zeros (12 - length (of_string TxType));
               zeros 4; zeros 32; zeros 4; zeros 16] ++ [] ++ [[x00]])) as -> by reflexivity.
  rewrite Hp. go_simpl. destruct Hbh as (Hh & Hs & _).
  unfold put_le, put_bytes, header_chunks. list_cbn.
  assert (length (of_string TxType) = 2%nat) as Hmt by done.
  rewrite (slice_from_chunk _ 7) by chunk_side. by go_simpl.
Qed.

Example Tx_Pack_empty_panics_witness : Tx_Pack empty_tx = Panics IndexOutOfRange.
Proof. apply (Tx_Pack_empty_panics empty_tx); unfold wf_bh, is_uint32; concrete. Defined.

(** [Tx.Unpack] checks only that the header fits: it returns an error on 16 to 72 bytes, panics on
    73 to 100 bytes (and below 16), and returns a transaction from 101 bytes on. *)
Theorem Tx_Unpack_outcome now m buf :
  len buf < 2 ^ 63 ->
  ((exists p, Tx_Unpack now m buf = Panics p) <-> (len buf < 16 \/ 73 <= len buf < 101)) /\
  ((exists m' e, Tx_Unpack now m buf = Ret (m', Some e)) <-> 16 <= len buf < 73) /\
  ((exists m', Tx_Unpack now m buf = Ret (m', None)) <-> 101 <= len buf).
Proof.
  intros Hmax.
  destruct (Tx_Unpack_any now m buf Hmax)
    as [(p & Hl & Heq)|[(Hl & m' & e & Heq & _)|(Hl & m' & Heq)]]; rewrite Heq;
    repeat split; intros; destruct_and?; destruct_or?; repeat (match goal with H : exists _, _ |- _ => destruct H end);
    (by eauto) || congruence || lia.
Qed.

Example Tx_Unpack_outcome_witness :
  ((exists p, Tx_Unpack 0 empty_tx (zeros 80) = Panics p) <-> (80 < 16 \/ 73 <= 80 < 101)) /\
  ((exists m' e, Tx_Unpack 0 empty_tx (zeros 80) = Ret (m', Some e)) <-> 16 <= 80 < 73) /\
  ((exists m', Tx_Unpack 0 empty_tx (zeros 80) = Ret (m', None)) <-> 101 <= 80).
Proof. apply (Tx_Unpack_outcome 0 empty_tx (zeros 80)). vm_compute. congruence. Defined.

(** The receiver rebuilds the sender's timestamp, up to its last ten bits, from the 32 bits on the
    wire and its own clock, whenever the two clocks differ by at most 2^42 ns minus one hour (about 13
    minutes), across both kinds of wrap-around. *)
Theorem timestamp_recovered now t :
  0 <= t -> 0 <= now < 2 ^ 62 ->
  Z.abs (ts_kept t - now) <= ts_period - hour_ns ->
  unpack_timestamp now (uint32 (Z.shiftr t 10)) = ts_kept t.
Proof. apply unpack_timestamp_close. Qed.

Example timestamp_recovered_witness :
  unpack_timestamp (2 ^ 42 * 375000 - 5000) (uint32 (Z.shiftr (2 ^ 42 * 375000 + 7000) 10))
  = ts_kept (2 ^ 42 * 375000 + 7000).
Proof. apply timestamp_recovered; vm_compute; intuition congruence. Defined.

(** The bound is tight: with the sender's clock only 20 minutes ahead of the receiver's, within the
    hour the comment in tx.go speaks of, the rebuilt timestamp can be 2^42 ns (73 minutes) too old. *)
Theorem timestamp_not_recovered :
  exists now t, 0 <= now < t /\ t - now < hour_ns / 2 /\
    unpack_timestamp now (uint32 (Z.shiftr t 10)) = ts_kept t - ts_period.
Proof.
  exists (2 ^ 42 * 375000 - 2 ^ 10), (2 ^ 42 * 375000 + 1200 * 1000 * 1000 * 1000 - 2 ^ 10).
  vm_compute. intuition congruence.
Qed.
