(* ===== verification/WireTypes.v ===== *)
(** Unpacking yields values of the messages' Go types: fixed array lengths and integer widths, whatever
    bytes arrive; and what was unpacked can be packed again. *)
From S2P Require Import Prelude Bytes TbMessage.

(** ** Accessors *)
Lemma le_val_length n bs : (length bs <= n)%nat -> 0 <= le_val bs < 256 ^ Z.of_nat n.
Proof.
  intros Hl. pose proof (le_val_bounds bs) as Hb. split; [lia|]. destruct Hb as [_ Hb].
  eapply Z.lt_le_trans; [done|]. apply Z.pow_le_mono_r; lia.
Qed.

Lemma get_le_post n buf off : post (get_le n buf off) (fun v => 0 <= v < 256 ^ Z.of_nat n).
Proof.
  unfold get_le. eapply post_bind; [apply post_true|]. intros rest _. case_decide; [done|].
  apply post_ret. apply le_val_length. rewrite length_take. lia.
Qed.

Lemma slice_post buf lo hi : post (slice buf lo hi) (fun bs => 0 <= lo <= hi /\ hi <= len buf /\ len bs = hi - lo).
Proof.
  unfold slice. case_decide as Hd; [|done]. apply post_ret. split_and!; [lia..|].
  unfold len in *. rewrite length_take, length_drop. lia.
Qed.

Lemma slice_from_post buf lo : post (slice_from buf lo) (fun bs => 0 <= lo <= len buf /\ len bs = len buf - lo).
Proof. intros bs Hs. apply slice_post in Hs. lia. Qed.

(** ** Headers *)
Lemma BroadcastHeader_Unpack_wf b buf : wf_bh b -> post (BroadcastHeader_Unpack b buf) (fun '(b', _) => wf_bh b').
Proof.
  intros (Hh & Hs & Hn). unfold BroadcastHeader_Unpack.
  eapply post_bind; [apply post_true|]. intros h _. destruct (checkBufSize _ _ _); [by apply post_ret|].
  eapply post_bind; [apply post_true|]. intros src _.
  eapply post_bind; [apply get_le_post|]. intros nn Hnn.
  eapply post_bind; [apply post_true|]. intros src' _.
  apply post_ret. unfold wf_bh. cbn [bh_hash bh_networkNum bh_sourceID]. rewrite !length_copy_bytes. split_and!; [done|done|].
  unfold is_uint32. change (256 ^ Z.of_nat 4) with (2 ^ 32) in Hnn. exact Hnn.
Qed.

Lemma unpack_timestamp_int64 now t : is_int64 (unpack_timestamp now t).
Proof. unfold unpack_timestamp. repeat case_decide; apply int64_bounds. Qed.

(** ** Transactions *)
Lemma Tx_Unpack_wf now m buf :
  wf_tx m -> is_int64 (tx_timestamp m) -> post (Tx_Unpack now m buf) (fun '(m', _) => wf_tx m' /\ is_int64 (tx_timestamp m')).
Proof.
  intros (Hbh & Hid & Hsd) Hts. unfold Tx_Unpack.
  eapply post_bind; [by apply BroadcastHeader_Unpack_wf|]. intros [bh e] Hbh'.
  destruct e; [by apply post_ret|].
  eapply post_bind; [apply get_le_post|]. intros txID Hv.
  eapply post_bind; [apply post_true|]. intros ts _.
  eapply post_bind; [apply post_true|]. intros content _.
  eapply post_bind; [apply post_true|]. intros src _.
  apply post_ret. split; [|apply unpack_timestamp_int64]. unfold wf_tx. cbn [tx_header tx_txID tx_sender]. rewrite length_copy_bytes.
  split_and!; [done| |done]. exact Hv.
Qed.

(** ** Broadcasts *)
Lemma unpack_txIDs_post buf off n acc :
  Forall is_uint32 acc ->
  post (unpack_txIDs buf off n acc) (fun ids => Forall is_uint32 ids /\ length ids = (length acc + n)%nat).
Proof.
  revert off acc. induction n as [|n IH]; intros off acc Hacc; cbn [unpack_txIDs].
  { apply post_ret. split; [done|lia]. }
  eapply post_bind; [apply get_le_post|]. intros txID Hv. intros ids Hids. apply IH in Hids.
  - rewrite length_app in Hids. simpl in Hids. split; [apply Hids|]. destruct Hids as [_ ->]. lia.
  - apply Forall_app. split; [done|]. by apply Forall_singleton.
Qed.

(** A broadcast that came out of a buffer is no longer than the buffer, but for the control byte. *)
Lemma Broadcast_Unpack_wf b buf :
  wf_broadcast b -> bc_txIDs b = [] -> len buf < 2 ^ 62 ->
  post (Broadcast_Unpack b buf) (fun '(b', e) => wf_broadcast b' /\ (e = None -> broadcast_length b' <= len buf + 1)).
Proof.
  intros (Hbh & Hty & Hids) Hempty Hmax. unfold Broadcast_Unpack.
  eapply post_bind; [by apply BroadcastHeader_Unpack_wf|]. intros [bh e] Hbh'.
  destruct e; [apply post_ret; by split|].
  eapply post_bind; [apply post_true|]. intros src _.
  eapply post_bind; [apply post_true|]. intros field _.
  eapply post_bind; [apply post_true|]. intros flag _.
  assert (length (copy_bytes (bc_broadcastType b) src) = 4%nat) as Hty' by by rewrite length_copy_bytes.
  change (BroadcastHeaderLen + BroadcastTypeLen + EncryptedTypeLen) with 77.
  destruct (checkBufSize buf 77 UInt64Len); [apply post_ret; by split|].
  eapply post_bind; [apply post_true|]. intros v _. set (so := int64 v).
  destruct (checkBufSize buf 77 so); [apply post_ret; by split|].
  eapply post_bind; [apply slice_post|]. intros block (Hlo & Hhi & Hblock). unfold UInt64Len in *.
  destruct (checkBufSize buf _ UInt32Len); [apply post_ret; by split|].
  eapply post_bind; [apply get_le_post|]. intros n Hn. change (0 <= n < 2 ^ 32) in Hn. unfold UInt32Len.
  destruct (checkBufSize_spec buf (int64 (77 + so) + 4) (4 * n)) as [[-> Hc]|[-> _]]; [|apply post_ret; by split].
  rewrite int64_small in Hc by (unfold is_int64; lia).
  eapply post_bind; [by apply unpack_txIDs_post|]. intros ids [Hids' Hlen]. rewrite Hempty in Hlen. simpl in Hlen.
  apply post_ret. split; [by split_and!|]. intros _. unfold broadcast_length. cbn. rewrite Hlen, Hblock. lia.
Qed.

(** C22: Messages are well typed, whatever arrives. Unpacking any buffer into a well-formed receiver leaves
    arrays of their fixed lengths and integers of their widths, also when it returns an error; an unpacked
    timestamp is a 64-bit integer; and a broadcast unpacked without error from a buffer below 4 GiB is
    short enough to be packed again, which does not crash. *)
Theorem unpacked_well_typed now t0 b0 buf :
  wf_tx t0 -> is_int64 (tx_timestamp t0) -> wf_broadcast b0 -> bc_txIDs b0 = [] -> len buf < 2 ^ 32 - 1 ->
  (forall t e, Tx_Unpack now t0 buf = Ret (t, e) -> wf_tx t /\ is_int64 (tx_timestamp t)) /\
  (forall b e, Broadcast_Unpack b0 buf = Ret (b, e) ->
     wf_broadcast b /\ (e = None -> exists b' buf', Broadcast_Pack b = Ret (b', buf') /\ len buf' <= len buf + 1)).
Proof.
  intros Ht0 Hts Hb0 Hids Hl. split.
  - intros t e Hu. by apply Tx_Unpack_wf in Hu.
  - intros b e Hu. apply Broadcast_Unpack_wf in Hu as [Hwf Hlen]; [|done|done|lia]. split; [done|]. intros He.
    specialize (Hlen He). eexists _, _. rewrite Broadcast_Pack_chunks by (done || lia). split; [done|].
    by rewrite len_broadcast_chunks.
Qed.

Example unpacked_well_typed_witness :
  exists b, Broadcast_Unpack ex_receiver (concat (broadcast_chunks ex_broadcast)) = Ret (b, None) /\
    wf_broadcast b /\ exists b' buf', Broadcast_Pack b = Ret (b', buf') /\ len buf' <= 101 + 1.
Proof.
  destruct (unpacked_well_typed 0 empty_tx ex_receiver (concat (broadcast_chunks ex_broadcast))) as [_ Hb].
  - unfold wf_tx, wf_bh, is_uint32. concrete.
  - vm_compute. intuition congruence.
  - apply ex_receiver_wf.
  - reflexivity.
  - vm_compute. reflexivity.
  - eexists. split; [vm_compute; reflexivity|].
    refine (let H := Hb _ None _ in conj (proj1 H) (proj2 H eq_refl)). vm_compute. reflexivity.
Defined.
