(* ===== verification/Framing.v ===== *)
(** Reassembly of messages from the byte stream of a socket:
    [SSLConn.ReadMessages] (connections/sslconn.go) as [TbConn.readLoop]
    (connections/handler/tbconn.go) calls it, and the receive loop of the relay
    (cmd/relay/main.go). The main result is that the way the stream is cut into
    socket reads has no influence on the messages delivered. *)
From S2P Require Import Prelude Bytes TbMessage.

(** ** Definitions *)
Definition readPacketSize : Z := 4096.

(** The payload length a [TbConn] passes to [ReadMessages] (tbconn.go). *)
Definition readPayloadLen (buf : list byte) : outcome Z := get_le 4 buf PayloadSizeOffset.

(** [bytes.Buffer.Read(msg)] with [len(msg) = n]: the bytes read and the unread rest. *)
Definition buffer_read (buf : list byte) (n : Z) : list byte * list byte :=
  (take (Z.to_nat n) buf, drop (Z.to_nat n) buf).

(** The inner loop of [ReadMessages]: the messages given to the callback, in order, and the
    bytes left in the buffer. [Blocks] stands for a loop still running when the fuel is
    spent. *)
Fixpoint extract_messages (fuel : nat) (headerLen : Z) (payloadLen : list byte -> outcome Z)
    (buf : list byte) : outcome (list (list byte) * list byte) :=
  match fuel with
  | O => Blocks
  | S fuel =>
      let bufLen := len buf in
      if decide (bufLen < headerLen) then mret ([], buf) else
      p ← payloadLen buf;
      if decide (bufLen < headerLen + p) then mret ([], buf) else
      let '(msg, buf) := buffer_read buf (headerLen + p) in
      '(msgs, buf) ← extract_messages fuel headerLen payloadLen buf;
      mret (msg :: msgs, buf)
  end.

(** [buf.Write(packet[:n])] and the loop. *)
Definition read_chunk_messages (buf chunk : list byte) : outcome (list (list byte) * list byte) :=
  let buf := buf ++ chunk in
  extract_messages (S (length buf)) HeaderLen readPayloadLen buf.

(** A run of the read loop over the chunks successive socket reads return. *)
Fixpoint read_stream (buf : list byte) (chunks : list (list byte))
    : outcome (list (list byte) * list byte) :=
  match chunks with
  | [] => mret ([], buf)
  | c :: chunks =>
      '(msgs, buf) ← read_chunk_messages buf c;
      '(msgs', buf) ← read_stream buf chunks;
      mret (msgs ++ msgs', buf)
  end.

(** cmd/relay/main.go: the inner loop of [handleConnection], with its own copy of the
    length computation. *)
Fixpoint relay_extract (fuel : nat) (buf : list byte) : outcome (list (list byte) * list byte) :=
  match fuel with
  | O => Blocks
  | S fuel =>
      let bufLen := len buf in
      if decide (bufLen < HeaderLen) then mret ([], buf) else
      payloadLen ← (rest ← slice_from buf PayloadSizeOffset; get_le 4 rest 0);
      if decide (bufLen < HeaderLen + payloadLen) then mret ([], buf) else
      let '(msg, buf) := buffer_read buf (HeaderLen + payloadLen) in
      '(msgs, buf) ← relay_extract fuel buf;
      mret (msg :: msgs, buf)
  end.

(** [handleConnection] over the packets read from the connection; a read error is ignored
    and counts as an empty packet. *)
Fixpoint relay_stream (buf : list byte) (packets : list (list byte))
    : outcome (list (list byte) * list byte) :=
  match packets with
  | [] => mret ([], buf)
  | c :: packets =>
      let buf := buf ++ c in
      '(msgs, buf) ← relay_extract (S (length buf)) buf;
      '(msgs', buf) ← relay_stream buf packets;
      mret (msgs ++ msgs', buf)
  end.

(** [processMsg] of the relay: the hash it prints, if it prints one. *)
Definition relay_processMsg (now : Z) (msg : list byte) : outcome (option (list byte)) :=
  mt ← TbType msg;
  if decide (mt = TxType) then
    '(tx, _) ← Tx_Unpack now empty_tx msg;
    mret (Some (bh_hash (tx_header tx)))
  else if decide (mt = BroadcastType) then
    '(block, _) ← Broadcast_Unpack (mkBroadcast empty_broadcast_header (zeros 4) false [] []) msg;
    mret (Some (bh_hash (bc_header block)))
  else mret None.

(** A complete message: its length field counts the bytes behind its header. *)
Definition framed (m : list byte) : Prop :=
  HeaderLen <= len m /\ get_le 4 m PayloadSizeOffset = Ret (len m - HeaderLen).

(** ** Lemmas *)

Definition payload_of (buf : list byte) : Z := le_val (take 4 (drop 16 buf)).

Lemma readPayloadLen_ret buf :
  HeaderLen <= len buf -> readPayloadLen buf = Ret (payload_of buf).
Proof.
  unfold HeaderLen, readPayloadLen, PayloadSizeOffset. intros. by rewrite get_le_ret by lia.
Qed.

Lemma payload_of_nonneg buf : 0 <= payload_of buf.
Proof. apply le_val_bounds. Qed.

Lemma payload_of_app buf c : HeaderLen <= len buf -> payload_of (buf ++ c) = payload_of buf.
Proof.
  unfold HeaderLen, len, payload_of. intros. f_equal.
  rewrite drop_app_le by lia. rewrite take_app_le; [done|rewrite length_drop; lia].
Qed.

(** One unfolding of the loop, as an equation on a buffer long enough for a header. *)
Inductive loop_step (buf : list byte) : Prop :=
  | step_short : len buf < HeaderLen -> loop_step buf
  | step_partial : HeaderLen <= len buf < HeaderLen + payload_of buf -> loop_step buf
  | step_message : HeaderLen + payload_of buf <= len buf -> HeaderLen <= len buf -> loop_step buf.

Lemma loop_step_total buf : loop_step buf.
Proof.
  destruct (decide (len buf < HeaderLen)); [by constructor|].
  destruct (decide (len buf < HeaderLen + payload_of buf)); [apply step_partial|apply step_message]; lia.
Qed.

Lemma extract_stop fuel buf :
  len buf < HeaderLen \/ HeaderLen <= len buf < HeaderLen + payload_of buf ->
  extract_messages (S fuel) HeaderLen readPayloadLen buf = Ret ([], buf).
Proof.
  intros [Hl|Hl]; cbn [extract_messages].
  - by rewrite decide_True.
  - rewrite decide_False, readPayloadLen_ret by lia. go_simpl. by rewrite decide_True by lia.
Qed.

Definition next_message (buf : list byte) : list byte := take (Z.to_nat (HeaderLen + payload_of buf)) buf.
Definition after_message (buf : list byte) : list byte := drop (Z.to_nat (HeaderLen + payload_of buf)) buf.

Lemma extract_step fuel buf :
  HeaderLen <= len buf -> HeaderLen + payload_of buf <= len buf ->
  extract_messages (S fuel) HeaderLen readPayloadLen buf
  = '(msgs, rest) ← extract_messages fuel HeaderLen readPayloadLen (after_message buf);
    mret (next_message buf :: msgs, rest).
Proof.
  intros Hl Hp. cbn [extract_messages].
  rewrite decide_False, readPayloadLen_ret by lia. go_simpl. by rewrite decide_False by lia.
Qed.

Lemma after_message_shorter buf :
  HeaderLen <= len buf -> (length (after_message buf) < length buf)%nat.
Proof.
  intros Hl. unfold after_message, HeaderLen, len in *. rewrite length_drop.
  pose proof (payload_of_nonneg buf). lia.
Qed.

(** Fuel beyond the length of the buffer changes nothing, and that much is enough. *)
Lemma extract_fuel buf f1 f2 :
  (length buf < f1)%nat -> (length buf < f2)%nat ->
  extract_messages f1 HeaderLen readPayloadLen buf = extract_messages f2 HeaderLen readPayloadLen buf.
Proof.
  revert buf f2. induction f1 as [|f1 IH]; intros buf f2 H1 H2; [lia|].
  destruct f2 as [|f2]; [lia|].
  destruct (loop_step_total buf) as [Hl|Hl|Hp Hl].
  - by rewrite !extract_stop by auto.
  - by rewrite !extract_stop by auto.
  - rewrite !extract_step by done. pose proof (after_message_shorter buf Hl).
    by rewrite (IH _ f2) by lia.
Qed.

Lemma extract_total buf :
  exists msgs rest, extract_messages (S (length buf)) HeaderLen readPayloadLen buf = Ret (msgs, rest)
    /\ buf = concat msgs ++ rest /\ Forall framed msgs
    /\ (len rest < HeaderLen \/ HeaderLen <= len rest < HeaderLen + payload_of rest).
Proof.
  remember (length buf) as n eqn:Hn. revert buf Hn.
  induction (lt_wf n) as [n _ IH]. intros buf ->.
  destruct (loop_step_total buf) as [Hl|Hl|Hp Hl].
  - rewrite extract_stop by auto. eexists [], buf. eauto.
  - rewrite extract_stop by auto. eexists [], buf. eauto.
  - rewrite extract_step by done. pose proof (after_message_shorter buf Hl) as Hlt.
    destruct (IH _ Hlt (after_message buf) eq_refl) as (msgs & rest & Heq & Hb & Hf & Hr).
    rewrite (extract_fuel _ _ (S (length (after_message buf)))), Heq by lia. go_simpl.
    eexists _, _. split; [done|]. split.
    { cbn [concat]. rewrite <- app_assoc, <- Hb. symmetry. apply take_drop. }
    split; [constructor; [|done]|done].
    pose proof (payload_of_nonneg buf).
    assert (len (next_message buf) = HeaderLen + payload_of buf) as Hlen.
    { unfold next_message, len, HeaderLen in *. rewrite length_take. lia. }
    split; [lia|]. rewrite get_le_ret by (unfold PayloadSizeOffset, HeaderLen in *; lia).
    f_equal. rewrite Hlen. change (payload_of (next_message buf) = HeaderLen + payload_of buf - HeaderLen).
    rewrite <- (payload_of_app (next_message buf) (after_message buf)) by lia.
    unfold next_message, after_message. rewrite take_drop. lia.
Qed.

(** Messages already complete in a prefix of the buffer are extracted first. *)
Lemma extract_app buf c :
  forall msgs rest,
  extract_messages (S (length buf)) HeaderLen readPayloadLen buf = Ret (msgs, rest) ->
  extract_messages (S (length (buf ++ c))) HeaderLen readPayloadLen (buf ++ c)
  = '(msgs', rest') ← extract_messages (S (length (rest ++ c))) HeaderLen readPayloadLen (rest ++ c);
    mret (msgs ++ msgs', rest').
Proof.
  remember (length buf) as n eqn:Hn. revert buf Hn.
  induction (lt_wf n) as [n _ IH]. intros buf -> msgs rest.
  destruct (loop_step_total buf) as [Hl|Hl|Hp Hl].
  1,2: rewrite extract_stop by auto; intros [= <- <-];
       by destruct (extract_messages _ _ _ (buf ++ c)) as [[? ?]| |].
  rewrite extract_step by done. pose proof (after_message_shorter buf Hl) as Hlt.
  rewrite (extract_fuel (after_message buf) _ (S (length (after_message buf)))) by lia.
  destruct (extract_messages _ _ _ (after_message buf)) as [[ms r]| |] eqn:Heq; [|done|done].
  go_simpl. intros [= <- <-].
  pose proof (len_app buf c) as Hla. pose proof (len_nonneg c) as Hc.
  rewrite extract_step by (rewrite ?payload_of_app by done; lia).
  assert (next_message (buf ++ c) = next_message buf) as ->.
  { unfold next_message. rewrite payload_of_app by done. apply take_app_le. unfold len in *. lia. }
  assert (after_message (buf ++ c) = after_message buf ++ c) as ->.
  { unfold after_message. rewrite payload_of_app by done. apply drop_app_le. unfold len in *. lia. }
  rewrite (extract_fuel _ _ (S (length (after_message buf ++ c)))) by (rewrite ?length_app in *; lia).
  rewrite (IH _ Hlt (after_message buf) eq_refl _ _ Heq).
  by destruct (extract_messages _ _ _ (r ++ c)) as [[? ?]| |].
Qed.

Lemma extract_nil : extract_messages 1 HeaderLen readPayloadLen [] = Ret ([], []).
Proof. done. Qed.

(** A drained buffer holds no complete message. *)
Definition drained (buf : list byte) : Prop :=
  len buf < HeaderLen \/ HeaderLen <= len buf < HeaderLen + payload_of buf.

Lemma read_stream_drained buf chunks :
  drained buf -> read_stream buf chunks = read_chunk_messages buf (concat chunks).
Proof.
  unfold read_chunk_messages. revert buf. induction chunks as [|c chunks IH]; intros buf Hd.
  { cbn [concat read_stream]. rewrite app_nil_r. by rewrite extract_stop. }
  cbn [read_stream concat]. unfold read_chunk_messages. rewrite app_assoc.
  destruct (extract_total (buf ++ c)) as (msgs & rest & Heq & _ & _ & Hr).
  rewrite Heq. go_simpl. rewrite IH by done. by rewrite (extract_app _ _ _ _ Heq).
Qed.

Lemma framed_payload m c : framed m -> payload_of (m ++ c) = len m - HeaderLen.
Proof.
  intros [Hl Hp]. rewrite payload_of_app by done.
  rewrite get_le_ret in Hp by (unfold HeaderLen, PayloadSizeOffset in *; lia).
  by injection Hp.
Qed.

Lemma extract_framed ms rest fuel :
  Forall framed ms -> drained rest -> (length (concat ms ++ rest) < fuel)%nat ->
  extract_messages fuel HeaderLen readPayloadLen (concat ms ++ rest) = Ret (ms, rest).
Proof.
  intros Hms Hr. revert fuel. induction Hms as [|m ms Hm Hms IH]; intros fuel Hf.
  { destruct fuel; [lia|]. by apply extract_stop. }
  destruct fuel as [|fuel]; [lia|]. cbn [concat] in *. rewrite <- app_assoc in *.
  pose proof (framed_payload m (concat ms ++ rest) Hm) as Hp. destruct Hm as [Hl _].
  pose proof (len_app m (concat ms ++ rest)). pose proof (len_nonneg (concat ms ++ rest)).
  rewrite extract_step by lia. unfold next_message, after_message.
  rewrite Hp. replace (HeaderLen + (len m - HeaderLen)) with (len m) by lia.
  rewrite len_nat, take_app_length, drop_app_length, IH; [done|].
  rewrite length_app in Hf. unfold len, HeaderLen in *. lia.
Qed.

Lemma relay_extract_same fuel buf :
  relay_extract fuel buf = extract_messages fuel HeaderLen readPayloadLen buf.
Proof.
  revert buf. induction fuel as [|fuel IH]; intros buf; [done|]. cbn [relay_extract].
  destruct (loop_step_total buf) as [Hl|Hl|Hp Hl].
  - by rewrite extract_stop, decide_True by auto.
  - rewrite extract_stop, decide_False by (auto || lia).
    rewrite slice_from_ret by (unfold PayloadSizeOffset, HeaderLen in *; lia). go_simpl.
    rewrite get_le_ret; [|lia|unfold HeaderLen, PayloadSizeOffset, len in *; rewrite length_drop; lia].
    go_simpl. change (drop (Z.to_nat 0) ?l) with l. fold (payload_of buf).
    change (le_val _) with (payload_of buf). by rewrite decide_True by lia.
  - rewrite extract_step, decide_False by lia.
    rewrite slice_from_ret by (unfold PayloadSizeOffset, HeaderLen in *; lia). go_simpl.
    rewrite get_le_ret; [|lia|unfold HeaderLen, PayloadSizeOffset, len in *; rewrite length_drop; lia].
    go_simpl. change (le_val _) with (payload_of buf). rewrite decide_False by lia.
    unfold buffer_read. by rewrite IH.
Qed.

Lemma relay_stream_same buf packets : relay_stream buf packets = read_stream buf packets.
Proof.
  revert buf. induction packets as [|c packets IH]; intros buf; [done|].
  cbn [relay_stream read_stream]. unfold read_chunk_messages. rewrite relay_extract_same.
  destruct (extract_messages _ _ _ _) as [[msgs rest]| |]; [|done|done]. go_simpl. by rewrite IH.
Qed.

Lemma packed_broadcast_framed b b' buf :
  wf_broadcast b -> broadcast_length b < 2 ^ 32 -> Broadcast_Pack b = Ret (b', buf) -> framed buf.
Proof.
  intros Hwf Hlt. rewrite Broadcast_Pack_chunks by done.
  intros Heq. assert (buf = concat (broadcast_chunks b)) as -> by congruence. clear Heq.
  pose proof (len_broadcast_chunks b Hwf) as Hlen. unfold framed. rewrite Hlen.
  pose proof (len_nonneg (bc_block b)).
  assert (broadcast_length b = 90 + len (bc_block b) + 4 * Z.of_nat (length (bc_txIDs b))) as Hbl by done.
  unfold HeaderLen. split; [lia|].
  destruct Hwf as ((Hh & Hs & Hn) & Ht & Hids). unfold broadcast_chunks, header_chunks. list_cbn.
  assert (length (of_string BroadcastType) = 9%nat) as Hmt by done.
  erewrite (get_le_chunk _ 3); [|reflexivity|chunk_side..].
  rewrite (le_val_bytes_small 4) by apply uint32_bounds. unfold HeaderLen.
  by rewrite (uint32_small (broadcast_length b)), uint32_small by (unfold is_uint32; lia).
Qed.

(** Packed broadcasts come out of the relay's loop one by one, however the stream is cut. *)
Lemma packed_stream bs bufs chunks :
  Forall (fun b => wf_broadcast b /\ broadcast_length b < 2 ^ 32) bs ->
  Forall2 (fun b buf => exists b', Broadcast_Pack b = Ret (b', buf)) bs bufs ->
  concat chunks = concat bufs -> relay_stream [] chunks = Ret (bufs, []).
Proof.
  intros Hbs Hpack Hc. assert (Forall framed bufs) as Hf.
  { clear Hc. induction Hpack as [|b buf bs bufs [b' Hb] _ IH]; [constructor|].
    apply Forall_cons in Hbs as [[Hwf Hlt] Hbs]. constructor; [|by apply IH].
    by eapply packed_broadcast_framed. }
  rewrite relay_stream_same, read_stream_drained by by left. unfold read_chunk_messages. cbn [app].
  rewrite Hc, <- (app_nil_r (concat bufs)). apply extract_framed; [done|by left|lia].
Qed.

(** ** Properties *)

(** C24: Reassembly does not depend on how the stream is cut into reads. Reading any chunks one after the
    other delivers the same messages, in the same order, and leaves the same bytes buffered, as
    reading their concatenation at once; the loop always ends, and what it delivered and what it
    kept are together exactly the bytes received, each delivered message being complete. *)
Theorem read_stream_chunking chunks :
  read_stream [] chunks = read_chunk_messages [] (concat chunks) /\
  exists msgs rest, read_stream [] chunks = Ret (msgs, rest) /\
    concat chunks = concat msgs ++ rest /\ Forall framed msgs /\ drained rest.
Proof.
  assert (drained []) as Hd by by left. rewrite read_stream_drained by done. split; [done|].
  unfold read_chunk_messages. apply (extract_total (concat chunks)).
Qed.

(** A sequence of complete messages, sent in any chunks and followed by an incomplete tail, is
    delivered message by message. *)
Theorem read_stream_messages ms tail chunks :
  Forall framed ms -> drained tail -> concat chunks = concat ms ++ tail ->
  read_stream [] chunks = Ret (ms, tail).
Proof.
  intros Hms Ht Hc. rewrite read_stream_drained by by left. unfold read_chunk_messages.
  rewrite Hc. apply extract_framed; [done..|]. cbn. lia.
Qed.

Definition ex_packed : list byte :=
  match Broadcast_Pack ex_broadcast with Ret (_, buf) => buf | _ => [] end.

Example read_stream_messages_witness :
  read_stream [] [take 7 ex_packed; drop 7 ex_packed ++ take 30 ex_packed; drop 30 ex_packed ++ [xff]]
  = Ret ([ex_packed; ex_packed], [xff]).
Proof.
  apply (read_stream_messages [ex_packed; ex_packed] [xff]).
  - constructor; [|constructor; [|constructor]]; split; vm_compute; congruence.
  - left. vm_compute. congruence.
  - reflexivity.
Defined.

(** The relay's own receive loop delivers the same messages as the gateway's connection on every
    sequence of packets. *)
Theorem relay_stream_equivalent buf packets :
  relay_stream buf packets = read_stream buf packets /\
  relay_extract (S (length buf)) buf = extract_messages (S (length buf)) HeaderLen readPayloadLen buf.
Proof. split; [apply relay_stream_same|apply relay_extract_same]. Qed.

(** C25: End to end: broadcasts packed by a gateway and sent in arbitrary chunks come out of the relay's
    receive loop as the same buffers, and each unpacks to the broadcast that was sent. *)
Theorem broadcast_transport bs bufs chunks :
  Forall (fun b => wf_broadcast b /\ broadcast_length b < 2 ^ 32) bs ->
  Forall2 (fun b buf => exists b', Broadcast_Pack b = Ret (b', buf)) bs bufs ->
  concat chunks = concat bufs ->
  relay_stream [] chunks = Ret (bufs, []) /\
  Forall2 (fun b buf => exists b', Broadcast_Unpack ex_receiver buf = Ret (b', None)
      /\ bc_block b' = bc_block b /\ bc_txIDs b' = bc_txIDs b
      /\ bh_hash (bc_header b') = bh_hash (bc_header b)) bs bufs.
Proof.
  intros Hbs Hpack Hc. split; [by apply (packed_stream bs)|].
  clear Hc. induction Hpack as [|b buf bs bufs [b' Hb] _ IH]; [constructor|].
  apply Forall_cons in Hbs as [[Hwf Hlt] Hbs]. constructor; [|by apply IH].
  rewrite Broadcast_Pack_chunks in Hb by done.
  assert (buf = concat (broadcast_chunks b)) as -> by congruence.
  rewrite Broadcast_Unpack_chunks; [by eexists|apply ex_receiver_wf|done|done].
Qed.

Example broadcast_transport_witness :
  relay_stream [] [take 50 ex_packed; drop 50 ex_packed] = Ret ([ex_packed], []) /\
  Forall2 (fun b buf => exists b', Broadcast_Unpack ex_receiver buf = Ret (b', None)
      /\ bc_block b' = bc_block b /\ bc_txIDs b' = bc_txIDs b
      /\ bh_hash (bc_header b') = bh_hash (bc_header b)) [ex_broadcast] [ex_packed].
Proof.
  apply (broadcast_transport [ex_broadcast] [ex_packed]).
  - constructor; [|constructor]. unfold wf_broadcast, wf_bh, is_uint32. concrete.
  - constructor; [|constructor].
    exists (match Broadcast_Pack ex_broadcast with Ret (b', _) => b' | _ => ex_broadcast end).
    vm_compute. reflexivity.
  - vm_compute. reflexivity.
Defined.
