(* ===== verification/CMap.v ===== *)
(** The interface of the sharded string map [github.com/orcaman/concurrent-map] that the
    program keeps its state in. The package is not part of the repository: its operations
    are a class, its documented behaviour the laws of a second class, stated through the
    finite map a value stands for. Clients are verified against the classes; [gmap] is the
    instance the examples run on. *)
From S2P Require Import Prelude.

(** [IterBuffered] ranges over a snapshot, in an unspecified order; [cm_view] is the abstraction
    function of the specification and occurs in no operation of the program. *)
Class ConcurrentMap (M : Type -> Type) := {
  cm_view : forall {V}, M V -> gmap string V;
  cm_new : forall {V}, M V;
  cm_get : forall {V}, M V -> string -> option V;
  cm_has : forall {V}, M V -> string -> bool;
  cm_set : forall {V}, M V -> string -> V -> M V;
  cm_set_if_absent : forall {V}, M V -> string -> V -> bool * M V;
  cm_remove : forall {V}, M V -> string -> M V;
  cm_pop : forall {V}, M V -> string -> option V * M V;
  cm_count : forall {V}, M V -> Z;
  cm_iter : forall {V}, M V -> list (string * V);
  cm_clear : forall {V}, M V -> M V
}.

Class ConcurrentMapLaws (M : Type -> Type) `{!ConcurrentMap M} := {
  cm_view_new {V} : cm_view (cm_new (V:=V)) = ∅;
  cm_get_spec {V} (m : M V) k : cm_get m k = cm_view m !! k;
  cm_has_spec {V} (m : M V) k : cm_has m k = bool_decide (is_Some (cm_view m !! k));
  cm_view_set {V} (m : M V) k v : cm_view (cm_set m k v) = <[k := v]> (cm_view m);
  cm_set_if_absent_fst {V} (m : M V) k v :
    fst (cm_set_if_absent m k v) = bool_decide (cm_view m !! k = None);
  cm_view_set_if_absent {V} (m : M V) k v :
    cm_view (snd (cm_set_if_absent m k v))
    = match cm_view m !! k with None => <[k := v]> (cm_view m) | Some _ => cm_view m end;
  cm_view_remove {V} (m : M V) k : cm_view (cm_remove m k) = delete k (cm_view m);
  cm_pop_fst {V} (m : M V) k : fst (cm_pop m k) = cm_view m !! k;
  cm_view_pop {V} (m : M V) k : cm_view (snd (cm_pop m k)) = delete k (cm_view m);
  cm_count_spec {V} (m : M V) : cm_count m = Z.of_nat (size (cm_view m));
  cm_iter_spec {V} (m : M V) : cm_iter m ≡ₚ map_to_list (cm_view m);
  cm_view_clear {V} (m : M V) : cm_view (cm_clear m) = ∅
}.

#[export] Instance gmap_cmap : ConcurrentMap (gmap string) := {
  cm_view V m := m;
  cm_new V := ∅;
  cm_get V m k := m !! k;
  cm_has V m k := bool_decide (is_Some (m !! k));
  cm_set V m k v := <[k := v]> m;
  cm_set_if_absent V m k v :=
    match m !! k with None => (true, <[k := v]> m) | Some _ => (false, m) end;
  cm_remove V m k := delete k m;
  cm_pop V m k := (m !! k, delete k m);
  cm_count V m := Z.of_nat (size m);
  cm_iter V m := map_to_list m;
  cm_clear V m := ∅
}.

#[export] Instance gmap_cmap_laws : ConcurrentMapLaws (gmap string).
Proof. split; intros; simpl; try done; by case_match. Qed.

(** ** Rewriting with the laws *)
Create Rewrite HintDb cmap.
#[export] Hint Rewrite @cm_view_new @cm_get_spec @cm_has_spec @cm_view_set @cm_set_if_absent_fst
  @cm_view_set_if_absent @cm_view_remove @cm_pop_fst @cm_view_pop @cm_count_spec @cm_view_clear
  using typeclasses eauto : cmap.

(** Move a goal from the map operations to lookups in the finite maps they stand for. *)
Ltac cmap_simpl := autorewrite with cmap in *; simplify_map_eq/=.

(** Deleting, in the order of a list without repeated keys, the entries that satisfy a test
    leaves those that do not. *)
Lemma delete_all_lookup {V} (f : string -> V -> bool) (items : list (string * V)) (m : gmap string V) k v :
  NoDup (fst <$> items) ->
  (forall k v, (k, v) ∈ items -> m !! k = Some v) ->
  foldl (fun m item => if f item.1 item.2 then delete item.1 m else m) m items !! k = Some v
  <-> m !! k = Some v /\ ~ ((k, v) ∈ items /\ f k v = true).
Proof.
  revert m. induction items as [|[k' v'] items IH]; intros m Hnd Hm; simpl.
  { split; [intros; split; [done|]; by intros [?%not_elem_of_nil _]|tauto]. }
  apply NoDup_cons in Hnd as [Hni Hnd].
  assert (forall v, (k', v) ∉ items) as Hni'.
  { intros w Hw. apply Hni. apply list_elem_of_fmap. by exists (k', w). }
  pose proof (Hm k' v' ltac:(by left)) as Hk'.
  rewrite IH; [|done|].
  2:{ intros k0 v0 Hin. destruct (f k' v'); [|apply Hm; by right].
      rewrite lookup_delete_ne; [apply Hm; by right|]. intros <-. by apply (Hni' v0). }
  destruct (f k' v') eqn:Hf.
  - rewrite lookup_delete_Some, elem_of_cons. split.
    + intros [[Hne Hv] Hnot]. split; [done|]. intros [[[= -> ->]|Hin] Hfk]; [done|by apply Hnot].
    + intros [Hv Hnot]. repeat split; [|done|].
      * intros <-. apply Hnot. assert (v = v') as -> by congruence. auto.
      * intros [Hin Hfk]. apply Hnot. auto.
  - rewrite elem_of_cons. split; intros [Hv Hnot]; (split; [done|]).
    + intros [[[= -> ->]|Hin] Hfk]; [congruence|by apply Hnot].
    + intros [Hin Hfk]. apply Hnot. auto.
Qed.

Section Laws.
Context {M : Type -> Type} `{ConcurrentMapLaws M}.

(** Two maps are interchangeable when they stand for the same finite map. *)
#[export] Instance cm_equiv {V} : Equiv (M V) := fun m1 m2 => cm_view m1 = cm_view m2.

#[export] Instance cm_equiv_equivalence {V} : Equivalence (≡@{M V}).
Proof. split; unfold equiv, cm_equiv; intros ?; congruence. Qed.

#[export] Instance cm_get_proper {V} : Proper ((≡) ==> (=) ==> (=)) (cm_get (V:=V)).
Proof. intros m1 m2 Hm k _ <-. unfold equiv, cm_equiv in Hm. by rewrite !cm_get_spec, Hm. Qed.

#[export] Instance cm_set_proper {V} : Proper ((≡) ==> (=) ==> (=) ==> (≡)) (cm_set (V:=V)).
Proof.
  intros m1 m2 Hm k _ <- v _ <-. unfold equiv, cm_equiv in *. by rewrite !cm_view_set, Hm.
Qed.

#[export] Instance cm_remove_proper {V} : Proper ((≡) ==> (=) ==> (≡)) (cm_remove (V:=V)).
Proof. intros m1 m2 Hm k _ <-. unfold equiv, cm_equiv in *. by rewrite !cm_view_remove, Hm. Qed.

#[export] Instance cm_iter_proper {V} : Proper ((≡) ==> (≡ₚ)) (cm_iter (V:=V)).
Proof. intros m1 m2 Hm. unfold equiv, cm_equiv in Hm. by rewrite !cm_iter_spec, Hm. Qed.

Lemma cm_iter_elem {V} (m : M V) k v : (k, v) ∈ cm_iter m <-> cm_view m !! k = Some v.
Proof. rewrite cm_iter_spec. apply elem_of_map_to_list. Qed.

Lemma cm_iter_keys {V} (m : M V) : NoDup (fst <$> cm_iter m).
Proof. rewrite cm_iter_spec. apply NoDup_fst_map_to_list. Qed.

Lemma cm_set_view {V} (m : M V) k v : cm_set m k v ≡ m <-> cm_view m !! k = Some v.
Proof.
  unfold equiv, cm_equiv. rewrite cm_view_set. split; intros Heq.
  - rewrite <- Heq. apply lookup_insert_eq.
  - by apply insert_id.
Qed.

Lemma remove_all_view {V} (f : string -> V -> bool) (items : list (string * V)) (m : M V) :
  cm_view (foldl (fun m item => if f item.1 item.2 then cm_remove m item.1 else m) m items)
  = foldl (fun m item => if f item.1 item.2 then delete item.1 m else m) (cm_view m) items.
Proof.
  revert m. induction items as [|item items IH]; intros m; [done|]. simpl. rewrite IH.
  by destruct (f _ _); rewrite ?cm_view_remove.
Qed.

Lemma remove_keys_lookup {V} (ks : list string) (m : M V) k v :
  cm_view (foldl cm_remove m ks) !! k = Some v <-> cm_view m !! k = Some v /\ k ∉ ks.
Proof.
  revert m. induction ks as [|k' ks IH]; intros m; simpl.
  - rewrite elem_of_nil. tauto.
  - rewrite IH, cm_view_remove, lookup_delete_Some, elem_of_cons. naive_solver.
Qed.
End Laws.
