(* ===== verification/HashHistory.v ===== *)
(** [HashHistory] (services/hash_history.go): hashes seen in the past, each with the
    time until which it counts as seen. Times are nanoseconds since the epoch. *)
From S2P Require Import Prelude CMap.

Section HashHistory.
Context {M : Type -> Type} `{!ConcurrentMap M}.

(** The [data] field; name, clock and frequency of the clean-up are not state. *)
Record HashHistory := mkHashHistory { hh_data : M Z }.

Definition newHashHistory : HashHistory := mkHashHistory cm_new.

(** [hh.clock.Now().Add(expiration).UnixNano()] *)
Definition expiry (now expiration : Z) : Z := int64 (now + expiration).

Definition HashHistory_Add (now : Z) (hh : HashHistory) (hash : string) (expiration : Z) : HashHistory :=
  mkHashHistory (cm_set (hh_data hh) hash (expiry now expiration)).

Definition HashHistory_Remove (hh : HashHistory) (hash : string) : HashHistory :=
  mkHashHistory (cm_remove (hh_data hh) hash).

Definition HashHistory_SetIfAbsent (now : Z) (hh : HashHistory) (hash : string) (expiration : Z)
    : bool * HashHistory :=
  let '(set, data) := cm_set_if_absent (hh_data hh) hash (expiry now expiration) in
  (set, mkHashHistory data).

Definition HashHistory_Exists (now : Z) (hh : HashHistory) (hash : string) : bool :=
  match cm_get (hh_data hh) hash with
  | Some expiration => if decide (now < expiration) then true else false
  | None => false
  end.

Definition HashHistory_Count (hh : HashHistory) : Z := cm_count (hh_data hh).

(** [clean]: remove the expired entries of a snapshot, counting them. *)
Definition HashHistory_clean (now : Z) (hh : HashHistory) : HashHistory * Z :=
  foldl (fun '(hh, historyCleaned) item =>
           if decide (item.2 < now)
           then (HashHistory_Remove hh item.1, historyCleaned + 1)
           else (hh, historyCleaned))
        (hh, 0) (cm_iter (hh_data hh)).
End HashHistory.
Arguments HashHistory M : clear implicits.
Arguments mkHashHistory {M} _.

(** ** Lemmas *)
Section Facts.
Context {M : Type -> Type} `{ConcurrentMapLaws M}.
Implicit Types hh : HashHistory M.

Definition hh_view hh : gmap string Z := cm_view (hh_data hh).

Lemma Exists_spec now hh h :
  HashHistory_Exists now hh h = true <-> exists e, hh_view hh !! h = Some e /\ now < e.
Proof.
  unfold HashHistory_Exists, hh_view. rewrite cm_get_spec.
  destruct (cm_view _ !! h) as [e|]; [case_decide|]; naive_solver.
Qed.

Lemma Exists_Add now hh h h' d t :
  HashHistory_Exists t (HashHistory_Add now hh h d) h'
  = if decide (h = h') then bool_decide (t < expiry now d) else HashHistory_Exists t hh h'.
Proof.
  unfold HashHistory_Exists, HashHistory_Add. simpl. rewrite !cm_get_spec, cm_view_set, lookup_insert.
  case_decide; [|done]. by rewrite bool_decide_decide.
Qed.

Lemma Exists_Remove hh h h' t :
  HashHistory_Exists t (HashHistory_Remove hh h) h'
  = if decide (h = h') then false else HashHistory_Exists t hh h'.
Proof.
  unfold HashHistory_Exists, HashHistory_Remove. simpl. rewrite !cm_get_spec, cm_view_remove.
  rewrite lookup_delete. by case_decide.
Qed.

Lemma clean_fold now items hh n :
  foldl (fun '(hh, c) item => if decide (item.2 < now)
           then (HashHistory_Remove hh item.1, c + 1) else (hh, c)) (hh, n) items
  = (mkHashHistory (foldl (fun m (item : string * Z) => if bool_decide (item.2 < now) then cm_remove m item.1 else m)
                      (hh_data hh) items),
     n + Z.of_nat (length (filter (fun item => item.2 < now) items))).
Proof.
  revert hh n. induction items as [|[k e] items IH]; intros [d] n; simpl.
  { f_equal. lia. }
  rewrite bool_decide_decide, filter_cons. simpl.
  case_decide; rewrite IH; simpl; f_equal; lia.
Qed.

Lemma clean_view now hh h e :
  hh_view (fst (HashHistory_clean now hh)) !! h = Some e <-> hh_view hh !! h = Some e /\ now <= e.
Proof.
  unfold HashHistory_clean. rewrite clean_fold. unfold hh_view. simpl.
  pose (f := fun (_ : string) (e : Z) => bool_decide (e < now)).
  pose proof (remove_all_view f (cm_iter (hh_data hh)) (hh_data hh)) as Hview. unfold f in Hview at 1.
  rewrite Hview, delete_all_lookup by (apply cm_iter_keys || (intros ??; apply cm_iter_elem)).
  rewrite cm_iter_elem. unfold f. rewrite bool_decide_eq_true. split.
  - intros [Hv Hn]. split; [done|]. destruct (decide (e < now)); [exfalso; tauto|lia].
  - intros [Hv Hle]. split; [done|]. intros [_ ?]. lia.
Qed.

(** ** Properties *)

(** Cleaning a history is invisible to its users: at the time of the clean-up and at every later
    time, the same hashes exist before and after it. What it removes are exactly the entries that
    expired, and the count it reports is their number. *)
Theorem clean_preserves_Exists now t hh h :
  now <= t ->
  HashHistory_Exists t (fst (HashHistory_clean now hh)) h = HashHistory_Exists t hh h /\
  (hh_view (fst (HashHistory_clean now hh)) !! h = None <->
     forall e, hh_view hh !! h = Some e -> e < now) /\
  snd (HashHistory_clean now hh)
  = Z.of_nat (length (filter (fun item => item.2 < now) (map_to_list (hh_view hh)))).
Proof.
  intros Hle. split; [|split].
  - apply eq_true_iff_eq. rewrite !Exists_spec. setoid_rewrite clean_view.
    split; intros (e & He); exists e; intuition lia.
  - split.
    + intros Hnone e He. destruct (decide (e < now)); [done|].
      assert (hh_view (fst (HashHistory_clean now hh)) !! h = Some e) by (apply clean_view; split; [done|lia]).
      congruence.
    + intros Hexp. apply eq_None_not_Some. intros [e He]. apply clean_view in He as [He ?].
      apply Hexp in He. lia.
  - unfold HashHistory_clean. rewrite clean_fold. simpl. f_equal.
    unfold hh_view. by rewrite <- cm_iter_spec.
Qed.
End Facts.

Definition ex_history : HashHistory (gmap string) :=
  HashHistory_Add 100 (HashHistory_Add 0 newHashHistory "a" 50) "b" 50.

Example clean_preserves_Exists_witness :
  HashHistory_Exists 120 (fst (HashHistory_clean 110 ex_history)) "b" = HashHistory_Exists 120 ex_history "b" /\
  (hh_view (fst (HashHistory_clean 110 ex_history)) !! "b"%string = None <->
     forall e, hh_view ex_history !! "b"%string = Some e -> e < 110) /\
  snd (HashHistory_clean 110 ex_history)
  = Z.of_nat (length (filter (fun item => item.2 < 110) (map_to_list (hh_view ex_history)))).
Proof. apply (clean_preserves_Exists 110 120 ex_history "b"). vm_compute. congruence. Defined.
