(* ===== verification/Types.v ===== *)
(** The value types of package [types]: hashes (hash.go), stored transactions
    (tbtransaction.go), blocks in transit (tbblock.go), routing flags (txflags.go) and
    node endpoints (common.go). A [SHA256Hash] is the list of its 32 bytes; a [time.Time]
    is its number of nanoseconds; a [*big.Int] is an optional integer. *)
From S2P Require Import Prelude Bytes.

(** ** hash.go *)
Definition SHA256Hash : Type := list byte.
Definition wf_hash (h : SHA256Hash) : Prop := length h = 32%nat.
Definition zero_hash : SHA256Hash := zeros 32.

Definition NewSHA256Hash (b : list byte) : SHA256Hash * option go_error :=
  if decide (len b = 32) then (copy_bytes zero_hash b, None)
  else (zero_hash, Some (Errorf "provided hash string is an incorrect length")).

Definition DecodeHex (str : list byte) : result (list byte) :=
  let str := if decide (2 < len str /\ take 2 str = of_string "0x") then drop 2 str else str in
  match hex_decode str with
  | Some bs => Ok bs
  | None => Fail (Errorf "encoding/hex: invalid")
  end.

Definition NewSHA256HashFromString (hashStr : list byte) : SHA256Hash * option go_error :=
  match DecodeHex hashStr with
  | Fail _ => (zero_hash, Some (Errorf "could not decode hash string"))
  | Ok hashBytes => NewSHA256Hash hashBytes
  end.

Definition SHA256Hash_String (s : SHA256Hash) : list byte := hex_encode_bytes s.
Definition SHA256Hash_Format (s : SHA256Hash) (prefix : bool) : list byte :=
  if prefix then of_string "0x" ++ SHA256Hash_String s else SHA256Hash_String s.

(** ** common.go *)
Record NodeEndpoint := mkNodeEndpoint { ne_IP : string; ne_Port : Z; ne_PublicKey : string }.

(** Decimal text of an [int]. *)
Definition format_int (z : Z) : string :=
  if decide (z < 0) then String "-"%char (format_uint (- z)) else format_uint z.
Definition NodeEndpoint_String (e : NodeEndpoint) : string :=
  (ne_IP e +:+ " " +:+ format_int (ne_Port e) +:+ " " +:+ ne_PublicKey e)%string.
Definition NodeEndpoint_IPPort (e : NodeEndpoint) : string :=
  (ne_IP e +:+ " " +:+ format_int (ne_Port e))%string.

Definition TxIDEmpty : Z := 0.
Definition AllNetworkNum : Z := 0.

(** ** txflags.go *)
Definition TFStatusMonitoring : Z := Z.shiftl 1 0.
Definition TFPaidTx : Z := Z.shiftl 1 1.
Definition TFNonceMonitoring : Z := Z.shiftl 1 2.
Definition TFRePropagate : Z := Z.shiftl 1 3.
Definition TFEnterpriseSender : Z := Z.shiftl 1 4.
Definition TFLocalRegion : Z := Z.shiftl 1 5.
Definition TFPrivateTx : Z := Z.shiftl 1 6.
Definition TFEliteSender : Z := Z.shiftl 1 7.
Definition TFDeliverToNode : Z := Z.shiftl 1 8.
Definition TFValidatorsOnly : Z := Z.shiftl 1 9.
Definition TFReusedNonce : Z := Z.shiftl 1 10.
Definition TFStatusTrack : Z := Z.lor TFStatusMonitoring TFPaidTx.
Definition TFNonceTrack : Z := Z.lor TFNonceMonitoring TFStatusTrack.

(** ** tbtransaction.go *)
Record TbTransaction := mkTbTransaction {
  tx_hash : SHA256Hash;
  tx_bytes : list byte;       (* content: TxContent *)
  tx_ids : list Z;            (* txIDs: TxIDList *)
  tx_addTime : Z;
  tx_network : Z              (* networkNum *)
}.

Definition NewTbTransaction (hash : SHA256Hash) (networkNum timestamp : Z) : TbTransaction :=
  mkTbTransaction hash [] [] timestamp networkNum.
Definition NewRawTbTransaction (hash : SHA256Hash) (content : list byte) : TbTransaction :=
  mkTbTransaction hash content [] 0 0.
Definition HasContent_tx (bt : TbTransaction) : bool := bool_decide (0 < len (tx_bytes bt)).

(** The loop over [bt.txIDs] of [AddTxID]. *)
Fixpoint has_txID (txID : Z) (ids : list Z) : bool :=
  match ids with
  | [] => false
  | existing :: ids => if decide (txID = existing) then true else has_txID txID ids
  end.

Definition AddTxID (bt : TbTransaction) (txID : Z) : bool * TbTransaction :=
  if decide (txID = TxIDEmpty) then (false, bt)
  else if has_txID txID (tx_ids bt) then (false, bt)
  else (true, mkTbTransaction (tx_hash bt) (tx_bytes bt) (tx_ids bt ++ [txID]) (tx_addTime bt) (tx_network bt)).

Definition SetContent (bt : TbTransaction) (content : list byte) : bool * TbTransaction :=
  if decide (len (tx_bytes bt) = 0 /\ 0 < len content)
  then (true, mkTbTransaction (tx_hash bt) (copy_bytes (zeros (length content)) content)
                (tx_ids bt) (tx_addTime bt) (tx_network bt))
  else (false, bt).

(** ** tbblock.go *)
Record TbBlockTransaction := mkTbBlockTransaction { bt_hash : SHA256Hash; bt_content : list byte }.

Definition NewTbBlockTransaction (hash : SHA256Hash) (content : list byte) : TbBlockTransaction :=
  mkTbBlockTransaction hash content.
Definition NewRawTbBlockTransaction (content : list byte) : TbBlockTransaction :=
  mkTbBlockTransaction zero_hash content.

Record TbBlock := mkTbBlock {
  tb_hash : SHA256Hash;
  tb_Header : list byte;
  tb_Txs : list TbBlockTransaction;
  tb_Trailer : list byte;
  tb_TotalDifficulty : option Z;
  tb_Number : option Z;
  tb_timestamp : Z;
  tb_size : Z
}.

Definition NewRawTbBlock (now : Z) (hash : SHA256Hash) (header : list byte) (txs : list TbBlockTransaction)
    (trailer : list byte) (totalDifficulty number : option Z) (size : Z) : TbBlock :=
  mkTbBlock hash header txs trailer totalDifficulty number now size.

(** The loop of [NewTbBlock]: whether some transaction has no hash. *)
Fixpoint missing_tx_hash (txs : list TbBlockTransaction) : bool :=
  match txs with
  | [] => false
  | tx :: txs => if decide (bt_hash tx = zero_hash) then true else missing_tx_hash txs
  end.

Definition NewTbBlock (now : Z) (hash : SHA256Hash) (header : list byte) (txs : list TbBlockTransaction)
    (trailer : list byte) (totalDifficulty number : option Z) (size : Z) : result TbBlock :=
  if missing_tx_hash txs then Fail (Errorf "all transactions must contain hashes")
  else Ok (NewRawTbBlock now hash header txs trailer totalDifficulty number size).

Definition SetSize (b : TbBlock) (size : Z) : TbBlock :=
  mkTbBlock (tb_hash b) (tb_Header b) (tb_Txs b) (tb_Trailer b) (tb_TotalDifficulty b)
    (tb_Number b) (tb_timestamp b) size.

(** [(x *big.Int).Cmp(y)]: equal pointers compare equal, otherwise nil is dereferenced. *)
Definition big_cmp (x y : option Z) : outcome comparison :=
  match x, y with
  | None, None => Ret Eq
  | Some x, Some y => Ret (x ?= y)
  | _, _ => Panics NilDereference
  end.
Definition big_eqb (x y : option Z) : outcome bool :=
  c ← big_cmp x y; mret (if c is Eq then true else false).

(** The loop of [Equals]: [other.Txs[i]] is evaluated for every index of [b.Txs]. *)
Fixpoint equal_txs (txs other : list TbBlockTransaction) : outcome bool :=
  match txs with
  | [] => Ret true
  | tx :: txs =>
      match other with
      | [] => Panics IndexOutOfRange
      | otherTx :: other =>
          if decide (bt_content tx = bt_content otherTx) then equal_txs txs other else Ret false
      end
  end.

Definition TbBlock_Equals (b other : TbBlock) : outcome bool :=
  if decide (tb_Header b <> tb_Header other \/ tb_Trailer b <> tb_Trailer other) then Ret false else
  same ← equal_txs (tb_Txs b) (tb_Txs other);
  if negb same then Ret false else
  td ← big_eqb (tb_TotalDifficulty b) (tb_TotalDifficulty other);
  if negb td then Ret false else
  big_eqb (tb_Number b) (tb_Number other).

(** ** Lemmas *)
Lemma has_txID_spec txID ids : has_txID txID ids = true <-> txID ∈ ids.
Proof.
  induction ids as [|x ids IH]; simpl; [by rewrite elem_of_nil|].
  rewrite elem_of_cons. case_decide; naive_solver.
Qed.

Lemma AddTxID_spec bt txID :
  fst (AddTxID bt txID) = bool_decide (txID <> TxIDEmpty /\ txID ∉ tx_ids bt) /\
  (forall x, x ∈ tx_ids (snd (AddTxID bt txID)) <-> x ∈ tx_ids bt \/ (x = txID /\ txID <> TxIDEmpty)) /\
  tx_hash (snd (AddTxID bt txID)) = tx_hash bt /\ tx_bytes (snd (AddTxID bt txID)) = tx_bytes bt /\
  tx_addTime (snd (AddTxID bt txID)) = tx_addTime bt /\ tx_network (snd (AddTxID bt txID)) = tx_network bt.
Proof.
  unfold AddTxID. pose proof (has_txID_spec txID (tx_ids bt)) as Hhas.
  case_decide as Hz; [|destruct (has_txID txID (tx_ids bt))]; cbn; split_and!; try done.
  - by rewrite bool_decide_eq_false_2 by tauto.
  - tauto.
  - rewrite bool_decide_eq_false_2; [done|]. intros [_ Hn]. by apply Hn, Hhas.
  - intros x. split; [auto|]. intros [?|[-> _]]; [done|by apply Hhas].
  - rewrite bool_decide_eq_true_2; [done|]. split; [done|]. intros Hin. by apply Hhas in Hin.
  - intros x. rewrite elem_of_app, list_elem_of_singleton. tauto.
Qed.

Lemma NoDup_AddTxID bt txID : NoDup (tx_ids bt) -> NoDup (tx_ids (snd (AddTxID bt txID))).
Proof.
  intros Hnd. unfold AddTxID. case_decide; [done|].
  destruct (has_txID txID (tx_ids bt)) eqn:Hh; [done|]. simpl.
  apply NoDup_app. split; [done|]. split; [|apply NoDup_singleton].
  intros x Hx ->%list_elem_of_singleton. apply has_txID_spec in Hx. congruence.
Qed.

Lemma SetContent_spec bt content :
  fst (SetContent bt content) = bool_decide (tx_bytes bt = [] /\ content <> []) /\
  tx_bytes (snd (SetContent bt content)) = (if decide (tx_bytes bt = []) then content else tx_bytes bt) /\
  tx_hash (snd (SetContent bt content)) = tx_hash bt /\ tx_ids (snd (SetContent bt content)) = tx_ids bt /\
  tx_addTime (snd (SetContent bt content)) = tx_addTime bt /\ tx_network (snd (SetContent bt content)) = tx_network bt.
Proof.
  unfold SetContent, len.
  destruct (tx_bytes bt) as [|b bs] eqn:Hb; destruct content as [|c cs];
    simpl; rewrite ?decide_True, ?decide_False by (simpl; lia || naive_solver); simpl; rewrite ?Hb;
    repeat split; try done.
  f_equal. pose proof (copy_bytes_same (zeros (length (c :: cs))) (c :: cs) (eq_sym (length_zeros _))) as Hc.
  simpl in Hc. congruence.
Qed.
