(* ===== verification/MessageFields.v ===== *)
(** The fields of messages: the setters and getters of tbmessage/broadcast_header.go, tbmessage/broadcast.go
    and tbmessage/tx.go. The text form of a source ID belongs to package uuid, which is a parameter. *)
From S2P Require Import Prelude Bytes TbMessage WireTypes Types.
From Stdlib Require String.

(** ** The broadcast header *)
Section SourceID.
(** [uuid.FromString] and the text form of the 16 bytes of a UUID; [uuid.FromBytes] only checks the length *)
Context (uuid_FromString : string -> result (list byte)) (uuid_String : list byte -> string).

Definition SetNetworkNum (b : BroadcastHeader) (networkNum : Z) : BroadcastHeader :=
  mkBroadcastHeader (bh_header b) (bh_hash b) networkNum (bh_sourceID b).
Definition SetHash (b : BroadcastHeader) (hash : SHA256Hash) : BroadcastHeader :=
  mkBroadcastHeader (bh_header b) hash (bh_networkNum b) (bh_sourceID b).

Definition SourceID (b : BroadcastHeader) : string :=
  if decide (length (bh_sourceID b) = 16%nat) then uuid_String (bh_sourceID b) else "".

Definition SetSourceID (b : BroadcastHeader) (sourceID : string) : option go_error * BroadcastHeader :=
  match uuid_FromString sourceID with
  | Fail _ => (Some (Errorf "failed to set source id"), b)
  | Ok sourceIDBytes =>
      (None, mkBroadcastHeader (bh_header b) (bh_hash b) (bh_networkNum b) (copy_bytes (bh_sourceID b) sourceIDBytes))
  end.
End SourceID.

(** ** Broadcasts *)
Definition SetBroadcastType (b : Broadcast) (broadcastType : list byte) : Broadcast :=
  mkBroadcast (bc_header b) broadcastType (bc_encrypted b) (bc_block b) (bc_txIDs b).
Definition SetEncrypted (b : Broadcast) (encrypted : bool) : Broadcast :=
  mkBroadcast (bc_header b) (bc_broadcastType b) encrypted (bc_block b) (bc_txIDs b).
Definition SetBlock (b : Broadcast) (block : list byte) : Broadcast :=
  mkBroadcast (bc_header b) (bc_broadcastType b) (bc_encrypted b) block (bc_txIDs b).
Definition SetSids (b : Broadcast) (txIDs : list Z) : Broadcast :=
  mkBroadcast (bc_header b) (bc_broadcastType b) (bc_encrypted b) (bc_block b) txIDs.
Definition Broadcast_SetSourceID (uuid_FromString : string -> result (list byte)) (b : Broadcast) (sourceID : string)
    : option go_error * Broadcast :=
  let '(err, header) := SetSourceID uuid_FromString (bc_header b) sourceID in
  (err, mkBroadcast header (bc_broadcastType b) (bc_encrypted b) (bc_block b) (bc_txIDs b)).

(** ** Transaction messages *)
Definition SetTxID (m : Tx) (txID : Z) : Tx := mkTx (tx_header m) txID (tx_timestamp m) (tx_content m) (tx_sender m).
Definition Tx_SetContent (m : Tx) (content : list byte) : Tx :=
  mkTx (tx_header m) (tx_txID m) (tx_timestamp m) content (tx_sender m).
Definition Tx_HashString (m : Tx) (prefix : bool) : list byte := SHA256Hash_Format (bh_hash (tx_header m)) prefix.

(** * Properties *)
Section Travel.
Context (uuid_FromString : string -> result (list byte)) (uuid_String : list byte -> string).
(** The documented behaviour of package uuid: 16 bytes, and the text of a parsed UUID parses to it again. *)
Context (FromString_length : forall s u, uuid_FromString s = Ok u -> length u = 16%nat).
Context (FromString_String : forall s u, uuid_FromString s = Ok u -> uuid_FromString (uuid_String u) = Ok u).

(** A source ID travels. Setting one that is no UUID changes nothing and reports it; one that is a UUID can
    be set on any well-formed broadcast, which stays well formed, and the receiver of the packed message
    reads its canonical text, whatever its own header held before, together with the block and the short
    IDs; setting that text again gives the same bytes. *)
Theorem source_id_travels b b0 s :
  wf_broadcast b -> wf_broadcast b0 -> bc_txIDs b0 = [] -> broadcast_length b < 2 ^ 32 ->
  match uuid_FromString s with
  | Fail _ => Broadcast_SetSourceID uuid_FromString b s = (Some (Errorf "failed to set source id"), b)
  | Ok u =>
      exists b1 b2 buf received, Broadcast_SetSourceID uuid_FromString b s = (None, b1) /\ wf_broadcast b1 /\
        Broadcast_Pack b1 = Ret (b2, buf) /\ Broadcast_Unpack b0 buf = Ret (received, None) /\
        SourceID uuid_String (bc_header received) = uuid_String u /\
        bc_block received = bc_block b /\ bc_txIDs received = bc_txIDs b /\
        bh_hash (bc_header received) = bh_hash (bc_header b) /\
        snd (SetSourceID uuid_FromString (bc_header received) (SourceID uuid_String (bc_header received))) = bc_header received
  end.
Proof.
  intros ((Hh & Hs & Hn) & Ht & Hids) Hwf0 Hempty Hlt. unfold Broadcast_SetSourceID, SetSourceID.
  destruct (uuid_FromString s) as [u|e] eqn:Hu; [|by destruct b as [[] ? ? ? ?]].
  pose proof (FromString_length _ _ Hu) as Hlu. rewrite copy_bytes_same by congruence.
  match goal with |- exists b1, _ => set (b1 := mkBroadcast _ _ _ _ _) end.
  assert (wf_broadcast b1) as Hwf1 by (split_and!; [split_and!|..]; done).
  exists b1. eexists _, _, _. split; [done|]. split; [done|].
  rewrite Broadcast_Pack_chunks by done. split; [done|]. rewrite Broadcast_Unpack_chunks by done. split; [done|].
  cbn [bc_header bc_block bc_txIDs packed_header bh_hash]. rewrite Hempty. unfold SourceID.
  cbn [bh_sourceID packed_header b1 bc_header]. rewrite decide_True by done. split_and!; [done..|].
  rewrite (FromString_String _ _ Hu). cbn [snd bh_sourceID]. by rewrite copy_bytes_same.
Qed.
End Travel.

(** A toy package: the 16 characters of a text are its bytes. *)
Definition ex_FromString (s : string) : result (list byte) :=
  if decide (String.length s = 16%nat) then Ok (of_string s) else Fail (Errorf "incorrect length").

Lemma source_id_travels_witness :
  exists b1 b2 buf received, Broadcast_SetSourceID ex_FromString ex_broadcast "gateway-number-7" = (None, b1) /\
    Broadcast_Pack b1 = Ret (b2, buf) /\ Broadcast_Unpack ex_receiver buf = Ret (received, None) /\
    SourceID to_string (bc_header received) = "gateway-number-7"%string.
Proof.
  assert (forall s u, ex_FromString s = Ok u -> length u = 16%nat /\ to_string u = s) as Hlaws.
  { intros s u. unfold ex_FromString. case_decide as Hl; [|done]. intros [= <-].
    split; [|apply String.string_of_list_byte_of_string].
    rewrite <- Hl. clear. induction s as [|c s IH]; cbn; [done|]. f_equal. exact IH. }
  destruct (source_id_travels ex_FromString to_string (fun s u H => proj1 (Hlaws s u H))
    (fun s u H => eq_trans (f_equal ex_FromString (proj2 (Hlaws s u H))) H) ex_broadcast ex_receiver "gateway-number-7")
    as (b1 & b2 & buf & received & Hset & _ & Hpack & Hunpack & Hid & _).
  - unfold wf_broadcast, wf_bh, is_uint32. concrete.
  - apply ex_receiver_wf.
  - reflexivity.
  - vm_compute. reflexivity.
  - exists b1, b2, buf, received. by split_and!.
Defined.
