(* ===== verification/TxStore.v ===== *)
(** The transaction store: [TbTxStore] (services/tbtxstore.go) with its interface
    (services/txstore.go) and the short-ID assigner (services/txid_assigner.go).

    A [*types.TbTransaction] is represented by its current value under its key in
    [hashToContent]: the store is the only writer of stored transactions, and it writes
    through the pointer it keeps there. Methods run one at a time. *)
From S2P Require Import Prelude Bytes CMap Channel Types HashHistory.

(** ** Definitions *)
Definition TxStoreMaxSize : Z := 200000.
(** [int(TxStoreMaxSize*0.9) - 1] *)
Definition TxStoreCleanIndex : Z := 180000 - 1.
Definition second_ns : Z := 1000 * 1000 * 1000.
Definition ShortReEntryProtectionDuration : Z := 30 * 60 * second_ns.

Inductive ReEntryProtectionFlags :=
  | NoReEntryProtection
  | ShortReEntryProtection
  | FullReEntryProtection.

(** [TransactionResult]; the fields the store never sets keep Go's zero values. *)
Record TransactionResult := mkTransactionResult {
  tr_NewTx : bool;
  tr_NewContent : bool;
  tr_NewTxID : bool;
  tr_Reprocess : bool;
  tr_FailedValidation : bool;
  tr_Transaction : option TbTransaction;
  tr_AssignedTxID : Z;
  tr_DebugData : option string;
  tr_AlreadySeen : bool;
  tr_Sender : list byte
}.

(** [time.Time.Sub] saturates instead of overflowing. *)
Definition time_sub (t u : Z) : Z := Z.max (- 2 ^ 63) (Z.min (2 ^ 63 - 1) (t - u)).

(** [TxIDAssigner]: a source of short IDs, with its state. *)
Class TxIDAssigner (A : Type) := { Next : A -> Z * A }.
#[export] Instance emptyTxIDAssigner : TxIDAssigner unit := { Next a := (TxIDEmpty, a) }.

Record networkData := mkNetworkData {
  nd_maxAge : Z;
  nd_ages : list Z;
  nd_cleanAge : Z;
  nd_cleanNoTxID : Z
}.

Section TbTxStore.
Context {M : Type -> Type} `{!ConcurrentMap M} {A : Type} `{!TxIDAssigner A}.

Record TbTxStore := mkTbTxStore {
  ts_hashToContent : M TbTransaction;
  ts_txIDToHash : M SHA256Hash;
  ts_seenTxs : HashHistory M;
  ts_timeToAvoidReEntry : Z;
  ts_maxTxAge : Z;
  ts_noTxIDAge : Z;
  ts_assigner : A
}.

Definition NewTbTxStore (maxTxAge noTxIDAge : Z) (assigner : A) (seenTxs : HashHistory M)
    (timeToAvoidReEntry : Z) : TbTxStore :=
  mkTbTxStore cm_new cm_new seenTxs timeToAvoidReEntry maxTxAge noTxIDAge assigner.

Definition with_maps (t : TbTxStore) (h : M TbTransaction) (i : M SHA256Hash) (s : HashHistory M)
    (a : A) : TbTxStore :=
  mkTbTxStore h i s (ts_timeToAvoidReEntry t) (ts_maxTxAge t) (ts_noTxIDAge t) a.

(** Keys: [string(hash[:])] and [fmt.Sprint(txID)]. *)
Definition hash_key (hash : SHA256Hash) : string := to_string hash.
Definition txID_key (txID : Z) : string := format_uint txID.

Definition Clear (t : TbTxStore) : TbTxStore :=
  with_maps t (cm_clear (ts_hashToContent t)) (cm_clear (ts_txIDToHash t)) (ts_seenTxs t) (ts_assigner t).

Definition Count (t : TbTxStore) : Z := cm_count (ts_hashToContent t).

(** The switch of [remove] on the re-entry protection. *)
Definition protect (now : Z) (t : TbTxStore) (hash : string) (p : ReEntryProtectionFlags)
    : HashHistory M :=
  match p with
  | NoReEntryProtection => ts_seenTxs t
  | ShortReEntryProtection => HashHistory_Add now (ts_seenTxs t) hash ShortReEntryProtectionDuration
  | FullReEntryProtection => HashHistory_Add now (ts_seenTxs t) hash (ts_timeToAvoidReEntry t)
  end.

Definition remove (now : Z) (t : TbTxStore) (hash : string) (p : ReEntryProtectionFlags) : TbTxStore :=
  let '(tx, contents) := cm_pop (ts_hashToContent t) hash in
  match tx with
  | None => t
  | Some tbTransaction =>
      let ids := foldl (fun m txID => cm_remove m (txID_key txID)) (ts_txIDToHash t) (tx_ids tbTransaction) in
      with_maps t contents ids (protect now t hash p) (ts_assigner t)
  end.

Definition RemoveHashes (now : Z) (t : TbTxStore) (hashes : list SHA256Hash)
    (p : ReEntryProtectionFlags) : TbTxStore :=
  foldl (fun t hash => remove now t (hash_key hash) p) t hashes.

Fixpoint hashes_of_txIDs (t : TbTxStore) (txIDs : list Z) : list SHA256Hash :=
  match txIDs with
  | [] => []
  | txID :: txIDs =>
      match cm_get (ts_txIDToHash t) (txID_key txID) with
      | Some hash => hash :: hashes_of_txIDs t txIDs
      | None => hashes_of_txIDs t txIDs
      end
  end.

Definition RemoveTxIDs (now : Z) (t : TbTxStore) (txIDs : list Z) (p : ReEntryProtectionFlags) : TbTxStore :=
  RemoveHashes now t (hashes_of_txIDs t txIDs) p.

Definition GetTxByID (t : TbTxStore) (txID : Z) : result TbTransaction :=
  match cm_get (ts_txIDToHash t) (txID_key txID) with
  | Some hash =>
      match cm_get (ts_hashToContent t) (hash_key hash) with
      | Some tx => Ok tx
      | None => Fail (Errorf "transaction content does not exist")
      end
  | None => Fail (Errorf "transaction with txID does not exist")
  end.

(** The transactions the channel of [Iter] delivers. *)
Definition Iter (now : Z) (t : TbTxStore) : list TbTransaction :=
  filter (fun tx => time_sub now (tx_addTime tx) < ts_maxTxAge t)
    (snd <$> cm_iter (ts_hashToContent t)).

Definition refreshSeenTx (now : Z) (t : TbTxStore) (hash : SHA256Hash) : bool * TbTxStore :=
  if HashHistory_Exists now (ts_seenTxs t) (hash_key hash) then
    (true, with_maps t (ts_hashToContent t) (ts_txIDToHash t)
             (HashHistory_Add now (ts_seenTxs t) (hash_key hash) (ts_timeToAvoidReEntry t)) (ts_assigner t))
  else (false, t).

Definition empty_result : TransactionResult :=
  mkTransactionResult false false false false false None 0 None false (zeros 20).

(** The part of [Add] behind the early returns: [tbTransaction] is the stored transaction. *)
Definition Add_stored (t : TbTxStore) (newTx : bool) (hashStr : string) (tbTransaction : TbTransaction)
    (content : list byte) (txID : Z) : TransactionResult * TbTxStore :=
  let '(txID, assigned, assigner) :=
    if decide (newTx = true /\ txID = TxIDEmpty)
    then let '(next, assigner) := Next (ts_assigner t) in (next, next, assigner)
    else (txID, 0, ts_assigner t) in
  let '(newTxID, tbTransaction) := AddTxID tbTransaction txID in
  let '(newContent, tbTransaction) := SetContent tbTransaction content in
  let contents := cm_set (ts_hashToContent t) hashStr tbTransaction in
  let ids := if newTxID then cm_set (ts_txIDToHash t) (txID_key txID) (tx_hash tbTransaction)
             else ts_txIDToHash t in
  (mkTransactionResult newTx newContent newTxID false false (Some tbTransaction) assigned None false (zeros 20),
   with_maps t contents ids (ts_seenTxs t) assigner).

(** [Add]. The code reads the clock at every use of the time; [now] stands for all of these readings. *)
Definition TbTxStore_Add (now : Z) (t : TbTxStore) (hash : SHA256Hash) (content : list byte)
    (txID networkNum timestamp : Z) : outcome (TransactionResult * TbTxStore) :=
  if decide (txID = TxIDEmpty /\ len content = 0)
  then Panics (Explicit "content and txID can't be both missing") else
  let fresh := NewTbTransaction hash networkNum timestamp in
  if decide (ts_maxTxAge t < time_sub now timestamp) then
    mret (mkTransactionResult false false false false false (Some fresh) 0
            (Some "Transaction is too old"%string) false (zeros 20), t) else
  let hashStr := hash_key hash in
  let '(seen, t) := refreshSeenTx now t hash in
  if decide (seen = true /\ txID = TxIDEmpty) then
    mret (mkTransactionResult false false false false false (Some fresh) 0
            (Some "Transaction already seen and deleted from store"%string) true (zeros 20), t) else
  let t := if seen then with_maps t (ts_hashToContent t) (ts_txIDToHash t)
                          (HashHistory_Remove (ts_seenTxs t) hashStr) (ts_assigner t)
           else t in
  let '(newTx, contents) := cm_set_if_absent (ts_hashToContent t) hashStr fresh in
  let t := with_maps t contents (ts_txIDToHash t) (ts_seenTxs t) (ts_assigner t) in
  if newTx then mret (Add_stored t true hashStr fresh content txID) else
  match cm_get (ts_hashToContent t) hashStr with
  | None =>
      mret (mkTransactionResult false false false false false (Some fresh) 0
              (Some "Transaction deleted by other GO routine"%string) false (zeros 20), t)
  | Some tbTransaction => mret (Add_stored t false hashStr tbTransaction content txID)
  end.

Definition TbTxStore_Get (now : Z) (t : TbTxStore) (hash : SHA256Hash) : option TbTransaction * TbTxStore :=
  let '(seen, t) := refreshSeenTx now t hash in
  if seen then (None, t) else (cm_get (ts_hashToContent t) (hash_key hash), t).

Definition TbTxStore_Known (now : Z) (t : TbTxStore) (hash : SHA256Hash) : bool * TbTxStore :=
  refreshSeenTx now t hash.

(** A stored transaction's content is nil exactly when it is empty. *)
Definition TbTxStore_HasContent (now : Z) (t : TbTxStore) (hash : SHA256Hash) : bool * TbTxStore :=
  let '(tx, t) := TbTxStore_Get now t hash in
  match tx with
  | None => (false, t)
  | Some tx => (bool_decide (tx_bytes tx <> []), t)
  end.

(** *** clean *)

(** The first loop: the ages in whole seconds, per network. *)
Definition record_age (currTime : Z) (networks : gmap Z networkData) (tx : TbTransaction)
    : gmap Z networkData :=
  let netData := default (mkNetworkData 0 [] 0 0) (networks !! tx_network tx) in
  let txAge := Z.quot (time_sub currTime (tx_addTime tx)) second_ns in
  <[tx_network tx := mkNetworkData (nd_maxAge netData) (nd_ages netData ++ [txAge])
                       (nd_cleanAge netData) (nd_cleanNoTxID netData)]> networks.

(** The second loop: the age limit of a network. *)
Definition set_maxAge (maxTxAge : Z) (netData : networkData) : networkData :=
  if decide (Z.of_nat (length (nd_ages netData)) <= TxStoreMaxSize)
  then mkNetworkData maxTxAge (nd_ages netData) (nd_cleanAge netData) (nd_cleanNoTxID netData)
  else
    let ages := merge_sort Z.le (nd_ages netData) in
    let maxAge := int64 (default 0 (ages !! Z.to_nat TxStoreCleanIndex) * second_ns) in
    mkNetworkData (if decide (maxTxAge < maxAge) then maxTxAge else maxAge) ages
      (nd_cleanAge netData) (nd_cleanNoTxID netData).

(** The body of the third loop. *)
Definition clean_item (currTime : Z)
    (st : TbTxStore * gmap Z networkData * gmap Z (list Z)) (item : string * TbTransaction)
    : outcome (TbTxStore * gmap Z networkData * gmap Z (list Z)) :=
  let '(t, networks, cleanedTxIDs) := st in
  let tx := item.2 in
  let networkNum := tx_network tx in
  let txAge := time_sub currTime (tx_addTime tx) in
  let remove_it networks :=
    (remove currTime t item.1 FullReEntryProtection, networks,
     <[networkNum := default [] (cleanedTxIDs !! networkNum) ++ tx_ids tx]> cleanedTxIDs) in
  let no_id := bool_decide (ts_noTxIDAge t < txAge /\ tx_ids tx = []) in
  match networks !! networkNum with
  | Some netData =>
      if decide (nd_maxAge netData < txAge) then
        mret (remove_it (<[networkNum := mkNetworkData (nd_maxAge netData) (nd_ages netData)
                            (nd_cleanAge netData + 1) (nd_cleanNoTxID netData)]> networks))
      else if no_id then
        mret (remove_it (<[networkNum := mkNetworkData (nd_maxAge netData) (nd_ages netData)
                            (nd_cleanAge netData) (nd_cleanNoTxID netData + 1)]> networks))
      else mret st
  | None => if no_id then Panics NilDereference else mret st
  end.

Fixpoint clean_items (currTime : Z) (st : TbTxStore * gmap Z networkData * gmap Z (list Z))
    (items : list (string * TbTransaction)) : outcome (TbTxStore * gmap Z networkData * gmap Z (list Z)) :=
  match items with
  | [] => mret st
  | item :: items => st ← clean_item currTime st item; clean_items currTime st items
  end.

Definition clean_networks (currTime : Z) (t : TbTxStore) : gmap Z networkData :=
  set_maxAge (ts_maxTxAge t) <$>
    foldl (record_age currTime) ∅ (snd <$> cm_iter (ts_hashToContent t)).

Definition sum_cleaned (networks : gmap Z networkData) : Z :=
  map_fold (fun _ nd acc => acc + (nd_cleanNoTxID nd + nd_cleanAge nd)) 0 networks.

(** [clean]: the store, the number of transactions cleaned, their short IDs by network. [now] is the reading of
    the clock at the start, and that of each removal for the history. *)
Definition TbTxStore_clean (now : Z) (t : TbTxStore) : outcome (TbTxStore * Z * gmap Z (list Z)) :=
  let networks := clean_networks now t in
  '(t, networks, cleanedTxIDs) ← clean_items now (t, networks, ∅) (cm_iter (ts_hashToContent t));
  mret (t, sum_cleaned networks, cleanedTxIDs).

(** [CleanNow]: the short IDs that were cleaned go to the channel, if there is one; the send waits for room. *)
Definition CleanNow (now : Z) (cleanedTxIDsChannel : option (chan (gmap Z (list Z)))) (t : TbTxStore)
    : outcome (option (chan (gmap Z (list Z))) * TbTxStore) :=
  '(t, cleaned, cleanedTxIDs) ← TbTxStore_clean now t;
  match cleanedTxIDsChannel with
  | Some channel =>
      if decide (0 < Z.of_nat (size cleanedTxIDs)) then channel ← send channel cleanedTxIDs; mret (Some channel, t)
      else mret (Some channel, t)
  | None => mret (None, t)
  end.
End TbTxStore.
Arguments TbTxStore M A : clear implicits.
