(* ===== verification/TxStoreFacts.v ===== *)
(** Invariant and correctness of the transaction store. *)
From S2P Require Import Prelude Bytes CMap Types HashHistory TxStore.

Section Facts.
Context {M : Type -> Type} `{ConcurrentMapLaws M} {A : Type} `{!TxIDAssigner A}.
Implicit Types t : TbTxStore M A.

(** The finite maps behind a store. *)
Definition contents t : gmap string TbTransaction := cm_view (ts_hashToContent t).
Definition ids_map t : gmap string SHA256Hash := cm_view (ts_txIDToHash t).

(** The store's invariant: a transaction is filed under its own hash, has no empty and no
    repeated short ID, and a short ID on file leads to a stored transaction carrying it. *)
Record store_ok t : Prop := {
  ok_key k tx : contents t !! k = Some tx -> k = hash_key (tx_hash tx);
  ok_ids k tx : contents t !! k = Some tx -> NoDup (tx_ids tx) /\ Forall (fun x => 0 < x) (tx_ids tx);
  ok_lookup k h : ids_map t !! k = Some h ->
    exists tx id, contents t !! hash_key h = Some tx /\ id ∈ tx_ids tx /\ k = txID_key id
}.

Lemma hash_key_inj h h' : hash_key h = hash_key h' -> h = h'.
Proof. apply (inj to_string). Qed.

Lemma txID_key_inj x y : 0 < x -> 0 < y -> txID_key x = txID_key y -> x = y.
Proof. intros. apply format_uint_inj; lia || done. Qed.

(** *** remove *)
Lemma remove_contents now t hash p : contents (remove now t hash p) = delete hash (contents t).
Proof.
  unfold remove, contents.
  destruct (cm_pop (ts_hashToContent t) hash) as [o m'] eqn:Hpop.
  pose proof (cm_pop_fst (ts_hashToContent t) hash) as Hf.
  pose proof (cm_view_pop (ts_hashToContent t) hash) as Hv. rewrite Hpop in Hf, Hv. simpl in Hf, Hv.
  destruct o as [tx|]; [done|]. symmetry. by apply delete_id.
Qed.

Lemma remove_ids now t hash p k h :
  ids_map (remove now t hash p) !! k = Some h <->
  ids_map t !! k = Some h /\ (forall tx, contents t !! hash = Some tx -> k ∉ txID_key <$> tx_ids tx).
Proof.
  unfold remove, ids_map, contents.
  destruct (cm_pop (ts_hashToContent t) hash) as [o m'] eqn:Hpop.
  pose proof (cm_pop_fst (ts_hashToContent t) hash) as Hf. rewrite Hpop in Hf. simpl in Hf.
  rewrite <- Hf. destruct o as [tx|]; [|naive_solver]. simpl.
  assert (foldl (fun m txID => cm_remove m (txID_key txID)) (ts_txIDToHash t) (tx_ids tx)
          = foldl cm_remove (ts_txIDToHash t) (txID_key <$> tx_ids tx)) as ->.
  { generalize (ts_txIDToHash t). induction (tx_ids tx) as [|x l IH]; intros m; [done|]. simpl. apply IH. }
  rewrite remove_keys_lookup. naive_solver.
Qed.

Lemma remove_seen now t hash p :
  ts_seenTxs (remove now t hash p)
  = match contents t !! hash with None => ts_seenTxs t | Some _ => protect now t hash p end.
Proof.
  unfold remove, contents.
  destruct (cm_pop (ts_hashToContent t) hash) as [o m'] eqn:Hpop.
  pose proof (cm_pop_fst (ts_hashToContent t) hash) as Hf. rewrite Hpop in Hf. simpl in Hf.
  rewrite <- Hf. by destruct o.
Qed.

Lemma remove_config now t hash p :
  ts_timeToAvoidReEntry (remove now t hash p) = ts_timeToAvoidReEntry t /\
  ts_maxTxAge (remove now t hash p) = ts_maxTxAge t /\
  ts_noTxIDAge (remove now t hash p) = ts_noTxIDAge t.
Proof. unfold remove. by destruct (cm_pop _ _) as [[|] ?]. Qed.

Lemma remove_ok now t hash p : store_ok t -> store_ok (remove now t hash p).
Proof.
  intros [Hk Hi Hl]. split.
  - intros k tx. rewrite remove_contents, lookup_delete_Some. naive_solver.
  - intros k tx. rewrite remove_contents, lookup_delete_Some. naive_solver.
  - intros k h [Hh Hnot]%remove_ids. destruct (Hl k h Hh) as (tx & id & Htx & Hid & ->).
    exists tx, id. rewrite remove_contents, lookup_delete_Some. repeat split; [|done..].
    intros ->. apply (Hnot tx Htx). by apply list_elem_of_fmap_2.
Qed.

Lemma RemoveHashes_ok now t hashes p : store_ok t -> store_ok (RemoveHashes now t hashes p).
Proof.
  unfold RemoveHashes. revert t. induction hashes as [|h hs IH]; intros t Ht; [done|].
  apply IH. by apply remove_ok.
Qed.

Lemma RemoveHashes_contents now t hashes p k :
  contents (RemoveHashes now t hashes p) !! k
  = if decide (k ∈ hash_key <$> hashes) then None else contents t !! k.
Proof.
  unfold RemoveHashes. revert t. induction hashes as [|h hs IH]; intros t; [done|]. cbn [foldl].
  rewrite IH, remove_contents, fmap_cons. repeat case_decide; try done.
  - set_solver.
  - assert (k = hash_key h) as -> by set_solver. apply lookup_delete_eq.
  - apply lookup_delete_ne. set_solver.
Qed.

(** *** the short reads *)
Lemma with_maps_contents t h i s a : contents (with_maps t h i s a) = cm_view h.
Proof. done. Qed.

Lemma refreshSeenTx_ok now t hash : store_ok t -> store_ok (snd (refreshSeenTx now t hash)).
Proof.
  intros [Hk Hi Hl]. unfold refreshSeenTx. case_match; simpl; by split.
Qed.

Lemma refreshSeenTx_maps now t hash :
  contents (snd (refreshSeenTx now t hash)) = contents t /\
  ids_map (snd (refreshSeenTx now t hash)) = ids_map t /\
  ts_assigner (snd (refreshSeenTx now t hash)) = ts_assigner t.
Proof. unfold refreshSeenTx. by case_match. Qed.

Lemma Clear_ok t : store_ok (Clear t).
Proof. split; intros k ?; unfold Clear, contents, ids_map; simpl; by rewrite cm_view_clear, lookup_empty. Qed.

(** *** Add *)

(** What a store should hold for a hash after it accepted a transaction message: the specification
    of [Add], free of maps and flags. *)
Definition merged (old : option TbTransaction) (hash : SHA256Hash) (content : list byte)
    (txID networkNum timestamp : Z) : TbTransaction :=
  let old := default (NewTbTransaction hash networkNum timestamp) old in
  mkTbTransaction (tx_hash old)
    (if decide (tx_bytes old = []) then content else tx_bytes old)
    (if decide (txID = TxIDEmpty \/ txID ∈ tx_ids old) then tx_ids old else tx_ids old ++ [txID])
    (tx_addTime old) (tx_network old).

(** The short ID in effect: the message's, or a fresh one for a new transaction. *)
Definition effective_txID t (newTx : bool) (txID : Z) : Z :=
  if decide (newTx = true /\ txID = TxIDEmpty) then fst (Next (ts_assigner t)) else txID.

Lemma AddTxID_merged bt txID :
  AddTxID bt txID
  = (bool_decide (txID <> TxIDEmpty /\ txID ∉ tx_ids bt),
     mkTbTransaction (tx_hash bt) (tx_bytes bt)
       (if decide (txID = TxIDEmpty \/ txID ∈ tx_ids bt) then tx_ids bt else tx_ids bt ++ [txID])
       (tx_addTime bt) (tx_network bt)).
Proof.
  unfold AddTxID. destruct bt as [h b ids a n]. simpl.
  pose proof (has_txID_spec txID ids) as Hh.
  case_decide as Hz; [|destruct (has_txID txID ids) eqn:He].
  - by rewrite bool_decide_false, decide_True by naive_solver.
  - by rewrite bool_decide_false, decide_True by naive_solver.
  - by rewrite bool_decide_true, decide_False by naive_solver.
Qed.

Lemma SetContent_merged bt content :
  SetContent bt content
  = (bool_decide (tx_bytes bt = [] /\ content <> []),
     mkTbTransaction (tx_hash bt) (if decide (tx_bytes bt = []) then content else tx_bytes bt)
       (tx_ids bt) (tx_addTime bt) (tx_network bt)).
Proof.
  pose proof (SetContent_spec bt content) as (H1 & H2 & H3 & H4 & H5 & H6).
  destruct (SetContent bt content) as [b [h bs ids a n]]. simpl in *. congruence.
Qed.

Lemma Add_stored_spec t newTx k tx content txID :
  let id := effective_txID t newTx txID in
  let tx' := merged (Some tx) (tx_hash tx) content id (tx_network tx) (tx_addTime tx) in
  let '(r, t') := Add_stored t newTx k tx content txID in
  contents t' = <[k := tx']> (contents t) /\
  ids_map t' = (if decide (id <> TxIDEmpty /\ id ∉ tx_ids tx)
                then <[txID_key id := tx_hash tx]> (ids_map t) else ids_map t) /\
  ts_seenTxs t' = ts_seenTxs t /\ ts_maxTxAge t' = ts_maxTxAge t /\
  tr_NewTx r = newTx /\
  tr_NewTxID r = bool_decide (id <> TxIDEmpty /\ id ∉ tx_ids tx) /\
  tr_NewContent r = bool_decide (tx_bytes tx = [] /\ content <> []) /\
  tr_Transaction r = Some tx' /\ tr_AlreadySeen r = false /\ tr_Reprocess r = false.
Proof.
  unfold Add_stored, effective_txID. cbn zeta.
  destruct (Next (ts_assigner t)) as [nid a'] eqn:Hn.
  destruct (decide (newTx = true /\ txID = TxIDEmpty)) as [[-> ->]|Hne]; cbn zeta iota beta;
    rewrite AddTxID_merged; cbn zeta iota beta; rewrite SetContent_merged; cbn zeta iota beta;
    simpl; unfold contents, ids_map; simpl; rewrite cm_view_set;
    (repeat split; [|..]; try done); rewrite bool_decide_decide; case_decide; rewrite ?cm_view_set; done.
Qed.

(** Filing an updated transaction under its key, and its new short ID, keeps the invariant. *)
Lemma insert_ok t t' tx' id new :
  store_ok t ->
  NoDup (tx_ids tx') -> Forall (fun x => 0 < x) (tx_ids tx') ->
  (forall tx, contents t !! hash_key (tx_hash tx') = Some tx -> tx_ids tx ⊆ tx_ids tx') ->
  (new = true -> id ∈ tx_ids tx') ->
  contents t' = <[hash_key (tx_hash tx') := tx']> (contents t) ->
  ids_map t' = (if new : bool then <[txID_key id := tx_hash tx']> (ids_map t) else ids_map t) ->
  store_ok t'.
Proof.
  intros [Hk Hi Hl] Hnd Hpos Hsub Hnew Hc Hm. split; rewrite ?Hc, ?Hm.
  - intros k tx [[<- <-]|[? ?]]%lookup_insert_Some; naive_solver.
  - intros k tx [[<- <-]|[? ?]]%lookup_insert_Some; naive_solver.
  - assert (forall k h, ids_map t !! k = Some h -> exists tx id,
      <[hash_key (tx_hash tx') := tx']> (contents t) !! hash_key h = Some tx /\ id ∈ tx_ids tx /\ k = txID_key id) as Hold.
    { intros k h Hh. destruct (Hl k h Hh) as (tx & i & Htx & Hin & ->).
      destruct (decide (hash_key h = hash_key (tx_hash tx'))) as [Heq|Hne].
      - exists tx', i. rewrite Heq, lookup_insert_eq in *. split; [done|]. split; [|done].
        eapply Hsub; eauto.
      - exists tx, i. by rewrite lookup_insert_ne. }
    destruct new; [|done]. intros k h [[<- <-]|[? ?]]%lookup_insert_Some; [|by eapply Hold].
    exists tx', id. rewrite lookup_insert_eq. auto.
Qed.

Lemma merged_ids old hash content id n ts x :
  x ∈ tx_ids (merged old hash content id n ts) <->
  (exists tx, old = Some tx /\ x ∈ tx_ids tx) \/ (x = id /\ id <> TxIDEmpty).
Proof.
  assert ((exists tx, old = Some tx /\ x ∈ tx_ids tx)
    <-> x ∈ tx_ids (default (NewTbTransaction hash n ts) old)) as ->.
  { destruct old as [tx|]; simpl; [|rewrite elem_of_nil].
    - split; [by intros (? & [= <-] & ?)|eauto].
    - split; [by intros (? & ? & ?)|done]. }
  unfold merged. cbn [tx_ids]. case_decide as Hd.
  - split; [auto|]. intros [?|[-> ?]]; [done|]. by destruct Hd.
  - rewrite elem_of_app, list_elem_of_singleton. intuition congruence.
Qed.

Lemma merged_nodup old hash content id n ts :
  (forall tx, old = Some tx -> NoDup (tx_ids tx)) -> NoDup (tx_ids (merged old hash content id n ts)).
Proof.
  intros Hold. unfold merged. destruct old as [tx|]; cbn -[decide]; case_decide; auto using NoDup_nil_2, NoDup_singleton.
  apply NoDup_app. split; [auto|]. split; [|apply NoDup_singleton]. set_solver.
Qed.

Definition seen t now hash : bool := HashHistory_Exists now (ts_seenTxs t) (hash_key hash).

(** What [Add] does when it accepts a message. *)
Definition accepted t (r : TransactionResult) t' now hash content txID networkNum timestamp : Prop :=
  let old := contents t !! hash_key hash in
  let id := effective_txID t (bool_decide (old = None)) txID in
  let tx' := merged old hash content id networkNum timestamp in
  let old_ids := match old with Some tx => tx_ids tx | None => [] end in
  let old_content := match old with Some tx => tx_bytes tx | None => [] end in
  contents t' = <[hash_key hash := tx']> (contents t) /\
  tr_Transaction r = Some tx' /\
  tr_NewTx r = bool_decide (old = None) /\
  tr_NewTxID r = bool_decide (id <> TxIDEmpty /\ id ∉ old_ids) /\
  tr_NewContent r = bool_decide (old_content = [] /\ content <> []) /\
  (tr_NewTxID r = true -> GetTxByID t' id = Ok tx') /\
  seen t' now hash = false /\ tr_AlreadySeen r = false.

Lemma Add_stored_accepted t t0 now hash content txID networkNum timestamp tx :
  let old := contents t !! hash_key hash in
  store_ok t -> 0 <= txID -> 0 <= fst (Next (ts_assigner t)) ->
  tx = default (NewTbTransaction hash networkNum timestamp) old ->
  contents t0 = <[hash_key hash := tx]> (contents t) -> ids_map t0 = ids_map t ->
  ts_assigner t0 = ts_assigner t -> seen t0 now hash = false ->
  let '(r, t') := Add_stored t0 (bool_decide (old = None)) (hash_key hash) tx content txID in
  store_ok t' /\ accepted t r t' now hash content txID networkNum timestamp.
Proof.
  cbn zeta. intros Hok Hid Hnext Htx Hc Hm Ha Hs.
  assert (tx_hash tx = hash) as Hth.
  { subst tx. destruct (contents t !! hash_key hash) as [tx|] eqn:Hold; [|done].
    symmetry. apply hash_key_inj. by apply (ok_key t Hok). }
  pose proof (Add_stored_spec t0 (bool_decide (contents t !! hash_key hash = None)) (hash_key hash) tx content txID) as Hspec.
  cbn zeta in Hspec. destruct (Add_stored _ _ _ _ _ _) as [r t'].
  assert (effective_txID t0 (bool_decide (contents t !! hash_key hash = None)) txID
          = effective_txID t (bool_decide (contents t !! hash_key hash = None)) txID) as Heff
    by (unfold effective_txID; by rewrite Ha).
  rewrite Heff in Hspec. set (id := effective_txID t _ txID) in *.
  assert (0 <= id) as Hpos by (unfold id, effective_txID; by destruct (decide (_ /\ txID = TxIDEmpty))).
  set (old := contents t !! hash_key hash) in *.
  assert (merged (Some tx) (tx_hash tx) content id (tx_network tx) (tx_addTime tx)
          = merged old hash content id networkNum timestamp) as Hmerge.
  { subst tx. unfold merged. by destruct old. }
  rewrite Hmerge, Hth, Hc, Hm, insert_insert_eq in Hspec.
  set (tx' := merged old hash content id networkNum timestamp) in *.
  assert (tx_hash tx' = hash) as Hth'.
  { subst tx'. rewrite <- Hmerge. by unfold merged. }
  destruct Hspec as (Hc' & Hm' & Hs' & _ & Hnew & Hnid & Hnc & Htr & Has & _).
  assert (tx_ids tx = match old with Some tx => tx_ids tx | None => [] end) as Hti by (subst tx; by destruct old).
  assert (tx_bytes tx = match old with Some tx => tx_bytes tx | None => [] end) as Htb by (subst tx; by destruct old).
  rewrite Hti in Hnid, Hm'. rewrite Htb in Hnc.
  assert (forall x, x ∈ tx_ids tx' <-> (exists tx, old = Some tx /\ x ∈ tx_ids tx) \/ (x = id /\ id <> TxIDEmpty)) as Hids
    by (intros x; apply merged_ids).
  assert (store_ok t') as Hok'.
  { eapply (insert_ok t t' tx' id (tr_NewTxID r)); [done|..].
    - apply merged_nodup. intros tx0 Htx0. by apply (ok_ids t Hok (hash_key hash) tx0).
    - apply Forall_forall. intros x [(tx0 & Htx0 & Hx)|[-> Hne]]%Hids.
      + destruct (ok_ids t Hok _ _ Htx0) as [_ Hall]. by eapply (proj1 (Forall_forall _ _) Hall).
      + unfold TxIDEmpty in Hne. lia.
    - rewrite Hth'. intros tx0 Htx0 x Hx. apply Hids. left. eauto.
    - rewrite Hnid, bool_decide_eq_true. intros [Hne _]. apply Hids. auto.
    - by rewrite Hth'.
    - rewrite Hm', Hnid, Hth', bool_decide_decide. by case_decide. }
  split; [done|]. unfold accepted. fold old. fold id. fold tx'.
  repeat split; try done.
  - rewrite Hnid, bool_decide_eq_true. intros Hadd. unfold GetTxByID.
    rewrite cm_get_spec. change (cm_view (ts_txIDToHash t')) with (ids_map t').
    rewrite Hm', decide_True, lookup_insert_eq by done. rewrite cm_get_spec.
    change (cm_view (ts_hashToContent t')) with (contents t'). by rewrite Hc', lookup_insert_eq.
  - unfold seen. by rewrite Hs'.
Qed.

Lemma with_maps_ok t h i s a :
  store_ok t -> cm_view h = contents t -> cm_view i = ids_map t -> store_ok (with_maps t h i s a).
Proof.
  intros [Hk Hi Hl] Hh Hm. unfold contents, ids_map in *.
  split; unfold contents, ids_map; simpl; rewrite ?Hh, ?Hm; done.
Qed.

(** The transaction a refused message is answered with. *)
Definition refused (r : TransactionResult) hash networkNum timestamp (alreadySeen : bool) : Prop :=
  tr_NewTx r = false /\ tr_NewContent r = false /\ tr_NewTxID r = false /\
  tr_Transaction r = Some (NewTbTransaction hash networkNum timestamp) /\ tr_AlreadySeen r = alreadySeen.

Definition too_old t now timestamp : Prop := ts_maxTxAge t < time_sub now timestamp.

Lemma Add_too_old t now hash content txID networkNum timestamp :
  ~ (txID = TxIDEmpty /\ content = []) -> too_old t now timestamp ->
  exists r, TbTxStore_Add now t hash content txID networkNum timestamp = Ret (r, t) /\
    refused r hash networkNum timestamp false.
Proof.
  intros Hne Hold. unfold TbTxStore_Add. rewrite decide_False, decide_True by (done || (destruct content; naive_solver)).
  eexists. split; [done|]. by repeat split.
Qed.

Lemma Add_seen t now hash content networkNum timestamp :
  content <> [] -> ~ too_old t now timestamp -> seen t now hash = true ->
  exists r t', TbTxStore_Add now t hash content TxIDEmpty networkNum timestamp = Ret (r, t') /\
    refused r hash networkNum timestamp true /\
    contents t' = contents t /\ ids_map t' = ids_map t /\
    ts_seenTxs t' = HashHistory_Add now (ts_seenTxs t) (hash_key hash) (ts_timeToAvoidReEntry t).
Proof.
  intros Hne Hold Hs. unfold TbTxStore_Add, seen in *.
  rewrite decide_False, decide_False by (done || (destruct content; naive_solver)).
  unfold refreshSeenTx. rewrite Hs. cbn zeta iota beta. rewrite decide_True by done.
  eexists _, _. by repeat split.
Qed.

Lemma Add_accepted t now hash content txID networkNum timestamp :
  store_ok t -> 0 <= txID -> 0 <= fst (Next (ts_assigner t)) ->
  ~ (txID = TxIDEmpty /\ content = []) -> ~ too_old t now timestamp ->
  ~ (seen t now hash = true /\ txID = TxIDEmpty) ->
  exists r t', TbTxStore_Add now t hash content txID networkNum timestamp = Ret (r, t') /\
    store_ok t' /\ accepted t r t' now hash content txID networkNum timestamp.
Proof.
  intros Hok Hid Hnext Hne Hold Hseen. unfold TbTxStore_Add.
  rewrite decide_False by (destruct content; naive_solver).
  rewrite (decide_False (P := ts_maxTxAge t < _)) by done.
  unfold refreshSeenTx, seen in *.
  set (s := HashHistory_Exists now (ts_seenTxs t) (hash_key hash)) in *.
  (* the store after the visit to the history *)
  set (t1 := if s then with_maps t (ts_hashToContent t) (ts_txIDToHash t)
     (HashHistory_Remove (HashHistory_Add now (ts_seenTxs t) (hash_key hash) (ts_timeToAvoidReEntry t)) (hash_key hash))
     (ts_assigner t) else t).
  assert (contents t1 = contents t /\ ids_map t1 = ids_map t /\ ts_assigner t1 = ts_assigner t
          /\ seen t1 now hash = false) as (Hc1 & Hm1 & Ha1 & Hs1).
  { subst t1. destruct s eqn:Hs; repeat split; try done. unfold seen. simpl.
    rewrite Exists_Remove. by rewrite decide_True. }
  destruct (cm_set_if_absent (ts_hashToContent t1) (hash_key hash) (NewTbTransaction hash networkNum timestamp))
    as [newTx m'] eqn:Hset.
  pose proof (cm_set_if_absent_fst (ts_hashToContent t1) (hash_key hash) (NewTbTransaction hash networkNum timestamp)) as Hf.
  pose proof (cm_view_set_if_absent (ts_hashToContent t1) (hash_key hash) (NewTbTransaction hash networkNum timestamp)) as Hv.
  rewrite Hset in Hf, Hv. simpl in Hf, Hv.
  change (cm_view (ts_hashToContent t1)) with (contents t1) in Hf, Hv. rewrite Hc1 in Hf, Hv.
  pose (t2 := with_maps t1 m' (ts_txIDToHash t1) (ts_seenTxs t1) (ts_assigner t1)).
  pose (tx := default (NewTbTransaction hash networkNum timestamp) (contents t !! hash_key hash)).
  assert (contents t2 = <[hash_key hash := tx]> (contents t)) as Hc2.
  { unfold t2, contents at 1. simpl. rewrite Hv. unfold tx.
    destruct (contents t !! hash_key hash) eqn:Ho; simpl; [|done]. symmetry. by apply insert_id. }
  pose proof (Add_stored_accepted t t2 now hash content txID networkNum timestamp tx Hok Hid Hnext eq_refl
    Hc2 Hm1 Ha1 Hs1) as Hadd.
  assert (forall r : TransactionResult * TbTxStore M A,
    r = Add_stored t2 (bool_decide (contents t !! hash_key hash = None)) (hash_key hash) tx content txID ->
    exists r0 t', Ret r = Ret (r0, t') /\ store_ok t' /\ accepted t r0 t' now hash content txID networkNum timestamp) as Hend.
  { intros r ->. destruct (Add_stored _ _ _ _ _ _) as [r t']. by exists r, t'. }
  assert (cm_get m' (hash_key hash) = Some tx) as Hget.
  { rewrite cm_get_spec. change (cm_view m') with (contents t2). by rewrite Hc2, lookup_insert_eq. }
  clear Hadd.
  assert ((if newTx then Ret (Add_stored t2 true (hash_key hash) (NewTbTransaction hash networkNum timestamp) content txID)
           else Ret (Add_stored t2 false (hash_key hash) tx content txID))
          = Ret (Add_stored t2 (bool_decide (contents t !! hash_key hash = None)) (hash_key hash) tx content txID)) as Hboth.
  { rewrite Hf. unfold tx. by destruct (contents t !! hash_key hash). }
  destruct s eqn:Hs; cbn zeta iota beta; (rewrite decide_False by naive_solver);
    (match goal with |- context [cm_set_if_absent ?m _ _] => change m with (ts_hashToContent t1) end);
    rewrite Hset; cbn [ts_hashToContent with_maps]; rewrite Hget;
    destruct (Hend _ eq_refl) as (r & t' & Heq & Hok' & Hacc); exists r, t';
    (split; [rewrite <- Heq, <- Hboth; by destruct newTx|by split]).
Qed.

(** *** clean *)
Definition age now tx : Z := time_sub now (tx_addTime tx).

(** The clean-up test, given the age limits of the networks. *)
Definition expires now (noTxIDAge : Z) (networks : gmap Z networkData) tx : bool :=
  match networks !! tx_network tx with
  | Some nd => bool_decide (nd_maxAge nd < age now tx \/ (noTxIDAge < age now tx /\ tx_ids tx = []))
  | None => false
  end.

Definition clean_store now noTxIDAge networks t (items : list (string * TbTransaction)) :=
  foldl (fun t item => if expires now noTxIDAge networks item.2
                       then remove now t item.1 FullReEntryProtection else t) t items.

Definition same_limits (n1 n2 : gmap Z networkData) : Prop :=
  forall n, nd_maxAge <$> n1 !! n = nd_maxAge <$> n2 !! n.

Lemma expires_same now a n1 n2 tx : same_limits n1 n2 -> expires now a n1 tx = expires now a n2 tx.
Proof.
  intros Hs. unfold expires. specialize (Hs (tx_network tx)).
  destruct (n1 !! _) as [nd1|], (n2 !! _) as [nd2|]; simpl in Hs; try discriminate; [|done].
  injection Hs as Hs. by rewrite Hs.
Qed.

Lemma sum_cleaned_insert (networks : gmap Z networkData) n nd nd' :
  networks !! n = Some nd ->
  sum_cleaned (<[n := nd']> networks)
  = sum_cleaned networks - (nd_cleanNoTxID nd + nd_cleanAge nd) + (nd_cleanNoTxID nd' + nd_cleanAge nd').
Proof.
  intros Hn. unfold sum_cleaned.
  rewrite <- insert_delete_eq, map_fold_insert_L; [|intros; lia|apply lookup_delete_eq].
  rewrite <- (insert_id networks n nd Hn) at 2.
  rewrite <- (insert_delete_eq networks n nd), map_fold_insert_L; [lia|intros; lia|apply lookup_delete_eq].
Qed.

Lemma same_limits_insert (networks : gmap Z networkData) n nd nd' :
  networks !! n = Some nd -> nd_maxAge nd' = nd_maxAge nd -> same_limits networks (<[n := nd']> networks).
Proof.
  intros Hn Hm n'. rewrite lookup_insert. case_decide as Heq; [|done]. subst n'. rewrite Hn. simpl. congruence.
Qed.

Lemma clean_items_spec now items t networks cleaned :
  (forall item, item ∈ items -> is_Some (networks !! tx_network item.2)) ->
  exists networks' cleaned',
    clean_items now (t, networks, cleaned) items
    = Ret (clean_store now (ts_noTxIDAge t) networks t items, networks', cleaned') /\
    sum_cleaned networks' = sum_cleaned networks
      + Z.of_nat (length (filter (fun item => expires now (ts_noTxIDAge t) networks item.2 = true) items)).
Proof.
  revert t networks cleaned. induction items as [|item items IH]; intros t networks cleaned Hdom.
  { eexists _, _. split; [done|]. cbn. lia. }
  destruct (Hdom item ltac:(by left)) as [nd Hnd].
  assert (exists networks' cleaned',
    clean_item now (t, networks, cleaned) item
    = Ret (if expires now (ts_noTxIDAge t) networks item.2 then remove now t item.1 FullReEntryProtection else t,
           networks', cleaned') /\ same_limits networks networks' /\
    sum_cleaned networks' = sum_cleaned networks + (if expires now (ts_noTxIDAge t) networks item.2 then 1 else 0))
    as (n1 & c1 & Hstep & Hlim & Hsum).
  { unfold clean_item, expires. rewrite Hnd. fold (age now item.2).
    destruct (decide (nd_maxAge nd < age now item.2)) as [Hage|Hage].
    - rewrite bool_decide_true by auto. eexists _, _. split; [done|].
      split; [by eapply same_limits_insert|]. erewrite sum_cleaned_insert by done. simpl. lia.
    - destruct (decide (ts_noTxIDAge t < age now item.2 /\ tx_ids item.2 = [])) as [Hid|Hid].
      + rewrite !bool_decide_true by auto. eexists _, _. split; [done|].
        split; [by eapply same_limits_insert|]. erewrite sum_cleaned_insert by done. simpl. lia.
      + rewrite !bool_decide_false by tauto. eexists _, _. split; [done|]. split; [done|lia]. }
  cbn [clean_items]. rewrite Hstep. go_simpl.
  assert (ts_noTxIDAge (if expires now (ts_noTxIDAge t) networks item.2
            then remove now t item.1 FullReEntryProtection else t) = ts_noTxIDAge t) as Hcfg
    by (case_match; [apply remove_config|done]).
  edestruct (IH (if expires now (ts_noTxIDAge t) networks item.2
            then remove now t item.1 FullReEntryProtection else t) n1 c1) as (n2 & c2 & Heq & Hsum2).
  { intros it Hit. destruct (Hdom it ltac:(by right)) as [nd' Hnd']. specialize (Hlim (tx_network it.2)).
    rewrite Hnd' in Hlim. destruct (n1 !! _); [eauto|done]. }
  rewrite Heq, Hcfg. exists n2, c2. split.
  - do 3 f_equal. unfold clean_store. cbn [foldl]. apply foldl_agree.
    intros u it _. by rewrite (expires_same _ _ _ _ _ Hlim).
  - rewrite Hsum2, Hsum, Hcfg, filter_cons. simpl.
    assert (filter (fun it => expires now (ts_noTxIDAge t) n1 it.2 = true) items
            = filter (fun it => expires now (ts_noTxIDAge t) networks it.2 = true) items) as ->.
    { apply list_filter_iff. intros it. by rewrite (expires_same _ _ _ _ _ Hlim). }
    destruct (expires _ _ networks item.2); simpl; lia.
Qed.

Lemma clean_store_contents now a networks t items :
  contents (clean_store now a networks t items)
  = foldl (fun m item => if expires now a networks item.2 then delete item.1 m else m) (contents t) items.
Proof.
  unfold clean_store. revert t. induction items as [|item items IH]; intros t; [done|]. simpl.
  rewrite IH. f_equal. case_match; [apply remove_contents|done].
Qed.

Lemma clean_store_ok now a networks t items : store_ok t -> store_ok (clean_store now a networks t items).
Proof.
  unfold clean_store. revert t. induction items as [|item items IH]; intros t Hok; [done|].
  apply IH. case_match; [by apply remove_ok|done].
Qed.

(** The history after a clean-up: every expired transaction is protected from re-entry. *)
Lemma clean_store_seen u now a networks t items k :
  NoDup (fst <$> items) -> (forall k tx, (k, tx) ∈ items -> contents t !! k = Some tx) ->
  HashHistory_Exists u (ts_seenTxs (clean_store now a networks t items)) k
  = if decide (Exists (fun item => item.1 = k /\ expires now a networks item.2 = true) items)
    then bool_decide (u < expiry now (ts_timeToAvoidReEntry t))
    else HashHistory_Exists u (ts_seenTxs t) k.
Proof.
  unfold clean_store. revert t. induction items as [|[k' tx] items IH]; intros t Hnd Hin.
  { rewrite decide_False; [done|]. by intros ?%Exists_nil. }
  apply NoDup_cons in Hnd as [Hni Hnd]. cbn [foldl].
  pose proof (Hin k' tx ltac:(by left)) as Hk'. simpl.
  destruct (expires now a networks tx) eqn:He.
  - rewrite IH; [|done|].
    2:{ intros k0 tx0 Hin0. rewrite remove_contents, lookup_delete_ne; [apply Hin; by right|].
        intros <-. apply Hni. apply list_elem_of_fmap. by exists (k', tx0). }
    rewrite (proj1 (remove_config _ _ _ _)), remove_seen, Hk'. simpl. rewrite Exists_Add.
    destruct (decide (Exists _ items)) as [Hex|Hnex].
    + rewrite decide_True; [done|]. by right.
    + destruct (decide (k' = k)) as [->|Hne]; [by rewrite decide_True by (by left)|].
      rewrite decide_False; [done|]. intros [[? ?]|?]%Exists_cons; simpl in *; congruence.
  - rewrite IH; [|done|intros ???; apply Hin; by right].
    destruct (decide (Exists _ items)) as [Hex|Hnex].
    + rewrite decide_True; [done|]. by right.
    + rewrite decide_False; [done|]. intros [[? ?]|?]%Exists_cons; simpl in *; congruence.
Qed.
End Facts.
