(* ===== verification/TxStoreSpec.v ===== *)
(** The properties of the transaction store. *)
From S2P Require Import Prelude Bytes CMap Types HashHistory TxStore TxStoreFacts.

(** ** The age limits [clean] computes *)
Section Limits.
Context {M : Type -> Type} `{ConcurrentMapLaws M} {A : Type} `{!TxIDAssigner A}.
Implicit Types t : TbTxStore M A.

Definition age_seconds now tx : Z := Z.quot (age now tx) second_ns.

Definition network_txs (n : Z) (txs : list TbTransaction) : list TbTransaction :=
  filter (fun tx => tx_network tx = n) txs.

(** The ages recorded for network [n]. *)
Definition recorded now n txs : list Z := age_seconds now <$> network_txs n txs.

Lemma record_ages_lookup now txs (m : gmap Z networkData) n :
  foldl (record_age now) m txs !! n
  = match network_txs n txs with
    | [] => m !! n
    | _ => let nd := default (mkNetworkData 0 [] 0 0) (m !! n) in
           Some (mkNetworkData (nd_maxAge nd) (nd_ages nd ++ recorded now n txs)
                   (nd_cleanAge nd) (nd_cleanNoTxID nd))
    end.
Proof.
  revert m. induction txs as [|tx txs IH]; intros m; [done|]. cbn [foldl]. rewrite IH.
  unfold recorded, network_txs. rewrite filter_cons. unfold record_age.
  destruct (decide (tx_network tx = n)) as [<-|Hne].
  - rewrite !lookup_insert_eq. fold (age now tx). simpl.
    destruct (filter _ txs); simpl; [done|]. by rewrite <- app_assoc.
  - rewrite !lookup_insert_ne by done. done.
Qed.

(** The age limit of a network, given the transactions it holds. *)
Definition age_limit (maxTxAge : Z) (ages : list Z) : Z :=
  if decide (Z.of_nat (length ages) <= TxStoreMaxSize) then maxTxAge
  else Z.min maxTxAge (int64 (default 0 (merge_sort Z.le ages !! Z.to_nat TxStoreCleanIndex) * second_ns)).

Definition stored_txs t : list TbTransaction := snd <$> cm_iter (ts_hashToContent t).

Lemma set_maxAge_limit a nd : nd_maxAge (set_maxAge a nd) = age_limit a (nd_ages nd).
Proof. unfold set_maxAge, age_limit. repeat case_decide; simpl; lia. Qed.

Lemma clean_networks_lookup now t n nd :
  clean_networks now t !! n = Some nd ->
  nd_maxAge nd = age_limit (ts_maxTxAge t) (recorded now n (stored_txs t)).
Proof.
  unfold clean_networks. rewrite lookup_fmap, record_ages_lookup, lookup_empty.
  change (snd <$> cm_iter (ts_hashToContent t)) with (stored_txs t).
  destruct (network_txs n (stored_txs t)) eqn:Hn; [done|]. simpl.
  intros [= <-]. by rewrite set_maxAge_limit.
Qed.

Lemma clean_networks_dom now t tx :
  tx ∈ stored_txs t -> is_Some (clean_networks now t !! tx_network tx).
Proof.
  intros Hin. unfold clean_networks. rewrite lookup_fmap, record_ages_lookup, lookup_empty.
  change (snd <$> cm_iter (ts_hashToContent t)) with (stored_txs t).
  destruct (network_txs (tx_network tx) (stored_txs t)) eqn:Hn; [|by eexists].
  exfalso. assert (tx ∈ network_txs (tx_network tx) (stored_txs t)) as Hin'
    by (by apply list_elem_of_filter).
  rewrite Hn in Hin'. by apply not_elem_of_nil in Hin'.
Qed.

Lemma sum_cleaned_fresh now t : sum_cleaned (clean_networks now t) = 0.
Proof.
  unfold sum_cleaned.
  assert (forall n nd, clean_networks now t !! n = Some nd -> nd_cleanNoTxID nd + nd_cleanAge nd = 0) as Hz.
  { intros n nd. unfold clean_networks. rewrite lookup_fmap, record_ages_lookup, lookup_empty.
    change (snd <$> cm_iter (ts_hashToContent t)) with (stored_txs t).
    destruct (network_txs n (stored_txs t)) eqn:Hn; [done|]. simpl. intros [= <-].
    unfold set_maxAge. by case_decide. }
  revert Hz. generalize (clean_networks now t). intros m.
  induction m as [|n nd m Hn IH] using map_ind; intros Hz; [by rewrite map_fold_empty|].
  rewrite map_fold_insert_L; [|intros; lia|done].
  rewrite IH.
  - rewrite (Hz n nd); [lia|]. apply lookup_insert_eq.
  - intros n' nd' Hn'. apply (Hz n'). rewrite lookup_insert_ne; [done|]. intros ->. congruence.
Qed.

(** A stored transaction is due for removal: it exceeds its network's age limit, or has no short
    ID and exceeds the limit for those. *)
Definition expired now t tx : Prop :=
  age_limit (ts_maxTxAge t) (recorded now (tx_network tx) (stored_txs t)) < age now tx \/
  (ts_noTxIDAge t < age now tx /\ tx_ids tx = []).

#[export] Instance expired_dec now t tx : Decision (expired now t tx).
Proof. unfold expired. apply _. Defined.

Lemma expires_expired now t tx :
  tx ∈ stored_txs t ->
  expires now (ts_noTxIDAge t) (clean_networks now t) tx = bool_decide (expired now t tx).
Proof.
  intros Hin. unfold expires, expired. destruct (clean_networks_dom now t tx Hin) as [nd Hnd].
  rewrite Hnd. by rewrite (clean_networks_lookup _ _ _ _ Hnd).
Qed.
End Limits.

(** ** Steps of a store *)
Section Steps.
Context {M : Type -> Type} `{ConcurrentMapLaws M} {A : Type} `{!TxIDAssigner A}.
Implicit Types t : TbTxStore M A.

(** One call of a method by any user of the store, at any time. *)
Inductive store_step : TbTxStore M A -> TbTxStore M A -> Prop :=
  | step_Add now t hash content txID networkNum timestamp r t' :
      is_uint32 txID ->
      TbTxStore_Add now t hash content txID networkNum timestamp = Ret (r, t') -> store_step t t'
  | step_RemoveHashes now t hashes p : store_step t (RemoveHashes now t hashes p)
  | step_RemoveTxIDs now t txIDs p : store_step t (RemoveTxIDs now t txIDs p)
  | step_Get now t hash : store_step t (snd (TbTxStore_Get now t hash))
  | step_Known now t hash : store_step t (snd (TbTxStore_Known now t hash))
  | step_HasContent now t hash : store_step t (snd (TbTxStore_HasContent now t hash))
  | step_clean now t t' n ids : TbTxStore_clean now t = Ret (t', n, ids) -> store_step t t'
  | step_Clear t : store_step t (Clear t).

Lemma stored_txs_elem t tx : tx ∈ stored_txs t <-> exists k, contents t !! k = Some tx.
Proof.
  unfold stored_txs, contents. rewrite list_elem_of_fmap. split.
  - intros ([k tx'] & -> & Hin). exists k. by apply cm_iter_elem.
  - intros [k Hk]. exists (k, tx). split; [done|]. by apply cm_iter_elem.
Qed.

Definition history_exists u t k : bool := HashHistory_Exists u (ts_seenTxs t) k.

(** What a clean-up leaves. *)
Definition cleaned_to now t t' : Prop :=
  (forall k tx, contents t' !! k = Some tx <-> contents t !! k = Some tx /\ ~ expired now t tx) /\
  (forall u k, history_exists u t' k
     = match contents t !! k with
       | Some tx => if decide (expired now t tx)
                    then bool_decide (u < expiry now (ts_timeToAvoidReEntry t))
                    else history_exists u t k
       | None => history_exists u t k
       end).

Lemma clean_returns now t :
  exists t' ids, store_ok t -> store_ok t' /\ cleaned_to now t t' /\
    TbTxStore_clean now t
    = Ret (t', Z.of_nat (length (filter (fun item => expired now t item.2) (map_to_list (contents t)))), ids).
Proof.
  pose (items := cm_iter (ts_hashToContent t)).
  pose (t' := clean_store now (ts_noTxIDAge t) (clean_networks now t) t items).
  assert (forall item, item ∈ items -> item.2 ∈ stored_txs t) as Hstored.
  { intros item Hin. unfold stored_txs. by apply list_elem_of_fmap_2. }
  destruct (clean_items_spec now items t (clean_networks now t) ∅) as (nets & ids & Hrun & Hsum).
  { intros item Hin. by apply clean_networks_dom, Hstored. }
  exists t', ids. intros Hok.
  assert (forall k tx, (k, tx) ∈ items -> contents t !! k = Some tx) as Hitems
    by (intros k tx; apply cm_iter_elem).
  assert (NoDup (fst <$> items)) as Hnd by apply cm_iter_keys.
  split; [|split; [split|]].
  - by apply clean_store_ok.
  - intros k tx. unfold t'. rewrite clean_store_contents.
    pose proof (delete_all_lookup (fun _ tx => expires now (ts_noTxIDAge t) (clean_networks now t) tx)
      items (contents t) k tx Hnd Hitems) as Hdel. cbn beta in Hdel. rewrite Hdel. clear Hdel.
    split; intros [Hk Hn]; (split; [done|]).
    + intros He. apply Hn. split; [by apply cm_iter_elem|].
      rewrite expires_expired by (apply stored_txs_elem; eauto). by apply bool_decide_eq_true.
    + intros [Hin He]. apply Hn. rewrite expires_expired in He by (apply stored_txs_elem; eauto).
      by apply bool_decide_eq_true in He.
  - intros u k. unfold history_exists, t'. rewrite clean_store_seen by done.
    destruct (contents t !! k) as [tx|] eqn:Hk.
    + assert ((Exists (fun item => item.1 = k /\ expires now (ts_noTxIDAge t) (clean_networks now t) item.2 = true) items)
        <-> expired now t tx) as Hiff.
      { rewrite Exists_exists. split.
        - intros ([k' tx'] & Hin & Hk' & He). simpl in *. subst k'. pose proof (Hitems _ _ Hin). simplify_eq.
          rewrite expires_expired in He by (apply stored_txs_elem; eauto). by apply bool_decide_eq_true in He.
        - intros He. exists (k, tx). split; [by apply cm_iter_elem|]. split; [done|]. simpl.
          rewrite expires_expired by (apply stored_txs_elem; eauto). by apply bool_decide_eq_true. }
      destruct (decide (expired now t tx)); [by rewrite decide_True by tauto|by rewrite decide_False by tauto].
    + rewrite decide_False; [done|]. intros ([k' tx] & Hin & Hk' & _)%Exists_exists. simpl in *. subst k'.
      apply Hitems in Hin. congruence.
  - unfold TbTxStore_clean. fold items. rewrite Hrun. go_simpl. unfold t'. do 3 f_equal.
    rewrite Hsum, sum_cleaned_fresh, Z.add_0_l. f_equal. unfold contents. rewrite <- cm_iter_spec. fold items.
    f_equal. apply filter_agree. intros [k tx] Hin. simpl.
    rewrite expires_expired by (apply stored_txs_elem; exists k; by apply Hitems). apply bool_decide_eq_true.
Qed.
End Steps.

(** ** Properties *)
Section Properties.
Context {M : Type -> Type} `{ConcurrentMapLaws M} {A : Type} `{!TxIDAssigner A}.
Implicit Types t : TbTxStore M A.

Lemma store_ok_maps t t' : store_ok t -> contents t' = contents t -> ids_map t' = ids_map t -> store_ok t'.
Proof. intros [Hk Hi Hl] Hc Hm. by split; rewrite ?Hc, ?Hm. Qed.

(** C16: What [Add] does on every path. A message with neither content nor short ID crashes the
    process; a transaction older than [maxTxAge] is refused and changes nothing; a transaction in
    the history of deleted ones is refused when it comes without short ID, which prolongs its
    stay in the history only; every other message is merged into the transaction on file for its
    hash: the content is kept if there was one, the short ID (the message's, or a fresh one for a
    new transaction without) is added if it is new, the result says exactly what was new, and the
    short ID leads to the merged transaction. The store's invariant is kept. *)
Theorem TbTxStore_Add_spec now t hash content txID networkNum timestamp :
  store_ok t -> is_uint32 txID -> 0 <= fst (Next (ts_assigner t)) ->
  let missing := txID = TxIDEmpty /\ content = [] in
  let result := TbTxStore_Add now t hash content txID networkNum timestamp in
  (missing -> result = Panics (Explicit "content and txID can't be both missing")) /\
  (~ missing -> too_old t now timestamp ->
     exists r, result = Ret (r, t) /\ refused r hash networkNum timestamp false) /\
  (~ missing -> ~ too_old t now timestamp -> seen t now hash = true -> txID = TxIDEmpty ->
     exists r t', result = Ret (r, t') /\ refused r hash networkNum timestamp true /\
       store_ok t' /\ contents t' = contents t /\ ids_map t' = ids_map t /\
       ts_seenTxs t' = HashHistory_Add now (ts_seenTxs t) (hash_key hash) (ts_timeToAvoidReEntry t)) /\
  (~ missing -> ~ too_old t now timestamp -> ~ (seen t now hash = true /\ txID = TxIDEmpty) ->
     exists r t', result = Ret (r, t') /\ store_ok t' /\
       accepted t r t' now hash content txID networkNum timestamp).
Proof.
  intros Hok Hid Hnext. cbn zeta. split; [|split; [|split]].
  - intros [-> ->]. by vm_compute.
  - intros Hm Hold. by apply Add_too_old.
  - intros Hm Hold Hs ->. assert (content <> []) as Hc by naive_solver.
    destruct (Add_seen t now hash content networkNum timestamp Hc Hold Hs) as (r & t' & Heq & Hr & Hct & Hmt & Hst).
    exists r, t'. split_and!; try done. by eapply store_ok_maps.
  - intros Hm Hold Hs. apply Add_accepted; try done. apply Hid.
Qed.

Lemma step_ok t t' : (forall a : A, 0 <= fst (Next a)) -> store_ok t -> store_step t t' -> store_ok t'.
Proof.
  intros Hnext Hok. destruct 1 as [now t hash content txID n ts r t' Hid Hadd| | | | | |now t t' n ids Hclean|].
  - destruct (decide (txID = TxIDEmpty /\ content = [])) as [[-> ->]|Hm]; [done|].
    destruct (decide (ts_maxTxAge t < time_sub now ts)) as [Hold|Hold].
    { destruct (Add_too_old t now hash content txID n ts Hm Hold) as (r' & Heq & _). congruence. }
    destruct (decide (seen t now hash = true /\ txID = TxIDEmpty)) as [[Hs ->]|Hs].
    + assert (content <> []) as Hc by naive_solver.
      destruct (Add_seen t now hash content n ts Hc Hold Hs) as (r' & t'' & Heq & _ & Hct & Hmt & _).
      assert (t' = t'') as -> by congruence. by eapply store_ok_maps.
    + destruct (Add_accepted t now hash content txID n ts Hok (proj1 Hid) (Hnext _) Hm Hold Hs)
        as (r' & t'' & Heq & Hok' & _). congruence.
  - by apply RemoveHashes_ok.
  - by apply RemoveHashes_ok.
  - unfold TbTxStore_Get. pose proof (refreshSeenTx_ok now t hash Hok). by destruct (refreshSeenTx _ _ _) as [[] ?].
  - by apply refreshSeenTx_ok.
  - unfold TbTxStore_HasContent, TbTxStore_Get. pose proof (refreshSeenTx_ok now t hash Hok).
    destruct (refreshSeenTx _ _ _) as [[] ?]; [done|]. simpl. by case_match.
  - destruct (clean_returns now t) as (t'' & ids' & Hc). destruct (Hc Hok) as (Hok' & _ & Heq). congruence.
  - apply Clear_ok.
Qed.

(** C7: In every state the store can reach, however its methods were called, it is consistent: a
    transaction is filed under its own hash, carries no short ID twice, and a short ID that
    resolves resolves to a stored transaction that carries it; the error "transaction content
    does not exist" of [GetTxByID] never occurs. *)
Theorem store_reachable_ok maxTxAge noTxIDAge (a : A) seenTxs timeToAvoidReEntry t :
  (forall a : A, 0 <= fst (Next a)) ->
  rtc store_step (NewTbTxStore maxTxAge noTxIDAge a seenTxs timeToAvoidReEntry) t ->
  store_ok t /\
  (forall id, 0 < id ->
     (exists tx, GetTxByID t id = Ok tx /\ id ∈ tx_ids tx /\ contents t !! hash_key (tx_hash tx) = Some tx) \/
     GetTxByID t id = Fail (Errorf "transaction with txID does not exist")).
Proof.
  intros Hnext Hr.
  assert (store_ok t) as Hok.
  { assert (store_ok (NewTbTxStore (M:=M) maxTxAge noTxIDAge a seenTxs timeToAvoidReEntry)) as Hinit
      by (split; intros k ?; unfold contents, ids_map; simpl; by rewrite cm_view_new, lookup_empty).
    revert Hinit. induction Hr as [|x y z Hxy Hyz IH]; [done|]. intros Hx. apply IH. by eapply step_ok. }
  split; [done|]. intros id Hid. unfold GetTxByID. rewrite cm_get_spec. change (cm_view (ts_txIDToHash t)) with (ids_map t).
  destruct (ids_map t !! txID_key id) as [h|] eqn:Hh; [left|by right].
  destruct (ok_lookup t Hok _ _ Hh) as (tx & id' & Htx & Hin & Hk).
  destruct (ok_ids t Hok _ _ Htx) as [_ Hpos]. rewrite Forall_forall in Hpos.
  apply txID_key_inj in Hk as ->; [|done|by apply Hpos].
  exists tx. rewrite cm_get_spec. change (cm_view (ts_hashToContent t)) with (contents t). rewrite Htx.
  repeat split; [done|]. by rewrite <- (ok_key t Hok _ _ Htx).
Qed.

(** C26: [clean] never fails. It removes exactly the expired transactions, reports their number, and
    puts them, and nothing else, into the history, where they stay for [timeToAvoidReEntry]; what
    it leaves is at most [maxTxAge] old, and at most [noTxIDAge] if it has no short ID. While no
    network holds more than 200000 transactions nothing younger than that is removed. *)
Theorem TbTxStore_clean_spec now t :
  store_ok t ->
  exists t' ids,
    TbTxStore_clean now t
    = Ret (t', Z.of_nat (length (filter (fun item => expired now t item.2) (map_to_list (contents t)))), ids) /\
    store_ok t' /\ cleaned_to now t t' /\
    (forall k tx, contents t' !! k = Some tx ->
       age now tx <= ts_maxTxAge t /\ (tx_ids tx = [] -> age now tx <= ts_noTxIDAge t)) /\
    (forall k tx, contents t !! k = Some tx ->
       Z.of_nat (length (network_txs (tx_network tx) (stored_txs t))) <= TxStoreMaxSize ->
       age now tx <= ts_maxTxAge t -> (tx_ids tx = [] -> age now tx <= ts_noTxIDAge t) ->
       contents t' !! k = Some tx).
Proof.
  intros Hok. destruct (clean_returns now t) as (t' & ids & Hc). destruct (Hc Hok) as (Hok' & [Hin Hhist] & Heq).
  exists t', ids. split_and!; try done.
  - intros k tx [_ Hn]%Hin. split.
    { unfold expired, age_limit in Hn. case_decide; lia. }
    intros Hi. unfold expired in Hn. destruct (decide (ts_noTxIDAge t < age now tx)); [|lia].
    exfalso. apply Hn. auto.
  - intros k tx Hk Hsize Hage Hids. apply Hin. split; [done|]. unfold expired, age_limit.
    rewrite decide_True by (unfold recorded; by rewrite length_fmap). intros [?|[? Hi]]; [lia|]. specialize (Hids Hi). lia.
Qed.

(** C33: Re-entry protection. After a transaction was removed with full protection (by hash or by the
    clean-up), and until [timeToAvoidReEntry] has passed, a copy of it that arrives without short
    ID is answered "already seen" and not stored, [Get] does not find it, and asking for it
    prolongs the protection; a copy that comes with a short ID ends the protection and is stored. *)
Theorem removed_is_protected t t0 tx now now' hash content networkNum timestamp txID :
  store_ok t0 -> 0 <= fst (Next (ts_assigner t0)) -> contents t0 !! hash_key hash = Some tx ->
  t = remove now t0 (hash_key hash) FullReEntryProtection ->
  now' < expiry now (ts_timeToAvoidReEntry t0) -> ~ too_old t now' timestamp -> content <> [] -> 0 < txID ->
  contents t !! hash_key hash = None /\
  TbTxStore_Get now' t hash
  = (None, snd (refreshSeenTx now' t hash)) /\
  (forall u, history_exists u (snd (refreshSeenTx now' t hash)) (hash_key hash)
             = bool_decide (u < expiry now' (ts_timeToAvoidReEntry t0))) /\
  (exists r t', TbTxStore_Add now' t hash content TxIDEmpty networkNum timestamp = Ret (r, t') /\
     tr_AlreadySeen r = true /\ contents t' !! hash_key hash = None) /\
  (exists r t', TbTxStore_Add now' t hash content txID networkNum timestamp = Ret (r, t') /\
     tr_AlreadySeen r = false /\ seen t' now' hash = false /\
     contents t' !! hash_key hash = Some (mkTbTransaction hash content [txID] timestamp networkNum)).
Proof.
  intros Hok Hnext Htx -> Hlt Hold Hc Hid.
  set (t := remove now t0 (hash_key hash) FullReEntryProtection) in *.
  destruct (remove_config now t0 (hash_key hash) FullReEntryProtection) as (Hre & _).
  assert (contents t !! hash_key hash = None) as Hnone by (unfold t; rewrite remove_contents; apply lookup_delete_eq).
  assert (seen t now' hash = true) as Hs.
  { unfold seen, t. rewrite remove_seen, Htx. unfold protect. by rewrite Exists_Add, decide_True, bool_decide_true. }
  split; [done|]. split; [|split; [|split]].
  - unfold TbTxStore_Get. unfold refreshSeenTx. unfold seen in Hs. by rewrite Hs.
  - intros u. unfold history_exists, refreshSeenTx. unfold seen in Hs. rewrite Hs. simpl.
    rewrite Exists_Add, decide_True by done. unfold t. by rewrite Hre.
  - destruct (Add_seen t now' hash content networkNum timestamp Hc Hold Hs) as (r & t' & Heq & Hr & Hct & _).
    exists r, t'. rewrite Hct. repeat split; try done. apply Hr.
  - assert (txID <> TxIDEmpty) as Hne by (unfold TxIDEmpty; lia).
    destruct (Add_accepted t now' hash content txID networkNum timestamp) as (r & t' & Heq & _ & Hacc);
      try done; try lia; try tauto.
    { by apply remove_ok. }
    { unfold t, remove. by destruct (cm_pop _ _) as [[|] ?]. }
    destruct Hacc as (Hct & _ & _ & _ & _ & _ & Hns & Has). exists r, t'. split_and!; try done.
    rewrite Hct, Hnone, lookup_insert_eq. unfold merged, effective_txID. cbn [default NewTbTransaction tx_hash tx_bytes tx_ids tx_addTime tx_network from_option id].
    rewrite (decide_False (P := _ /\ txID = TxIDEmpty)) by tauto.
    rewrite (decide_False (P := txID = TxIDEmpty \/ _)); [done|]. rewrite elem_of_nil. tauto.
Qed.
End Properties.

(** ** Witnesses: a store with two transactions, one of them without short ID *)
Definition ex_hash (b : byte) : SHA256Hash := b :: zeros 31.
Definition ex_new : TbTxStore (gmap string) unit :=
  NewTbTxStore (1000 * second_ns) (100 * second_ns) tt newHashHistory (500 * second_ns).
Definition ex_tx_add (t : TbTxStore (gmap string) unit) hash content txID : TbTxStore (gmap string) unit :=
  match TbTxStore_Add 0 t hash content txID 5 0 with Ret (_, t') => t' | _ => t end.
Definition ex_store : TbTxStore (gmap string) unit :=
  ex_tx_add (ex_tx_add ex_new (ex_hash x01) [x0a] 7) (ex_hash x02) [x0b] 0.

Lemma ex_assigner (a : unit) : 0 <= fst (Next a).
Proof. done. Qed.

Lemma ex_add_step t hash content txID : is_uint32 txID -> rtc store_step t (ex_tx_add t hash content txID).
Proof.
  intros Hid. unfold ex_tx_add. destruct (TbTxStore_Add 0 t hash content txID 5 0) as [[r t']| |] eqn:Hadd; [|done..].
  apply rtc_once. by eapply step_Add.
Qed.

Lemma ex_store_reachable : rtc store_step ex_new ex_store.
Proof. transitivity (ex_tx_add ex_new (ex_hash x01) [x0a] 7); apply ex_add_step; by unfold is_uint32. Qed.

Lemma ex_store_ok : store_ok ex_store.
Proof.
  pose proof ex_store_reachable as Hr.
  assert (store_ok ex_new) as Hinit by (split; intros k ?; unfold contents, ids_map; simpl; by rewrite lookup_empty).
  revert Hinit. induction Hr as [|x y z Hxy Hyz IH]; [done|]. intros Hx. apply IH.
  eapply step_ok; [apply ex_assigner|done..].
Qed.

Example TbTxStore_Add_spec_witness :
  exists r t', TbTxStore_Add second_ns ex_store (ex_hash x02) [x0c] 9 5 0 = Ret (r, t') /\ store_ok t' /\
    accepted ex_store r t' second_ns (ex_hash x02) [x0c] 9 5 0.
Proof.
  apply (TbTxStore_Add_spec second_ns ex_store (ex_hash x02) [x0c] 9 5 0 ex_store_ok);
    [concrete|done|by intros [? ?]|by vm_compute|by intros [? ?]].
Defined.

Example store_reachable_ok_witness :
  store_ok ex_store /\
  (forall id, 0 < id ->
     (exists tx, GetTxByID ex_store id = Ok tx /\ id ∈ tx_ids tx /\
        contents ex_store !! hash_key (tx_hash tx) = Some tx) \/
     GetTxByID ex_store id = Fail (Errorf "transaction with txID does not exist")).
Proof.
  apply (store_reachable_ok (1000 * second_ns) (100 * second_ns) tt newHashHistory (500 * second_ns) ex_store);
    [apply ex_assigner|apply ex_store_reachable].
Defined.

Example TbTxStore_clean_spec_witness :
  exists t' ids, TbTxStore_clean (200 * second_ns) ex_store = Ret (t', 1, ids) /\
    contents t' !! hash_key (ex_hash x02) = None.
Proof.
  destruct (TbTxStore_clean_spec (200 * second_ns) ex_store ex_store_ok) as (t' & ids & Heq & _ & [Hc _] & _).
  exists t', ids. split; [rewrite Heq; vm_compute; reflexivity|].
  destruct (contents t' !! hash_key (ex_hash x02)) as [tx|] eqn:Htx; [|reflexivity].
  exfalso. apply Hc in Htx as [Htx Hn]. apply Hn. vm_compute in Htx. injection Htx as <-.
  right. split; reflexivity.
Defined.

Example removed_is_protected_witness :
  let t := remove second_ns ex_store (hash_key (ex_hash x01)) FullReEntryProtection in
  exists r t', TbTxStore_Add (2 * second_ns) t (ex_hash x01) [x0a] TxIDEmpty 5 0 = Ret (r, t') /\
    tr_AlreadySeen r = true /\ contents t' !! hash_key (ex_hash x01) = None.
Proof.
  eapply (removed_is_protected _ ex_store _ second_ns (2 * second_ns) (ex_hash x01) [x0a] 5 0 7 ex_store_ok);
    [done|vm_compute; reflexivity|reflexivity|by vm_compute|by vm_compute|done|done].
Defined.
