(* ===== verification/TxStoreThreads.v ===== *)
(** The transaction store under concurrency: [Add] and [remove] (services/tbtxstore.go) as goroutines whose
    steps interleave. The operations of the concurrent map and of the history are atomic; a transaction is an
    object behind a pointer, with its lock, and reading it and writing it back are steps of their own. What a
    goroutine computes from these is taken from [TxStore] and [Types]. *)
From S2P Require Import Prelude Bytes CMap HashHistory Types TxStore.

(** ** Definitions *)
Section Threads.
Context {M : Type -> Type} `{!ConcurrentMap M} {A : Type} `{!TxIDAssigner A}.
(** The settings of the store, which do not change. *)
Context (timeToAvoidReEntry maxTxAge : Z).

(** The store: [hashToContent] holds pointers. A lock is held by a goroutine. *)
Record shared := mkShared {
  sh_contents : M Z;
  sh_objects : gmap Z TbTransaction;
  sh_locks : gmap Z nat;
  sh_ids : M SHA256Hash;
  sh_seen : HashHistory M;
  sh_assigner : A;
  sh_next : Z                  (* the next address *)
}.

Definition with_contents (s : shared) (contents : M Z) (objects : gmap Z TbTransaction) (next : Z) : shared :=
  mkShared contents objects (sh_locks s) (sh_ids s) (sh_seen s) (sh_assigner s) next.
Definition with_locks (s : shared) (locks : gmap Z nat) : shared :=
  mkShared (sh_contents s) (sh_objects s) locks (sh_ids s) (sh_seen s) (sh_assigner s) (sh_next s).
Definition with_object (s : shared) (a : Z) (o : TbTransaction) (assigner : A) : shared :=
  mkShared (sh_contents s) (<[a := o]> (sh_objects s)) (sh_locks s) (sh_ids s) (sh_seen s) assigner (sh_next s).
Definition with_ids (s : shared) (ids : M SHA256Hash) : shared :=
  mkShared (sh_contents s) (sh_objects s) (sh_locks s) ids (sh_seen s) (sh_assigner s) (sh_next s).
Definition with_seen (s : shared) (seen : HashHistory M) : shared :=
  mkShared (sh_contents s) (sh_objects s) (sh_locks s) (sh_ids s) seen (sh_assigner s) (sh_next s).

(** The arguments of a call of [Add]. *)
Record AddArgs := mkAddArgs { a_hash : SHA256Hash; a_content : list byte; a_txID : Z; a_networkNum : Z; a_timestamp : Z }.
Definition a_key (args : AddArgs) : string := hash_key (a_hash args).
Definition a_fresh (args : AddArgs) : TbTransaction := NewTbTransaction (a_hash args) (a_networkNum args) (a_timestamp args).

(** What [Add] reports of a transaction it filed or found. *)
Record AddResult := mkAddResult { ar_Transaction : Z; ar_NewTx : bool; ar_NewContent : bool; ar_NewTxID : bool }.

(** Where a goroutine is. *)
Inductive thread :=
  | AddStart (args : AddArgs)
  | AddRefresh (args : AddArgs)                            (* the hash is in the history *)
  | AddForget (args : AddArgs)                             (* a seen hash that comes with a short ID *)
  | AddInsert (args : AddArgs)
  | AddFind (args : AddArgs)                               (* it was there *)
  | AddLock (args : AddArgs) (a : Z) (newTx : bool)
  | AddRead (args : AddArgs) (a : Z) (newTx : bool)
  | AddWrite (args : AddArgs) (a : Z) (newTx : bool) (o : TbTransaction)
  | AddFile (args : AddArgs) (txID : Z) (r : AddResult)
  | AddUnlock (args : AddArgs) (r : AddResult)
  | AddDone (args : AddArgs) (r : AddResult)
  | AddDropped (args : AddArgs)                            (* too old, already seen, or removed meanwhile *)
  | RemoveStart (hash : string) (p : ReEntryProtectionFlags)
  | RemoveRead (hash : string) (p : ReEntryProtectionFlags) (a : Z)
  | RemoveIDs (hash : string) (p : ReEntryProtectionFlags) (txIDs : list Z)
  | RemoveDone (hash : string).

(** The short ID, and the assigner after it. *)
Definition choose_txID (s : shared) (args : AddArgs) (newTx : bool) : Z * A :=
  if decide (newTx = true /\ a_txID args = TxIDEmpty) then Next (sh_assigner s) else (a_txID args, sh_assigner s).

Definition protect_seen (now : Z) (s : shared) (hash : string) (p : ReEntryProtectionFlags) : HashHistory M :=
  match p with
  | NoReEntryProtection => sh_seen s
  | ShortReEntryProtection => HashHistory_Add now (sh_seen s) hash ShortReEntryProtectionDuration
  | FullReEntryProtection => HashHistory_Add now (sh_seen s) hash timeToAvoidReEntry
  end.

(** One step of a goroutine that removes. *)
Definition remove_step (now : Z) (s : shared) (t : thread) : outcome (shared * thread) :=
  match t with
  | RemoveStart hash p =>
      let '(tx, contents) := cm_pop (sh_contents s) hash in
      match tx with
      | None => mret (s, RemoveDone hash)
      | Some a => mret (with_contents s contents (sh_objects s) (sh_next s), RemoveRead hash p a)
      end
  | RemoveRead hash p a => o ← deref (sh_objects s !! a); mret (s, RemoveIDs hash p (tx_ids o))
  | RemoveIDs hash p (txID :: txIDs) => mret (with_ids s (cm_remove (sh_ids s) (txID_key txID)), RemoveIDs hash p txIDs)
  | RemoveIDs hash p [] => mret (with_seen s (protect_seen now s hash p), RemoveDone hash)
  | _ => Blocks
  end.

(** One step of goroutine [i] at time [now]: it may have to wait for a lock, and may crash. *)
Definition thread_step (now : Z) (i : nat) (s : shared) (t : thread) : outcome (shared * thread) :=
  match t with
  | AddStart args =>
      if decide (a_txID args = TxIDEmpty /\ len (a_content args) = 0)
      then Panics (Explicit "content and txID can't be both missing") else
      if decide (maxTxAge < time_sub now (a_timestamp args)) then mret (s, AddDropped args) else
      if HashHistory_Exists now (sh_seen s) (a_key args) then mret (s, AddRefresh args) else mret (s, AddInsert args)
  | AddRefresh args =>
      let s := with_seen s (HashHistory_Add now (sh_seen s) (a_key args) timeToAvoidReEntry) in
      if decide (a_txID args = TxIDEmpty) then mret (s, AddDropped args) else mret (s, AddForget args)
  | AddForget args => mret (with_seen s (HashHistory_Remove (sh_seen s) (a_key args)), AddInsert args)
  | AddInsert args =>
      let a := sh_next s in
      let '(newTx, contents) := cm_set_if_absent (sh_contents s) (a_key args) a in
      let s := with_contents s contents (<[a := a_fresh args]> (sh_objects s)) (a + 1) in
      if newTx : bool then mret (s, AddLock args a true) else mret (s, AddFind args)
  | AddFind args =>
      match cm_get (sh_contents s) (a_key args) with
      | None => mret (s, AddDropped args)
      | Some a => mret (s, AddLock args a false)
      end
  | AddLock args a newTx =>
      match sh_locks s !! a with
      | Some _ => Blocks
      | None => mret (with_locks s (<[a := i]> (sh_locks s)), AddRead args a newTx)
      end
  | AddRead args a newTx => o ← deref (sh_objects s !! a); mret (s, AddWrite args a newTx o)
  | AddWrite args a newTx o =>
      let '(txID, assigner) := choose_txID s args newTx in
      let '(newTxID, o) := AddTxID o txID in
      let '(newContent, o) := SetContent o (a_content args) in
      mret (with_object s a o assigner, AddFile args txID (mkAddResult a newTx newContent newTxID))
  | AddFile args txID r =>
      o ← deref (sh_objects s !! ar_Transaction r);
      mret (if ar_NewTxID r then with_ids s (cm_set (sh_ids s) (txID_key txID) (tx_hash o)) else s, AddUnlock args r)
  | AddUnlock args r => mret (with_locks s (delete (ar_Transaction r) (sh_locks s)), AddDone args r)
  | _ => remove_step now s t
  end.

(** The store and its goroutines. *)
Definition system : Type := shared * list thread.
Implicit Types st : system.

(** Goroutine [i] runs for a step. *)
Definition run_thread (now : Z) (i : nat) st : outcome system :=
  t ← deref (st.2 !! i); '(s, t) ← thread_step now i st.1 t; mret (s, <[i := t]> st.2).

(** A schedule: the goroutines that run, each at its time. *)
Fixpoint run_schedule (schedule : list (Z * nat)) st : outcome system :=
  match schedule with
  | [] => mret st
  | (now, i) :: schedule => st ← run_thread now i st; run_schedule schedule st
  end.
End Threads.
Arguments shared : clear implicits.

(** ** Invariant *)
Section Invariant.
Context {M : Type -> Type} `{ConcurrentMapLaws M} {A : Type} `{!TxIDAssigner A} (timeToAvoidReEntry maxTxAge : Z).
Implicit Types (s : shared M A) (t : thread) (st : system (M:=M) (A:=A)).
#[local] Abbreviation thread_step := (thread_step timeToAvoidReEntry maxTxAge (M:=M) (A:=A)).
#[local] Abbreviation run_thread := (run_thread timeToAvoidReEntry maxTxAge (M:=M) (A:=A)).

Definition step st st' : Prop := exists now i, run_thread now i st = Ret st'.

(** The transaction a goroutine works on or has worked on, and the one whose lock it holds. *)
Definition target t : option Z :=
  match t with
  | AddLock _ a _ | AddRead _ a _ | AddWrite _ a _ _ | RemoveRead _ _ a => Some a
  | AddFile _ _ r | AddUnlock _ r | AddDone _ r => Some (ar_Transaction r)
  | _ => None
  end.
Definition critical t : option Z :=
  match t with
  | AddRead _ a _ | AddWrite _ a _ _ => Some a
  | AddFile _ _ r | AddUnlock _ r => Some (ar_Transaction r)
  | _ => None
  end.

(** The transaction a goroutine has put into the map. *)
Definition made t : option Z :=
  match t with
  | AddLock _ a newTx | AddRead _ a newTx | AddWrite _ a newTx _ => if newTx : bool then Some a else None
  | AddFile _ _ r | AddUnlock _ r | AddDone _ r => if ar_NewTx r then Some (ar_Transaction r) else None
  | _ => None
  end.

(** The call a goroutine has merged into its transaction, with what it reports. *)
Definition merged t : option (AddArgs * AddResult) :=
  match t with AddFile args _ r | AddUnlock args r | AddDone args r => Some (args, r) | _ => None end.

(** The call, and the key to remove. *)
Definition adds t : option AddArgs :=
  match t with
  | AddStart args | AddRefresh args | AddForget args | AddInsert args | AddFind args | AddLock args _ _ | AddRead args _ _
  | AddWrite args _ _ _ | AddFile args _ _ | AddUnlock args _ | AddDone args _ | AddDropped args => Some args
  | _ => None
  end.
Definition removes t : option string :=
  match t with RemoveStart hash _ | RemoveRead hash _ _ | RemoveIDs hash _ _ | RemoveDone hash => Some hash | _ => None end.

(** It has brought, and reports, the content of transaction [a]. *)
Definition announces t (a : Z) (content : list byte) : Prop :=
  exists args r, merged t = Some (args, r) /\ ar_NewContent r = true /\ ar_Transaction r = a /\ a_content args = content.

(** Objects keep their hash, and their content once they have any. *)
Definition obj_le (o o' : TbTransaction) : Prop := tx_hash o' = tx_hash o /\ (tx_bytes o <> [] -> tx_bytes o' = tx_bytes o).
#[local] Instance obj_le_preorder : PreOrder obj_le.
Proof.
  split; [by intros o|]. intros o1 o2 o3 [Hh1 Hb1] [Hh2 Hb2]. split; [congruence|]. intros Hne.
  rewrite Hb2; [by apply Hb1|]. by rewrite Hb1.
Qed.

(** What goroutine [i] may do to the objects: those whose lock another holds stay as they are. *)
Record frame (i : nat) s s' : Prop := {
  fr_object a o : sh_objects s !! a = Some o -> exists o', sh_objects s' !! a = Some o' /\ obj_le o o';
  fr_locked a j o : j <> i -> sh_locks s !! a = Some j -> sh_objects s !! a = Some o ->
    sh_locks s' !! a = Some j /\ sh_objects s' !! a = Some o
}.

Lemma frame_same i s s' : sh_objects s' = sh_objects s -> sh_locks s' = sh_locks s -> frame i s s'.
Proof. intros Ho Hl. split; rewrite Ho; [|by rewrite Hl]. intros a o Ha. by exists o. Qed.

Record thread_ok s (i : nat) t : Prop := {
  to_target a : target t = Some a -> is_Some (sh_objects s !! a);
  to_key args a o : adds t = Some args -> target t = Some a -> sh_objects s !! a = Some o -> hash_key (tx_hash o) = a_key args;
  to_critical a : critical t = Some a -> sh_locks s !! a = Some i;
  to_read args a newTx o : t = AddWrite args a newTx o -> sh_objects s !! a = Some o;
  to_announced a content : announces t a content -> exists o, sh_objects s !! a = Some o /\ tx_bytes o = content /\ content <> [];
  to_merged args r : merged t = Some (args, r) -> a_content args <> [] ->
    exists o, sh_objects s !! ar_Transaction r = Some o /\ tx_bytes o <> []
}.

Lemma critical_target t a : critical t = Some a -> target t = Some a.
Proof. by destruct t. Qed.

(** A step of another goroutine leaves a goroutine in order. *)
Lemma thread_ok_frame i j s s' t : j <> i -> frame i s s' -> thread_ok s j t -> thread_ok s' j t.
Proof.
  intros Hne [Hobj Hlock] [Ht Hk Hc Hr Ha Hm]. split.
  - intros a Hta. destruct (Ht a Hta) as [o Ho]. destruct (Hobj a o Ho) as (o' & Ho' & _). by exists o'.
  - intros args a o' Hadd Hta Ho'. destruct (Ht a Hta) as [o Ho]. destruct (Hobj a o Ho) as (o'' & Ho'' & Hh & _).
    rewrite <- (Hk args a o Hadd Hta Ho). congruence.
  - intros a Hca. destruct (Ht a (critical_target t a Hca)) as [o Ho]. by destruct (Hlock a j o Hne (Hc a Hca) Ho).
  - intros args a newTx o Heq. specialize (Hr args a newTx o Heq). subst t. by destruct (Hlock a j o Hne (Hc a eq_refl) Hr).
  - intros a content Han. destruct (Ha a content Han) as (o & Ho & Hb & Hnn). destruct (Hobj a o Ho) as (o' & Ho' & _ & Hb').
    exists o'. split_and!; [done| |done]. rewrite Hb' by congruence. done.
  - intros args r Hmg Hnn. destruct (Hm args r Hmg Hnn) as (o & Ho & Hb). destruct (Hobj _ o Ho) as (o' & Ho' & _ & Hb').
    exists o'. split; [done|]. by rewrite Hb'.
Qed.

(** The store: its pointers lead to allocated objects with their hash, and so do the locks. *)
Record store_inv s : Prop := {
  si_next a : is_Some (sh_objects s !! a) -> a < sh_next s;
  si_contents k a : cm_view (sh_contents s) !! k = Some a -> exists o, sh_objects s !! a = Some o /\ hash_key (tx_hash o) = k
}.

(** *** The writing step *)
Definition written s (args : AddArgs) (newTx : bool) (o : TbTransaction) : TbTransaction :=
  snd (SetContent (snd (AddTxID o (choose_txID s args newTx).1)) (a_content args)).
Definition reported s (args : AddArgs) (a : Z) (newTx : bool) (o : TbTransaction) : AddResult :=
  mkAddResult a newTx (fst (SetContent (snd (AddTxID o (choose_txID s args newTx).1)) (a_content args)))
    (fst (AddTxID o (choose_txID s args newTx).1)).

Lemma write_step now i s args a newTx o :
  thread_step now i s (AddWrite args a newTx o)
    = Ret (with_object s a (written s args newTx o) (choose_txID s args newTx).2,
           AddFile args (choose_txID s args newTx).1 (reported s args a newTx o)).
Proof.
  unfold written, reported. cbn [TxStoreThreads.thread_step]. destruct (choose_txID s args newTx) as [txID assigner]. cbn [fst snd].
  destruct (AddTxID o txID) as [newTxID o1]. cbn [fst snd]. by destruct (SetContent o1 (a_content args)).
Qed.

Lemma written_spec s args newTx o :
  obj_le o (written s args newTx o) /\ (a_content args <> [] -> tx_bytes (written s args newTx o) <> []) /\
  (forall a, ar_NewContent (reported s args a newTx o) = true <-> tx_bytes o = [] /\ a_content args <> []) /\
  tx_bytes (written s args newTx o) = if decide (tx_bytes o = []) then a_content args else tx_bytes o.
Proof.
  unfold written, reported. cbn [ar_NewContent]. set (txID := (choose_txID s args newTx).1).
  destruct (AddTxID_spec o txID) as (_ & _ & Hh & Hb & _).
  destruct (SetContent_spec (snd (AddTxID o txID)) (a_content args)) as (Hn & Hb' & Hh' & _).
  rewrite Hb', Hn, Hb. unfold obj_le. rewrite Hh', Hh, Hb', Hb. split_and!.
  - done.
  - intros Hne. by rewrite decide_False.
  - intros Hne. by destruct (decide (tx_bytes o = [])).
  - intros _. apply bool_decide_eq_true.
  - done.
Qed.

(** *** The steps, by what they do to the store *)
(** Neither objects nor locks nor the map of transactions change. *)
Definition same_core s s' : Prop :=
  sh_objects s' = sh_objects s /\ sh_locks s' = sh_locks s /\ sh_contents s' = sh_contents s /\ sh_next s' = sh_next s.

Inductive act (i : nat) s : thread -> shared M A -> thread -> Prop :=
  | act_quiet t s' t' : same_core s s' -> merged t = None -> made t = None -> critical t = None -> target t' = None -> act i s t s' t'
  | act_insert args contents t' :
      cm_view contents = match cm_view (sh_contents s) !! a_key args with
                         | None => <[a_key args := sh_next s]> (cm_view (sh_contents s))
                         | Some _ => cm_view (sh_contents s)
                         end ->
      t' = (if decide (cm_view (sh_contents s) !! a_key args = None) then AddLock args (sh_next s) true else AddFind args) ->
      act i s (AddInsert args) (with_contents s contents (<[sh_next s := a_fresh args]> (sh_objects s)) (sh_next s + 1)) t'
  | act_find args a : cm_view (sh_contents s) !! a_key args = Some a -> act i s (AddFind args) s (AddLock args a false)
  | act_lock args a newTx : sh_locks s !! a = None ->
      act i s (AddLock args a newTx) (with_locks s (<[a := i]> (sh_locks s))) (AddRead args a newTx)
  | act_read args a newTx o : sh_objects s !! a = Some o -> act i s (AddRead args a newTx) s (AddWrite args a newTx o)
  | act_write args a newTx o :
      act i s (AddWrite args a newTx o) (with_object s a (written s args newTx o) (choose_txID s args newTx).2)
        (AddFile args (choose_txID s args newTx).1 (reported s args a newTx o))
  | act_file args txID r s' : same_core s s' -> act i s (AddFile args txID r) s' (AddUnlock args r)
  | act_unlock args r : act i s (AddUnlock args r) (with_locks s (delete (ar_Transaction r) (sh_locks s))) (AddDone args r)
  | act_pop hash p a contents :
      cm_view (sh_contents s) !! hash = Some a -> cm_view contents = delete hash (cm_view (sh_contents s)) ->
      act i s (RemoveStart hash p) (with_contents s contents (sh_objects s) (sh_next s)) (RemoveRead hash p a).

Lemma thread_step_act now i s t s' t' : thread_step now i s t = Ret (s', t') ->
  act i s t s' t' /\ adds t' = adds t /\ removes t' = removes t.
Proof.
  assert (forall t1 t2, merged t1 = None -> made t1 = None -> critical t1 = None -> target t2 = None -> act i s t1 s t2) as Hq by by intros; apply act_quiet.
  destruct t as [args|args|args|args|args|args a newTx|args a newTx|args a newTx o|args txID r|args r|args r|args|hash p|hash p a
    |hash p [|txID txIDs]|hash]; rewrite ?write_step; unfold TxStoreThreads.thread_step, remove_step; go_simpl.
  - repeat case_decide; try done; [by intros [= <- <-]; split; [apply Hq|]|].
    destruct (HashHistory_Exists _ _ _); intros [= <- <-]; (split; [by apply Hq|done]).
  - case_decide; intros [= <- <-]; (split; [by apply act_quiet|done]).
  - intros [= <- <-]. split; [by apply act_quiet|done].
  - pose proof (cm_set_if_absent_fst (sh_contents s) (a_key args) (sh_next s)) as Hf.
    pose proof (cm_view_set_if_absent (sh_contents s) (a_key args) (sh_next s)) as Hv.
    destruct (cm_set_if_absent _ _ _) as [newTx contents]. cbn [fst snd] in Hf, Hv. subst newTx.
    destruct (decide (cm_view (sh_contents s) !! a_key args = None)) as [Hn|Hn].
    + rewrite bool_decide_eq_true_2 by done. intros [= <- <-]. split; [|done]. by apply act_insert; [|rewrite decide_True].
    + rewrite bool_decide_eq_false_2 by done. intros [= <- <-]. split; [|done]. by apply act_insert; [|rewrite decide_False].
  - rewrite cm_get_spec. destruct (cm_view (sh_contents s) !! a_key args) as [a|] eqn:Ha; intros [= <- <-]; (split; [|done]).
    + by apply act_find.
    + by apply Hq.
  - destruct (sh_locks s !! a) eqn:Hl; [done|]. intros [= <- <-]. by split; [apply act_lock|].
  - destruct (sh_objects s !! a) as [o|] eqn:Ho; go_simpl; [|done]. intros [= <- <-]. by split; [apply act_read|].
  - intros [= <- <-]. by split; [apply act_write|].
  - destruct (sh_objects s !! ar_Transaction r); go_simpl; [|done]. intros [= <- <-]. split; [|done].
    apply act_file. by destruct (ar_NewTxID r).
  - intros [= <- <-]. by split; [apply act_unlock|].
  - done.
  - done.
  - pose proof (cm_pop_fst (sh_contents s) hash) as Hf. pose proof (cm_view_pop (sh_contents s) hash) as Hv.
    destruct (cm_pop _ _) as [[a|] contents]; cbn [fst snd] in Hf, Hv; intros [= <- <-]; (split; [|done]).
    + by apply act_pop.
    + by apply Hq.
  - destruct (sh_objects s !! a); go_simpl; [|done]. intros [= <- <-]. by split; [apply Hq|].
  - intros [= <- <-]. by split; [apply act_quiet|].
  - intros [= <- <-]. by split; [apply act_quiet|].
  - done.
Qed.

(** *** What a step keeps *)
Lemma act_frame i s t s' t' : store_inv s -> thread_ok s i t -> act i s t s' t' -> frame i s s'.
Proof.
  intros [Hnext _] [Ht _ Hc Hr _ _]. destruct 1 as [t s' t' (Ho & Hl & _) _ _ _ _|args contents t' Hv _|args a Ha|args a newTx Hl|args a newTx o Ho
    |args a newTx o|args txID r s' (Ho & Hl & _)|args r|hash p a contents Ha Hv].
  - by apply frame_same.
  - assert (sh_objects s !! sh_next s = None) as Hnone.
    { apply eq_None_not_Some. intros Hs%Hnext. lia. }
    split; cbn; [|intros a j o _ Hl Ha; split; [done|]; rewrite lookup_insert_ne; congruence].
    intros a o Ha. exists o. rewrite lookup_insert_ne by congruence. done.
  - by apply frame_same.
  - split; cbn; [intros a' o Ho; by exists o|]. intros a' j o _ Hj Ho. rewrite lookup_insert_ne; [done|congruence].
  - by apply frame_same.
  - specialize (Hr args a newTx o eq_refl). specialize (Hc a eq_refl). split; cbn.
    + intros a' o' Ha'. destruct (decide (a = a')) as [<-|Hne].
      * assert (o' = o) as -> by congruence. eexists. rewrite lookup_insert_eq. split; [done|]. apply written_spec.
      * exists o'. by rewrite lookup_insert_ne.
    + intros a' j o' Hj Hl Ha'. split; [done|]. rewrite lookup_insert_ne; congruence.
  - by apply frame_same.
  - specialize (Hc (ar_Transaction r) eq_refl). split; cbn; [intros a' o Ho; by exists o|].
    intros a' j o Hj Hl Ho. rewrite lookup_delete_ne by congruence. done.
  - by apply frame_same.
Qed.

Lemma act_store i s t s' t' : store_inv s -> thread_ok s i t -> act i s t s' t' -> store_inv s'.
Proof.
  intros Hsi [_ _ _ Hr _ _]. pose proof Hsi as [Hnext Hcon].
  destruct 1 as [t s' t' (Ho & Hl & Hcc & Hn) _ _ _ _|args contents t' Hv _|args a Ha|args a newTx Hl|args a newTx o Ho
    |args a newTx o|args txID r s' (Ho & Hl & Hcc & Hn)|args r|hash p a contents Ha Hv]; try done.
  - by split; rewrite ?Ho, ?Hcc, ?Hn.
  - split; cbn [sh_objects sh_next sh_contents with_contents].
    + intros a [<-|[_ Ha%Hnext]]%lookup_insert_is_Some; lia.
    + intros k a Hk. rewrite Hv in Hk.
      assert (a = sh_next s /\ k = a_key args \/ cm_view (sh_contents s) !! k = Some a) as [[-> ->]|Hold].
      { destruct (cm_view (sh_contents s) !! a_key args); [by right|]. apply lookup_insert_Some in Hk as [[? ?]|[_ ?]]; [by left|by right]. }
      * exists (a_fresh args). by rewrite lookup_insert_eq.
      * destruct (Hcon k a Hold) as (o & Ho & Hk'). exists o. rewrite lookup_insert_ne; [done|].
        intros <-. assert (sh_next s < sh_next s) by (apply Hnext; by exists o). lia.
  - specialize (Hr args a newTx o eq_refl). split; cbn [sh_objects sh_next sh_contents with_object].
    + intros a' [<-|[_ Ha']]%lookup_insert_is_Some; [apply Hnext; by exists o|by apply Hnext].
    + intros k a' Hk. destruct (Hcon k a' Hk) as (o' & Ho' & Hh). destruct (decide (a = a')) as [<-|Hne].
      * eexists. rewrite lookup_insert_eq. split; [done|]. destruct (written_spec s args newTx o) as [[Hh' _] _].
        rewrite Hh'. by assert (o' = o) as -> by congruence.
      * exists o'. by rewrite lookup_insert_ne.
  - by split; rewrite ?Ho, ?Hcc, ?Hn.
  - split; cbn [sh_objects sh_next sh_contents with_contents]; [done|]. intros k a' Hk. rewrite Hv in Hk.
    apply lookup_delete_Some in Hk as [_ Hk]. by apply Hcon.
Qed.

Lemma quiet_merged t : target t = None -> merged t = None.
Proof. by destruct t. Qed.

Lemma not_merged t a c : merged t = None -> ~ announces t a c.
Proof. intros Hm (args & r & Heq & _). congruence. Qed.

(** A goroutine without transaction is in order. *)
Lemma idle_ok s i t : target t = None -> thread_ok s i t.
Proof.
  intros Ht. assert (merged t = None) as Hm by by apply quiet_merged. split; try (by destruct t).
  intros a c Han. by destruct (not_merged t a c Hm).
Qed.

(** A goroutine that has written its transaction is in order. *)
Lemma written_own i s args a newTx o : thread_ok s i (AddWrite args a newTx o) ->
  thread_ok (with_object s a (written s args newTx o) (choose_txID s args newTx).2) i
    (AddFile args (choose_txID s args newTx).1 (reported s args a newTx o)).
Proof.
  intros [Ht Hk Hc Hr _ _]. destruct (written_spec s args newTx o) as ([Hh _] & Hne & Hrep & Hb).
  split; cbn [target critical merged adds].
  - intros a' [= <-]. cbn. rewrite lookup_insert_eq. by eexists.
  - intros args' a' o' [= <-] [= <-]. cbn. rewrite lookup_insert_eq. intros [= <-]. rewrite Hh.
    apply (Hk args a o); [done..|]. by apply (Hr args a newTx).
  - intros a' [= <-]. by apply (Hc a).
  - done.
  - intros a' c (args' & r & [= <- <-] & Hnc & <- & <-). apply Hrep in Hnc as [Ho Hcn]. rewrite decide_True in Hb by done.
    eexists. cbn. rewrite lookup_insert_eq. by split_and!.
  - intros args' r [= <- <-] Hcn. eexists. cbn. rewrite lookup_insert_eq. split; [done|]. by apply Hne.
Qed.

(** The goroutine that takes the step is in order after it. *)
Lemma act_own i s t s' t' : store_inv s -> thread_ok s i t -> act i s t s' t' -> thread_ok s' i t'.
Proof.
  intros [Hnext Hcon] [Ht Hk Hc Hr Ha Hm].
  assert (forall s0 t0, (forall a, target t0 = Some a -> exists o, sh_objects s0 !! a = Some o /\
      forall args, adds t0 = Some args -> hash_key (tx_hash o) = a_key args) ->
    critical t0 = None -> merged t0 = None -> thread_ok s0 i t0) as Hplain.
  { intros s0 t0 Ht0 Hc0 Hm0. split; [|intros args a o Hadd Ht1 Ho|congruence| | |congruence].
    - intros a (o & Ho & _)%Ht0. by exists o.
    - destruct (Ht0 a Ht1) as (o' & Ho' & Hkey). assert (o' = o) as <- by congruence. by apply Hkey.
    - by intros args a newTx o ->.
    - intros a c Han. by destruct (not_merged t0 a c Hm0). }
  destruct 1 as [t s' t' (Ho & Hl & _) Htn _ _ Htn'|args contents t' Hv ->|args a Hin|args a newTx Hl|args a newTx o Ho
    |args a newTx o|args txID r s' (Ho & Hl & _)|args r|hash p a contents Hin Hv].
  - apply Hplain; [by rewrite Htn'| |by apply quiet_merged].
    destruct (critical t') as [a|] eqn:Hcr; [|done]. apply critical_target in Hcr. congruence.
  - apply Hplain; cbn; case_decide; try done. intros a [= <-]. exists (a_fresh args). rewrite lookup_insert_eq. split; [done|].
    by intros args' [= <-].
  - apply Hplain; [|done..]. intros a' [= <-]. destruct (Hcon _ _ Hin) as (o & Ho & Hh). exists o. split; [done|]. by intros args' [= <-].
  - split; [by intros a' [= <-]; apply Ht|exact Hk| |done| |done].
    + intros a' [= <-]. apply lookup_insert_eq.
    + intros a' c Han. by destruct (not_merged (AddRead args a newTx) a' c eq_refl Han).
  - split; [by intros a' [= <-]; apply Ht|exact Hk|by intros a' [= <-]; apply Hc| | |done].
    + by intros args' a' newTx' o' [= <- <- <- <-].
    + intros a' c Han. by destruct (not_merged (AddWrite args a newTx o) a' c eq_refl Han).
  - by apply written_own.
  - split; cbn [target critical merged adds]; rewrite ?Ho, ?Hl; [by apply Ht|by apply Hk|by apply Hc|done|by apply Ha|by apply Hm].
  - split; cbn [target critical merged adds]; [by apply Ht|by apply Hk|done|done|by apply Ha|by apply Hm].
  - apply Hplain; [|done..]. intros a' [= <-]. destruct (Hcon _ _ Hin) as (o & Ho & _). by exists o.
Qed.
End Invariant.
