(* ===== verification/TxStoreConcurrency.v ===== *)
(** Goroutines that add to and remove from one transaction store at the same time ([TxStoreThreads]): what
    every interleaving of their steps keeps, that each of them finishes, who reports a transaction and its
    content as new, and what a removal in the middle of an addition leaves behind. *)
From S2P Require Import Prelude Bytes CMap HashHistory Types TxStore TxStoreFacts TxStoreThreads.

(** ** Definitions *)
Section Concurrency.
Context {M : Type -> Type} `{ConcurrentMapLaws M} {A : Type} `{!TxIDAssigner A} (timeToAvoidReEntry maxTxAge : Z).
Implicit Types (s : shared M A) (t : thread) (st : system (M:=M) (A:=A)) (ts : list thread).
#[local] Abbreviation thread_step := (thread_step timeToAvoidReEntry maxTxAge (M:=M) (A:=A)).
#[local] Abbreviation run_thread := (run_thread timeToAvoidReEntry maxTxAge (M:=M) (A:=A)).
#[local] Abbreviation step := (step timeToAvoidReEntry maxTxAge (M:=M) (A:=A)).

Definition finished t : Prop := match t with AddDone _ _ | AddDropped _ | RemoveDone _ => True | _ => False end.
#[local] Instance finished_dec t : Decision (finished t).
Proof. destruct t; apply _. Defined.

(** Goroutines whose calls are about to begin, on a store nobody has locked. *)
Definition call t : Prop := match t with AddStart _ | RemoveStart _ _ => True | _ => False end.
Record started s ts : Prop := {
  st_store : store_inv s;
  st_unlocked : sh_locks s = ∅;
  st_calls : Forall call ts
}.

Definition had_content s (a : Z) : Prop := exists o, sh_objects s !! a = Some o /\ tx_bytes o <> [].

(** A finished call of [Add] for key [k]. *)
Definition added st (k : string) (i : nat) (args : AddArgs) (r : AddResult) : Prop :=
  st.2 !! i = Some (AddDone args r) /\ a_key args = k.

(** ** The steps of the system *)

(** Goroutine [i] steps from [t] to [t'], the others stay where they are. *)
Record moved st st' (i : nat) t t' : Prop := {
  mv_before : st.2 !! i = Some t;
  mv_act : act i st.1 t st'.1 t';
  mv_after : st'.2 !! i = Some t';
  mv_thread j y : st'.2 !! j = Some y -> j = i /\ y = t' \/ j <> i /\ st.2 !! j = Some y;
  mv_other j y : j <> i -> st.2 !! j = Some y -> st'.2 !! j = Some y;
  mv_adds : adds t' = adds t;
  mv_removes : removes t' = removes t
}.

Lemma step_moved st st' : step st st' -> exists i t t', moved st st' i t t'.
Proof.
  intros (now & i & Hrun). unfold TxStoreThreads.run_thread in Hrun. destruct (st.2 !! i) as [t|] eqn:Hi; go_simpl; [|done].
  destruct (TxStoreThreads.thread_step _ _ now i st.1 t) as [[s' t']| |] eqn:Hs; go_simpl; try done.
  injection Hrun as <-. destruct (thread_step_act _ _ _ _ _ _ _ _ Hs) as (Hact & Ha & Hr). exists i, t, t'.
  pose proof (lookup_lt_Some _ _ _ Hi) as Hlt. split; cbn; try done.
  - by apply list_lookup_insert_eq.
  - intros j y Hy. destruct (decide (i = j)) as [<-|Hne].
    + rewrite list_lookup_insert_eq in Hy by done. left. by injection Hy.
    + rewrite list_lookup_insert_ne in Hy by done. by right.
  - intros j y Hne Hy. by rewrite list_lookup_insert_ne.
Qed.

(** What some goroutine satisfies stays satisfied when the one that steps keeps it. *)
Lemma moved_some st st' i t t' (P : thread -> Prop) : moved st st' i t t' -> (P t -> P t') ->
  (exists j y, st.2 !! j = Some y /\ P y) -> exists j y, st'.2 !! j = Some y /\ P y.
Proof.
  intros Hmv Hp (j & y & Hj & Hy). destruct (decide (j = i)) as [->|Hne].
  - exists i, t'. split; [by apply (mv_after _ _ _ _ _ Hmv)|]. apply Hp. by rewrite (mv_before _ _ _ _ _ Hmv) in Hj; simplify_eq.
  - exists j, y. split; [by apply (mv_other _ _ _ _ _ Hmv)|done].
Qed.

(** What a step does to announcements, to contents, and to what is made. *)
Lemma act_announces i s t s' t' a c : act i s t s' t' -> announces t' a c ->
  announces t a c \/ exists args newTx o, t = AddWrite args a newTx o /\ tx_bytes o = [].
Proof.
  destruct 1 as [t s' t' _ _ _ _ Ht'|args contents t' _ ->|args a' _|args a' newTx _|args a' newTx o _
    |args a' newTx o|args txID r s' _|args r|hash p a' contents _ _]; intros Han; try (by left).
  - by destruct (not_merged t' a c (quiet_merged t' Ht')).
  - exfalso. destruct Han as (args' & r & Hm & _). revert Hm. by case_decide.
  - right. destruct Han as (args' & r & [= <- <-] & Hn & <- & _). apply (written_spec s args newTx o) in Hn as [Ho _].
    by exists args, newTx, o.
Qed.

Lemma act_announces_mono i s t s' t' a c : act i s t s' t' -> announces t a c -> announces t' a c.
Proof.
  destruct 1 as [t s' t' _ Hm _ _ _|args contents t' _ _|args a' _|args a' newTx _|args a' newTx o _
    |args a' newTx o|args txID r s' _|args r|hash p a' contents _ _]; intros Han; try done;
    try (by destruct Han as (args' & r & ? & _)).
  by destruct (not_merged t a c Hm).
Qed.

Lemma act_content i s t s' t' a o' : thread_ok s i t -> act i s t s' t' -> sh_objects s' !! a = Some o' -> tx_bytes o' <> [] ->
  (exists o, sh_objects s !! a = Some o /\ tx_bytes o = tx_bytes o') \/ announces t' a (tx_bytes o').
Proof.
  intros Hok. destruct 1 as [t s' t' (Ho & _) _ _ _ _|args contents t' _ _|args a' _|args a' newTx _|args a' newTx o _
    |args a' newTx o|args txID r s' (Ho & _)|args r|hash p a' contents _ _]; intros Ha Hne; try (left; by exists o');
    try (left; exists o'; by rewrite <- Ho).
  - cbn in Ha. apply lookup_insert_Some in Ha as [[<- <-]|[_ Ha]]; [done|]. left. by exists o'.
  - cbn in Ha. apply lookup_insert_Some in Ha as [[<- <-]|[_ Ha]]; [|left; by exists o'].
    destruct (written_spec s args newTx o) as (_ & _ & Hn & Hb). destruct (decide (tx_bytes o = [])) as [He|He].
    + right. exists args, (reported s args a' newTx o). rewrite Hn, Hb in *. by split_and!.
    + left. exists o. split; [by apply (to_read _ _ _ Hok args a' newTx o)|congruence].
Qed.

Lemma act_made i s t s' t' : act i s t s' t' ->
  made t' = made t \/ made t = None /\ made t' = Some (sh_next s) /\ sh_next s < sh_next s'.
Proof.
  destruct 1 as [t s' t' _ Hm Hmd _ Ht'|args contents t' _ ->|args a' _|args a' newTx _|args a' newTx o _
    |args a' newTx o|args txID r s' _|args r|hash p a' contents _ _]; try (by left).
  - left. assert (forall t, target t = None -> made t = None) as Hn by by intros [].
    by rewrite Hmd, Hn.
  - case_decide; [right|by left]. cbn. split_and!; [done..|lia].
Qed.

(** A lock is held by who just took it, or by who held it and has not released it. *)
Lemma act_locks i s t s' t' a j : act i s t s' t' -> sh_locks s' !! a = Some j ->
  j = i /\ critical t' = Some a \/ sh_locks s !! a = Some j /\ (critical t = Some a -> critical t' = Some a).
Proof.
  destruct 1 as [t s' t' (_ & Hl & _) _ _ Hc _|args contents t' _ ->|args a' _|args a' newTx Hl|args a' newTx o _
    |args a' newTx o|args txID r s' (_ & Hl & _)|args r|hash p a' contents _ _]; intros Ha; rewrite ?Hl in Ha; cbn in Ha;
    try (by right).
  - right. by rewrite Hc.
  - apply lookup_insert_Some in Ha as [[<- <-]|[_ Ha]]; [by left|by right].
  - apply lookup_delete_Some in Ha as [Hne Ha]. right. split; [done|]. intros [= Heq]. congruence.
Qed.

(** ** Invariant *)
Section Reachable.
Context (s0 : shared M A).

Record inv st : Prop := {
  inv_store : store_inv st.1;
  inv_threads i t : st.2 !! i = Some t -> thread_ok st.1 i t;
  inv_locks a j : sh_locks st.1 !! a = Some j -> exists t, st.2 !! j = Some t /\ critical t = Some a;
  (* what is announced, and made, once *)
  inv_once i j ti tj a c c' : st.2 !! i = Some ti -> st.2 !! j = Some tj -> announces ti a c -> announces tj a c' -> i = j;
  inv_made i j ti tj a : st.2 !! i = Some ti -> st.2 !! j = Some tj -> made ti = Some a -> made tj = Some a -> i = j;
  (* where contents come from, and where transactions *)
  inv_old a : is_Some (sh_objects s0 !! a) -> is_Some (sh_objects st.1 !! a);
  inv_had a : had_content s0 a -> had_content st.1 a /\ forall i t c, st.2 !! i = Some t -> ~ announces t a c;
  inv_origin a o : sh_objects st.1 !! a = Some o -> tx_bytes o <> [] ->
    had_content s0 a \/ exists i t, st.2 !! i = Some t /\ announces t a (tx_bytes o);
  inv_maker k a : cm_view (sh_contents st.1) !! k = Some a ->
    cm_view (sh_contents s0) !! k = Some a \/ ~ is_Some (sh_objects s0 !! a) /\ exists i t, st.2 !! i = Some t /\ made t = Some a
}.

Lemma made_target t a : made t = Some a -> target t = Some a.
Proof. destruct t as [| | | | |? ? []|? ? []|? ? []|? ? [? [] ? ?]|? [? [] ? ?]|? [? [] ? ?]| | | | |]; naive_solver. Qed.

Lemma old_content s s' i a : frame i s s' -> had_content s a -> had_content s' a.
Proof.
  intros [Hobj _] (o & Ho & Hne). destruct (Hobj a o Ho) as (o' & Ho' & _ & Hb). exists o'. split; [done|]. by rewrite Hb.
Qed.

(** Nobody has announced a transaction without content. *)
Lemma no_announcer s i t a c o : thread_ok s i t -> sh_objects s !! a = Some o -> tx_bytes o = [] -> ~ announces t a c.
Proof. intros Hok Ho Hb Han. destruct (to_announced _ _ _ Hok a c Han) as (o' & Ho' & Hb' & Hne). congruence. Qed.

(** The object of the store of a new transaction is new. *)
Lemma target_old s i t a : store_inv s -> thread_ok s i t -> target t = Some a -> a < sh_next s.
Proof. intros [Hn _] Hok Ht. apply Hn. by apply (to_target _ _ _ Hok). Qed.

Lemma act_contents i s t s' t' k a : act i s t s' t' -> cm_view (sh_contents s') !! k = Some a ->
  cm_view (sh_contents s) !! k = Some a \/ a = sh_next s /\ made t' = Some a.
Proof.
  destruct 1 as [t s' t' (_ & _ & Hc & _) _ _ _ _|args contents t' Hv ->|args a' _|args a' newTx _|args a' newTx o _
    |args a' newTx o|args txID r s' (_ & _ & Hc & _)|args r|hash p a' contents _ Hv]; intros Ha; rewrite ?Hc in Ha; cbn in Ha;
    try (by left); rewrite Hv in Ha.
  - case_decide as Hd; [rewrite Hd in Ha|destruct (cm_view (sh_contents s) !! a_key args); [by left|done]].
    apply lookup_insert_Some in Ha as [[_ <-]|[_ Ha]]; [by right|by left].
  - apply lookup_delete_Some in Ha as [_ Ha]. by left.
Qed.

Lemma moved_once st st' i t t' : inv st -> moved st st' i t t' ->
  forall k j tk tj a c c', st'.2 !! k = Some tk -> st'.2 !! j = Some tj -> announces tk a c -> announces tj a c' -> k = j.
Proof.
  intros Hinv Hmv. pose proof (inv_threads _ Hinv i t (mv_before _ _ _ _ _ Hmv)) as Hoki.
  assert (forall j tj a c c', j <> i -> st.2 !! j = Some tj -> announces t' a c -> announces tj a c' -> False) as Hother.
  { intros j tj a c c' Hne Hj Ht' Htj. pose proof (mv_act _ _ _ _ _ Hmv) as Hact.
    destruct (act_announces _ _ _ _ _ _ _ Hact Ht') as [Ht|(args & newTx & o & -> & Hb)].
    - apply Hne. symmetry. by apply (inv_once _ Hinv i j t tj a c c'); [apply (mv_before _ _ _ _ _ Hmv)|..].
    - apply (no_announcer st.1 j tj a c' o); try done; [by apply (inv_threads _ Hinv)|by apply (to_read _ _ _ Hoki args a newTx)]. }
  intros k j tk tj a c c' Hk Hj Hak Haj.
  destruct (mv_thread _ _ _ _ _ Hmv k tk Hk) as [[-> ->]|[Hnk Hk']], (mv_thread _ _ _ _ _ Hmv j tj Hj) as [[-> ->]|[Hnj Hj']].
  - done.
  - by destruct (Hother j tj a c c').
  - by destruct (Hother k tk a c' c).
  - by apply (inv_once _ Hinv k j tk tj a c c').
Qed.

Lemma moved_made st st' i t t' : inv st -> moved st st' i t t' ->
  forall k j tk tj a, st'.2 !! k = Some tk -> st'.2 !! j = Some tj -> made tk = Some a -> made tj = Some a -> k = j.
Proof.
  intros Hinv Hmv.
  assert (forall j tj a, j <> i -> st.2 !! j = Some tj -> made t' = Some a -> made tj = Some a -> False) as Hother.
  { intros j tj a Hne Hj Ht' Htj. destruct (act_made _ _ _ _ _ (mv_act _ _ _ _ _ Hmv)) as [Heq|(_ & Hn & _)].
    - apply Hne. symmetry. apply (inv_made _ Hinv i j t tj a); [apply (mv_before _ _ _ _ _ Hmv)|done|congruence|done].
    - pose proof (target_old st.1 j tj a (inv_store _ Hinv) (inv_threads _ Hinv j tj Hj) (made_target tj a Htj)).
      assert (a = sh_next st.1) by congruence. lia. }
  intros k j tk tj a Hk Hj Hak Haj.
  destruct (mv_thread _ _ _ _ _ Hmv k tk Hk) as [[-> ->]|[Hnk Hk']], (mv_thread _ _ _ _ _ Hmv j tj Hj) as [[-> ->]|[Hnj Hj']].
  - done.
  - by destruct (Hother j tj a).
  - by destruct (Hother k tk a).
  - by apply (inv_made _ Hinv k j tk tj a).
Qed.

Lemma moved_locks st st' i t t' : inv st -> moved st st' i t t' ->
  forall a j, sh_locks st'.1 !! a = Some j -> exists y, st'.2 !! j = Some y /\ critical y = Some a.
Proof.
  intros Hinv Hmv a j Ha. destruct (act_locks _ _ _ _ _ _ _ (mv_act _ _ _ _ _ Hmv) Ha) as [[-> Hc]|[Ha' Hc]].
  - exists t'. by split; [apply (mv_after _ _ _ _ _ Hmv)|].
  - destruct (inv_locks _ Hinv a j Ha') as (y & Hj & Hy). destruct (decide (j = i)) as [->|Hne].
    + exists t'. split; [apply (mv_after _ _ _ _ _ Hmv)|]. apply Hc. rewrite (mv_before _ _ _ _ _ Hmv) in Hj. by simplify_eq.
    + exists y. by split; [apply (mv_other _ _ _ _ _ Hmv)|].
Qed.

Lemma moved_had st st' i t t' a : inv st -> moved st st' i t t' -> had_content s0 a ->
  had_content st'.1 a /\ forall j y c, st'.2 !! j = Some y -> ~ announces y a c.
Proof.
  intros Hinv Hmv Ha. destruct (inv_had _ Hinv a Ha) as [Hhad Hnone].
  pose proof (mv_before _ _ _ _ _ Hmv) as Hi. pose proof (inv_threads _ Hinv i t Hi) as Hoki. split.
  - eapply old_content; [|done]. by apply (act_frame _ _ _ _ _ (inv_store _ Hinv) Hoki (mv_act _ _ _ _ _ Hmv)).
  - intros j y c Hj Han. destruct (mv_thread _ _ _ _ _ Hmv j y Hj) as [[-> ->]|[_ Hj']]; [|by apply (Hnone j y c)].
    destruct (act_announces _ _ _ _ _ _ _ (mv_act _ _ _ _ _ Hmv) Han) as [Ht|(args & newTx & o & -> & Hb)]; [by apply (Hnone i t c)|].
    destruct Hhad as (o' & Ho' & Hne). pose proof (to_read _ _ _ Hoki args a newTx o eq_refl). congruence.
Qed.

Lemma moved_origin st st' i t t' a o : inv st -> moved st st' i t t' -> sh_objects st'.1 !! a = Some o -> tx_bytes o <> [] ->
  had_content s0 a \/ exists j y, st'.2 !! j = Some y /\ announces y a (tx_bytes o).
Proof.
  intros Hinv Hmv Ha Hne. pose proof (inv_threads _ Hinv i t (mv_before _ _ _ _ _ Hmv)) as Hoki.
  pose proof (mv_act _ _ _ _ _ Hmv) as Hact. destruct (act_content _ _ _ _ _ _ _ Hoki Hact Ha Hne) as [(o' & Ho' & Hb)|Han].
  - destruct (inv_origin _ Hinv a o' Ho') as [|Hsome]; [congruence|by left|]. right. rewrite <- Hb.
    eapply moved_some; [done| |exact Hsome]. cbn. by eapply act_announces_mono.
  - right. exists i, t'. by split; [apply (mv_after _ _ _ _ _ Hmv)|].
Qed.

Lemma moved_maker st st' i t t' k a : inv st -> moved st st' i t t' -> cm_view (sh_contents st'.1) !! k = Some a ->
  cm_view (sh_contents s0) !! k = Some a \/ ~ is_Some (sh_objects s0 !! a) /\ exists j y, st'.2 !! j = Some y /\ made y = Some a.
Proof.
  intros Hinv Hmv Ha. pose proof (mv_act _ _ _ _ _ Hmv) as Hact. destruct (act_contents _ _ _ _ _ _ _ Hact Ha) as [Ha'|[-> Hm]].
  - destruct (inv_maker _ Hinv k a Ha') as [|[Hn Hsome]]; [by left|]. right. split; [done|].
    eapply moved_some; [done| |exact Hsome]. cbn. intros Ht.
    destruct (act_made _ _ _ _ _ Hact) as [Heq|(Heq & _)]; congruence.
  - right. split.
    + intros Hs%(inv_old _ Hinv)%(si_next _ (inv_store _ Hinv)). lia.
    + exists i, t'. by split; [apply (mv_after _ _ _ _ _ Hmv)|].
Qed.

Lemma inv_step st st' : inv st -> step st st' -> inv st'.
Proof.
  intros Hinv (i & t & t' & Hmv)%step_moved. pose proof (inv_store _ Hinv) as Hs.
  pose proof (inv_threads _ Hinv i t (mv_before _ _ _ _ _ Hmv)) as Hoki. pose proof (mv_act _ _ _ _ _ Hmv) as Hact.
  pose proof (act_frame _ _ _ _ _ Hs Hoki Hact) as Hf. split.
  - by eapply act_store.
  - intros j y Hj. destruct (mv_thread _ _ _ _ _ Hmv j y Hj) as [[-> ->]|[Hne Hj']]; [by eapply act_own|].
    eapply thread_ok_frame; [done..|]. by apply (inv_threads _ Hinv).
  - by eapply moved_locks.
  - by eapply moved_once.
  - by eapply moved_made.
  - intros a Ha. destruct (inv_old _ Hinv a Ha) as [o Ho]. destruct (fr_object _ _ _ Hf a o Ho) as (o' & Ho' & _). by exists o'.
  - intros a Ha. by eapply moved_had.
  - intros a o Ha Hne. by eapply moved_origin.
  - intros k a Ha. by eapply moved_maker.
Qed.

Lemma started_inv ts : started s0 ts -> inv (s0, ts).
Proof.
  intros [Hs Hl Hc]. rewrite Forall_lookup in Hc.
  assert (forall i t a c, ts !! i = Some t -> ~ announces t a c) as Hna.
  { intros i t a c Hi. apply not_merged. specialize (Hc i t Hi). by destruct t. }
  split; cbn [fst snd]; try done.
  - intros i t Hi. apply idle_ok. specialize (Hc i t Hi). by destruct t.
  - intros a j. by rewrite Hl.
  - intros i j ti tj a c c' Hi Hj Han. by destruct (Hna i ti a c Hi).
  - intros i j ti tj a Hi Hj Hm. specialize (Hc i ti Hi). by destruct ti.
  - intros a Ha. split; [done|]. intros i t c Hi. by apply (Hna i).
  - intros a o Ho Hne. left. by exists o.
  - by left.
Qed.

Lemma reachable_inv ts st : started s0 ts -> rtc step (s0, ts) st -> inv st.
Proof.
  intros Hst Hr. apply started_inv in Hst. revert Hst. generalize (s0, ts) as st0, Hr. clear ts Hr.
  intros st0 Hr. induction Hr as [|st0 st1 st2 Hstep _ IH]; [done|]. intros Hinv. apply IH. by eapply inv_step.
Qed.
End Reachable.

(** *** One key *)
Definition unremoved (k : string) ts : Prop := forall i t, ts !! i = Some t -> removes t <> Some k.

(** The calls for key [k] work on the transaction the store has for it. *)
Definition keyed (k : string) st : Prop := forall i t args a,
  st.2 !! i = Some t -> adds t = Some args -> a_key args = k -> target t = Some a -> cm_view (sh_contents st.1) !! k = Some a.

Lemma act_keeps i s t s' t' k a : act i s t s' t' -> removes t <> Some k ->
  cm_view (sh_contents s) !! k = Some a -> cm_view (sh_contents s') !! k = Some a.
Proof.
  destruct 1 as [t s' t' (_ & _ & Hc & _) _ _ _ _|args contents t' Hv ->|args a' _|args a' newTx _|args a' newTx o _
    |args a' newTx o|args txID r s' (_ & _ & Hc & _)|args r|hash p a' contents _ Hv]; intros Hr Ha; rewrite ?Hc; cbn; try done; rewrite Hv.
  - destruct (cm_view (sh_contents s) !! a_key args) eqn:Hd; [done|]. rewrite lookup_insert_ne; [done|congruence].
  - rewrite lookup_delete_ne; [done|]. intros ->. by apply Hr.
Qed.

Lemma act_target i s t s' t' args a : act i s t s' t' -> adds t' = Some args -> target t' = Some a ->
  target t = Some a \/ cm_view (sh_contents s') !! a_key args = Some a.
Proof.
  destruct 1 as [t s' t' _ _ _ _ Ht'|args' contents t' Hv ->|args' a' Ha|args' a' newTx _|args' a' newTx o _
    |args' a' newTx o|args' txID r s' _|args' r|hash p a' contents _ Hv]; intros Hadd Ht; try (by left).
  - congruence.
  - right. cbn. rewrite Hv. case_decide as Hd; [|done]. injection Hadd as <-. injection Ht as <-. rewrite Hd. apply lookup_insert_eq.
  - right. injection Hadd as <-. by injection Ht as <-.
Qed.

Lemma unremoved_step k st st' : unremoved k st.2 -> step st st' -> unremoved k st'.2.
Proof.
  intros Hu (i & t & t' & Hmv)%step_moved j y Hj. destruct (mv_thread _ _ _ _ _ Hmv j y Hj) as [[-> ->]|[_ Hj']]; [|by eapply Hu].
  rewrite (mv_removes _ _ _ _ _ Hmv). eapply Hu, (mv_before _ _ _ _ _ Hmv).
Qed.

Lemma keyed_step k st st' : unremoved k st.2 -> keyed k st -> step st st' -> keyed k st'.
Proof.
  intros Hu Hk (i & t & t' & Hmv)%step_moved j y args a Hj Hadd Hkey Ht.
  pose proof (mv_act _ _ _ _ _ Hmv) as Hact. pose proof (mv_before _ _ _ _ _ Hmv) as Hi. pose proof (Hu i t Hi) as Hr.
  destruct (mv_thread _ _ _ _ _ Hmv j y Hj) as [[-> ->]|[_ Hj']]; [|by eapply act_keeps, Hk].
  destruct (act_target _ _ _ _ _ _ _ Hact Hadd Ht) as [Ht'|Hin]; [|congruence].
  eapply act_keeps; [done..|]. eapply Hk; [done| |done..]. by rewrite <- (mv_adds _ _ _ _ _ Hmv).
Qed.

Lemma reachable_keyed s0 k ts st : started s0 ts -> unremoved k ts -> rtc step (s0, ts) st -> keyed k st.
Proof.
  intros [_ _ Hc] Hu Hr. rewrite Forall_lookup in Hc. assert (keyed k (s0, ts)) as Hk.
  { intros i t args a Hi _ _ Ht. specialize (Hc i t Hi). by destruct t. }
  revert Hu Hk. change ts with (s0, ts).2 at 1. induction Hr as [|st0 st1 st2 Hstep _ IH]; [done|].
  intros Hu Hk. apply IH; [by eapply unremoved_step|by eapply keyed_step].
Qed.

(** A goroutine that is done with a transaction has added it under its key. *)
Lemma done_added s0 st i t a k : inv s0 st -> st.2 !! i = Some t -> finished t -> target t = Some a ->
  cm_view (sh_contents st.1) !! k = Some a -> exists args r, t = AddDone args r /\ ar_Transaction r = a /\ added st k i args r.
Proof.
  intros Hinv Hi Hfin Ht Hin. destruct t as [| | | | | | | | | |args r| | | | |]; try done. injection Ht as <-.
  exists args, r. split_and!; [done..|]. destruct (si_contents _ (inv_store _ _ Hinv) k _ Hin) as (o & Ho & <-).
  split; [done|]. symmetry. by apply (to_key _ _ _ (inv_threads _ _ Hinv i _ Hi) args (ar_Transaction r) o).
Qed.

Lemma merged_target t args r : merged t = Some (args, r) -> target t = Some (ar_Transaction r).
Proof. by destruct t; try done; intros [= <- <-]. Qed.

(** What a schedule runs are steps. *)
Lemma run_schedule_steps schedule st st' : run_schedule timeToAvoidReEntry maxTxAge schedule st = Ret st' -> rtc step st st'.
Proof.
  revert st. induction schedule as [|[now i] schedule IH]; intros st; cbn [run_schedule]; go_simpl.
  - by intros [= <-].
  - destruct (TxStoreThreads.run_thread _ _ now i st) as [st1| |] eqn:Hrun; try done. intros Hr. eapply rtc_l; [by exists now, i|by apply IH].
Qed.

(** *** Every goroutine finishes *)
#[local] Open Scope nat_scope.
Definition rank t : nat :=
  match t with
  | AddStart _ => 10 | AddRefresh _ => 9 | AddForget _ => 8 | AddInsert _ => 7 | AddFind _ => 6 | AddLock _ _ _ => 5
  | AddRead _ _ _ => 4 | AddWrite _ _ _ _ => 3 | AddFile _ _ _ => 2 | AddUnlock _ _ => 1
  | RemoveStart _ _ => 3 | RemoveRead _ _ _ => 2 | RemoveIDs _ _ _ => 1
  | AddDone _ _ | AddDropped _ | RemoveDone _ => 0
  end.
(** The short IDs [remove] has yet to remove. *)
Definition pending t : nat := match t with RemoveIDs _ _ txIDs => length txIDs | _ => 0 end.

Lemma thread_step_rank now i s t s' t' : thread_step now i s t = Ret (s', t') ->
  rank t' < rank t \/ rank t' = rank t /\ pending t' < pending t.
Proof.
  destruct t as [args|args|args|args|args|args a newTx|args a newTx|args a newTx o|args txID r|args r|args r|args|hash p|hash p a
    |hash p [|txID txIDs]|hash]; rewrite ?write_step; unfold TxStoreThreads.thread_step, remove_step, deref; repeat case_match; go_simpl; try done;
    intros [= <- <-]; cbn; lia.
Qed.

Lemma sum_insert {X} (f : X -> nat) (l : list X) i x y : l !! i = Some x ->
  sum_list_with f (<[i := y]> l) + f x = sum_list_with f l + f y.
Proof.
  revert i. induction l as [|z l IH]; intros [|i] Hi; try done.
  - injection Hi as ->. simpl. lia.
  - specialize (IH i Hi). simpl. lia.
Qed.

Lemma step_measure st st' : step st st' ->
  sum_list_with rank st'.2 < sum_list_with rank st.2 \/
  sum_list_with rank st'.2 = sum_list_with rank st.2 /\ sum_list_with pending st'.2 < sum_list_with pending st.2.
Proof.
  intros (now & i & Hrun). unfold TxStoreThreads.run_thread in Hrun. destruct (st.2 !! i) as [t|] eqn:Hi; go_simpl; [|done].
  destruct (TxStoreThreads.thread_step _ _ now i st.1 t) as [[s' t']| |] eqn:Hs; go_simpl; try done.
  injection Hrun as <-. apply thread_step_rank in Hs. cbn.
  pose proof (sum_insert rank st.2 i t t' Hi). pose proof (sum_insert pending st.2 i t t' Hi). lia.
Qed.

Lemma steps_end st : sn step st.
Proof.
  assert (forall n m st, sum_list_with rank st.2 = n -> sum_list_with pending st.2 = m -> sn step st) as Hsn; [|by eapply Hsn].
  induction n as [n IHn] using lt_wf_ind. induction m as [m IHm] using lt_wf_ind. intros st1 Hn Hm. constructor. intros st2 Hstep.
  destruct (step_measure st1 st2 Hstep) as [Hlt|[Heq Hlt]]; [by eapply IHn; [|done..]; lia|by eapply IHm; [|lia|done]; lia].
Qed.

(** What a goroutine that waits for no lock does next: it goes on, or refuses its arguments. *)
Definition refused_args : go_panic := Explicit "content and txID can't be both missing".
Definition goes_on st (i : nat) : Prop :=
  forall now, (exists st', run_thread now i st = Ret st') \/ run_thread now i st = Panics refused_args.

Lemma unblocked st i t : st.2 !! i = Some t -> thread_ok st.1 i t -> ~ finished t ->
  (forall args a newTx, t = AddLock args a newTx -> sh_locks st.1 !! a = None) -> goes_on st i.
Proof.
  intros Hi Hok Hfin Hlock now. unfold TxStoreThreads.run_thread. rewrite Hi. go_simpl.
  assert (forall a, target t = Some a -> exists o, sh_objects st.1 !! a = Some o) as Hobj by apply (to_target _ _ _ Hok).
  destruct t as [args|args|args|args|args|args a newTx|args a newTx|args a newTx o|args txID r|args r|args r|args|hash p|hash p a
    |hash p [|txID txIDs]|hash]; rewrite ?write_step; unfold TxStoreThreads.thread_step, remove_step; try (by destruct Hfin);
    try (destruct (Hobj _ eq_refl) as [o' ->]); try (rewrite (Hlock _ _ _ eq_refl));
    repeat case_match; go_simpl; try (left; by eexists); try (by right).
Qed.

(** A goroutine waits for a lock, held by one that does not wait, or for none. *)
Lemma waits_or_not s0 st i t : inv s0 st -> st.2 !! i = Some t ->
  (exists j y a, st.2 !! j = Some y /\ critical y = Some a) \/ (forall args a newTx, t = AddLock args a newTx -> sh_locks st.1 !! a = None).
Proof.
  intros Hinv Hi. destruct t as [| | | | |args a newTx| | | | | | | | | |]; try (by right).
  destruct (sh_locks st.1 !! a) as [j|] eqn:Hl; [|right; by intros args' a' newTx' [= <- <- <-]].
  left. destruct (inv_locks _ _ Hinv a j Hl) as (y & Hj & Hy). by exists j, y, a.
Qed.
#[local] Close Scope nat_scope.

(** ** Properties *)

(** C12: However goroutines that add to and remove from a store interleave, they end: no infinite run exists,
    and while one of them has not finished, one of them goes on - nobody waits for a lock for ever - unless
    [Add] refuses a call without content and short ID. *)
Theorem store_goroutines_end s0 ts st : started s0 ts -> rtc step (s0, ts) st ->
  sn step st /\ (Forall finished st.2 \/ exists i t, st.2 !! i = Some t /\ ~ finished t /\ goes_on st i).
Proof.
  intros Hst Hr. split; [apply steps_end|]. pose proof (reachable_inv s0 ts st Hst Hr) as Hinv.
  destruct (decide (Forall finished st.2)) as [|Hnot]; [by left|right].
  apply not_Forall_Exists, Exists_exists in Hnot as (t & [i Hi]%list_elem_of_lookup & Hfin); [|apply _].
  destruct (waits_or_not s0 st i t Hinv Hi) as [(j & y & a & Hj & Hy)|Hfree].
  - assert (~ finished y) as Hny by (intros Hf; by destruct y). exists j, y. split_and!; [done..|].
    eapply unblocked; [done|by apply (inv_threads _ _ Hinv)|done|by intros args a' newTx ->].
  - exists i, t. split_and!; [done..|]. eapply unblocked; [done|by apply (inv_threads _ _ Hinv)|done..].
Qed.

(** C10: Goroutines add transactions to and remove them from a store at the same time. When they are
    done, of the calls of [Add] for one hash that were carried out - the store did not have it, and
    nobody removed it meanwhile - all have worked on the transaction the store now has, exactly one
    reports it as new, and, when some call brought content, exactly one reports new content, and its content
    is what the transaction has. *)
Theorem concurrent_adds s0 ts st k i0 args0 r0 :
  started s0 ts -> unremoved k ts -> cm_view (sh_contents s0) !! k = None ->
  rtc step (s0, ts) st -> Forall finished st.2 -> added st k i0 args0 r0 ->
  (forall i args r, added st k i args r -> cm_view (sh_contents st.1) !! k = Some (ar_Transaction r)) /\
  (exists! i, exists args r, added st k i args r /\ ar_NewTx r = true) /\
  (a_content args0 <> [] -> exists! i, exists args r, added st k i args r /\ ar_NewContent r = true) /\
  forall i args r, added st k i args r -> ar_NewContent r = true ->
    exists o, sh_objects st.1 !! ar_Transaction r = Some o /\ hash_key (tx_hash o) = k /\ tx_bytes o = a_content args.
Proof.
  intros Hst Hu Hno Hr Hfin Hadd0. rewrite Forall_lookup in Hfin.
  pose proof (reachable_inv s0 ts st Hst Hr) as Hinv. pose proof (reachable_keyed s0 k ts st Hst Hu Hr) as Hk.
  assert (forall i args r, added st k i args r -> cm_view (sh_contents st.1) !! k = Some (ar_Transaction r)) as Hall.
  { intros i args r [Hi Hkey]. by apply (Hk i (AddDone args r) args). }
  pose proof (Hall _ _ _ Hadd0) as Hin0. split_and!; [done| | |].
  - destruct (inv_maker _ _ Hinv k _ Hin0) as [|[_ (i & t & Hi & Hm)]]; [congruence|].
    destruct (done_added s0 st i t _ k Hinv Hi (Hfin i t Hi) (made_target _ _ Hm) Hin0) as (args & r & -> & Ha & Hadd).
    assert (ar_NewTx r = true) as Hn by (cbn in Hm; by destruct (ar_NewTx r)).
    exists i. split; [by exists args, r|]. intros j (args' & r' & Hadd' & Hn').
    apply (inv_made _ _ Hinv i j _ _ (ar_Transaction r0) Hi (proj1 Hadd') Hm). cbn. rewrite Hn'.
    specialize (Hall _ _ _ Hadd'). congruence.
  - intros Hne. destruct Hadd0 as [Hi0 Hkey0].
    destruct (to_merged _ _ _ (inv_threads _ _ Hinv i0 _ Hi0) args0 r0 eq_refl Hne) as (o & Ho & Hb).
    destruct (inv_origin _ _ Hinv _ o Ho Hb) as [(o' & Ho' & _)|(i & t & Hi & args1 & r1 & Hm & Hn & Ha & Hc)].
    { destruct (inv_maker _ _ Hinv k _ Hin0) as [|[Hnew _]]; [congruence|]. destruct Hnew. by exists o'. }
    pose proof (merged_target _ _ _ Hm) as Ht. rewrite Ha in Ht.
    destruct (done_added s0 st i t _ k Hinv Hi (Hfin i t Hi) Ht Hin0) as (args & r & -> & _ & Hadd).
    injection Hm as <- <-. exists i. split; [by exists args, r|]. intros j (args' & r' & Hadd' & Hn').
    apply (inv_once _ _ Hinv i j _ _ (ar_Transaction r0) (a_content args) (a_content args') Hi (proj1 Hadd')).
    + by exists args, r.
    + exists args', r'. split_and!; try done. specialize (Hall _ _ _ Hadd'). congruence.
  - intros i args r [Hi Hkey] Hn. pose proof (inv_threads _ _ Hinv i _ Hi) as Hok.
    destruct (to_announced _ _ _ Hok (ar_Transaction r) (a_content args)) as (o & Ho & Hb & _); [by exists args, r|].
    exists o. split_and!; [done| |done]. rewrite <- Hkey. by apply (to_key _ _ _ Hok args (ar_Transaction r) o).
Qed.

(** Two goroutines, and one of them steps. *)
Lemma run_first now sched s t1 t2 s' t' : thread_step now 0 s t1 = Ret (s', t') ->
  run_schedule timeToAvoidReEntry maxTxAge ((now, 0%nat) :: sched) (s, [t1; t2])
  = run_schedule timeToAvoidReEntry maxTxAge sched (s', [t'; t2]).
Proof. intros Hs. cbn [run_schedule]. unfold TxStoreThreads.run_thread. cbn -[TxStoreThreads.thread_step]. by rewrite Hs. Qed.

Lemma run_second now sched s t1 t2 s' t' : thread_step now 1 s t2 = Ret (s', t') ->
  run_schedule timeToAvoidReEntry maxTxAge ((now, 1%nat) :: sched) (s, [t1; t2])
  = run_schedule timeToAvoidReEntry maxTxAge sched (s', [t1; t']).
Proof. intros Hs. cbn [run_schedule]. unfold TxStoreThreads.run_thread. cbn -[TxStoreThreads.thread_step]. by rewrite Hs. Qed.

Lemma fresh_txID args : a_txID args <> TxIDEmpty -> fst (AddTxID (a_fresh args) (a_txID args)) = true.
Proof.
  intros Hid. destruct (AddTxID_spec (a_fresh args) (a_txID args)) as [-> _]. apply bool_decide_eq_true.
  split; [done|]. apply not_elem_of_nil.
Qed.

(** What [Add] reports of a transaction it has just made. *)
Lemma fresh_reported s args a : a_txID args <> TxIDEmpty -> a_content args <> [] ->
  ar_NewContent (reported s args a true (a_fresh args)) = true /\ ar_NewTxID (reported s args a true (a_fresh args)) = true /\
  tx_hash (written s args true (a_fresh args)) = a_hash args /\ (choose_txID s args true).1 = a_txID args.
Proof.
  intros Hid Hc. destruct (written_spec s args true (a_fresh args)) as ([Hh _] & _ & Hn & _).
  assert ((choose_txID s args true).1 = a_txID args) as Ht by (unfold choose_txID; by rewrite decide_False by tauto).
  split_and!; [by apply Hn| |done|done]. unfold reported. cbn [ar_NewTxID]. rewrite Ht. by apply fresh_txID.
Qed.

(** C37: [remove] takes the transaction out of the map while [Add], which has put it there, still works on
    it - it does not take the transaction's lock. [Add] then reports a new transaction, with content, that the
    store does not have, and files its short ID all the same: it leads to a hash without
    transaction, and no later removal of that hash takes it away. *)
Theorem removal_inside_addition s args p now :
  sh_locks s = ∅ -> cm_view (sh_contents s) !! a_key args = None -> a_txID args <> TxIDEmpty -> a_content args <> [] ->
  time_sub now (a_timestamp args) <= maxTxAge -> HashHistory_Exists now (sh_seen s) (a_key args) = false ->
  exists schedule s' r,
    run_schedule timeToAvoidReEntry maxTxAge schedule (s, [AddStart args; RemoveStart (a_key args) p])
      = Ret (s', [AddDone args r; RemoveDone (a_key args)]) /\
    ar_NewTx r = true /\ ar_NewContent r = true /\ ar_NewTxID r = true /\
    cm_view (sh_contents s') !! a_key args = None /\
    cm_view (sh_ids s') !! txID_key (a_txID args) = Some (a_hash args) /\
    forall now' p' i, thread_step now' i s' (RemoveStart (a_key args) p') = Ret (s', RemoveDone (a_key args)).
Proof.
  intros Hl Hno Hid Hc Hage Hseen.
  set (first := (now, 0%nat)). set (second := (now, 1%nat)).
  pose proof (cm_set_if_absent_fst (sh_contents s) (a_key args) (sh_next s)) as Hf.
  pose proof (cm_view_set_if_absent (sh_contents s) (a_key args) (sh_next s)) as Hv.
  destruct (cm_set_if_absent (sh_contents s) (a_key args) (sh_next s)) as [newTx contents] eqn:Hset. cbn [fst snd] in Hf, Hv.
  rewrite Hno in Hv, Hf. rewrite bool_decide_eq_true_2 in Hf by done. subst newTx.
  eexists [first; first; second; second; second; first; first; first; first; first]. unfold first, second.
  pose proof (cm_pop_fst contents (a_key args)) as Hpf. pose proof (cm_view_pop contents (a_key args)) as Hpv.
  destruct (cm_pop contents (a_key args)) as [tx popped] eqn:Hpop. cbn [fst snd] in Hpf, Hpv.
  rewrite Hv, lookup_insert_eq in Hpf. subst tx.
  eexists _, _. split.
  - erewrite run_first.
    2:{ cbn. rewrite decide_False by tauto. rewrite decide_False by lia. by rewrite Hseen. }
    erewrite run_first by (cbn; by rewrite Hset).
    erewrite run_second by (cbn; by rewrite Hpop).
    erewrite run_second by (cbn; rewrite lookup_insert_eq; reflexivity).
    erewrite run_second by reflexivity.
    erewrite run_first by (cbn; rewrite Hl, lookup_empty; reflexivity).
    erewrite run_first by (cbn; rewrite lookup_insert_eq; reflexivity).
    erewrite run_first by apply write_step.
    erewrite run_first by (cbn; rewrite lookup_insert_eq; reflexivity).
    erewrite run_first by reflexivity. reflexivity.
  - set (s1 := with_locks _ _). destruct (fresh_reported s1 args (sh_next s) Hid Hc) as (Hn & Hi & Hh & Ht). rewrite !Hn, !Hi, !Ht, !(fresh_txID args Hid).
    assert (cm_view popped !! a_key args = None) as Hgone by by rewrite Hpv, lookup_delete_eq.
    split_and!; try done; cbn [sh_contents sh_ids with_ids with_locks].
    + rewrite cm_view_set, Hh. apply lookup_insert_eq.
    + intros now' p' i. cbn. pose proof (cm_pop_fst popped (a_key args)) as Hqf.
      destruct (cm_pop popped (a_key args)) as [[tx|] popped']; cbn in Hqf; [congruence|done].
Qed.
End Concurrency.

(** ** Examples *)
Definition ex_shared : shared (gmap string) unit := mkShared ∅ ∅ ∅ ∅ newHashHistory () 1.
Definition ex_call (content : list byte) (txID : Z) : AddArgs := mkAddArgs (replicate 32 x01) content txID 5 0.
Definition ex_calls : list thread := [AddStart (ex_call [x07] 0); AddStart (ex_call [x07] 3); RemoveStart "other" FullReEntryProtection].
(** The second call finds the transaction of the first, takes the lock before it and writes first. *)
Definition ex_interleaving : list (Z * nat) := pair 0 <$> [0; 0; 1; 1; 1; 1; 2; 1; 1; 1; 1; 0; 0; 0; 0; 0]%nat.
Definition ex_end : system (M:=gmap string) (A:=unit) :=
  match run_schedule 1000 1000 ex_interleaving (ex_shared, ex_calls) with Ret st => st | _ => (ex_shared, []) end.
Definition ex_result (newTx newContent newTxID : bool) : AddResult := mkAddResult 1 newTx newContent newTxID.

Lemma ex_started : started (M:=gmap string) ex_shared ex_calls.
Proof.
  split; [split|done|by repeat constructor].
  - intros a [o Ho]. done.
  - intros k a Hk. done.
Qed.

Lemma ex_unremoved : unremoved (a_key (ex_call [x07] 0)) ex_calls.
Proof. by intros [|[|[|i]]] t [= <-]. Qed.

Lemma ex_end_reachable : rtc (step (M:=gmap string) 1000 1000) (ex_shared, ex_calls) ex_end.
Proof. apply (run_schedule_steps 1000 1000 ex_interleaving). vm_compute. reflexivity. Qed.

Lemma ex_end_threads :
  ex_end.2 = [AddDone (ex_call [x07] 0) (ex_result true false false); AddDone (ex_call [x07] 3) (ex_result false true true); RemoveDone "other"].
Proof. vm_compute. reflexivity. Qed.

Lemma concurrent_adds_witness :
  let k := a_key (ex_call [x07] 0) in
  (exists! i, exists args r, added ex_end k i args r /\ ar_NewTx r = true) /\
  exists! i, exists args r, added ex_end k i args r /\ ar_NewContent r = true.
Proof.
  destruct (concurrent_adds 1000 1000 ex_shared ex_calls ex_end (a_key (ex_call [x07] 0)) 0 (ex_call [x07] 0) (ex_result true false false)
    ex_started ex_unremoved eq_refl ex_end_reachable ltac:(rewrite ex_end_threads; by repeat constructor)
    ltac:(split; [by rewrite ex_end_threads|reflexivity])) as (_ & Htx & Hc & _).
  split; [exact Htx|]. apply Hc. discriminate.
Defined.

Lemma store_goroutines_end_witness : sn (step (M:=gmap string) 1000 1000) ex_end.
Proof. apply (store_goroutines_end 1000 1000 ex_shared ex_calls ex_end ex_started ex_end_reachable). Defined.

Lemma removal_inside_addition_witness : exists schedule s' r,
  run_schedule (M:=gmap string) 1000 1000 schedule
    (ex_shared, [AddStart (ex_call [x07] 3); RemoveStart (a_key (ex_call [x07] 3)) FullReEntryProtection])
    = Ret (s', [AddDone (ex_call [x07] 3) r; RemoveDone (a_key (ex_call [x07] 3))]) /\
  sh_contents s' !! a_key (ex_call [x07] 3) = None /\ is_Some (sh_ids s' !! txID_key 3).
Proof.
  destruct (removal_inside_addition 1000 1000 ex_shared (ex_call [x07] 3) FullReEntryProtection 0) as (sch & s' & r & Hr & _ & _ & _ & Hc & Hi & _);
    [reflexivity|reflexivity|discriminate|discriminate|vm_compute; discriminate|reflexivity|].
  exists sch, s', r. split; [exact Hr|]. split; [exact Hc|]. by exists (a_hash (ex_call [x07] 3)).
Defined.
