(* ===== verification/TxStoreAlone.v ===== *)
(** A call of [Add] or [remove] that no other goroutine disturbs ([TxStoreThreads]) does what the store does
    when its methods run one at a time ([TxStore]). *)
From S2P Require Import Prelude Bytes CMap HashHistory Types TxStore TxStoreThreads.

Section Alone.
Context {M : Type -> Type} `{ConcurrentMapLaws M} {A : Type} `{!TxIDAssigner A} (timeToAvoidReEntry maxTxAge : Z).
Implicit Types (s : shared M A) (t : thread) (u : TbTxStore M A).
#[local] Abbreviation thread_step := (thread_step timeToAvoidReEntry maxTxAge (M:=M) (A:=A)).
#[local] Abbreviation run_schedule := (run_schedule timeToAvoidReEntry maxTxAge (M:=M) (A:=A)).

(** ** Definitions *)

(** The store with pointers and the store with values. *)
Record stands_for s u : Prop := {
  sf_contents k : cm_view (ts_hashToContent u) !! k = (a ← cm_view (sh_contents s) !! k; sh_objects s !! a);
  sf_ids : ts_txIDToHash u = sh_ids s;
  sf_seen : ts_seenTxs u = sh_seen s;
  sf_assigner : ts_assigner u = sh_assigner s;
  sf_avoid : ts_timeToAvoidReEntry u = timeToAvoidReEntry;
  sf_age : ts_maxTxAge u = maxTxAge
}.

(** No call is on its way. *)
Record at_rest s u : Prop := {
  ar_stands : stands_for s u;
  ar_store : store_inv s;
  ar_unlocked : sh_locks s = ∅
}.

(** The only goroutine runs from [t] to [t']. *)
Definition alone (now : Z) s t s' t' : Prop :=
  exists n, run_schedule (replicate n (now, 0%nat)) (s, [t]) = Ret (s', [t']).

(** What a finished call of [Add] reports. *)
Definition reports s t (res : TransactionResult) : Prop :=
  match t with
  | AddDone _ r => tr_NewTx res = ar_NewTx r /\ tr_NewContent res = ar_NewContent r /\ tr_NewTxID res = ar_NewTxID r /\
      tr_Transaction res = sh_objects s !! ar_Transaction r
  | AddDropped args => tr_NewTx res = false /\ tr_NewContent res = false /\ tr_NewTxID res = false /\
      tr_Transaction res = Some (a_fresh args)
  | _ => False
  end.

(** ** Running alone *)
Lemma alone_done now s t : alone now s t s t.
Proof. by exists 0%nat. Qed.

Lemma alone_step now s t s1 t1 s' t' : thread_step now 0 s t = Ret (s1, t1) -> alone now s1 t1 s' t' -> alone now s t s' t'.
Proof.
  intros Hs [n Hn]. exists (S n). cbn [replicate TxStoreThreads.run_schedule]. unfold run_thread. cbn -[TxStoreThreads.thread_step TxStoreThreads.run_schedule].
  by rewrite Hs.
Qed.

Lemma store_inv_same s s' : sh_objects s' = sh_objects s -> sh_contents s' = sh_contents s -> sh_next s' = sh_next s ->
  store_inv s -> store_inv s'.
Proof. intros Ho Hc Hn [H1 H2]. by split; rewrite ?Ho, ?Hc, ?Hn. Qed.

(** What both stores hold under a key. *)
Lemma stored_both s u k : at_rest s u ->
  (cm_view (sh_contents s) !! k = None /\ cm_view (ts_hashToContent u) !! k = None) \/
  exists a o, cm_view (sh_contents s) !! k = Some a /\ sh_objects s !! a = Some o /\ cm_view (ts_hashToContent u) !! k = Some o /\
    hash_key (tx_hash o) = k.
Proof.
  intros [Hsf [_ Hc] _]. rewrite (sf_contents _ _ Hsf). destruct (cm_view (sh_contents s) !! k) as [a|] eqn:Hk; [right|by left].
  destruct (Hc k a Hk) as (o & Ho & Hh). exists a, o. by rewrite Ho.
Qed.

(** *** Merging *)
Lemma Add_stored_written s s1 u args a newTx o k : ts_assigner u = sh_assigner s1 ->
  let '(res, u') := Add_stored u newTx k o (a_content args) (a_txID args) in
  let txID := (choose_txID s1 args newTx).1 in
  let r := reported s1 args a newTx o in
  tr_NewTx res = newTx /\ tr_NewContent res = ar_NewContent r /\ tr_NewTxID res = ar_NewTxID r /\
  tr_Transaction res = Some (written s1 args newTx o) /\
  u' = with_maps u (cm_set (ts_hashToContent u) k (written s1 args newTx o))
         (if ar_NewTxID r then cm_set (ts_txIDToHash u) (txID_key txID) (tx_hash (written s1 args newTx o)) else ts_txIDToHash u)
         (ts_seenTxs u) (choose_txID s1 args newTx).2.
Proof.
  intros Has. unfold Add_stored, written, reported, choose_txID. rewrite Has.
  destruct (decide (newTx = true /\ a_txID args = TxIDEmpty)).
  - destruct (Next (sh_assigner s1)) as [txID assigner]. cbn [fst snd ar_NewTxID ar_NewContent].
    destruct (AddTxID o txID) as [newTxID o1]. cbn [fst snd]. by destruct (SetContent o1 (a_content args)).
  - cbn [fst snd ar_NewTxID ar_NewContent]. destruct (AddTxID o (a_txID args)) as [newTxID o1]. cbn [fst snd].
    by destruct (SetContent o1 (a_content args)).
Qed.

(** Writing an object back changes what is stored under its key. *)
Lemma stands_written s u a k o o' : stands_for s u -> store_inv s -> cm_view (sh_contents s) !! k = Some a -> sh_objects s !! a = Some o ->
  forall j, <[k := o']> (cm_view (ts_hashToContent u)) !! j = (b ← cm_view (sh_contents s) !! j; <[a := o']> (sh_objects s) !! b).
Proof.
  intros Hsf [_ Hc] Hk Ho j. destruct (decide (k = j)) as [<-|Hne].
  - rewrite lookup_insert_eq, Hk. cbn. by rewrite lookup_insert_eq.
  - rewrite lookup_insert_ne, (sf_contents _ _ Hsf) by done. destruct (cm_view (sh_contents s) !! j) as [b|] eqn:Hj; [cbn|done].
    rewrite lookup_insert_ne; [done|]. intros ->. destruct (Hc k _ Hk) as (o1 & Ho1 & <-), (Hc j _ Hj) as (o2 & Ho2 & <-). congruence.
Qed.

Lemma rest_written s s' u a o o' k ids g : at_rest s u -> cm_view (sh_contents s) !! k = Some a -> sh_objects s !! a = Some o ->
  tx_hash o' = tx_hash o -> sh_contents s' = sh_contents s -> sh_objects s' = <[a := o']> (sh_objects s) -> sh_next s' = sh_next s ->
  sh_locks s' = ∅ -> sh_seen s' = sh_seen s -> sh_ids s' = ids -> sh_assigner s' = g ->
  at_rest s' (with_maps u (cm_set (ts_hashToContent u) k o') ids (ts_seenTxs u) g).
Proof.
  intros [Hsf Hsi _] Hk Ho Hh Hc Hob Hn Hl Hs Hid Hg. split; [split|split|done]; cbn; try done.
  - intros j. rewrite cm_view_set, Hc, Hob. by eapply stands_written.
  - by rewrite Hs, (sf_seen _ _ Hsf).
  - by apply Hsf.
  - by apply Hsf.
  - intros b. rewrite Hob, Hn. intros [<-|[_ Hb]]%lookup_insert_is_Some; apply (si_next _ Hsi); [by exists o|done].
  - intros j b. rewrite Hc, Hob. intros (o1 & Ho1 & Hkey)%(si_contents _ Hsi). destruct (decide (a = b)) as [<-|Hne].
    + exists o'. rewrite lookup_insert_eq. split; [done|]. congruence.
    + exists o1. by rewrite lookup_insert_ne.
Qed.

Lemma merge_alone now s u args a newTx o : at_rest s u -> cm_view (sh_contents s) !! a_key args = Some a -> sh_objects s !! a = Some o ->
  exists s' t', alone now s (AddLock args a newTx) s' t' /\
    at_rest s' (snd (Add_stored u newTx (a_key args) o (a_content args) (a_txID args))) /\
    reports s' t' (fst (Add_stored u newTx (a_key args) o (a_content args) (a_txID args))).
Proof.
  intros [Hsf Hsi Hl] Ha Ho. eexists _, _. split.
  - eapply alone_step; [cbn; by rewrite Hl, lookup_empty|].
    eapply alone_step; [cbn; by rewrite Ho|].
    eapply alone_step; [apply write_step|].
    eapply alone_step; [cbn [TxStoreThreads.thread_step sh_objects with_object ar_Transaction]; by rewrite lookup_insert_eq|].
    eapply alone_step; [done|]. apply alone_done.
  - set (s1 := with_locks s _).
    pose proof (Add_stored_written s s1 u args a newTx o (a_key args) (sf_assigner _ _ Hsf)) as Hadd.
    destruct (Add_stored _ _ _ _ _ _) as [res u']. destruct Hadd as (Hn & Hnc & Hni & Htx & ->). cbn [fst snd].
    assert (obj_le o (written s1 args newTx o)) as [Hh _] by apply written_spec.
    assert (delete a (<[a := 0%nat]> (∅ : gmap Z nat)) = ∅) as Hun by by rewrite delete_insert_id.
    assert (tr_Transaction res = <[a := written s1 args newTx o]> (sh_objects s) !! a) as Hres by by rewrite lookup_insert_eq.
    destruct (ar_NewTxID (reported s1 args a newTx o)) eqn:Hid; (split; [|by split_and!; rewrite ?Hid]);
      rewrite ?(sf_ids _ _ Hsf); apply (rest_written s _ u a o); done || exact Hun.
Qed.

(** *** Adding *)

(** The part of [Add] from the insertion on. *)
Definition Add_insert u (args : AddArgs) : TransactionResult * TbTxStore M A :=
  let '(newTx, contents) := cm_set_if_absent (ts_hashToContent u) (a_key args) (a_fresh args) in
  let u := with_maps u contents (ts_txIDToHash u) (ts_seenTxs u) (ts_assigner u) in
  if newTx then Add_stored u true (a_key args) (a_fresh args) (a_content args) (a_txID args) else
  match cm_get (ts_hashToContent u) (a_key args) with
  | None =>
      (mkTransactionResult false false false false false (Some (a_fresh args)) 0
         (Some "Transaction deleted by other GO routine"%string) false (zeros 20), u)
  | Some tx => Add_stored u false (a_key args) tx (a_content args) (a_txID args)
  end.

Lemma at_rest_insert s u args contents contents' : at_rest s u ->
  cm_view contents = match cm_view (sh_contents s) !! a_key args with
                     | None => <[a_key args := sh_next s]> (cm_view (sh_contents s)) | Some _ => cm_view (sh_contents s) end ->
  cm_view contents' = match cm_view (ts_hashToContent u) !! a_key args with
                     | None => <[a_key args := a_fresh args]> (cm_view (ts_hashToContent u)) | Some _ => cm_view (ts_hashToContent u) end ->
  at_rest (with_contents s contents (<[sh_next s := a_fresh args]> (sh_objects s)) (sh_next s + 1))
    (with_maps u contents' (ts_txIDToHash u) (ts_seenTxs u) (ts_assigner u)).
Proof.
  intros Hrest Hv Hv'. pose proof Hrest as [Hsf Hsi Hl]. split; [|eapply act_store; [exact Hsi|by apply (idle_ok s 0 (AddInsert args))|by apply (act_insert 0 s args)]|done].
  destruct Hsf as [Hc Hi Hs Ha Hto Hage]. split; cbn; try done. intros k. rewrite Hv, Hv'.
  assert (forall j b, cm_view (sh_contents s) !! j = Some b -> sh_next s <> b) as Hfresh.
  { intros j b (o & Ho & _)%(si_contents _ Hsi) Heq. assert (b < sh_next s) by (apply (si_next _ Hsi); by exists o). lia. }
  destruct (stored_both s u (a_key args) Hrest) as [[-> ->]|(a & o & -> & Ho & -> & _)].
  - destruct (decide (a_key args = k)) as [<-|Hne].
    + rewrite !lookup_insert_eq. cbn. by rewrite lookup_insert_eq.
    + rewrite !lookup_insert_ne, Hc by done. destruct (cm_view (sh_contents s) !! k) as [b|] eqn:Hb; [|done]. cbn.
      rewrite lookup_insert_ne; [done|by eapply Hfresh].
  - rewrite Hc. destruct (cm_view (sh_contents s) !! k) as [b|] eqn:Hb; [|done]. cbn.
    rewrite lookup_insert_ne; [done|by eapply Hfresh].
Qed.

Lemma insert_alone now s u args : at_rest s u ->
  exists s' t', alone now s (AddInsert args) s' t' /\ at_rest s' (snd (Add_insert u args)) /\ reports s' t' (fst (Add_insert u args)).
Proof.
  intros Hrest.
  pose proof (cm_set_if_absent_fst (sh_contents s) (a_key args) (sh_next s)) as Hf.
  pose proof (cm_view_set_if_absent (sh_contents s) (a_key args) (sh_next s)) as Hv.
  pose proof (cm_set_if_absent_fst (ts_hashToContent u) (a_key args) (a_fresh args)) as Hf'.
  pose proof (cm_view_set_if_absent (ts_hashToContent u) (a_key args) (a_fresh args)) as Hv'.
  unfold Add_insert. destruct (cm_set_if_absent (ts_hashToContent u) _ _) as [newTx' contents'].
  destruct (cm_set_if_absent (sh_contents s) _ _) as [newTx contents] eqn:Hset. cbn [fst snd] in *.
  pose proof (at_rest_insert s u args contents contents' Hrest Hv Hv') as Hrest1.
  destruct (stored_both s u (a_key args) Hrest) as [[Hn Hn']|(a & o & Ha & Ho & Hu & _)]; rewrite ?Hn, ?Hn', ?Ha, ?Hu in *;
    rewrite ?bool_decide_eq_true_2, ?bool_decide_eq_false_2 in * by done; subst newTx newTx'.
  - destruct (merge_alone now _ _ args (sh_next s) true (a_fresh args) Hrest1) as (s' & t' & Hrun & Hr & Hrep).
    + cbn. rewrite Hv. apply lookup_insert_eq.
    + apply lookup_insert_eq.
    + exists s', t'. split; [|done]. eapply alone_step; [cbn; by rewrite Hset|done].
  - assert (cm_view (sh_contents s) !! a_key args = Some a) as Ha' by done.
    assert (sh_objects (with_contents s contents (<[sh_next s := a_fresh args]> (sh_objects s)) (sh_next s + 1)) !! a = Some o) as Ho'.
    { cbn. rewrite lookup_insert_ne; [done|]. intros <-. pose proof (si_next _ (ar_store _ _ Hrest) (sh_next s)) as Hlt.
      assert (sh_next s < sh_next s) by (apply Hlt; by exists o). lia. }
    destruct (merge_alone now _ _ args a false o Hrest1) as (s' & t' & Hrun & Hr & Hrep); [cbn; by rewrite Hv|done|].
    cbn [with_maps ts_hashToContent]. rewrite cm_get_spec, Hv', Hu. exists s', t'. split; [|done].
    eapply alone_step; [cbn; by rewrite Hset|]. eapply alone_step; [cbn; by rewrite cm_get_spec, Hv, Ha|done].
Qed.

Lemma with_seen_rest s u hh : at_rest s u -> at_rest (with_seen s hh) (with_maps u (ts_hashToContent u) (ts_txIDToHash u) hh (ts_assigner u)).
Proof. intros [[Hc Hi Hs Ha Hto Hage] Hsi Hl]. split; [by split|by apply (store_inv_same s)|done]. Qed.

Lemma Add_cases now u args :
  let hh := HashHistory_Add now (ts_seenTxs u) (a_key args) (ts_timeToAvoidReEntry u) in
  let seen := with_maps u (ts_hashToContent u) (ts_txIDToHash u) in
  TbTxStore_Add now u (a_hash args) (a_content args) (a_txID args) (a_networkNum args) (a_timestamp args)
  = if decide (a_txID args = TxIDEmpty /\ len (a_content args) = 0) then Panics (Explicit "content and txID can't be both missing") else
    if decide (ts_maxTxAge u < time_sub now (a_timestamp args)) then
      Ret (mkTransactionResult false false false false false (Some (a_fresh args)) 0 (Some "Transaction is too old"%string) false (zeros 20), u) else
    if HashHistory_Exists now (ts_seenTxs u) (a_key args) then
      if decide (a_txID args = TxIDEmpty) then
        Ret (mkTransactionResult false false false false false (Some (a_fresh args)) 0
               (Some "Transaction already seen and deleted from store"%string) true (zeros 20), seen hh (ts_assigner u))
      else Ret (Add_insert (seen (HashHistory_Remove hh (a_key args)) (ts_assigner u)) args)
    else Ret (Add_insert u args).
Proof.
  cbn. unfold TbTxStore_Add, refreshSeenTx, Add_insert, a_key, a_fresh. case_decide; [done|]. case_decide; [done|].
  destruct (HashHistory_Exists _ _ _).
  - destruct (decide (a_txID args = TxIDEmpty)).
    + by rewrite decide_True.
    + rewrite decide_False by tauto. cbn. destruct (cm_set_if_absent _ _ _) as [[] ?]; [done|]. by destruct (cm_get _ _).
  - rewrite decide_False by (intros [? _]; done). destruct (cm_set_if_absent _ _ _) as [[] ?]; [done|]. cbn. by destruct (cm_get _ _).
Qed.

Lemma Add_alone now s u args : at_rest s u ->
  match TbTxStore_Add now u (a_hash args) (a_content args) (a_txID args) (a_networkNum args) (a_timestamp args) with
  | Ret (res, u') => exists s' t', alone now s (AddStart args) s' t' /\ at_rest s' u' /\ reports s' t' res
  | Panics e => thread_step now 0 s (AddStart args) = Panics e
  | Blocks => False
  end.
Proof.
  intros Hrest. pose proof Hrest as [[_ _ Hs _ Hto Hage] _ _]. rewrite Add_cases, Hs, Hto, Hage.
  cbn [TxStoreThreads.thread_step].
  destruct (decide (a_txID args = TxIDEmpty /\ len (a_content args) = 0)) as [|Hb] eqn:Hd1; [done|].
  destruct (decide (maxTxAge < time_sub now (a_timestamp args))) as [|Hold] eqn:Hd2.
  { exists s, (AddDropped args). split; [|done]. eapply alone_step; [cbn; by rewrite Hd1, Hd2|apply alone_done]. }
  destruct (HashHistory_Exists now (sh_seen s) (a_key args)) eqn:Hseen.
  - pose proof (with_seen_rest s u (HashHistory_Add now (sh_seen s) (a_key args) timeToAvoidReEntry) Hrest) as Hrest1.
    destruct (decide (a_txID args = TxIDEmpty)) as [Hid|Hid] eqn:Hd3.
    + eexists _, (AddDropped args). split; [|split; [exact Hrest1|done]].
      eapply alone_step; [cbn; by rewrite Hd1, Hd2, Hseen|]. eapply alone_step; [cbn; by rewrite Hd3|apply alone_done].
    + pose proof (with_seen_rest _ _ (HashHistory_Remove (HashHistory_Add now (sh_seen s) (a_key args) timeToAvoidReEntry) (a_key args)) Hrest1) as Hrest2.
      destruct (insert_alone now _ _ args Hrest2) as (s' & t' & Hrun & Hr & Hrep). destruct (Add_insert _ args) as [res u'].
      exists s', t'. split; [|done]. eapply alone_step; [cbn; by rewrite Hd1, Hd2, Hseen|].
      eapply alone_step; [cbn; by rewrite Hd3|]. by eapply alone_step.
  - destruct (insert_alone now s u args Hrest) as (s' & t' & Hrun & Hr & Hrep). destruct (Add_insert u args) as [res u'].
    exists s', t'. split; [|done]. eapply alone_step; [cbn; by rewrite Hd1, Hd2, Hseen|done].
Qed.

(** *** Removing *)
Lemma ids_alone now s hash p txIDs :
  alone now s (RemoveIDs hash p txIDs)
    (with_seen (with_ids s (foldl (fun m txID => cm_remove m (txID_key txID)) (sh_ids s) txIDs)) (protect_seen timeToAvoidReEntry now s hash p))
    (RemoveDone hash).
Proof.
  revert s. induction txIDs as [|txID txIDs IH]; intros s.
  - destruct s. eapply alone_step; [done|]. apply alone_done.
  - eapply alone_step; [done|]. apply (IH (with_ids s (cm_remove (sh_ids s) (txID_key txID)))).
Qed.

Lemma rest_popped s u hash contents contents' ids hh : at_rest s u ->
  cm_view contents = delete hash (cm_view (sh_contents s)) -> cm_view contents' = delete hash (cm_view (ts_hashToContent u)) ->
  at_rest (with_seen (with_ids (with_contents s contents (sh_objects s) (sh_next s)) ids) hh)
    (with_maps u contents' ids hh (ts_assigner u)).
Proof.
  intros [[Hc Hi Hs Ha Hto Hage] [Hn Hk] Hl] Hv Hv'. split; [split|split|]; cbn; try done.
  - intros k. rewrite Hv, Hv', !lookup_delete. case_decide; [done|]. apply Hc.
  - intros k a. rewrite Hv. intros [_ Ha']%lookup_delete_Some. by apply Hk.
Qed.

Lemma remove_alone now s u hash p : at_rest s u ->
  exists s', alone now s (RemoveStart hash p) s' (RemoveDone hash) /\ at_rest s' (remove now u hash p).
Proof.
  intros Hrest. unfold remove.
  pose proof (cm_pop_fst (sh_contents s) hash) as Hf. pose proof (cm_view_pop (sh_contents s) hash) as Hv.
  pose proof (cm_pop_fst (ts_hashToContent u) hash) as Hf'. pose proof (cm_view_pop (ts_hashToContent u) hash) as Hv'.
  destruct (cm_pop (ts_hashToContent u) hash) as [tx' contents']. destruct (cm_pop (sh_contents s) hash) as [tx contents] eqn:Hpop.
  cbn [fst snd] in *. destruct (stored_both s u hash Hrest) as [[Hn Hn']|(a & o & Ha & Ho & Hu & _)]; subst tx tx'.
  - rewrite Hn, Hn' in *. exists s. split; [|done]. eapply alone_step; [cbn; by rewrite Hpop|apply alone_done].
  - rewrite Ha, Hu in *. eexists. split.
    + eapply alone_step; [cbn; by rewrite Hpop|]. eapply alone_step; [cbn; by rewrite Ho|]. apply ids_alone.
    + pose proof Hrest as [[_ Hi Hs _ Hto _] _ _]. rewrite Hi. cbn [sh_ids with_contents].
      replace (protect now u hash p) with (protect_seen timeToAvoidReEntry now (with_contents s contents (sh_objects s) (sh_next s)) hash p)
        by (destruct p; cbn; congruence).
      by apply (rest_popped s u hash).
Qed.

(** ** Properties *)

(** C11: The concurrent store refines the store whose methods run one at a time: a call of [Add] or of
    [remove] that nobody interleaves with runs to its end, leaves the store as [TbTxStore_Add] and [remove]
    leave it, reports the same - or crashes as it does - and holds no lock. *)
Theorem calls_alone now s u : at_rest s u ->
  (forall hash p, exists s', alone now s (RemoveStart hash p) s' (RemoveDone hash) /\ at_rest s' (remove now u hash p)) /\
  forall args,
  match TbTxStore_Add now u (a_hash args) (a_content args) (a_txID args) (a_networkNum args) (a_timestamp args) with
  | Ret (res, u') => exists s' t', alone now s (AddStart args) s' t' /\ at_rest s' u' /\ reports s' t' res
  | Panics e => thread_step now 0 s (AddStart args) = Panics e
  | Blocks => False
  end.
Proof. intros Hrest. split; [intros hash p; by apply remove_alone|intros args; by apply Add_alone]. Qed.
End Alone.

(** ** Examples *)
Definition ex_empty : TbTxStore (gmap string) unit := NewTbTxStore 1000 1000 () newHashHistory 1000.

Lemma ex_rest : at_rest 1000 1000 (mkShared (M:=gmap string) ∅ ∅ ∅ ∅ newHashHistory () 1) ex_empty.
Proof. split; [by split|split|done]; [intros a [o Ho]; discriminate|intros k a Ha; discriminate]. Qed.

Lemma calls_alone_witness :
  let args := mkAddArgs (replicate 32 x01) [x07] 3 5 0 in
  exists s' t' res u', TbTxStore_Add 0 ex_empty (a_hash args) [x07] 3 5 0 = Ret (res, u') /\ tr_NewContent res = true /\
    alone (M:=gmap string) 1000 1000 0 (mkShared ∅ ∅ ∅ ∅ newHashHistory () 1) (AddStart args) s' t' /\ reports s' t' res.
Proof.
  set (args := mkAddArgs (replicate 32 x01) [x07] 3 5 0).
  destruct (calls_alone 1000 1000 0 _ _ ex_rest) as [_ Hadd]. specialize (Hadd args).
  destruct (TbTxStore_Add 0 ex_empty (a_hash args) (a_content args) (a_txID args) (a_networkNum args) (a_timestamp args))
    as [[res u']| |] eqn:Hr; [|vm_compute in Hr; discriminate|destruct Hadd].
  destruct Hadd as (s' & t' & Hrun & _ & Hrep). exists s', t', res, u'. split_and!; [exact Hr| |exact Hrun|exact Hrep].
  vm_compute in Hr. injection Hr as <- _. reflexivity.
Defined.
