(* ===== verification/TxStoreLife.v ===== *)
(** The life of the transaction store's clean-up: [Start], whose loop cleans on every tick, and [Stop], which
    shakes hands with it over the unbuffered channel [quit] (services/tbtxstore.go). On such a channel a sender
    and a receiver meet in one step; every call of [Stop] and the loop send and receive on the same channel,
    so that any sender may meet any receiver. [Start] is called once, as the gateway does. *)
From S2P Require Import Prelude CMap Channel HashHistory Types TxStore.

(** ** Definitions *)
(** [types.TxIDsByNetwork] *)
Definition TxIDsByNetwork : Type := gmap Z (list Z).

(** Where the loop of [cleanup] is: not begun, in its select, sending what a clean-up removed to the channel
    of cleaned IDs (the end of [CleanNow]), answering on [quit], or returned. *)
Inductive cleaner := NotStarted | Selecting | Delivering (cleanedTxIDs : TxIDsByNetwork) | Answering | Returned.
(** Where a call of [Stop] is. *)
Inductive stopper := Sending | Receiving | Stopped.
#[global] Instance cleaner_eq_dec : EqDecision cleaner.
Proof. unfold EqDecision, Decision, TxIDsByNetwork. solve_decision. Defined.
#[global] Instance stopper_eq_dec : EqDecision stopper.
Proof. solve_decision. Defined.

Section Life.
Context {M : Type -> Type} `{!ConcurrentMap M} {A : Type} `{!TxIDAssigner A}.

(** The store, where [CleanNow] sends to, the goroutines, and how often the loop has cleaned. *)
Record life := mklife {
  li_store : TbTxStore M A;
  cleanedTxIDsChannel : option (chan TxIDsByNetwork);
  li_cleaner : cleaner;
  li_stops : list stopper;
  li_cleanings : nat
}.

Definition new_life (t : TbTxStore M A) (channel : option (chan TxIDsByNetwork)) : life :=
  mklife t channel NotStarted [] 0.

Definition goroutines (l : life) (c : cleaner) (stops : list stopper) : life :=
  mklife (li_store l) (cleanedTxIDsChannel l) c stops (li_cleanings l).
Definition with_channel (l : life) (channel : option (chan TxIDsByNetwork)) (c : cleaner) : life :=
  mklife (li_store l) channel c (li_stops l) (li_cleanings l).

(** What happens: [Start] begins; a tick; the loop puts the cleaned IDs into their channel; somebody takes
    from that channel; a call of [Stop]; a call sends and the loop receives; the loop sends and a call
    receives; one call sends and another receives; somebody else changes the store. *)
Inductive life_event :=
  | EvStart
  | EvTick (now : Z)
  | EvDelivered
  | EvTake
  | EvStop
  | EvQuit (i : nat)
  | EvAnswer (j : nat)
  | EvPass (i j : nat)
  | EvOther (t : TbTxStore M A).

(** [CleanNow] on a tick, up to the send: the clean-up is done, and the loop is back in its select unless
    there are IDs to deliver. *)
Definition cleanup_tick (now : Z) (l : life) : outcome life :=
  '(t, cleaned, cleanedTxIDs) ← TbTxStore_clean now (li_store l);
  let waits := match cleanedTxIDsChannel l with Some _ => bool_decide (0 < Z.of_nat (size cleanedTxIDs)) | None => false end in
  mret (mklife t (cleanedTxIDsChannel l) (if waits then Delivering cleanedTxIDs else Selecting) (li_stops l)
          (S (li_cleanings l))).

(** The send into the channel of cleaned IDs: it waits while the channel is full. *)
Definition cleanup_delivered (l : life) : outcome life :=
  match li_cleaner l, cleanedTxIDsChannel l with
  | Delivering cleanedTxIDs, Some channel =>
      channel ← send channel cleanedTxIDs; mret (with_channel l (Some channel) Selecting)
  | _, _ => Blocks
  end.

(** A receive from the channel of cleaned IDs: of what it holds, or of what the loop is about to send. *)
Definition cleaned_taken (l : life) : outcome life :=
  match cleanedTxIDsChannel l with
  | None => Blocks
  | Some channel =>
      match recv channel with
      | Ret (_, channel) => mret (with_channel l (Some channel) (li_cleaner l))
      | _ => match li_cleaner l with Delivering _ => mret (with_channel l (Some channel) Selecting) | _ => Blocks end
      end
  end.

(** The second half of the handshake, in [cleanup] and in [Stop]. *)
Definition cleanup_quit (i : nat) (l : life) : life := goroutines l Answering (<[i := Receiving]> (li_stops l)).
Definition Stop_done (j : nat) (l : life) : life := goroutines l Returned (<[j := Stopped]> (li_stops l)).

(** An event that cannot happen now waits. *)
Definition life_do (ev : life_event) (l : life) : outcome life :=
  match ev with
  | EvStart => if decide (li_cleaner l = NotStarted) then mret (goroutines l Selecting (li_stops l)) else Blocks
  | EvTick now => if decide (li_cleaner l = Selecting) then cleanup_tick now l else Blocks
  | EvDelivered => cleanup_delivered l
  | EvTake => cleaned_taken l
  | EvStop => mret (goroutines l (li_cleaner l) (li_stops l ++ [Sending]))
  | EvQuit i => if decide (li_cleaner l = Selecting /\ li_stops l !! i = Some Sending) then mret (cleanup_quit i l) else Blocks
  | EvAnswer j => if decide (li_cleaner l = Answering /\ li_stops l !! j = Some Receiving) then mret (Stop_done j l) else Blocks
  | EvPass i j =>
      if decide (li_stops l !! i = Some Sending /\ li_stops l !! j = Some Receiving)
      then mret (goroutines l (li_cleaner l) (<[i := Receiving]> (<[j := Stopped]> (li_stops l)))) else Blocks
  | EvOther t => mret (mklife t (cleanedTxIDsChannel l) (li_cleaner l) (li_stops l) (li_cleanings l))
  end.

Fixpoint life_run (events : list life_event) (l : life) : outcome life :=
  match events with
  | [] => mret l
  | ev :: events => l ← life_do ev l; life_run events l
  end.
End Life.
Arguments life : clear implicits.
Arguments life_event : clear implicits.

(** ** Lemmas *)
Section Facts.
Context {M : Type -> Type} `{!ConcurrentMap M} {A : Type} `{!TxIDAssigner A}.
Implicit Types (l : life M A) (ev : life_event M A) (events : list (life_event M A)).

(** Once the loop has left its select for [quit], it stays out of it and does not clean. *)
Definition quitting l : Prop := li_cleaner l = Answering \/ li_cleaner l = Returned.

(** What the steps that do not touch [quit] leave of the handshake: the calls as they were, and the loop where
    it was or somewhere else before the handshake. *)
Definition away l l' : Prop :=
  li_stops l' = li_stops l /\ (li_cleaner l' = li_cleaner l \/ ~ quitting l /\ ~ quitting l').

Lemma cleanup_tick_away now l l' : li_cleaner l = Selecting -> cleanup_tick now l = Ret l' -> away l l'.
Proof.
  unfold cleanup_tick. intros Hc. destruct (TbTxStore_clean now _) as [[[t n] ids]| |]; go_simpl; try done. intros [= <-].
  split; [done|]. right. unfold quitting. cbn. rewrite Hc. repeat case_match; naive_solver.
Qed.

Lemma cleanup_delivered_spec l l' : cleanup_delivered l = Ret l' ->
  exists ids channel, li_cleaner l = Delivering ids /\ cleanedTxIDsChannel l = Some channel /\ ~ chan_full channel /\
    l' = with_channel l (Some (chan_push channel ids)) Selecting.
Proof.
  unfold cleanup_delivered. destruct (li_cleaner l) as [| |ids| |]; try done. destruct (cleanedTxIDsChannel l) as [channel|]; [|done].
  unfold send. case_decide; [done|]. go_simpl. intros [= <-]. by exists ids, channel.
Qed.

Lemma cleaned_taken_spec l l' : cleaned_taken l = Ret l' ->
  exists channel, cleanedTxIDsChannel l = Some channel /\
    ((exists ids buf, ch_buf channel = ids :: buf /\ l' = with_channel l (Some (mkchan (ch_cap channel) buf)) (li_cleaner l)) \/
     (exists ids, ch_buf channel = [] /\ li_cleaner l = Delivering ids /\ l' = with_channel l (Some channel) Selecting)).
Proof.
  unfold cleaned_taken, recv. destruct (cleanedTxIDsChannel l) as [channel|]; [|done]. intros Hl. exists channel. split; [done|].
  destruct (ch_buf channel) as [|ids buf]; go_simpl; revert Hl; go_simpl.
  - destruct (li_cleaner l) as [| |ids| |]; try done. intros [= <-]. right. by exists ids.
  - intros [= <-]. left. by exists ids, buf.
Qed.

Lemma cleanup_delivered_away l l' : cleanup_delivered l = Ret l' -> away l l'.
Proof.
  intros (ids & channel & Hc & _ & _ & ->)%cleanup_delivered_spec. split; [done|]. right. unfold quitting. cbn. rewrite Hc. naive_solver.
Qed.

Lemma cleaned_taken_away l l' : cleaned_taken l = Ret l' -> away l l'.
Proof.
  intros (channel & _ & [(ids & buf & _ & ->)|(ids & _ & Hc & ->)])%cleaned_taken_spec; (split; [done|]); [by left|].
  right. unfold quitting. cbn. rewrite Hc. naive_solver.
Qed.

(** One call waits for an answer exactly while the loop gives one; before that none has returned. *)
Record handshake l : Prop := {
  hs_none : li_cleaner l <> Answering -> Receiving ∉ li_stops l;
  hs_one : li_cleaner l = Answering -> exists j, li_stops l !! j = Some Receiving /\ forall k, li_stops l !! k = Some Receiving -> k = j;
  hs_early : ~ quitting l -> Stopped ∉ li_stops l
}.

Lemma handshake_away l l' : handshake l -> away l l' -> handshake l'.
Proof.
  intros [Hn H1 He] [Hs Hc]. unfold quitting in *.
  destruct Hc as [Hc|[Hq Hq']]; split; unfold quitting; rewrite Hs; try rewrite Hc; try done; [|naive_solver|by auto].
  intros _. apply Hn. naive_solver.
Qed.

Lemma not_in_insert {X} (x y : X) (xs : list X) i : x <> y -> x ∉ xs -> x ∉ <[i := y]> xs.
Proof.
  intros Hne Hx [k Hk]%list_elem_of_lookup. apply list_lookup_insert_Some in Hk as [(_ & -> & _)|[_ Hk]]; [done|].
  apply Hx, list_elem_of_lookup. by exists k.
Qed.

Lemma life_do_handshake ev l l' : handshake l -> life_do ev l = Ret l' -> handshake l'.
Proof.
  intros Hl. pose proof Hl as [Hn H1 He]. destruct ev as [|now| | | |i|j|i j|t]; cbn [life_do]; repeat case_decide; try done.
  - intros [= <-]. apply (handshake_away l); [done|]. split; [done|]. right. unfold quitting. cbn. naive_solver congruence.
  - intros Ht. eapply handshake_away; [done|]. by eapply cleanup_tick_away.
  - intros Hd. eapply handshake_away; [done|]. by apply cleanup_delivered_away.
  - intros Hd. eapply handshake_away; [done|]. by apply cleaned_taken_away.
  - intros [= <-]. split; cbn.
    + intros Hc [?|?%list_elem_of_singleton]%elem_of_app; [by apply Hn|done].
    + intros Hc. destruct (H1 Hc) as (j & Hj & Hu). exists j. split; [by apply lookup_app_l_Some|].
      intros k [Hk|[_ Hk]]%lookup_app_Some; [by apply Hu|]. by apply list_lookup_singleton_Some in Hk as [_ ?].
    + intros Hc [?|?%list_elem_of_singleton]%elem_of_app; [by apply He|done].
  - intros [= <-]. destruct H as [Hc Hi]. pose proof (lookup_lt_Some _ _ _ Hi) as Hlt. split; unfold quitting; cbn; [done| |naive_solver].
    intros _. exists i. split; [by apply list_lookup_insert_eq|]. intros k Hk.
    apply list_lookup_insert_Some in Hk as [(<- & _)|[_ Hk]]; [done|]. exfalso. apply Hn; [congruence|]. apply list_elem_of_lookup. by exists k.
  - intros [= <-]. destruct H as [Hc Hj]. destruct (H1 Hc) as (j' & Hj' & Hu). split; unfold quitting; cbn; [|done|naive_solver].
    intros _ [k Hk]%list_elem_of_lookup. apply list_lookup_insert_Some in Hk as [(_ & ? & _)|[Hne Hk]]; [done|].
    apply Hne. rewrite (Hu k Hk). by apply Hu.
  - intros [= <-]. destruct H as [Hi Hj].
    assert (li_cleaner l = Answering) as Hc.
    { destruct (decide (li_cleaner l = Answering)) as [|Hc]; [done|]. destruct (Hn Hc). apply list_elem_of_lookup. by exists j. }
    destruct (H1 Hc) as (j' & Hj' & Hu). assert (i <> j) as Hij by congruence.
    split; unfold quitting; cbn; [by rewrite Hc| |rewrite Hc; naive_solver].
    intros _. exists i. split; [apply list_lookup_insert_eq; rewrite length_insert; by eapply lookup_lt_Some|].
    intros k Hk. apply list_lookup_insert_Some in Hk as [(<- & _)|[_ Hk]]; [done|].
    apply list_lookup_insert_Some in Hk as [(_ & ? & _)|[Hne Hk]]; [done|]. destruct Hne. rewrite (Hu k Hk). by apply Hu.
  - intros [= <-]. by split.
Qed.

(** The channel of cleaned IDs stays within its capacity, and the loop sends only if there is one. *)
Definition channel_ok (channel : option (chan TxIDsByNetwork)) : Prop :=
  forall ch, channel = Some ch -> Z.of_nat (length (ch_buf ch)) <= ch_cap ch.
Definition delivery_ok l : Prop :=
  channel_ok (cleanedTxIDsChannel l) /\ forall ids, li_cleaner l = Delivering ids -> is_Some (cleanedTxIDsChannel l).

Lemma life_do_delivery ev l l' : delivery_ok l -> life_do ev l = Ret l' -> delivery_ok l'.
Proof.
  unfold delivery_ok, channel_ok. intros [Hch Hd].
  destruct ev as [|now| | | |i|j|i j|t]; cbn [life_do]; repeat case_decide; try done; try (intros [= <-]; cbn; naive_solver).
  - unfold cleanup_tick. destruct (TbTxStore_clean now _) as [[[st n] ids]| |]; go_simpl; try done. intros [= <-]. cbn.
    split; [done|]. intros ids'. by destruct (cleanedTxIDsChannel l).
  - intros (ids & channel & Hc & Hl & Hfull & ->)%cleanup_delivered_spec. cbn. split; [|done].
    intros ch [= <-]. unfold chan_full, chan_push in *. cbn. rewrite length_app. cbn. lia.
  - intros (channel & Hl & [(ids & buf & Hb & ->)|(ids & Hb & Hc & ->)])%cleaned_taken_spec; cbn; (split; [|done]); intros ch [= <-].
    + specialize (Hch channel Hl). rewrite Hb in Hch. cbn in *. lia.
    + by apply Hch.
Qed.

Lemma life_do_no_channel ev l l' : cleanedTxIDsChannel l = None -> life_do ev l = Ret l' -> cleanedTxIDsChannel l' = None.
Proof.
  intros Hch. destruct ev as [|now| | | |i|j|i j|t]; cbn [life_do]; repeat case_decide; try done; try (intros [= <-]; done).
  - unfold cleanup_tick. destruct (TbTxStore_clean now _) as [[[st n] ids]| |]; go_simpl; try done. by intros [= <-].
  - intros (ids & channel & _ & Hl & _)%cleanup_delivered_spec. congruence.
  - intros (channel & Hl & _)%cleaned_taken_spec. congruence.
Qed.

(** An invariant of one step holds over a run. *)
Lemma life_run_invariant (I : life M A -> Prop) events l l' :
  (forall ev l l', I l -> life_do ev l = Ret l' -> I l') -> I l -> life_run events l = Ret l' -> I l'.
Proof.
  intros Hstep. revert l. induction events as [|ev events IH]; intros l Hl; cbn [life_run]; go_simpl; [by intros [= <-]|].
  destruct (life_do ev l) as [l1| |] eqn:Hdo; try done. intros Hr. eapply IH; [|exact Hr]. by eapply Hstep.
Qed.

Lemma new_life_ok (t : TbTxStore M A) channel : channel_ok channel -> handshake (new_life t channel) /\ delivery_ok (new_life t channel).
Proof. intros Hc. split; split; cbn; try done; intros _; apply not_elem_of_nil. Qed.

Lemma life_do_quitting ev l l' : quitting l -> life_do ev l = Ret l' ->
  quitting l' /\ li_cleanings l' = li_cleanings l /\ (li_cleaner l = Returned -> li_cleaner l' = Returned).
Proof.
  unfold quitting. destruct ev as [|now| | | |i|j|i j|t]; cbn [life_do]; intros Hq; repeat case_decide; try done;
    try (destruct Hq; naive_solver congruence).
  - intros (? & ? & Hc & _)%cleanup_delivered_spec. destruct Hq; congruence.
  - intros (channel & _ & [(ids & buf & _ & ->)|(ids & _ & Hc & ->)])%cleaned_taken_spec; [by split_and!|destruct Hq; congruence].
  - intros [= <-]. by split_and!.
  - intros [= <-]. cbn. split_and!; [by right|done|done].
  - intros [= <-]. by split_and!.
  - intros [= <-]. by split_and!.
Qed.

Lemma life_run_quitting events l l' : quitting l -> life_run events l = Ret l' ->
  quitting l' /\ li_cleanings l' = li_cleanings l /\ (li_cleaner l = Returned -> li_cleaner l' = Returned).
Proof.
  revert l. induction events as [|ev events IH]; intros l Hl; cbn [life_run]; go_simpl; [by intros [= <-]|].
  destruct (life_do ev l) as [l1| |] eqn:Hdo; try done. intros Hr. destruct (life_do_quitting _ _ _ Hl Hdo) as (Hl1 & Hc1 & Hr1).
  destruct (IH l1 Hl1 Hr) as (Hl2 & Hc2 & Hr2). split_and!; [done|congruence|auto].
Qed.

(** A call that sends still sends after a step of which nobody receives from it: any step before the loop
    begins, while it delivers, or after it has returned. *)
Definition deaf l : Prop :=
  li_cleaner l = NotStarted \/ (exists ids, li_cleaner l = Delivering ids) \/ li_cleaner l = Returned.

Lemma life_do_deaf ev l l' i : handshake l -> deaf l -> li_stops l !! i = Some Sending ->
  life_do ev l = Ret l' -> li_stops l' !! i = Some Sending.
Proof.
  intros [Hn _ _] Hdeaf Hi.
  assert (li_cleaner l <> Answering /\ li_cleaner l <> Selecting) as [Ha Hs] by (unfold deaf in Hdeaf; naive_solver congruence).
  assert (Receiving ∉ li_stops l) as Hnone by auto.
  destruct ev as [|now| | | |k|j|k j|t]; cbn [life_do]; repeat case_decide; try done; try tauto; try (intros [= <-]; cbn; done).
  - intros [Hst _]%cleanup_delivered_away. by rewrite Hst.
  - intros [Hst _]%cleaned_taken_away. by rewrite Hst.
  - intros [= <-]. by apply lookup_app_l_Some.
  - destruct H as [_ Hj]. destruct Hnone. apply list_elem_of_lookup. by exists j.
Qed.

(** Over a run in which the loop stays deaf to [quit], the call waits. *)
Lemma life_run_waits (I : life M A -> Prop) (may : life_event M A -> Prop) events l l' i :
  (forall l, I l -> deaf l) ->
  (forall ev l l', handshake l -> I l -> may ev -> life_do ev l = Ret l' -> I l') ->
  handshake l -> I l -> Forall may events -> li_stops l !! i = Some Sending -> life_run events l = Ret l' ->
  li_stops l' !! i = Some Sending /\ I l'.
Proof.
  intros Hdeaf Hstep. revert l. induction events as [|ev events IH]; intros l Hl HI Hmay Hi; cbn [life_run]; go_simpl; [by intros [= <-]|].
  apply Forall_cons in Hmay as [Hev Hmay]. destruct (life_do ev l) as [l1| |] eqn:Hdo; try done. intros Hr.
  eapply IH; [by eapply life_do_handshake|by eapply Hstep|done| |exact Hr]. eapply life_do_deaf; eauto.
Qed.

(** Steps other than the start leave a loop that has not begun. *)
Lemma life_do_unstarted ev l l' : li_cleaner l = NotStarted -> ev <> EvStart -> handshake l -> life_do ev l = Ret l' ->
  li_cleaner l' = NotStarted /\ li_cleanings l' = li_cleanings l.
Proof.
  intros Hc Hev [Hn _ _]. destruct ev as [|now| | | |i|j|i j|t]; cbn [life_do]; repeat case_decide; try done; try congruence;
    try (intros [= <-]; done); try (destruct H; congruence).
  - intros (? & ? & ? & _)%cleanup_delivered_spec. congruence.
  - intros (channel & _ & [(ids & buf & _ & ->)|(ids & _ & ? & ->)])%cleaned_taken_spec; [done|congruence].
Qed.

(** The loop waits to deliver: the channel is full. *)
Definition stuck l : Prop :=
  exists ids channel, li_cleaner l = Delivering ids /\ cleanedTxIDsChannel l = Some channel /\ chan_full channel.

#[export] Instance stuck_dec l : Decision (stuck l).
Proof.
  destruct (li_cleaner l) as [| |ids| |] eqn:Hc; try (right; unfold stuck; naive_solver congruence).
  destruct (cleanedTxIDsChannel l) as [channel|] eqn:Hch; [|right; unfold stuck; naive_solver congruence].
  destruct (decide (chan_full channel)); [left; by exists ids, channel|right; unfold stuck; naive_solver congruence].
Defined.

(** Steps other than a receive from the channel of cleaned IDs leave a loop that waits to deliver. *)
Lemma life_do_stuck ev l l' : stuck l -> ev <> EvTake -> life_do ev l = Ret l' -> stuck l' /\ li_cleanings l' = li_cleanings l.
Proof.
  intros (ids & channel & Hc & Hch & Hfull) Hev.
  assert (forall stops, stuck (goroutines l (li_cleaner l) stops)) as Hst by (intros stops; exists ids, channel; done).
  destruct ev as [|now| | | |i|j|i j|t]; cbn [life_do]; repeat case_decide; try done; try congruence;
    try (intros [= <-]; split; [apply Hst|done]); try (destruct H; congruence).
  - intros (ids' & ch & _ & Hch' & Hnf & _)%cleanup_delivered_spec. simplify_eq.
  - intros [= <-]. split; [by exists ids, channel|done].
Qed.
End Facts.

(** ** Properties *)
Section Properties.
Context {M : Type -> Type} `{!ConcurrentMap M} {A : Type} `{!TxIDAssigner A}.
Implicit Types (l : life M A) (ev : life_event M A) (events : list (life_event M A)).

(** A tick of the loop and the delivery of what it cleaned are a call of [CleanNow]; if that waits, so does the loop. *)
Lemma tick_is_CleanNow now l : li_cleaner l = Selecting -> is_ret (TbTxStore_clean now (li_store l)) = true ->
  match CleanNow now (cleanedTxIDsChannel l) (li_store l) with
  | Ret (channel, t) => exists events, events ∈ [[EvTick now]; [EvTick now; EvDelivered]] /\
      life_run events l = Ret (mklife t channel Selecting (li_stops l) (S (li_cleanings l)))
  | Blocks => exists l', life_do (EvTick now) l = Ret l' /\ stuck l'
  | Panics p => False
  end.
Proof.
  intros Hc Hret. unfold CleanNow. cbn [life_do]. rewrite decide_True by done.
  assert (forall r, cleanup_tick now l = Ret r -> life_run [EvTick now] l = Ret r) as Htick.
  { intros r Hr. cbn [life_run life_do]. rewrite decide_True, Hr by done. done. }
  assert (forall r, cleanup_tick now l = Ret r -> life_run [EvTick now; EvDelivered] l = (l2 ← cleanup_delivered r; mret l2)) as Htick2.
  { intros r Hr. cbn [life_run life_do]. rewrite decide_True, Hr by done. done. }
  unfold cleanup_tick in *. destruct (TbTxStore_clean now (li_store l)) as [[[t n] ids]| |]; [|done..]. go_simpl.
  destruct (cleanedTxIDsChannel l) as [channel|] eqn:Hch.
  2:{ exists [EvTick now]. split; [by left|]. by apply Htick. }
  destruct (decide (0 < Z.of_nat (size ids))) as [Hids|Hids].
  - rewrite bool_decide_true in * by done. unfold send. case_decide as Hfull; go_simpl.
    + eexists. split; [done|]. by exists ids, channel.
    + exists [EvTick now; EvDelivered]. split; [right; by left|]. erewrite Htick2 by done.
      cbn. unfold send. by rewrite decide_False.
  - rewrite bool_decide_false in * by done. exists [EvTick now]. split; [by left|]. by apply Htick.
Qed.

(** Call [i] of [Stop] returns in the run [more], and so does the loop. *)
Definition gets_through (i : nat) (more : list (life_event M A)) l : Prop :=
  exists l', life_run more l = Ret l' /\ li_stops l' !! i = Some Stopped /\ li_cleaner l' = Returned.
(** Call [i] of [Stop] still sends after every run of steps that [may] happen, and nothing is cleaned in it. *)
Definition waits (i : nat) (may : life_event M A -> Prop) l : Prop :=
  forall more l', Forall may more -> life_run more l = Ret l' ->
    li_stops l' !! i = Some Sending /\ li_cleanings l' = li_cleanings l.

Lemma selecting_through i l : li_cleaner l = Selecting -> li_stops l !! i = Some Sending -> gets_through i [EvQuit i; EvAnswer i] l.
Proof.
  intros Hc Hi. pose proof (lookup_lt_Some _ _ _ Hi) as Hlt. unfold gets_through. cbn [life_run life_do].
  rewrite decide_True by done. go_simpl.
  cbn [cleanup_quit goroutines li_cleaner li_stops]. rewrite decide_True by (split; [done|by apply list_lookup_insert_eq]).
  eexists. split; [done|]. split; [|done]. cbn. apply list_lookup_insert_eq. by rewrite length_insert.
Qed.

Lemma through_after ev more i l l' : life_do ev l = Ret l' -> gets_through i more l' -> gets_through i (ev :: more) l.
Proof. intros Hdo Hg. unfold gets_through. cbn [life_run]. rewrite Hdo. exact Hg. Qed.

Lemma unstarted_waits i l : handshake l -> li_cleaner l = NotStarted -> li_stops l !! i = Some Sending ->
  waits i (fun ev => ev <> EvStart) l.
Proof.
  intros Hl Hc Hi more l' Hmay Hrun.
  destruct (life_run_waits (fun l0 => li_cleaner l0 = NotStarted /\ li_cleanings l0 = li_cleanings l) (fun ev => ev <> EvStart)
    more l l' i) as [? [_ ?]]; try done.
  - intros l0 [? _]. by left.
  - intros ev l0 l1 Hl0 [Hc0 Hn0] Hev Hdo. destruct (life_do_unstarted ev l0 l1 Hc0 Hev Hl0 Hdo) as [? ?]. split; congruence.
Qed.

Lemma stuck_waits i l : handshake l -> stuck l -> li_stops l !! i = Some Sending -> waits i (fun ev => ev <> EvTake) l.
Proof.
  intros Hl Hs Hi more l' Hmay Hrun.
  destruct (life_run_waits (fun l0 => stuck l0 /\ li_cleanings l0 = li_cleanings l) (fun ev => ev <> EvTake)
    more l l' i) as [? [_ ?]]; try done.
  - intros l0 [(ids & ch & ? & _) _]. right; left. by exists ids.
  - intros ev l0 l1 Hl0 [Hc0 Hn0] Hev Hdo. destruct (life_do_stuck ev l0 l1 Hc0 Hev Hdo) as [? ?]. split; [done|congruence].
Qed.

Lemma returned_waits i l : handshake l -> li_cleaner l = Returned -> li_stops l !! i = Some Sending -> waits i (fun _ => True) l.
Proof.
  intros Hl Hc Hi more l' Hmay Hrun.
  destruct (life_run_waits (fun l0 => li_cleaner l0 = Returned /\ li_cleanings l0 = li_cleanings l) (fun _ => True)
    more l l' i) as [? [_ ?]]; try done.
  - intros l0 [? _]. by right; right.
  - intros ev l0 l1 Hl0 [Hc0 Hn0] _ Hdo. destruct (life_do_quitting ev l0 l1 ltac:(by right) Hdo) as (_ & ? & ?).
    split; [auto|congruence].
Qed.

Lemma delivering_through i l ids : delivery_ok l -> li_cleaner l = Delivering ids -> li_stops l !! i = Some Sending ->
  if decide (stuck l) then gets_through i [EvTake; EvQuit i; EvAnswer i] l \/ gets_through i [EvTake; EvDelivered; EvQuit i; EvAnswer i] l
  else gets_through i [EvDelivered; EvQuit i; EvAnswer i] l.
Proof.
  intros [Hok Hd] Hc Hi. destruct (Hd ids Hc) as [channel Hch]. specialize (Hok channel Hch). case_decide as Hs.
  - destruct (ch_buf channel) as [|v buf] eqn:Hb; [left|right].
    + apply (through_after _ _ _ _ (with_channel l (Some channel) Selecting)); [|by apply selecting_through]. cbn. unfold cleaned_taken, recv. rewrite Hch, Hb, Hc. done.
    + eapply (through_after _ _ _ _ (with_channel l (Some (mkchan (ch_cap channel) buf)) (Delivering ids))).
      { cbn. unfold cleaned_taken, recv. rewrite Hch, Hb, Hc. done. }
      eapply (through_after _ _ _ _ (with_channel l (Some (mkchan (ch_cap channel) (buf ++ [ids]))) Selecting)); [|by apply selecting_through].
      cbn. unfold send. rewrite decide_False; [done|].
      unfold chan_full. cbn in *. lia.
  - apply (through_after _ _ _ _ (with_channel l (Some (chan_push channel ids)) Selecting)); [|by apply selecting_through].
    cbn. unfold cleanup_delivered. rewrite Hc, Hch.
    unfold send. rewrite decide_False; [done|]. intros Hf. apply Hs. by exists ids, channel.
Qed.

(** C34: Stopping the clean-up: when a call of [Stop] gets through, and when it hangs. Whatever calls, ticks,
    deliveries and changes happen in whatever order: when a call has returned, the loop has left its select
    and never cleans again. A call that has sent and not been heard waits before [Start], for as long as
    [Start] is not called; while the loop selects it gets through in two steps; while the loop delivers what
    it cleaned to a channel that is full, the call waits for as long as nobody takes from that channel, and
    gets through after one receive; and when the loop has returned the call, and every later one, waits for
    ever. While the loop answers, exactly one call receives and gets through in one step; one that still sends
    can only overtake it, by handing its own message to it. (The store of the gateway has no channel of
    cleaned IDs, so that its loop never delivers.) *)
Theorem stop_handshake t channel events l : channel_ok channel -> life_run events (new_life t channel) = Ret l ->
  (Stopped ∈ li_stops l -> forall more l', life_run more l = Ret l' -> quitting l' /\ li_cleanings l' = li_cleanings l) /\
  (forall i, li_stops l !! i = Some Sending ->
     match li_cleaner l with
     | NotStarted => waits i (fun ev => ev <> EvStart) l /\ gets_through i [EvStart; EvQuit i; EvAnswer i] l
     | Selecting => gets_through i [EvQuit i; EvAnswer i] l
     | Delivering _ =>
         if decide (stuck l) then
           waits i (fun ev => ev <> EvTake) l /\
           (gets_through i [EvTake; EvQuit i; EvAnswer i] l \/ gets_through i [EvTake; EvDelivered; EvQuit i; EvAnswer i] l)
         else gets_through i [EvDelivered; EvQuit i; EvAnswer i] l
     | Answering => exists j, gets_through i [EvPass i j; EvAnswer i] l
     | Returned => waits i (fun _ => True) l
     end) /\
  (li_cleaner l = Answering -> exists j, gets_through j [EvAnswer j] l /\ forall k, li_stops l !! k = Some Receiving -> k = j) /\
  (li_cleaner l = Returned -> forall more l', life_run (EvStop :: more) l = Ret l' ->
     li_stops l' !! length (li_stops l) = Some Sending) /\
  (channel = None -> forall ids, li_cleaner l <> Delivering ids).
Proof.
  intros Hch Hrun. destruct (new_life_ok t channel Hch) as [Hhs0 Hd0].
  pose proof (life_run_invariant handshake _ _ _ life_do_handshake Hhs0 Hrun) as Hhs.
  pose proof (life_run_invariant delivery_ok _ _ _ life_do_delivery Hd0 Hrun) as Hd. pose proof Hhs as [Hn H1 He].
  assert (forall j, li_cleaner l = Answering -> li_stops l !! j = Some Receiving -> gets_through j [EvAnswer j] l) as Hanswer.
  { intros j Hc Hj. eexists. cbn [life_run life_do]. rewrite decide_True by done. split; [done|]. split; [|done].
    cbn. apply list_lookup_insert_eq. by eapply lookup_lt_Some. }
  split; [|split; [|split; [|split]]].
  - intros Hin more l' Hmore. destruct (decide (li_cleaner l = Answering)) as [Hc|Hc];
      [|destruct (decide (li_cleaner l = Returned)) as [Hc'|Hc']; [|by destruct He; [intros []|]]].
    + by destruct (life_run_quitting _ _ _ (or_introl Hc) Hmore) as (? & ? & _).
    + by destruct (life_run_quitting _ _ _ (or_intror Hc') Hmore) as (? & ? & _).
  - intros i Hi. destruct (li_cleaner l) as [| |ids| |] eqn:Hc.
    + split; [by apply unstarted_waits|]. apply (through_after _ _ _ _ (goroutines l Selecting (li_stops l))).
      { cbn. by rewrite decide_True. }
      by apply selecting_through.
    + by apply selecting_through.
    + pose proof (delivering_through i l ids Hd Hc Hi) as Hthrough. case_decide as Hs; [|done]. split; [by apply stuck_waits|done].
    + destruct (H1 eq_refl) as (j & Hj & _). exists j. assert (i <> j) as Hij by congruence.
      apply (through_after _ _ _ _ (goroutines l (li_cleaner l) (<[i := Receiving]> (<[j := Stopped]> (li_stops l))))).
      { cbn [life_do]. by rewrite decide_True. }
      eexists. cbn [life_run life_do goroutines li_cleaner li_stops]. pose proof (lookup_lt_Some _ _ _ Hi).
      rewrite decide_True by (split; [done|apply list_lookup_insert_eq; by rewrite length_insert]). split; [done|]. split; [|done].
      cbn. apply list_lookup_insert_eq. by rewrite !length_insert.
    + by apply returned_waits.
  - intros Hc. destruct (H1 Hc) as (j & Hj & Hu). exists j. by split; [apply Hanswer|].
  - intros Hc more l' Hmore. cbn [life_run life_do] in Hmore. go_simpl.
    refine (proj1 (returned_waits _ _ (life_do_handshake EvStop l _ Hhs eq_refl) _ _ more l' _ Hmore)); cbn; [done|by apply list_lookup_middle|].
    apply Forall_true. done.
  - intros -> ids Hc. assert (cleanedTxIDsChannel l = None) as Hnone
      by (by apply (life_run_invariant (fun l0 => cleanedTxIDsChannel l0 = None) events (new_life t None) l life_do_no_channel)).
    destruct Hd as [_ Hd]. destruct (Hd ids Hc). simpl in *. congruence.
Qed.
End Properties.

(** ** Witness: two calls of [Stop], of which the second waits for ever; and a loop that waits to deliver. *)
Definition ex_store : TbTxStore (gmap string) unit := NewTbTxStore 1000 1000 () newHashHistory 1000.
Definition ex_filled_store : TbTxStore (gmap string) unit :=
  match TbTxStore_Add 0 ex_store (replicate 32 x07) [x01] 7 5 0 with Ret (_, t) => t | _ => ex_store end.
Definition ex_events : list (life_event (gmap string) unit) := [EvStart; EvTick 5; EvStop; EvStop; EvQuit 1; EvAnswer 1].
Definition ex_stuck_events : list (life_event (gmap string) unit) := [EvStart; EvOther ex_filled_store; EvStop; EvTick (10 ^ 20)].

Definition ex_stuck : life (gmap string) unit :=
  match life_run ex_stuck_events (new_life ex_store (Some (make_chan 0))) with Ret l => l | _ => new_life ex_store None end.
Definition ex_cleaned : TxIDsByNetwork := {[5 := [7]]}.

Lemma ex_stuck_run : life_run ex_stuck_events (new_life ex_store (Some (make_chan 0))) = Ret ex_stuck.
Proof. vm_cast_no_check (@eq_refl (outcome (life (gmap string) unit)) (Ret ex_stuck)). Qed.
Lemma ex_stuck_cleaner : li_cleaner ex_stuck = Delivering ex_cleaned.
Proof. vm_cast_no_check (@eq_refl cleaner (Delivering ex_cleaned)). Qed.
Lemma ex_stuck_channel : cleanedTxIDsChannel ex_stuck = Some (make_chan 0).
Proof. vm_cast_no_check (@eq_refl (option (chan TxIDsByNetwork)) (Some (make_chan 0))). Qed.
Lemma ex_stuck_stops : li_stops ex_stuck = [Sending].
Proof. vm_cast_no_check (@eq_refl (list stopper) [Sending]). Qed.

Lemma stop_handshake_witness :
  (exists l, life_run ex_events (new_life ex_store None) = Ret l /\ li_cleanings l = 1%nat /\ waits 0 (fun _ => True) l) /\
  life_run ex_stuck_events (new_life ex_store (Some (make_chan 0))) = Ret ex_stuck /\ stuck ex_stuck /\
  waits 0 (fun ev => ev <> EvTake) ex_stuck.
Proof.
  split.
  - destruct (life_run ex_events (new_life ex_store None)) as [l| |] eqn:Hrun; [|vm_compute in Hrun; discriminate..].
    destruct (stop_handshake ex_store None ex_events l ltac:(done) Hrun) as (_ & Hsend & _).
    vm_compute in Hrun. injection Hrun as <-. eexists. split; [reflexivity|]. split; [reflexivity|]. apply (Hsend 0%nat). reflexivity.
  - assert (stuck ex_stuck) as Hst.
    { exists ex_cleaned, (make_chan 0). split; [apply ex_stuck_cleaner|]. split; [apply ex_stuck_channel|done]. }
    split; [exact ex_stuck_run|]. split; [exact Hst|].
    destruct (stop_handshake ex_store (Some (make_chan 0)) ex_stuck_events ex_stuck ltac:(by intros ch [= <-]) ex_stuck_run) as (_ & Hsend & _).
    specialize (Hsend 0%nat). rewrite ex_stuck_stops, ex_stuck_cleaner, decide_True in Hsend by exact Hst. by apply Hsend.
Defined.
