(* ===== verification/BlockProcessor.v ===== *)
(** The block processor (services/block_processor.go): a block from the node becomes a broadcast
    message, once. [rlp.EncodeToBytes] belongs to go-ethereum and is a parameter. *)
From S2P Require Import Prelude Bytes TbMessage CMap HashHistory Types.

(** ** Definitions *)
Record bxCompressedTransaction := mkbxCompressedTransaction {
  IsFullTransaction : bool;
  Transaction : list byte
}.

Record bxBlockRLP := mkbxBlockRLP {
  rlp_Header : list byte;
  rlp_Txs : list bxCompressedTransaction;
  rlp_Trailer : list byte;
  rlp_TotalDifficulty : option Z;
  rlp_Number : option Z
}.

Definition processedDuration : Z := 10 * 60 * (1000 * 1000 * 1000).

Section BlockProcessor.
Context {M : Type -> Type} `{!ConcurrentMap M}.
Variable rlp_EncodeToBytes : bxBlockRLP -> result (list byte).

Record rlpBlockProcessor := mkrlpBlockProcessor { processedBlocks : HashHistory M }.

Definition NewRLPBlockProcessor : rlpBlockProcessor := mkrlpBlockProcessor newHashHistory.

Definition block_key (hash : SHA256Hash) : string := to_string (SHA256Hash_String hash).

Definition ShouldProcess (now : Z) (bp : rlpBlockProcessor) (hash : SHA256Hash) : bool :=
  negb (HashHistory_Exists now (processedBlocks bp) (block_key hash)).

Definition markProcessed (now : Z) (bp : rlpBlockProcessor) (hash : SHA256Hash) : rlpBlockProcessor :=
  mkrlpBlockProcessor (HashHistory_Add now (processedBlocks bp) (block_key hash) processedDuration).

Definition block_rlp (block : TbBlock) : bxBlockRLP :=
  mkbxBlockRLP (tb_Header block)
    ((fun tx => mkbxCompressedTransaction true (bt_content tx)) <$> tb_Txs block)
    (tb_Trailer block) (tb_TotalDifficulty block) (tb_Number block).

(** The message, the short IDs used and the error. *)
Definition BxBlockToBroadcast (now : Z) (bp : rlpBlockProcessor) (block : TbBlock) (networkNum : Z)
    : (option Broadcast * list Z * option go_error) * rlpBlockProcessor :=
  let blockHash := tb_hash block in
  if negb (ShouldProcess now bp blockHash) then ((None, [], Some ErrAlreadyProcessed), bp) else
  let usedShortIDs := [] in
  match rlp_EncodeToBytes (block_rlp block) with
  | Fail err => ((None, usedShortIDs, Some err), bp)
  | Ok encodedBlock =>
      ((Some (NewBlockBroadcast blockHash encodedBlock usedShortIDs networkNum), usedShortIDs, None),
       markProcessed now bp blockHash)
  end.

(** A sequence of calls, each with the time at which it is made. *)
Fixpoint process_all (bp : rlpBlockProcessor) (calls : list (Z * TbBlock)) (networkNum : Z)
    : list (Z * SHA256Hash * option Broadcast) :=
  match calls with
  | [] => []
  | (now, block) :: calls =>
      let '((msg, _, _), bp) := BxBlockToBroadcast now bp block networkNum in
      (now, tb_hash block, msg) :: process_all bp calls networkNum
  end.
End BlockProcessor.
Arguments rlpBlockProcessor M : clear implicits.

(** ** Lemmas *)
Section Facts.
Context {M : Type -> Type} `{ConcurrentMapLaws M}.
Variable rlp_EncodeToBytes : bxBlockRLP -> result (list byte).
Implicit Types bp : rlpBlockProcessor M.

Lemma block_key_inj h h' : block_key h = block_key h' -> h = h'.
Proof.
  unfold block_key. intros Heq%(inj to_string). unfold SHA256Hash_String in Heq.
  apply (f_equal hex_decode) in Heq. rewrite !hex_decode_encode in Heq. congruence.
Qed.

Lemma ShouldProcess_mark now bp h t h' :
  ShouldProcess t (markProcessed now bp h) h'
  = if decide (h = h') then bool_decide (expiry now processedDuration <= t) else ShouldProcess t bp h'.
Proof.
  unfold ShouldProcess, markProcessed. simpl. rewrite Exists_Add.
  destruct (decide (h = h')) as [->|Hne].
  - rewrite decide_True by done. case_bool_decide; case_bool_decide; try done; lia.
  - rewrite decide_False; [done|]. by intros ?%block_key_inj.
Qed.

(** While a block counts as processed it yields no second message. *)
Lemma process_all_quiet bp calls n h until :
  (forall t, ShouldProcess t bp h = true -> until <= t) ->
  Forall (fun call => is_int64 (call.1 + processedDuration) /\ until <= call.1 + processedDuration) calls ->
  Forall (fun '(t, h', msg) => h' = h -> msg <> None -> until <= t) (process_all rlp_EncodeToBytes bp calls n).
Proof.
  revert bp. induction calls as [|[t b] calls IH]; intros bp Hq Hc; [constructor|].
  apply Forall_cons in Hc as [[Ht Hu] Hc]. simpl in Ht, Hu. cbn [process_all].
  unfold BxBlockToBroadcast. destruct (ShouldProcess t bp (tb_hash b)) eqn:Hs; simpl.
  - destruct (rlp_EncodeToBytes (block_rlp b)) as [enc|err].
    + constructor; [intros <- _; by apply Hq|]. apply IH; [|done]. intros t' Hs'.
      rewrite ShouldProcess_mark in Hs'. case_decide; [|by apply Hq].
      apply bool_decide_eq_true in Hs'. unfold expiry in Hs'. rewrite int64_small in Hs' by done. lia.
    + constructor; [done|]. by apply IH.
  - constructor; [done|]. by apply IH.
Qed.

(** ** Properties *)

(** What the block processor does on every path: a block processed less than ten minutes ago is
    refused; a block that cannot be encoded is answered with the encoder's error and may be tried
    again; otherwise the message carries the block's hash, network and complete encoding, and no
    short ID, and the block counts as processed for ten minutes. *)
Theorem BxBlockToBroadcast_spec now bp block n :
  let processed := HashHistory_Exists now (processedBlocks bp) (block_key (tb_hash block)) in
  let '(msg, ids, err, bp') := BxBlockToBroadcast rlp_EncodeToBytes now bp block n in
  ids = [] /\
  (processed = true -> msg = None /\ err = Some ErrAlreadyProcessed /\ bp' = bp) /\
  (processed = false -> forall e, rlp_EncodeToBytes (block_rlp block) = Fail e ->
     msg = None /\ err = Some e /\ bp' = bp) /\
  (processed = false -> forall enc, rlp_EncodeToBytes (block_rlp block) = Ok enc ->
     msg = Some (NewBlockBroadcast (tb_hash block) enc [] n) /\ err = None /\
     forall t h, HashHistory_Exists t (processedBlocks bp') (block_key h)
       = if decide (h = tb_hash block) then bool_decide (t < expiry now processedDuration)
         else HashHistory_Exists t (processedBlocks bp) (block_key h)).
Proof.
  cbn zeta. unfold BxBlockToBroadcast, ShouldProcess.
  destruct (HashHistory_Exists now _ _) eqn:Hp; simpl; [by repeat split|].
  destruct (rlp_EncodeToBytes (block_rlp block)) as [enc|e] eqn:Henc;
    (split; [done|split; [done|split]]); try by (intros _ ? [= <-]).
  intros _ ? [= <-]. split; [done|]. split; [done|]. intros t h. unfold markProcessed. simpl. rewrite Exists_Add.
  destruct (decide (h = tb_hash block)) as [->|Hne]; [by rewrite decide_True|].
  rewrite decide_False; [done|]. by intros ?%block_key_inj.
Qed.

(** C27: However often the node delivers a block, the gateway builds at most one message for it per
    ten minutes: two messages for one hash are at least that far apart. *)
Theorem block_broadcast_once bp calls n i j ti tj h mi mj :
  StronglySorted (fun c1 c2 => c1.1 <= c2.1) calls ->
  Forall (fun call => is_int64 (call.1 + processedDuration)) calls ->
  (i < j)%nat ->
  process_all rlp_EncodeToBytes bp calls n !! i = Some (ti, h, Some mi) ->
  process_all rlp_EncodeToBytes bp calls n !! j = Some (tj, h, Some mj) ->
  ti + processedDuration <= tj.
Proof.
  revert bp i j. induction calls as [|[t b] calls IH]; intros bp i j Hsort Hrange Hij Hi Hj; [done|].
  apply StronglySorted_inv in Hsort as [Hsort Hle]. apply Forall_cons in Hrange as [Ht Hrange]. simpl in Ht.
  cbn [process_all] in Hi, Hj.
  destruct (BxBlockToBroadcast rlp_EncodeToBytes t bp b n) as [[[msg ids] err] bp'] eqn:Hstep.
  destruct j as [|j]; [lia|]. destruct i as [|i]; [|apply (IH bp' i j); auto; lia].
  simpl in Hi, Hj. injection Hi as <- Hh Hm.
  assert (bp' = markProcessed t bp h) as ->.
  { unfold BxBlockToBroadcast in Hstep. destruct (negb _); [by simplify_eq|].
    destruct (rlp_EncodeToBytes _); by simplify_eq. }
  assert (Forall (fun '(t', h', msg) => h' = h -> msg <> None -> t + processedDuration <= t')
    (process_all rlp_EncodeToBytes (markProcessed t bp h) calls n)) as Hq.
  { apply process_all_quiet.
    - intros t' Hs. rewrite ShouldProcess_mark, decide_True in Hs by done.
      apply bool_decide_eq_true in Hs. unfold expiry in Hs. by rewrite int64_small in Hs.
    - rewrite Forall_forall in *. intros [t' b'] Hin. specialize (Hle _ Hin). specialize (Hrange _ Hin).
      simpl in *. split; [done|lia]. }
  rewrite Forall_lookup in Hq. apply (Hq j _ Hj); done.
Qed.
End Facts.

(** ** Witness: the same block at 0 s, 60 s and 601 s, under an encoder that keeps the header *)
Definition ex_encode (b : bxBlockRLP) : result (list byte) := Ok (rlp_Header b).
Definition ex_block : TbBlock := mkTbBlock (replicate 32 x05) [x01; x02] [] [] None None 0 0.
Definition ex_second : Z := 1000 * 1000 * 1000.
Definition ex_calls : list (Z * TbBlock) :=
  [(0, ex_block); (60 * ex_second, ex_block); (601 * ex_second, ex_block)].

Example block_broadcast_once_witness :
  let out := process_all ex_encode (NewRLPBlockProcessor (M:=gmap string)) ex_calls 5 in
  let msg := NewBlockBroadcast (tb_hash ex_block) [x01; x02] [] 5 in
  out = [(0, tb_hash ex_block, Some msg); (60 * ex_second, tb_hash ex_block, None);
         (601 * ex_second, tb_hash ex_block, Some msg)] /\
  0 + processedDuration <= 601 * ex_second.
Proof.
  split; [vm_compute; reflexivity|].
  eapply (block_broadcast_once ex_encode (NewRLPBlockProcessor (M:=gmap string)) ex_calls 5 0 2);
    [repeat constructor; simpl; vm_compute; congruence|repeat constructor; vm_compute; congruence|lia
    |vm_compute; reflexivity|vm_compute; reflexivity].
Defined.

Example BxBlockToBroadcast_spec_witness :
  let '(msg, ids, err, bp') := BxBlockToBroadcast ex_encode 0 (NewRLPBlockProcessor (M:=gmap string)) ex_block 5 in
  msg = Some (NewBlockBroadcast (tb_hash ex_block) [x01; x02] [] 5) /\ err = None.
Proof.
  pose proof (BxBlockToBroadcast_spec ex_encode 0 (NewRLPBlockProcessor (M:=gmap string)) ex_block 5) as Hspec.
  destruct (BxBlockToBroadcast ex_encode 0 _ ex_block 5) as [[[msg ids] err] bp']. cbn zeta in Hspec.
  destruct Hspec as (_ & _ & _ & Hok). destruct (Hok eq_refl _ eq_refl) as (Hmsg & Herr & _).
  split; [exact Hmsg|exact Herr].
Defined.
