(* ===== verification/EthTypes.v ===== *)
(** The interface of the go-ethereum types the blockchain packages work with. They are not part of
    the repository: the class gives the operations the code calls, the second class their documented
    laws. The instance at the end is the one the examples run on. *)
From S2P Require Import Prelude Bytes.

(** [ethtypes.Body] and [eth.BlockBody], which have the same fields. *)
Record eth_body (T H : Type) := mkBody { Transactions : list T; Uncles : list H }.
Arguments mkBody {T H} _ _.
Arguments Transactions {T H} _.
Arguments Uncles {T H} _.

(** A [*types.Header] is an [option Header]: the chain keeps a nil header for the block a peer
    announced in its status message, and [Header.Hash] is defined on it. *)
Class EthTypes := {
  Hash : Type;
  Hash_eq_dec :: EqDecision Hash;
  zero_Hash : Hash;
  hash_string : Hash -> string;          (* Hash.String *)
  hash_Bytes : Hash -> list byte;        (* Hash.Bytes *)
  BytesToHash : list byte -> Hash;
  EthTransaction : Type;
  transaction_hash : EthTransaction -> Hash;
  Header : Type;
  header_hash : Header -> Hash;          (* Header.Hash *)
  nil_header_hash : Hash;                (* Header.Hash on a nil header *)
  header_parent : Header -> Hash;        (* Header.ParentHash *)
  header_Number : Header -> Z;           (* Header.Number, a big.Int *)
  Block : Type;
  block_header : Block -> Header;        (* Block.Header *)
  block_body : Block -> eth_body EthTransaction Header;  (* Block.Body *)
  block_hash : Block -> Hash;            (* Block.Hash *)
  block_parent : Block -> Hash;          (* Block.ParentHash *)
  block_Number : Block -> Z;             (* Block.Number, a big.Int *)
  block_time : Block -> Z;               (* Block.Time *)
  block_difficulty : Block -> Z;         (* Block.Difficulty *)
  block_size : Block -> Z;               (* Block.Size *)
  (* NewBlockWithHeader(header).WithBody(transactions, uncles) *)
  block_with : Header -> list EthTransaction -> list Header -> Block
}.

Abbreviation Body := (eth_body EthTransaction Header).

(** [Header.Number.Uint64()] and [Block.NumberU64()] *)
Definition header_number `{EthTypes} (hd : Header) : Z := uint64 (header_Number hd).
Definition block_number `{EthTypes} (b : Block) : Z := uint64 (block_Number b).

Class EthLaws `{EthTypes} := {
  hash_string_inj :: Inj (=) (=) hash_string;
  hash_Bytes_length h : length (hash_Bytes h) = 32%nat;
  BytesToHash_Bytes h : BytesToHash (hash_Bytes h) = h;
  block_hash_header b : block_hash b = header_hash (block_header b);
  block_parent_header b : block_parent b = header_parent (block_header b);
  block_Number_header b : block_Number b = header_Number (block_header b);
  block_with_header hd txs us : block_header (block_with hd txs us) = hd;
  block_with_body hd txs us : block_body (block_with hd txs us) = mkBody txs us
}.

Lemma header_number_range `{EthTypes} hd : is_uint64 (header_number hd).
Proof. apply uint64_bounds. Qed.

Lemma block_number_header `{EthLaws} b : block_number b = header_number (block_header b).
Proof. unfold block_number, header_number. by rewrite block_Number_header. Qed.

(** [Header.Hash] on a pointer *)
Definition header_ptr_hash `{EthTypes} (h : option Header) : Hash :=
  match h with Some hd => header_hash hd | None => nil_header_hash end.

(** [big.Int.Int64]: the low 64 bits, as a signed value. *)
Definition big_Int64 (x : Z) : Z := int64 x.

(** ** An instance: headers that carry their own hash *)
(** The hashes of the toy instance are those whose first 31 bytes are zero. *)
Definition toy_id (n : N) : byte := byte_of_Z (Z.of_N n).
Record toy_header := mkToyHeader { th_hash : N; th_parent : N; th_number : N }.
Record toy_block := mkToyBlock { tbk_header : toy_header; tbk_body : eth_body N toy_header; tbk_difficulty : Z }.

Definition toy_EthTypes : EthTypes := {|
  Hash := byte;
  zero_Hash := toy_id 0;
  hash_string h := format_uint (Z_of_byte h);
  hash_Bytes h := zeros 31 ++ [h];
  BytesToHash bs := default x00 (last bs);
  EthTransaction := N;
  transaction_hash t := toy_id t;
  Header := toy_header;
  header_hash h := toy_id (th_hash h);
  nil_header_hash := toy_id 1;
  header_parent h := toy_id (th_parent h);
  header_Number h := Z.of_N (th_number h);
  Block := toy_block;
  block_header := tbk_header;
  block_body := tbk_body;
  block_hash b := toy_id (th_hash (tbk_header b));
  block_parent b := toy_id (th_parent (tbk_header b));
  block_Number b := Z.of_N (th_number (tbk_header b));
  block_time b := Z.of_N (th_number (tbk_header b));
  block_difficulty := tbk_difficulty;
  block_size b := 100;
  block_with h txs us := mkToyBlock h (mkBody txs us) 0
|}.

Lemma toy_EthLaws : @EthLaws toy_EthTypes.
Proof.
  split; try done.
  intros x y Heq. apply format_uint_inj in Heq; [|apply Z_of_byte_bounds..].
  by rewrite <- (byte_of_Z_of_byte x), Heq, byte_of_Z_of_byte.
Qed.

Definition toy (hash parent number : N) : toy_block := mkToyBlock (mkToyHeader hash parent number) (mkBody [] []) 3.
