(* ===== verification/Chain.v ===== *)
(** The in-memory chain (blockchain/eth/chain.go) and its block references (blockchain/eth/util.go).
    Methods that take [chainLock] run one at a time; the locks are not modelled. *)
From S2P Require Import Prelude CMap EthTypes.

(** ** Definitions *)
Definition maxReorgLength : Z := 20.
Definition minValidChainLength : Z := 10.
Definition defaultMaxSize : Z := 500.
Definition maxFutureBlockNumber : Z := 100.

Inductive BlockSource := BSBDN | BSBlockchain.
#[export] Instance BlockSource_eq_dec : EqDecision BlockSource.
Proof. solve_decision. Defined.

Section Chain.
Context `{EthTypes} {M : Type -> Type} `{!ConcurrentMap M}.

(** *** util.go *)
Record blockRef := mkblockRef { height : Z; hash : Hash }.

Definition empty_ref : blockRef := mkblockRef 0 zero_Hash.
Definition chain_head (bc : list blockRef) : blockRef :=
  match bc with [] => empty_ref | r :: _ => r end.
Definition chain_tail (bc : list blockRef) : option blockRef := last bc.

(** *** chain.go: data *)
(** [totalDifficulty] is set by every constructor. *)
Record BlockInfo := mkBlockInfo { bi_Block : Block; totalDifficulty : Z }.

Definition BlockInfo_SetTotalDifficulty (e : BlockInfo) (td : option Z) : BlockInfo :=
  mkBlockInfo (bi_Block e) (match td with None => 0 | Some td => td end).
Definition NewBlockInfo (block : Block) (td : option Z) : BlockInfo :=
  BlockInfo_SetTotalDifficulty (mkBlockInfo block 0) td.
Definition TotalDifficulty (e : BlockInfo) : option Z :=
  if decide (big_Int64 (totalDifficulty e) <= 0) then None else Some (totalDifficulty e).

Record blockMetadata := mkblockMetadata {
  bm_height : Z;
  sentToBDN : bool;
  confirmed : bool;
  confirmedMsgSent : bool
}.

Record ethHeader := mkethHeader { eh_Header : option Header; eh_hash : Hash }.

Record Chain := mkChain {
  maxReorg : Z;
  minValidChain : Z;
  heightToBlockHeaders : M (list ethHeader);
  blockHashToMetadata : M blockMetadata;
  blockHashToBody : M Body;
  blockHashToDifficulty : M Z;
  chainState : list blockRef
}.

Definition newChain (maxReorg minValidChain : Z) : Chain :=
  mkChain maxReorg minValidChain cm_new cm_new cm_new cm_new [].
Definition NewChain : Chain := newChain maxReorgLength minValidChainLength.

Definition with_headers (c : Chain) m : Chain :=
  mkChain (maxReorg c) (minValidChain c) m (blockHashToMetadata c) (blockHashToBody c)
    (blockHashToDifficulty c) (chainState c).
Definition with_metadata (c : Chain) m : Chain :=
  mkChain (maxReorg c) (minValidChain c) (heightToBlockHeaders c) m (blockHashToBody c)
    (blockHashToDifficulty c) (chainState c).
Definition with_body (c : Chain) m : Chain :=
  mkChain (maxReorg c) (minValidChain c) (heightToBlockHeaders c) (blockHashToMetadata c) m
    (blockHashToDifficulty c) (chainState c).
Definition with_difficulty (c : Chain) m : Chain :=
  mkChain (maxReorg c) (minValidChain c) (heightToBlockHeaders c) (blockHashToMetadata c)
    (blockHashToBody c) m (chainState c).
Definition with_state (c : Chain) s : Chain :=
  mkChain (maxReorg c) (minValidChain c) (heightToBlockHeaders c) (blockHashToMetadata c)
    (blockHashToBody c) (blockHashToDifficulty c) s.

(** *** Storage *)
Definition height_key (h : Z) : string := format_uint h.

Definition getBlockMetadata (c : Chain) (h : Hash) : option blockMetadata :=
  cm_get (blockHashToMetadata c) (hash_string h).

(** [bm, _ := c.getBlockMetadata(hash)] leaves the zero value when there is none. *)
Definition storeBlockMetadata (c : Chain) (h : Hash) (ht : Z) (conf confMsgSent : bool) : Chain :=
  let '(set, m) := cm_set_if_absent (blockHashToMetadata c) (hash_string h)
                     (mkblockMetadata ht false conf confMsgSent) in
  let c := with_metadata c m in
  if negb set then
    let bm := default (mkblockMetadata 0 false false false) (getBlockMetadata c h) in
    with_metadata c (cm_set (blockHashToMetadata c) (hash_string h)
      (mkblockMetadata (bm_height bm) (sentToBDN bm) (confirmed bm || conf) (confirmedMsgSent bm || confMsgSent)))
  else c.

Definition removeBlockMetadata (c : Chain) (h : Hash) : Chain :=
  with_metadata c (cm_remove (blockHashToMetadata c) (hash_string h)).
Definition hasHeader (c : Chain) (h : Hash) : bool := cm_has (blockHashToMetadata c) (hash_string h).

Definition storeEthHeaderAtHeight (c : Chain) (ht : Z) (eh : ethHeader) : Chain :=
  let '(ok, m) := cm_set_if_absent (heightToBlockHeaders c) (height_key ht) [eh] in
  let c := with_headers c m in
  if negb ok then
    let ethHeaders := default [] (cm_get (heightToBlockHeaders c) (height_key ht)) in
    with_headers c (cm_set (heightToBlockHeaders c) (height_key ht) (ethHeaders ++ [eh]))
  else c.

Definition storeHeaderAtHeight (c : Chain) (ht : Z) (header : Header) : Chain :=
  storeEthHeaderAtHeight c ht (mkethHeader (Some header) (header_hash header)).

Definition getHeadersAtHeight (c : Chain) (ht : Z) : option (list (option Header)) :=
  match cm_get (heightToBlockHeaders c) (height_key ht) with
  | None => None
  | Some ethHeaders => Some (eh_Header <$> ethHeaders)
  end.

(** The loop of [getBlockHeader] over the headers of a height. *)
Fixpoint find_header (headers : list (option Header)) (h : Hash) : option (option Header) :=
  match headers with
  | [] => None
  | header :: headers => if decide (header_ptr_hash header = h) then Some header else find_header headers h
  end.

Definition getBlockHeader (c : Chain) (ht : Z) (h : Hash) : option (option Header) :=
  headers ← getHeadersAtHeight c ht; find_header headers h.

Definition storeBlockHeader (c : Chain) (header : Header) (source : BlockSource) : Chain :=
  let c := storeHeaderAtHeight c (header_number header) header in
  storeBlockMetadata c (header_hash header) (header_number header) (bool_decide (source = BSBlockchain)) false.

Definition storeBlockDifficulty (c : Chain) (h : Hash) (difficulty : option Z) : Chain :=
  match difficulty with
  | Some d => with_difficulty c (cm_set (blockHashToDifficulty c) (hash_string h) d)
  | None => c
  end.
Definition getBlockDifficulty (c : Chain) (h : Hash) : option Z :=
  cm_get (blockHashToDifficulty c) (hash_string h).
Definition removeBlockDifficulty (c : Chain) (h : Hash) : Chain :=
  with_difficulty c (cm_remove (blockHashToDifficulty c) (hash_string h)).

Definition storeBlockBody (c : Chain) (h : Hash) (body : Body) : Chain :=
  with_body c (cm_set (blockHashToBody c) (hash_string h) body).
Definition getBlockBody (c : Chain) (h : Hash) : option Body := cm_get (blockHashToBody c) (hash_string h).
Definition hasBody (c : Chain) (h : Hash) : bool := cm_has (blockHashToBody c) (hash_string h).
Definition removeBlockBody (c : Chain) (h : Hash) : Chain :=
  with_body c (cm_remove (blockHashToBody c) (hash_string h)).

Definition storeBlock (c : Chain) (block : Block) (difficulty : option Z) (source : BlockSource) : Chain :=
  let c := storeBlockHeader c (block_header block) source in
  let c := storeBlockBody c (block_hash block) (block_body block) in
  storeBlockDifficulty c (block_hash block) difficulty.

Definition pruneHash (c : Chain) (h : Hash) : Chain :=
  removeBlockDifficulty (removeBlockBody (removeBlockMetadata c h) h) h.

Definition HasBlock (c : Chain) (h : Hash) : bool := hasHeader c h && hasBody c h.
Definition HasSentToBDN (c : Chain) (h : Hash) : bool :=
  match getBlockMetadata c h with Some bm => sentToBDN bm | None => false end.
Definition HasConfirmedBlock (c : Chain) (h : Hash) : bool :=
  match getBlockMetadata c h with Some bm => confirmed bm | None => false end.

Definition MarkSentToBDN (c : Chain) (h : Hash) : Chain :=
  match getBlockMetadata c h with
  | None => c
  | Some bm => with_metadata c (cm_set (blockHashToMetadata c) (hash_string h)
                 (mkblockMetadata (bm_height bm) true (confirmed bm) (confirmedMsgSent bm)))
  end.

(** *** Updating the chain state *)
Inductive fill_result :=
  | FillMissing                                               (* a header is not stored: give up *)
  | FillTrim (missingEntries : list blockRef)                 (* a valid chain of its own *)
  | FillDone (missingEntries : list blockRef) (headHeight : Z) (headHash : Hash).

(** The first loop of [updateChainState]; [Blocks] stands for exhausted fuel. *)
Fixpoint fill_missing (fuel : nat) (c : Chain) (chainHeight headHeight : Z) (headHash : Hash)
    (missingEntries : list blockRef) : outcome fill_result :=
  match fuel with
  | O => Blocks
  | S fuel =>
      if decide (chainHeight < headHeight) then
        match getBlockHeader c headHeight headHash with
        | None => mret FillMissing
        | Some headHeader =>
            let missingEntries := missingEntries ++ [mkblockRef headHeight headHash] in
            hd ← deref headHeader;
            if decide (minValidChain c <= Z.of_nat (length missingEntries))
            then mret (FillTrim missingEntries)
            else fill_missing fuel c chainHeight (uint64 (headHeight - 1)) (header_parent hd) missingEntries
        end
      else mret (FillDone missingEntries headHeight headHash)
  end.

Inductive reorg_result :=
  | ReorgMissing
  | ReorgTrim (missingEntries : list blockRef)
  | ReorgJoin (missingEntries rest : list blockRef).

(** The second loop, at index [i] of the chain state with [rest] behind it. *)
Fixpoint reorganize (c : Chain) (i : Z) (rest : list blockRef) (headHeight : Z) (headHash : Hash)
    (missingEntries : list blockRef) : outcome reorg_result :=
  match rest with
  | [] => mret (ReorgJoin missingEntries [])
  | chainRef :: rest' =>
      if decide (headHash = hash chainRef) then mret (ReorgJoin missingEntries rest) else
      match getBlockHeader c headHeight headHash with
      | None => mret ReorgMissing
      | Some headHeader =>
          let missingEntries := missingEntries ++ [mkblockRef headHeight headHash] in
          hd ← deref headHeader;
          if decide (maxReorg c <= i + 1) then mret (ReorgTrim missingEntries)
          else reorganize c (i + 1) rest' (uint64 (headHeight - 1)) (header_parent hd) missingEntries
      end
  end.

Definition fill_fuel (c : Chain) : nat := S (Z.to_nat (minValidChain c)).
Definition refs_len (l : list blockRef) : Z := Z.of_nat (length l).

Definition updateChainState (c : Chain) (ht : Z) (h parentHash : Hash) : outcome (Z * Chain) :=
  match chainState c with
  | [] => mret (1, with_state c [mkblockRef ht h])
  | chainHead :: _ =>
      (* a canonical block is put in front, and the function goes on *)
      let c := if decide (uint64 (height chainHead + 1) = ht /\ hash chainHead = parentHash)
               then with_state c (mkblockRef ht h :: chainState c) else c in
      if decide (ht <= height chainHead) then mret (0, c) else
      _ ← make_cap (uint64 (ht - height chainHead)) 40;
      filled ← fill_missing (fill_fuel c) c (height chainHead) ht h [];
      match filled with
      | FillMissing => mret (0, c)
      | FillTrim missingEntries => mret (refs_len missingEntries, with_state c missingEntries)
      | FillDone missingEntries headHeight headHash =>
          if decide (headHeight = height chainHead /\ headHash = hash chainHead) then
            mret (refs_len missingEntries, with_state c (missingEntries ++ chainState c))
          else
            reorg ← reorganize c 0 (chainState c) headHeight headHash missingEntries;
            match reorg with
            | ReorgMissing => mret (0, c)
            | ReorgTrim missingEntries => mret (refs_len missingEntries, with_state c missingEntries)
            | ReorgJoin missingEntries rest =>
                mret (refs_len missingEntries, with_state c (missingEntries ++ rest))
            end
      end
  end.

Definition AddBlock (c : Chain) (b : BlockInfo) (source : BlockSource) : outcome (Z * Chain) :=
  let ht := block_number (bi_Block b) in
  let h := block_hash (bi_Block b) in
  let parentHash := block_parent (bi_Block b) in
  let c := if HasBlock c h
           then storeBlockMetadata c h ht (bool_decide (source = BSBlockchain)) false
           else storeBlock c (bi_Block b) (TotalDifficulty b) source in
  if decide (source = BSBDN) then mret (0, c)
  else updateChainState c ht h parentHash.

Definition ConfirmBlock (c : Chain) (h : Hash) : outcome (Z * Chain) :=
  match getBlockMetadata c h with
  | None => mret (0, c)
  | Some bm =>
      let c := with_metadata c (cm_set (blockHashToMetadata c) (hash_string h)
                 (mkblockMetadata (bm_height bm) (sentToBDN bm) true (confirmedMsgSent bm))) in
      match getBlockHeader c (bm_height bm) h with
      | None => mret (0, c)
      | Some header => hd ← deref header; updateChainState c (bm_height bm) h (header_parent hd)
      end
  end.

(** *** Queries *)
Fixpoint new_heads (c : Chain) (count : Z) (refs : list blockRef)
    : outcome (list BlockInfo * option go_error) :=
  if decide (count <= 0) then mret ([], None) else
  match refs with
  | [] => mret ([], Some (Errorf "chain state insufficient length"))
  | head :: refs =>
      match getBlockMetadata c (hash head) with
      | None => mret ([], Some (Errorf "inconsistent chainstate: no metadata"))
      | Some bm =>
          if sentToBDN bm then mret ([], None) else
          match getBlockHeader c (height head) (hash head) with
          | None => mret ([], Some (Errorf "inconsistent chainstate: no header"))
          | Some header =>
              match getBlockBody c (hash head) with
              | None => mret ([], Some (Errorf "inconsistent chainstate: no body"))
              | Some body =>
                  hd ← deref header;
                  let block := block_with hd (Transactions body) (Uncles body) in
                  let info := NewBlockInfo block (getBlockDifficulty c (hash head)) in
                  '(heads, err) ← new_heads c (count - 1) refs;
                  mret (info :: heads, err)
              end
          end
      end
  end.

Definition GetNewHeadsForBDN (c : Chain) (count : Z) : outcome (list BlockInfo * option go_error) :=
  _ ← make_cap count 8; new_heads c count (chainState c).

Definition ValidateBlock (c : Chain) (h : Hash) (ht : Z) : option go_error :=
  if HasBlock c h && HasSentToBDN c h && HasConfirmedBlock c h then Some ErrAlreadySeen else
  let chainHead := chain_head (chainState c) in
  let maxBlockNumber := uint64 (height chainHead + maxFutureBlockNumber) in
  if decide (height chainHead <> 0 /\ int64 maxBlockNumber < ht)
  then Some (Errorf "too far in future")
  else None.

Definition InitializeDifficulty (c : Chain) (h : Hash) (td : option Z) : Chain :=
  let c := storeBlockDifficulty c h td in
  let c := storeEthHeaderAtHeight c 0 (mkethHeader None h) in
  storeBlockMetadata c h 0 true false.

Definition SetTotalDifficulty (c : Chain) (info : BlockInfo) : Chain * BlockInfo * option go_error :=
  match TotalDifficulty info with
  | Some _ => (c, info, None)
  | None =>
      match getBlockDifficulty c (block_parent (bi_Block info)) with
      | Some parentDifficulty =>
          let info := BlockInfo_SetTotalDifficulty info (Some (parentDifficulty + block_difficulty (bi_Block info))) in
          (storeBlockDifficulty c (block_hash (bi_Block info)) (TotalDifficulty info), info, None)
      | None => (c, info, Some (Errorf "could not calculate difficulty"))
      end
  end.

Fixpoint GetBodies (c : Chain) (hashes : list Hash) : result (list Body) :=
  match hashes with
  | [] => Ok []
  | h :: hashes =>
      match getBlockBody c h with
      | None => Fail ErrBodyNotFound
      | Some body => bodies ← GetBodies c hashes; mret (body :: bodies)
      end
  end.

Definition no_header : go_error := Errorf "no header at height".

Definition getHeaderAtHeight (c : Chain) (ht : Z) : result (option Header) :=
  match chainState c with
  | [] => Fail no_header
  | head :: _ =>
      let requestedIndex := int64 (uint64 (height head - ht)) in
      if decide (requestedIndex < 0) then Ok None else
      if decide (refs_len (chainState c) <= requestedIndex) then Fail no_header else
      match chainState c !! Z.to_nat requestedIndex with
      | None => Fail no_header
      | Some ref =>
          match getBlockHeader c ht (hash ref) with
          | None => Fail no_header
          | Some header => Ok header
          end
      end
  end.

(** [eth.HashOrNumber] *)
Record HashOrNumber := mkHashOrNumber { hon_Hash : Hash; hon_Number : Z }.

(** The first entry of the answer, and the height it was found at. *)
Definition origin_headers (c : Chain) (start : HashOrNumber) : result (Z * list (option Header)) :=
  if decide (0 < hon_Number start) then
    let originHeight := hon_Number start in
    if decide (height (chain_head (chainState c)) < originHeight) then Fail ErrFutureHeaders else
    if match chain_tail (chainState c) with
       | Some tail => bool_decide (originHeight < height tail)
       | None => false
       end
    then Fail ErrAncientHeaders else
    originHeader ← getHeaderAtHeight c originHeight;
    mret (originHeight, match originHeader with Some _ => [originHeader] | None => [] end)
  else if decide (hon_Hash start <> zero_Hash) then
    match getBlockMetadata c (hon_Hash start) with
    | None => Fail (Errorf "could not retrieve a corresponding height for block")
    | Some bm =>
        match getBlockHeader c (bm_height bm) (hon_Hash start) with
        | None => Fail (Errorf "no header was with height and hash")
        | Some originHeader => mret (bm_height bm, [originHeader])
        end
    end
  else Fail ErrInvalidRequest.

(** The loop over the further headers; [None] stands for exhausted fuel. *)
Fixpoint more_headers (fuel : nat) (c : Chain) (ht increment count : Z) (requested : list (option Header))
    : option (result (list (option Header))) :=
  if decide (count <= Z.of_nat (length requested)) then Some (Ok requested) else
  match fuel with
  | O => None
  | S fuel =>
      match getHeaderAtHeight c (uint64 ht) with
      | Fail err => Some (Fail err)
      | Ok None => Some (Ok requested)
      | Ok (Some header) => more_headers fuel c (int64 (ht + increment)) increment count (requested ++ [Some header])
      end
  end.

Definition GetHeaders (c : Chain) (start : HashOrNumber) (count skip : Z) (reverse : bool)
    : outcome (result (list (option Header))) :=
  _ ← make_cap count 8;
  match origin_headers c start with
  | Fail err => mret (Fail err)
  | Ok (originHeight, requestedHeaders) =>
      if decide (count = 1) then mret (Ok requestedHeaders) else
      let directionalMultiplier := if reverse then -1 else 1 in
      let increment := int64 (int64 (skip + 1) * directionalMultiplier) in
      let nextHeight := int64 (int64 originHeight + increment) in
      match more_headers (Z.to_nat count) c nextHeight increment count requestedHeaders with
      | Some r => mret r
      | None => Blocks
      end
  end.

Definition BlockAtDepth (c : Chain) (chainDepth : Z) : outcome (result Block) :=
  if decide (refs_len (chainState c) <= chainDepth)
  then mret (Fail (Errorf "not enough block in the chain state for depth lookup")) else
  if decide (chainDepth < 0) then Panics IndexOutOfRange else
  match chainState c !! Z.to_nat chainDepth with
  | None => Panics IndexOutOfRange
  | Some ref =>
      match getHeaderAtHeight c (height ref) with
      | Fail err => mret (Fail err)
      | Ok header =>
          match getBlockBody c (hash ref) with
          | None => mret (Fail (Errorf "cannot get block body"))
          | Some body => hd ← deref header; mret (Ok (block_with hd (Transactions body) (Uncles body)))
          end
      end
  end.

(** *** Cleaning *)
(** Pruning the headers of one cleaned height: the chain, the lowest and highest height cleaned and
    the number of headers. *)
Definition clean_headers (ht : Z) (headers : list ethHeader) (st : Chain * Z * Z * Z) : Chain * Z * Z * Z :=
  foldl (fun '(c, lowest, highest, num) header =>
           (pruneHash c (eh_hash header),
            if decide (ht < lowest) then ht else lowest,
            if decide (highest < ht) then ht else highest, num + 1)) st headers.

Definition clean_height (minHeight : Z) (st : Chain * Z * Z * Z) (item : string * list ethHeader)
    : Chain * Z * Z * Z :=
  match atoi item.1 with
  | None => st
  | Some ht =>
      if decide (ht < minHeight) then
        let '(c, lowest, highest, num) := st in
        clean_headers ht item.2
          (with_headers c (cm_remove (heightToBlockHeaders c) item.1), lowest, highest, num)
      else st
  end.

Definition Chain_clean (c : Chain) (maxSize : Z) : outcome (Chain * Z * Z * Z) :=
  match chainState c with
  | [] => mret (c, 0, 0, 0)
  | head :: _ =>
      let lowestCleaned := int64 (height head) in
      let minHeight := int64 (lowestCleaned - maxSize + 1) in
      if decide (maxSize <= cm_count (heightToBlockHeaders c)) then
        let '(c, lowest, highest, num) :=
          foldl (clean_height minHeight) (c, lowestCleaned, 0, 0) (cm_iter (heightToBlockHeaders c)) in
        if decide (maxSize < refs_len (chainState c)) then
          if decide (maxSize < 0) then Panics SliceOutOfRange
          else mret (with_state c (take (Z.to_nat maxSize) (chainState c)), lowest, highest, num)
        else mret (c, lowest, highest, num)
      else mret (c, lowestCleaned, 0, 0)
  end.
End Chain.
Arguments Chain {_} M.
Arguments blockRef {_}.
Arguments BlockInfo {_}.
Arguments ethHeader {_}.
