(* ===== verification/ChainFacts.v ===== *)
(** The storage of the chain: what each operation does to the finite maps behind it, and the
    invariant that ties headers, metadata, bodies and chain state together. *)
From S2P Require Import Prelude CMap EthTypes Chain.
From Stdlib Require Import Sorting.Sorted.

Section Facts.
Context `{EthLaws} {M : Type -> Type} `{ConcurrentMapLaws M}.
Implicit Types c : Chain M.

Definition hdrs c : gmap string (list ethHeader) := cm_view (heightToBlockHeaders c).
Definition metas c : gmap string blockMetadata := cm_view (blockHashToMetadata c).
Definition bodies c : gmap string Body := cm_view (blockHashToBody c).
Definition tds c : gmap string Z := cm_view (blockHashToDifficulty c).

Lemma hash_string_eq h h' : hash_string h = hash_string h' <-> h = h'.
Proof. split; [apply (inj hash_string)|by intros ->]. Qed.

Lemma height_key_inj x y : 0 <= x -> 0 <= y -> height_key x = height_key y -> x = y.
Proof. apply format_uint_inj. Qed.

(** *** Views of the operations *)
Lemma storeEthHeader_hdrs c ht eh :
  hdrs (storeEthHeaderAtHeight c ht eh)
  = <[height_key ht := default [] (hdrs c !! height_key ht) ++ [eh]]> (hdrs c).
Proof.
  unfold storeEthHeaderAtHeight, hdrs.
  destruct (cm_set_if_absent (heightToBlockHeaders c) (height_key ht) [eh]) as [ok m] eqn:Hs.
  pose proof (cm_set_if_absent_fst (heightToBlockHeaders c) (height_key ht) [eh]) as Hf.
  pose proof (cm_view_set_if_absent (heightToBlockHeaders c) (height_key ht) [eh]) as Hv.
  rewrite Hs in Hf, Hv. simpl in Hf, Hv. subst ok.
  destruct (cm_view (heightToBlockHeaders c) !! height_key ht) as [l|] eqn:Hl; simpl; [|done].
  rewrite cm_view_set, cm_get_spec, Hv, Hl. done.
Qed.

Lemma storeEthHeader_rest c ht eh :
  metas (storeEthHeaderAtHeight c ht eh) = metas c /\ bodies (storeEthHeaderAtHeight c ht eh) = bodies c /\
  tds (storeEthHeaderAtHeight c ht eh) = tds c /\
  chainState (storeEthHeaderAtHeight c ht eh) = chainState c /\
  maxReorg (storeEthHeaderAtHeight c ht eh) = maxReorg c /\
  minValidChain (storeEthHeaderAtHeight c ht eh) = minValidChain c.
Proof. unfold storeEthHeaderAtHeight. destruct (cm_set_if_absent _ _ _) as [[] ?]; done. Qed.

(** The metadata a store request leaves for a hash. *)
Definition merged_metadata (old : option blockMetadata) (ht : Z) (conf msgSent : bool) : blockMetadata :=
  match old with
  | None => mkblockMetadata ht false conf msgSent
  | Some bm => mkblockMetadata (bm_height bm) (sentToBDN bm) (confirmed bm || conf) (confirmedMsgSent bm || msgSent)
  end.

Lemma storeMetadata_metas c h ht cf ms :
  metas (storeBlockMetadata c h ht cf ms)
  = <[hash_string h := merged_metadata (metas c !! hash_string h) ht cf ms]> (metas c).
Proof.
  unfold storeBlockMetadata, metas.
  destruct (cm_set_if_absent (blockHashToMetadata c) (hash_string h) (mkblockMetadata ht false cf ms)) as [ok m] eqn:Hs.
  pose proof (cm_set_if_absent_fst (blockHashToMetadata c) (hash_string h) (mkblockMetadata ht false cf ms)) as Hf.
  pose proof (cm_view_set_if_absent (blockHashToMetadata c) (hash_string h) (mkblockMetadata ht false cf ms)) as Hv.
  rewrite Hs in Hf, Hv. simpl in Hf, Hv. subst ok.
  destruct (cm_view (blockHashToMetadata c) !! hash_string h) as [bm|] eqn:Hl; simpl; [|done].
  unfold getBlockMetadata. simpl. rewrite cm_view_set, cm_get_spec, Hv, Hl. done.
Qed.

Lemma storeMetadata_rest c h ht cf ms :
  hdrs (storeBlockMetadata c h ht cf ms) = hdrs c /\ bodies (storeBlockMetadata c h ht cf ms) = bodies c /\
  tds (storeBlockMetadata c h ht cf ms) = tds c /\
  chainState (storeBlockMetadata c h ht cf ms) = chainState c /\
  maxReorg (storeBlockMetadata c h ht cf ms) = maxReorg c /\
  minValidChain (storeBlockMetadata c h ht cf ms) = minValidChain c.
Proof. unfold storeBlockMetadata. destruct (cm_set_if_absent _ _ _) as [[] ?]; done. Qed.

Lemma storeDifficulty_rest c h d :
  hdrs (storeBlockDifficulty c h d) = hdrs c /\ metas (storeBlockDifficulty c h d) = metas c /\
  bodies (storeBlockDifficulty c h d) = bodies c /\
  tds (storeBlockDifficulty c h d) = match d with Some d => <[hash_string h := d]> (tds c) | None => tds c end /\
  chainState (storeBlockDifficulty c h d) = chainState c /\
  maxReorg (storeBlockDifficulty c h d) = maxReorg c /\
  minValidChain (storeBlockDifficulty c h d) = minValidChain c.
Proof. destruct d; repeat split. unfold tds. simpl. apply cm_view_set. Qed.

(** What [storeBlock] does. *)
Lemma storeBlock_spec c b d s :
  let hd := block_header b in
  let c' := storeBlock c b d s in
  hdrs c' = <[height_key (header_number hd) :=
    default [] (hdrs c !! height_key (header_number hd)) ++ [mkethHeader (Some hd) (header_hash hd)]]> (hdrs c) /\
  metas c' = <[hash_string (header_hash hd) :=
    merged_metadata (metas c !! hash_string (header_hash hd)) (header_number hd) (bool_decide (s = BSBlockchain)) false]> (metas c) /\
  bodies c' = <[hash_string (header_hash hd) := block_body b]> (bodies c) /\
  tds c' = match d with Some d => <[hash_string (header_hash hd) := d]> (tds c) | None => tds c end /\
  chainState c' = chainState c /\ maxReorg c' = maxReorg c /\ minValidChain c' = minValidChain c.
Proof.
  cbn zeta. unfold storeBlock. rewrite block_hash_header.
  set (hd := block_header b).
  set (c1 := storeEthHeaderAtHeight c (header_number hd) (mkethHeader (Some hd) (header_hash hd))).
  set (c2 := storeBlockMetadata c1 (header_hash hd) (header_number hd) (bool_decide (s = BSBlockchain)) false).
  change (storeBlockHeader c hd s) with c2.
  destruct (storeDifficulty_rest (storeBlockBody c2 (header_hash hd) (block_body b)) (header_hash hd) d)
    as (-> & -> & -> & -> & -> & -> & ->).
  destruct (storeMetadata_rest c1 (header_hash hd) (header_number hd) (bool_decide (s = BSBlockchain)) false)
    as (Hh & Hb & Ht & Hs & Hr & Hv).
  destruct (storeEthHeader_rest c (header_number hd) (mkethHeader (Some hd) (header_hash hd)))
    as (Hm' & Hb' & Ht' & Hs' & Hr' & Hv').
  fold c1 in Hm', Hb', Ht', Hs', Hr', Hv'. fold c2 in Hh, Hb, Ht, Hs, Hr, Hv.
  split_and!.
  - change (hdrs c2 = <[height_key (header_number hd) :=
      default [] (hdrs c !! height_key (header_number hd)) ++ [mkethHeader (Some hd) (header_hash hd)]]> (hdrs c)).
    rewrite Hh. apply storeEthHeader_hdrs.
  - change (metas c2 = <[hash_string (header_hash hd) := merged_metadata (metas c !! hash_string (header_hash hd))
      (header_number hd) (bool_decide (s = BSBlockchain)) false]> (metas c)).
    unfold c2. by rewrite storeMetadata_metas, Hm'.
  - unfold bodies at 1. simpl. rewrite cm_view_set. change (cm_view (blockHashToBody c2)) with (bodies c2). congruence.
  - change (tds (storeBlockBody c2 (header_hash hd) (block_body b))) with (tds c2). destruct d; congruence.
  - simpl. congruence.
  - simpl. congruence.
  - simpl. congruence.
Qed.

(** *** Looking up headers *)
Lemma find_header_Some l h x :
  find_header l h = Some x <-> exists l1 l2, l = l1 ++ x :: l2 /\ header_ptr_hash x = h /\
    Forall (fun y => header_ptr_hash y <> h) l1.
Proof.
  induction l as [|y l IH]; simpl.
  { split; [done|]. by intros ([|? l1] & l2 & ? & _). }
  case_decide as Hy.
  - split.
    + intros [= <-]. exists [], l. auto.
    + intros ([|z l1] & l2 & Heq & Hx & Hf); simplify_eq/=; [done|]. by apply Forall_cons in Hf as [? _].
  - rewrite IH. split.
    + intros (l1 & l2 & -> & Hx & Hf). exists (y :: l1), l2. auto.
    + intros ([|z l1] & l2 & Heq & Hx & Hf); simplify_eq/=. apply Forall_cons in Hf as [_ Hf]. eauto.
Qed.

Lemma find_header_is_Some l h :
  is_Some (find_header l h) <-> exists x, x ∈ l /\ header_ptr_hash x = h.
Proof.
  induction l as [|y l IH]; simpl.
  { split; [by intros [? ?]|]. by intros (x & ?%not_elem_of_nil & _). }
  case_decide as Hy.
  - split; [|by eexists]. intros _. exists y. split; [by left|done].
  - rewrite IH. setoid_rewrite elem_of_cons. naive_solver.
Qed.

Lemma getBlockHeader_spec c ht h :
  getBlockHeader c ht h
  = match hdrs c !! height_key ht with Some l => find_header (eh_Header <$> l) h | None => None end.
Proof. unfold getBlockHeader, getHeadersAtHeight. rewrite cm_get_spec. unfold hdrs. by case_match. Qed.

Lemma getBlockHeader_elem c ht h x :
  getBlockHeader c ht h = Some x ->
  exists l eh, hdrs c !! height_key ht = Some l /\ eh ∈ l /\ eh_Header eh = x /\ header_ptr_hash x = h.
Proof.
  rewrite getBlockHeader_spec. destruct (hdrs c !! height_key ht) as [l|]; [|done].
  intros (l1 & l2 & Hl & Hx & _)%find_header_Some.
  assert (x ∈ eh_Header <$> l) as Hin by (rewrite Hl; set_solver).
  apply list_elem_of_fmap in Hin as (eh & -> & Hin). eauto 10.
Qed.

Lemma getBlockMetadata_spec c h : getBlockMetadata c h = metas c !! hash_string h.
Proof. apply cm_get_spec. Qed.
Lemma getBlockBody_spec c h : getBlockBody c h = bodies c !! hash_string h.
Proof. apply cm_get_spec. Qed.
Lemma getBlockDifficulty_spec c h : getBlockDifficulty c h = tds c !! hash_string h.
Proof. apply cm_get_spec. Qed.
Lemma HasBlock_spec c h :
  HasBlock c h = true <-> is_Some (metas c !! hash_string h) /\ is_Some (bodies c !! hash_string h).
Proof.
  unfold HasBlock, hasHeader, hasBody. rewrite !cm_has_spec, andb_true_iff, !bool_decide_eq_true. done.
Qed.
End Facts.

(** ** The invariant

    [valid] is the set of headers the network produces; it is a parameter, and the only thing known
    about it is that no header hashes to, or has as parent, the hash of the nil header. *)
Section Invariant.
Context `{EthLaws} {M : Type -> Type} `{ConcurrentMapLaws M}.
Variable valid : Header -> Prop.
Hypothesis valid_not_nil : forall hd, valid hd -> header_hash hd <> nil_header_hash /\ header_parent hd <> nil_header_hash.
Implicit Types c : Chain M.

(** Some header with hash [h] is filed at height [ht]. *)
Definition filed (m : gmap string (list ethHeader)) (ht : Z) (h : Hash) : Prop :=
  exists l eh, m !! height_key ht = Some l /\ eh ∈ l /\ eh_hash eh = h.

Lemma filed_insert m k eh ht h : filed m ht h -> filed (<[k := default [] (m !! k) ++ [eh]]> m) ht h.
Proof.
  intros (l & eh' & Hl & Hin & Heh). unfold filed. rewrite lookup_insert. case_decide as Hk; [|by eauto].
  subst k. rewrite Hl. eexists _, eh'. split; [done|]. split; [simpl; set_solver|done].
Qed.

Lemma filed_new m ht eh h : eh_hash eh = h -> filed (<[height_key ht := default [] (m !! height_key ht) ++ [eh]]> m) ht h.
Proof.
  intros Heh. unfold filed. rewrite lookup_insert_eq. eexists _, eh.
  split; [done|]. split; [apply elem_of_app; right; by left|done].
Qed.

(** A header is filed under its own number with its own hash, a nil header (of an announced
    block) under height 0; metadata point to a height at which the hash is filed; a body comes
    with metadata. *)
Record storage_ok c : Prop := {
  so_hdr k l eh : hdrs c !! k = Some l -> eh ∈ l ->
    match eh_Header eh with
    | Some hd => valid hd /\ eh_hash eh = header_hash hd /\ k = height_key (header_number hd)
    | None => k = height_key 0
    end;
  so_meta h bm : metas c !! hash_string h = Some bm -> 0 <= bm_height bm /\ filed (hdrs c) (bm_height bm) h;
  so_body h : is_Some (bodies c !! hash_string h) -> is_Some (metas c !! hash_string h)
}.

(** A reference describes a header of the network. *)
Definition header_at (r : blockRef) (hd : Header) : Prop :=
  valid hd /\ header_hash hd = hash r /\ header_number hd = height r.
Definition ref_ok (r : blockRef) : Prop := exists hd, header_at r hd.

(** A reference is followed by its parent, or by itself: the chain state holds a block twice
    when it was appended to the head. *)
Definition link (a b : blockRef) : Prop :=
  a = b \/ exists hd, header_at a hd /\ header_parent hd = hash b.

Record chain_ok c : Prop := {
  ok_storage : storage_ok c;
  ok_refs : Forall ref_ok (chainState c);
  ok_linked : Sorted link (chainState c)
}.

Lemma getBlockHeader_ok c ht h hd :
  storage_ok c -> 0 <= ht -> getBlockHeader c ht h = Some (Some hd) -> header_at (mkblockRef ht h) hd.
Proof.
  intros Hs Hht (l & eh & Hl & Hin & Heh & Hh)%getBlockHeader_elem. simpl in Hh.
  pose proof (so_hdr c Hs _ _ _ Hl Hin) as Hok. rewrite Heh in Hok. destruct Hok as (Hv & _ & Hk).
  repeat split; simpl; [done|done|].
  apply height_key_inj in Hk; [done|done|]. apply header_number_range.
Qed.

Lemma getBlockHeader_nil c ht h :
  storage_ok c -> 0 <= ht -> getBlockHeader c ht h = Some None -> ht = 0 /\ h = nil_header_hash.
Proof.
  intros Hs Hht (l & eh & Hl & Hin & Heh & Hh)%getBlockHeader_elem. simpl in Hh.
  pose proof (so_hdr c Hs _ _ _ Hl Hin) as Hok. rewrite Heh in Hok.
  split; [|done]. apply height_key_inj in Hok; lia.
Qed.

(** *** The storage invariant under the operations *)
Lemma storage_ok_views c c' :
  hdrs c' = hdrs c -> metas c' = metas c -> bodies c' = bodies c -> storage_ok c -> storage_ok c'.
Proof. intros Hh Hm Hb [A B C]. split; rewrite ?Hh, ?Hm, ?Hb; done. Qed.

Lemma storage_ok_meta_update c c' h bm bm' :
  hdrs c' = hdrs c -> bodies c' = bodies c -> metas c' = <[hash_string h := bm']> (metas c) ->
  metas c !! hash_string h = Some bm -> bm_height bm' = bm_height bm ->
  storage_ok c -> storage_ok c'.
Proof.
  intros Hh Hb Hm Hold Hht [A B C]. split; rewrite ?Hh, ?Hb, ?Hm.
  - done.
  - intros h' bm'' [[Heq <-]|[Hne Hbm]]%lookup_insert_Some; [|by apply B].
    apply hash_string_eq in Heq as <-. rewrite Hht. by apply B.
  - intros h' Hb'. rewrite lookup_insert. case_decide; [done|by apply C].
Qed.

Lemma storage_ok_storeBlock c b d s : valid (block_header b) -> storage_ok c -> storage_ok (storeBlock c b d s).
Proof.
  intros Hv [A B C]. destruct (storeBlock_spec c b d s) as (Hh & Hm & Hb & _). cbn zeta in *.
  set (hd := block_header b) in *. set (k := height_key (header_number hd)) in *.
  split; rewrite ?Hh, ?Hm, ?Hb.
  - intros k' l eh [[<- <-]|[Hne Hl]]%lookup_insert_Some Hin; [|by eapply A].
    apply elem_of_app in Hin as [Hin| ->%list_elem_of_singleton]; [|done].
    destruct (hdrs c !! k) as [l0|] eqn:Hl0; [by eapply A|by apply not_elem_of_nil in Hin].
  - intros h bm [[Heq <-]|[Hne Hbm]]%lookup_insert_Some.
    + apply hash_string_eq in Heq as <-.
      destruct (metas c !! hash_string (header_hash hd)) as [bm|] eqn:Hold'; simpl.
      * destruct (B _ _ Hold') as [? ?]. auto using filed_insert.
      * split; [apply header_number_range|]. by apply filed_new.
    + destruct (B _ _ Hbm) as [? ?]. auto using filed_insert.
  - intros h. destruct (decide (hash_string (header_hash hd) = hash_string h)) as [<-|Hne]; [by rewrite !lookup_insert_eq|].
    rewrite !lookup_insert_ne by done. apply C.
Qed.

Lemma storage_ok_Init c h td : storage_ok c -> storage_ok (InitializeDifficulty c h td).
Proof.
  intros [A B C]. unfold InitializeDifficulty.
  set (c1 := storeBlockDifficulty c h td).
  set (c2 := storeEthHeaderAtHeight c1 0 (mkethHeader None h)).
  destruct (storeDifficulty_rest c h td) as (Hh1 & Hm1 & Hb1 & _). fold c1 in Hh1, Hm1, Hb1.
  destruct (storeEthHeader_rest c1 0 (mkethHeader None h)) as (Hm2 & Hb2 & _). fold c2 in Hm2, Hb2.
  pose proof (storeEthHeader_hdrs c1 0 (mkethHeader None h)) as Hh2. fold c2 in Hh2.
  destruct (storeMetadata_rest c2 h 0 true false) as (Hh3 & Hb3 & _).
  pose proof (storeMetadata_metas c2 h 0 true false) as Hm3.
  split; rewrite ?Hh3, ?Hb3, ?Hm3, ?Hh2, ?Hm2, ?Hb2, ?Hh1, ?Hm1, ?Hb1.
  - intros k' l eh [[<- <-]|[Hne Hl]]%lookup_insert_Some Hin; [|by eapply A].
    apply elem_of_app in Hin as [Hin| ->%list_elem_of_singleton]; [|done].
    destruct (hdrs c !! height_key 0) as [l0|] eqn:Hl0; [by eapply A|by apply not_elem_of_nil in Hin].
  - intros h' bm [[Heq <-]|[Hne Hbm]]%lookup_insert_Some.
    + apply hash_string_eq in Heq as <-.
      destruct (metas c !! hash_string h) as [bm|] eqn:Hold'; simpl.
      * destruct (B _ _ Hold') as [? ?]. auto using filed_insert.
      * split; [done|]. by apply filed_new.
    + destruct (B _ _ Hbm) as [? ?]. auto using filed_insert.
  - intros h' Hb. rewrite lookup_insert. case_decide; [by eexists|by apply C].
Qed.

(** *** Walks along parents

    [path c ht h l ht' h']: the references [l] start at height [ht] with hash [h], each has its
    header in storage, and the walk arrives at height [ht'] and hash [h']. *)
Inductive path c : Z -> Hash -> list blockRef -> Z -> Hash -> Prop :=
  | path_nil ht h : path c ht h [] ht h
  | path_cons ht h hd l ht' h' :
      header_at (mkblockRef ht h) hd -> getBlockHeader c ht h = Some (Some hd) ->
      path c (uint64 (ht - 1)) (header_parent hd) l ht' h' ->
      path c ht h (mkblockRef ht h :: l) ht' h'.

Lemma path_snoc c ht h l ht1 h1 hd :
  path c ht h l ht1 h1 -> header_at (mkblockRef ht1 h1) hd -> getBlockHeader c ht1 h1 = Some (Some hd) ->
  path c ht h (l ++ [mkblockRef ht1 h1]) (uint64 (ht1 - 1)) (header_parent hd).
Proof.
  induction 1 as [|ht h hd0 l ht2 h2 Hat Hget Hpath IH]; intros Hat1 Hget1; simpl.
  - eapply path_cons; [done..|constructor].
  - eapply path_cons; eauto.
Qed.

(** A walk with at least one step ends at the parent of a valid header. *)
Lemma path_end_not_nil c ht h l ht' h' : path c ht h l ht' h' -> l <> [] -> h' <> nil_header_hash.
Proof.
  induction 1 as [|ht h hd l ht' h' Hat Hget Hpath IH]; [done|]. intros _.
  destruct l as [|r l]; [|by apply IH]. inversion Hpath; subst. apply valid_not_nil, Hat.
Qed.

Lemma path_head c ht h l ht' h' : path c ht h l ht' h' -> l <> [] -> exists l', l = mkblockRef ht h :: l'.
Proof. destruct 1; naive_solver. Qed.

(** A walk that ends at the first of some linked references extends them. *)
Lemma path_join c ht h l ht' h' rest :
  path c ht h l ht' h' -> Forall ref_ok rest -> Sorted link rest ->
  match rest with [] => True | r :: _ => hash r = h' end ->
  Forall ref_ok (l ++ rest) /\ Sorted link (l ++ rest).
Proof.
  intros Hpath Href Hlink. induction Hpath as [|ht h hd l ht' h' Hat Hget Hpath IH]; intros Hend; [done|].
  destruct (IH Hend) as [IHr IHl]. simpl. split; [constructor; [by exists hd|done]|].
  constructor; [done|]. destruct l as [|r l].
  - inversion Hpath; subst. destruct rest as [|r rest]; [constructor|]. simpl. constructor.
    right. exists hd. split; [done|]. simpl in Hend. congruence.
  - inversion Hpath; subst. simpl. constructor. right. eauto.
Qed.

Lemma path_ext c c' ht h l ht' h' :
  (forall ht h, getBlockHeader c' ht h = getBlockHeader c ht h) -> path c ht h l ht' h' -> path c' ht h l ht' h'.
Proof. intros Hext. induction 1; [constructor|]. econstructor; rewrite ?Hext; eauto. Qed.

(** *** The loops of [updateChainState] *)
Lemma fill_missing_spec fuel c chainHeight ht0 h0 ht h missing :
  storage_ok c -> is_uint64 ht -> 0 <= chainHeight <= ht -> path c ht0 h0 missing ht h ->
  minValidChain c - Z.of_nat (length missing) < Z.of_nat fuel -> (0 < fuel)%nat ->
  exists r, fill_missing fuel c chainHeight ht h missing = Ret r /\
    match r with
    | FillMissing => True
    | FillTrim l => exists ht' h', path c ht0 h0 l ht' h' /\ l <> [] /\
        Z.of_nat (length l) <= Z.max (Z.of_nat (length missing) + 1) (minValidChain c)
    | FillDone l ht' h' => ht' = chainHeight /\ path c ht0 h0 l ht' h' /\
        Z.of_nat (length l) = Z.of_nat (length missing) + (ht - chainHeight)
    end.
Proof.
  intros Hs. revert ht h missing. induction fuel as [|fuel IH]; intros ht h missing Hht Hch Hpath Hfuel Hpos; [lia|].
  cbn [fill_missing]. destruct (decide (chainHeight < ht)) as [Hlt|Hge].
  2:{ assert (ht = chainHeight) as -> by lia. eexists. split; [done|]. simpl. split_and!; [done|done|lia]. }
  destruct (getBlockHeader c ht h) as [[hd|]|] eqn:Hget; [| |by eexists].
  2:{ exfalso. destruct (getBlockHeader_nil c ht h Hs) as [? _]; [lia|done|lia]. }
  go_simpl. pose proof (getBlockHeader_ok c ht h hd Hs ltac:(lia) Hget) as Hat.
  pose proof (path_snoc c ht0 h0 missing ht h hd Hpath Hat Hget) as Hsnoc.
  assert (Z.of_nat (length (missing ++ [mkblockRef ht h])) = Z.of_nat (length missing) + 1) as Hlen
    by (rewrite length_app; simpl; lia).
  rewrite Hlen. case_decide as Hmv.
  - eexists. split; [done|]. simpl. eexists _, _. split; [done|]. split; [by destruct missing|lia].
  - assert (uint64 (ht - 1) = ht - 1) as Hm1 by (apply uint64_small; unfold is_uint64 in *; lia).
    rewrite Hm1 in Hsnoc |- *.
    destruct (IH (ht - 1) (header_parent hd) (missing ++ [mkblockRef ht h])) as (r & Hr & Hspec);
      [unfold is_uint64 in *; lia|lia|done|lia|lia|].
    exists r. split; [done|]. rewrite Hlen in Hspec. destruct r; [done| |].
    + destruct Hspec as (? & ? & ? & ? & ?). eexists _, _. split_and!; [done|done|lia].
    + destruct Hspec as (? & ? & ?). split_and!; [done|done|lia].
Qed.

Lemma reorganize_spec c i rest ht0 h0 ht h missing :
  storage_ok c -> is_uint64 ht -> path c ht0 h0 missing ht h -> missing <> [] ->
  exists r, reorganize c i rest ht h missing = Ret r /\
    match r with
    | ReorgMissing => True
    | ReorgTrim l => exists ht' h', path c ht0 h0 l ht' h' /\ l <> []
    | ReorgJoin l rest' => exists before ht' h', rest = before ++ rest' /\ path c ht0 h0 l ht' h' /\ l <> [] /\
        Z.of_nat (length l) = Z.of_nat (length missing) + Z.of_nat (length before) /\
        match rest' with [] => True | r :: _ => hash r = h' end
    end.
Proof.
  intros Hs. revert i ht h missing. induction rest as [|r rest IH]; intros i ht h missing Hht Hpath Hne; cbn [reorganize].
  { eexists. split; [done|]. exists [], ht, h. split_and!; try done. simpl. lia. }
  case_decide as Hh.
  { eexists. split; [done|]. exists [], ht, h. split_and!; try done. simpl. lia. }
  destruct (getBlockHeader c ht h) as [[hd|]|] eqn:Hget; [| |by eexists].
  2:{ exfalso. destruct (getBlockHeader_nil c ht h Hs) as [_ ?]; [unfold is_uint64 in *; lia|done|].
      by eapply path_end_not_nil. }
  go_simpl. pose proof (getBlockHeader_ok c ht h hd Hs ltac:(unfold is_uint64 in *; lia) Hget) as Hat.
  pose proof (path_snoc c ht0 h0 missing ht h hd Hpath Hat Hget) as Hsnoc.
  case_decide as Hmr.
  - eexists. split; [done|]. simpl. eexists _, _. split; [done|]. by destruct missing.
  - destruct (IH (i + 1) (uint64 (ht - 1)) (header_parent hd) (missing ++ [mkblockRef ht h])) as (q & Hq & Hspec);
      [apply uint64_bounds|done|by destruct missing|].
    exists q. split; [done|]. destruct q; [done|done|].
    destruct Hspec as (before & ht' & h' & -> & Hp & Hl & Hlen & Hend).
    exists (r :: before), ht', h'. split_and!; try done. rewrite length_app in Hlen. simpl in *. lia.
Qed.
End Invariant.
