(* ===== verification/ChainExamples.v ===== *)
(** Small concrete chains, over the toy headers of [EthTypes]. *)
From S2P Require Import Prelude CMap EthTypes Chain ChainFacts.

#[export] Existing Instance toy_EthTypes.
#[export] Existing Instance toy_EthLaws.

Definition toy_ref (ht : Z) (n : N) : blockRef := mkblockRef ht (toy_id n : Hash).

Definition toy_valid (hd : Header) : Prop := header_hash hd <> nil_header_hash /\ header_parent hd <> nil_header_hash.

Lemma toy_valid_not_nil (hd : Header) : toy_valid hd -> header_hash hd <> nil_header_hash /\ header_parent hd <> nil_header_hash.
Proof. done. Qed.

Definition ex_info (b : toy_block) : BlockInfo := NewBlockInfo (b : Block) (Some 5).
Definition ex_add (c : Chain (gmap string)) (source : BlockSource) (b : toy_block) : Chain (gmap string) :=
  match AddBlock c (ex_info b) source with Ret (_, c') => c' | _ => c end.

(** Block 10 from the node, 11 from the BDN, 12 from the node: the gap is filled. *)
Definition ex_chain1 : Chain (gmap string) := ex_add NewChain BSBlockchain (toy 100 99 10).
Definition ex_chain2 : Chain (gmap string) := ex_add ex_chain1 BSBDN (toy 101 100 11).
Definition ex_chain : Chain (gmap string) := ex_add ex_chain2 BSBlockchain (toy 102 101 12).

Example ex_chain_state :
  chainState ex_chain = [toy_ref 12 102; toy_ref 11 101; toy_ref 10 100].
Proof. vm_cast_no_check (@eq_refl (list blockRef) (chainState ex_chain)). Qed.

(** The same blocks, all from the node and in order, and then a fork of one block more: the fork
    is not adopted, because the state holds every block twice. *)
Definition ex_twice : Chain (gmap string) :=
  ex_add (ex_add ex_chain1 BSBlockchain (toy 101 100 11)) BSBlockchain (toy 111 100 11).
Example ex_fork_lost :
  chainState (ex_add ex_twice BSBlockchain (toy 112 111 12))
  = [toy_ref 11 101; toy_ref 11 101; toy_ref 10 100].
Proof. vm_cast_no_check (@eq_refl (list blockRef) (chainState (ex_add ex_twice BSBlockchain (toy 112 111 12)))). Qed.
