(* ===== verification/ChainClean.v ===== *)
(** What [clean] does to the storage of the chain. *)
From S2P Require Import Prelude CMap EthTypes Chain ChainFacts.
From Stdlib Require Import Sorting.Sorted.

Section Clean.
Context `{EthLaws} {M : Type -> Type} `{ConcurrentMapLaws M}.
Implicit Types c : Chain M.

(** Lookups in a map from which the keys [ks] are gone. *)
Definition without {V} (ks : list string) (m : gmap string V) (k : string) : option V :=
  if decide (k ∈ ks) then None else m !! k.

Lemma without_delete {V} ks (m : gmap string V) k k' : without ks (delete k' m) k = without (k' :: ks) m k.
Proof.
  unfold without. destruct (decide (k ∈ ks)) as [Hin|Hni]; [by rewrite decide_True by (by right)|].
  destruct (decide (k' = k)) as [->|Hne]; [rewrite lookup_delete_eq, decide_True; [done|by left]|].
  rewrite lookup_delete_ne, decide_False; [done| |done]. by intros [->|?]%elem_of_cons.
Qed.

Lemma pruneHash_views c h :
  hdrs (pruneHash c h) = hdrs c /\ metas (pruneHash c h) = delete (hash_string h) (metas c) /\
  bodies (pruneHash c h) = delete (hash_string h) (bodies c) /\
  tds (pruneHash c h) = delete (hash_string h) (tds c) /\
  chainState (pruneHash c h) = chainState c.
Proof. repeat split; unfold metas, bodies, tds; simpl; apply cm_view_remove. Qed.

(** The stored heights a clean-up removes: those that parse as an [int] below [minHeight]. *)
Definition cleaned_height (minHeight : Z) (k : string) : bool :=
  match atoi k with Some ht => bool_decide (ht < minHeight) | None => false end.

Definition cleaned_keys minHeight (items : list (string * list ethHeader)) : list string :=
  fst <$> filter (fun item => cleaned_height minHeight item.1 = true) items.

Definition header_keys (l : list ethHeader) : list string := (fun eh => hash_string (eh_hash eh)) <$> l.

(** The hashes removed with them, with repetitions. *)
Definition cleaned_hashes minHeight (items : list (string * list ethHeader)) : list string :=
  concat (header_keys <$> (snd <$> filter (fun item => cleaned_height minHeight item.1 = true) items)).

Definition st_chain (st : Chain M * Z * Z * Z) : Chain M := st.1.1.1.
Definition st_num (st : Chain M * Z * Z * Z) : Z := st.2.

(** [keys] and [hashes] are gone from [c'], the rest is as in [c]. *)
Definition gone (keys hashes : list string) c c' : Prop :=
  (forall k, hdrs c' !! k = without keys (hdrs c) k) /\
  (forall k, metas c' !! k = without hashes (metas c) k) /\
  (forall k, bodies c' !! k = without hashes (bodies c) k) /\
  (forall k, tds c' !! k = without hashes (tds c) k) /\
  chainState c' = chainState c.

Lemma gone_nil c : gone [] [] c c.
Proof. repeat split; intros k; unfold without; rewrite decide_False by apply not_elem_of_nil; done. Qed.

Lemma without_app {V} ks ks' (m m' : gmap string V) k :
  (forall k, m' !! k = without ks m k) -> without ks' m' k = without (ks ++ ks') m k.
Proof.
  intros Hm. unfold without in *. rewrite Hm. destruct (decide (k ∈ ks ++ ks')) as [Hin|Hni].
  - apply elem_of_app in Hin as [?|?]; repeat case_decide; done.
  - rewrite elem_of_app in Hni. repeat case_decide; tauto.
Qed.

Lemma gone_trans k1 k2 h1 h2 c1 c2 c3 :
  gone k1 h1 c1 c2 -> gone k2 h2 c2 c3 -> gone (k1 ++ k2) (h1 ++ h2) c1 c3.
Proof.
  intros (A1 & B1 & C1 & D1 & E1) (A2 & B2 & C2 & D2 & E2). repeat split.
  - intros k. rewrite A2. by apply without_app.
  - intros k. rewrite B2. by apply without_app.
  - intros k. rewrite C2. by apply without_app.
  - intros k. rewrite D2. by apply without_app.
  - congruence.
Qed.

Lemma without_one {V} (m : gmap string V) k k' : delete k' m !! k = without [k'] m k.
Proof.
  rewrite <- without_delete. unfold without. rewrite decide_False; [done|apply not_elem_of_nil].
Qed.

Lemma clean_headers_gone ht l st :
  gone [] (header_keys l) (st_chain st) (st_chain (clean_headers ht l st)) /\
  st_num (clean_headers ht l st) = st_num st + Z.of_nat (length l).
Proof.
  revert st. induction l as [|eh l IH]; intros [[[c lo] hi] num].
  { split; [apply gone_nil|]. simpl. lia. }
  unfold clean_headers. cbn [foldl].
  match goal with |- context [foldl ?f ?st l] => destruct (IH st) as [IHg IHn] end.
  unfold clean_headers in IHg, IHn. split.
  - change (header_keys (eh :: l)) with ([hash_string (eh_hash eh)] ++ header_keys l).
    eapply (gone_trans [] [] [_]); [|exact IHg].
    destruct (pruneHash_views c (eh_hash eh)) as (Hh & Hm & Hb & Ht & Hs).
    unfold st_chain. simpl. split_and!; [intros k; rewrite Hh|intros k; rewrite Hm|intros k; rewrite Hb|intros k; rewrite Ht|done];
      try apply without_one. unfold without. rewrite decide_False by apply not_elem_of_nil. done.
  - rewrite IHn. unfold st_num. simpl. lia.
Qed.

Lemma clean_height_gone mh st item :
  gone (cleaned_keys mh [item]) (cleaned_hashes mh [item]) (st_chain st) (st_chain (clean_height mh st item)) /\
  st_num (clean_height mh st item) = st_num st + Z.of_nat (length (cleaned_hashes mh [item])).
Proof.
  destruct item as [k l]. unfold clean_height, cleaned_keys, cleaned_hashes. rewrite filter_cons, filter_nil.
  unfold cleaned_height. cbn [fst snd].
  destruct (atoi k) as [ht|]; [|split; [apply gone_nil|simpl; lia]].
  destruct (decide (ht < mh)) as [Hlt|Hge].
  2:{ rewrite bool_decide_false by done. split; [apply gone_nil|simpl; lia]. }
  rewrite bool_decide_true by done. destruct st as [[[c lo] hi] num]. cbn [decide decide_rel].
  destruct (clean_headers_gone ht l (with_headers c (cm_remove (heightToBlockHeaders c) k), lo, hi, num)) as [Hg Hn].
  split.
  - simpl. rewrite app_nil_r. eapply (gone_trans [k] [] []); [|exact Hg].
    unfold st_chain. simpl. split_and!; try done;
      try (intros k'; unfold without; rewrite decide_False by apply not_elem_of_nil; done).
    intros k'. unfold hdrs. simpl. rewrite cm_view_remove. apply without_one.
  - rewrite Hn. simpl. unfold header_keys. rewrite app_nil_r, length_fmap. unfold st_num. simpl. lia.
Qed.

Lemma clean_fold_gone mh items st :
  gone (cleaned_keys mh items) (cleaned_hashes mh items) (st_chain st) (st_chain (foldl (clean_height mh) st items)) /\
  st_num (foldl (clean_height mh) st items) = st_num st + Z.of_nat (length (cleaned_hashes mh items)).
Proof.
  revert st. induction items as [|item items IH]; intros st; [split; [apply gone_nil|simpl; lia]|].
  cbn [foldl]. destruct (clean_height_gone mh st item) as [Hg Hn]. destruct (IH (clean_height mh st item)) as [IHg IHn].
  assert (cleaned_keys mh (item :: items) = cleaned_keys mh [item] ++ cleaned_keys mh items) as ->
    by (unfold cleaned_keys; rewrite <- fmap_app, <- filter_app; done).
  assert (cleaned_hashes mh (item :: items) = cleaned_hashes mh [item] ++ cleaned_hashes mh items) as ->
    by (unfold cleaned_hashes; rewrite <- concat_app, <- !fmap_app, <- filter_app; done).
  split; [by eapply gone_trans|]. rewrite IHn, Hn, length_app. lia.
Qed.
End Clean.
