(* ===== verification/ChainSpec.v ===== *)
(** Correctness of the chain: the update of the chain state, the invariant of all reachable
    chains, queries and cleaning. *)
From S2P Require Import Prelude CMap EthTypes Chain ChainFacts ChainClean.
From Stdlib Require Import Sorting.Sorted.

Section Update.
Context `{EthLaws} {M : Type -> Type} `{ConcurrentMapLaws M}.
Variable valid : Header -> Prop.
Hypothesis valid_not_nil : forall hd, valid hd -> header_hash hd <> nil_header_hash /\ header_parent hd <> nil_header_hash.
Implicit Types c : Chain M.

#[local] Abbreviation header_at := (header_at valid).
#[local] Abbreviation ref_ok := (ref_ok valid).
#[local] Abbreviation link := (link valid).
#[local] Abbreviation path := (path valid).
#[local] Abbreviation storage_ok := (storage_ok valid).
#[local] Abbreviation chain_ok := (chain_ok valid).

(** The chain states an update for a new block may produce. [base_state] is the state after the
    first test of [updateChainState]: the block is in front of it if it extends the head. *)
Definition extends_head c (r : blockRef) (parentHash : Hash) : Prop :=
  chainState c <> [] /\ uint64 (height (chain_head (chainState c)) + 1) = height r /\
  hash (chain_head (chainState c)) = parentHash.
#[local] Instance extends_head_dec c r p : Decision (extends_head c r p).
Proof. unfold extends_head. apply _. Defined.

Definition base_state c (r : blockRef) (parentHash : Hash) : list blockRef :=
  if decide (extends_head c r parentHash) then r :: chainState c else chainState c.

(** Nothing is returned and the state is the base state; or one block extends the head and is
    there twice; or the new state starts with the [n] references returned, which walk from the
    new block along stored parents, and goes on with a part of the base state that starts with
    the parent of the last of them. *)
Definition updated c (r : blockRef) (parentHash : Hash) (n : Z) (s : list blockRef) : Prop :=
  (n = 0 /\ s = base_state c r parentHash) \/
  (n = 1 /\ chainState c = [] /\ s = [r]) \/
  (n = 1 /\ extends_head c r parentHash /\ s = r :: r :: chainState c) \/
  (0 < n /\ exists l rest before ht' h', s = l ++ rest /\ refs_len l = n /\
     base_state c r parentHash = before ++ rest /\ path c (height r) (hash r) l ht' h' /\
     match rest with [] => True | q :: _ => hash q = h' end).

Lemma path_with_state c s ht h l ht' h' : path (with_state c s) ht h l ht' h' <-> path c ht h l ht' h'.
Proof. split; apply path_ext; done. Qed.

Lemma with_state_ok c s : storage_ok c -> storage_ok (with_state c s).
Proof. by apply storage_ok_views. Qed.

Lemma base_ok c r hd :
  chain_ok c -> header_at r hd ->
  Forall ref_ok (base_state c r (header_parent hd)) /\ Sorted link (base_state c r (header_parent hd)).
Proof.
  intros [Hs Hr Hl] Hat. unfold base_state. case_decide as Hd; [|done].
  destruct Hd as (Hne & _ & Hp). split; [constructor; [by exists hd|done]|]. constructor; [done|].
  destruct (chainState c) as [|q s]; [done|]. simpl in Hp. constructor. right. exists hd. auto.
Qed.

Lemma updated_ok c r hd n s :
  chain_ok c -> header_at r hd -> updated c r (header_parent hd) n s -> chain_ok (with_state c s).
Proof.
  intros Hok Hat Hu. destruct (base_ok c r hd Hok Hat) as [Hbr Hbl].
  assert (Forall ref_ok s /\ Sorted link s) as [Hr Hl].
  { destruct Hu as [[_ ->]|[(_ & _ & ->)|[(_ & Hext & ->)|(_ & l & rest & before & ht' & h' & -> & _ & Hbase & Hp & Hend)]]].
    - done.
    - split; [repeat constructor; by exists hd|repeat constructor].
    - unfold base_state in Hbr, Hbl. rewrite decide_True in Hbr, Hbl by done.
      split; [constructor; [by exists hd|done]|]. constructor; [done|]. constructor. by left.
    - rewrite Hbase in Hbr, Hbl. apply Forall_app in Hbr as [_ Hrr].
      eapply (path_join valid); [exact Hp|done| |done].
      clear -Hbl. induction before as [|b before IH]; [done|]. apply Sorted_inv in Hbl as [? _]. auto. }
  split; [apply with_state_ok, Hok|done|done].
Qed.

Lemma take_chain_head (s : list blockRef) r l rest : s = l ++ rest -> l = r :: tail l -> chain_head s = r.
Proof. by intros -> ->. Qed.

(** What [updateChainState] returns. It can only fail on a gap of more than 2^48 bytes of entries. *)
Lemma updateChainState_returns c r hd :
  chain_ok c -> header_at r hd ->
  let gap := uint64 (height r - height (chain_head (chainState c))) in
  (exists n s, updateChainState c (height r) (hash r) (header_parent hd) = Ret (n, with_state c s) /\
     updated c r (header_parent hd) n s) \/
  (max_alloc < gap * 40 /\
   updateChainState c (height r) (hash r) (header_parent hd) = Panics MakeSliceTooLarge).
Proof.
  intros Hok Hat. cbn zeta. destruct r as [ht h]. simpl. pose proof (ok_storage _ c Hok) as Hs.
  assert (is_uint64 ht) as Hht by (destruct Hat as (_ & _ & Hn); simpl in Hn; rewrite <- Hn; apply header_number_range).
  unfold updateChainState. destruct (chainState c) as [|head rest0] eqn:Hstate.
  { left. exists 1, [mkblockRef ht h]. split; [done|]. right. left. done. }
  cbn [chain_head]. set (p := header_parent hd).
  set (c1 := if decide (uint64 (height head + 1) = ht /\ hash head = p)
             then with_state c (mkblockRef ht h :: head :: rest0) else c).
  assert (c1 = with_state c (base_state c (mkblockRef ht h) p)) as Hc1.
  { unfold c1, base_state. destruct (decide (uint64 (height head + 1) = ht /\ hash head = p)) as [He|He].
    - rewrite decide_True; [by rewrite Hstate|]. unfold extends_head. by rewrite Hstate.
    - rewrite decide_False; [by destruct c|]. unfold extends_head. rewrite Hstate. simpl. tauto. }
  assert (storage_ok c1) as Hs1 by (rewrite Hc1; by apply with_state_ok).
  assert (Hhead : is_uint64 (height head)).
  { pose proof (ok_refs _ c Hok) as Hr. rewrite Hstate in Hr. apply Forall_cons in Hr as [(hd' & _ & _ & <-) _].
    apply header_number_range. }
  destruct (decide (ht <= height head)) as [Hle|Hgt].
  { left. eexists 0, _. split; [by rewrite Hc1|]. by left. }
  unfold make_cap. destruct (decide (_ \/ _)) as [Hbig|Hsmall]; go_simpl.
  { right. split; [|done]. pose proof (uint64_bounds (ht - height head)). unfold is_uint64 in *. lia. }
  left. assert (minValidChain c1 = minValidChain c) as Hmv by (by rewrite Hc1).
  destruct (fill_missing_spec valid (fill_fuel c1) c1 (height head) ht h ht h [] Hs1 Hht)
    as (fr & -> & Hfr); [unfold is_uint64 in *; lia|constructor|unfold fill_fuel; simpl; lia|unfold fill_fuel; lia|].
  destruct fr as [|l|l ht' h']; go_simpl.
  { eexists 0, _. split; [by rewrite Hc1|]. by left. }
  { destruct Hfr as (ht' & h' & Hp & Hne & _). exists (refs_len l), l. split; [by rewrite Hc1|]. do 3 right.
    split; [unfold refs_len; destruct l; [done|simpl; lia]|].
    exists l, [], (base_state c (mkblockRef ht h) p), ht', h'. rewrite !app_nil_r. split_and!; try done.
    rewrite Hc1 in Hp. by apply path_with_state in Hp. }
  destruct Hfr as (-> & Hp & Hlen). simpl in Hlen.
  assert (l <> []) as Hne by (destruct l; [simpl in Hlen; lia|done]).
  assert (path c ht h l (height head) h') as Hpc by (rewrite Hc1 in Hp; by apply path_with_state in Hp).
  assert (chainState c1 = base_state c (mkblockRef ht h) p) as Hcs1 by (by rewrite Hc1).
  case_decide as Hjoin.
  { destruct Hjoin as [_ ->]. exists (refs_len l), (l ++ base_state c (mkblockRef ht h) p). rewrite Hcs1.
    split; [by rewrite Hc1|]. do 2 right. unfold base_state. destruct (decide (extends_head c (mkblockRef ht h) p)) as [Hext|Hext].
    - left. pose proof Hext as (_ & Hh & _). rewrite Hstate in Hh. simpl in Hh.
      assert (refs_len l = 1) as Hl1.
      { unfold refs_len. rewrite Hlen. unfold uint64 in Hh. unfold is_uint64 in *.
        destruct (decide (height head + 1 < 2 ^ 64)); [rewrite Z.mod_small in Hh by lia; lia|].
        assert (height head + 1 = 2 ^ 64) as Hw by lia. rewrite Hw, Z_mod_same_full in Hh. lia. }
      split_and!; [done|done|]. destruct l as [|q [|q' l]]; [done| |unfold refs_len in Hl1; simpl in Hl1; lia].
      by inversion Hp; subst.
    - right. split; [unfold refs_len; lia|]. exists l, (chainState c), [], (height head), (hash head).
      split_and!; try done. by rewrite Hstate. }
  destruct (reorganize_spec valid valid_not_nil c1 0 (chainState c1) ht h (height head) h' l Hs1 Hhead Hp Hne)
    as (rr & -> & Hrr). destruct rr as [|l2|l2 rest2]; go_simpl.
  - eexists 0, _. split; [by rewrite Hc1|]. by left.
  - destruct Hrr as (ht2 & h2 & Hp2 & Hne2). exists (refs_len l2), l2. split; [by rewrite Hc1|]. do 3 right.
    split; [unfold refs_len; destruct l2; [done|simpl; lia]|].
    exists l2, [], (base_state c (mkblockRef ht h) p), ht2, h2. rewrite !app_nil_r. split_and!; try done.
    rewrite Hc1 in Hp2. by apply path_with_state in Hp2.
  - destruct Hrr as (before & ht2 & h2 & Hb & Hp2 & Hne2 & _ & Hend).
    exists (refs_len l2), (l2 ++ rest2). split; [by rewrite Hc1|]. do 3 right.
    split; [unfold refs_len; destruct l2; [done|simpl; lia]|].
    exists l2, rest2, before, ht2, h2. split_and!; try done; [by rewrite <- Hcs1|].
    rewrite Hc1 in Hp2. by apply path_with_state in Hp2.
Qed.

(** *** The operations that change the chain *)
Lemma chain_ok_state c c' : storage_ok c' -> chainState c' = chainState c -> chain_ok c -> chain_ok c'.
Proof. intros Hs He [_ Hr Hl]. split; rewrite ?He; done. Qed.

(** The storage part of [AddBlock]. *)
Definition with_block c (b : BlockInfo) (source : BlockSource) : Chain M :=
  let h := block_hash (bi_Block b) in
  if HasBlock c h
  then storeBlockMetadata c h (block_number (bi_Block b)) (bool_decide (source = BSBlockchain)) false
  else storeBlock c (bi_Block b) (TotalDifficulty b) source.

Lemma with_block_ok c b s :
  valid (block_header (bi_Block b)) -> chain_ok c ->
  chain_ok (with_block c b s) /\ chainState (with_block c b s) = chainState c /\
  HasBlock (with_block c b s) (block_hash (bi_Block b)) = true.
Proof.
  intros Hv Hok. unfold with_block. destruct (HasBlock c (block_hash (bi_Block b))) eqn:Hhas.
  - destruct (storeMetadata_rest c (block_hash (bi_Block b)) (block_number (bi_Block b)) (bool_decide (s = BSBlockchain)) false)
      as (Hh & Hb & _ & Hs & _).
    pose proof (storeMetadata_metas c (block_hash (bi_Block b)) (block_number (bi_Block b)) (bool_decide (s = BSBlockchain)) false) as Hm.
    apply HasBlock_spec in Hhas as [[bm Hbm] Hbody].
    split; [|split; [done|]].
    + apply (chain_ok_state c); [|done|done].
      eapply (storage_ok_meta_update valid c _ _ bm _ Hh Hb Hm Hbm); [by rewrite Hbm|apply Hok].
    + apply HasBlock_spec. rewrite Hm, Hb, lookup_insert_eq. split; [by eexists|done].
  - destruct (storeBlock_spec c (bi_Block b) (TotalDifficulty b) s) as (Hh & Hm & Hb & _ & Hs & _). cbn zeta in *.
    split; [|split; [done|]].
    + apply (chain_ok_state c); [|done|done]. apply storage_ok_storeBlock; try done; apply Hok.
    + apply HasBlock_spec. rewrite Hm, Hb, block_hash_header, !lookup_insert_eq. split; by eexists.
Qed.

Definition block_ref (b : BlockInfo) : blockRef :=
  mkblockRef (block_number (bi_Block b)) (block_hash (bi_Block b)).

Lemma block_ref_at b : valid (block_header (bi_Block b)) -> header_at (block_ref b) (block_header (bi_Block b)).
Proof.
  intros Hv. split; [done|]. unfold block_ref. simpl. by rewrite block_hash_header, block_number_header.
Qed.

Lemma AddBlock_returns c b s :
  valid (block_header (bi_Block b)) -> chain_ok c ->
  (exists n st, AddBlock c b s = Ret (n, with_state (with_block c b s) st) /\
     chain_ok (with_state (with_block c b s) st) /\
     (s = BSBDN -> n = 0 /\ st = chainState c) /\
     (s = BSBlockchain -> updated (with_block c b s) (block_ref b) (block_parent (bi_Block b)) n st)) \/
  (max_alloc < uint64 (block_number (bi_Block b) - height (chain_head (chainState c))) * 40 /\
   AddBlock c b s = Panics MakeSliceTooLarge).
Proof.
  intros Hv Hok. destruct (with_block_ok c b s Hv Hok) as (Hok1 & Hst1 & _).
  unfold AddBlock. fold (with_block c b s). destruct s.
  - left. exists 0, (chainState c). rewrite decide_True by done.
    assert (with_state (with_block c b BSBDN) (chainState c) = with_block c b BSBDN) as Heq
      by (rewrite <- Hst1; by destruct (with_block c b BSBDN)).
    rewrite Heq. split_and!; done.
  - rewrite decide_False by done. pose proof (block_ref_at b Hv) as Hat.
    pose proof (updateChainState_returns (with_block c b BSBlockchain) (block_ref b) _ Hok1 Hat) as Hup.
    rewrite <- block_parent_header in Hup. cbn zeta in Hup. rewrite Hst1 in Hup.
    destruct Hup as [(n & st & Heq & Hu)|Hp]; [left|by right].
    exists n, st. split; [done|]. rewrite block_parent_header in Hu |- *.
    split; [by eapply updated_ok|]. split; [done|]. auto.
Qed.

Lemma ConfirmBlock_returns c h n c' :
  chain_ok c -> ConfirmBlock c h = Ret (n, c') -> chain_ok c'.
Proof.
  intros Hok. unfold ConfirmBlock. rewrite getBlockMetadata_spec.
  destruct (metas c !! hash_string h) as [bm|] eqn:Hbm; [|by intros [= <- <-]].
  set (c1 := with_metadata c _).
  assert (chain_ok c1) as Hok1.
  { apply (chain_ok_state c); [|done|done].
    eapply (storage_ok_meta_update valid c c1 h bm); [done|done| |done| |apply Hok]; [apply cm_view_set|done]. }
  destruct (so_meta _ c (ok_storage _ c Hok) _ _ Hbm) as [Hpos _].
  destruct (getBlockHeader c1 (bm_height bm) h) as [[hd|]|] eqn:Hget; [|by go_simpl|by intros [= <- <-]].
  go_simpl. pose proof (getBlockHeader_ok valid c1 _ _ _ (ok_storage _ _ Hok1) Hpos Hget) as Hat.
  destruct (updateChainState_returns c1 (mkblockRef (bm_height bm) h) hd Hok1 Hat) as [(m & st & Heq & Hu)|[_ Heq]];
    simpl in Heq; rewrite Heq; [|done].
  intros [= <- <-]. by eapply updated_ok.
Qed.

Lemma MarkSentToBDN_ok c h : chain_ok c -> chain_ok (MarkSentToBDN c h).
Proof.
  intros Hok. unfold MarkSentToBDN. rewrite getBlockMetadata_spec.
  destruct (metas c !! hash_string h) as [bm|] eqn:Hbm; [|done].
  apply (chain_ok_state c); [|done|done].
  eapply (storage_ok_meta_update valid c _ h bm); [done|done| |done| |apply Hok]; [apply cm_view_set|done].
Qed.

(** Marking a known block in its metadata, as the backend does when it announces a confirmation. *)
Lemma confirm_message_ok c h bm : chain_ok c -> getBlockMetadata c h = Some bm ->
  chain_ok (storeBlockMetadata c h (bm_height bm) (confirmed bm) true).
Proof.
  intros Hok Hbm. rewrite getBlockMetadata_spec in Hbm.
  destruct (storeMetadata_rest c h (bm_height bm) (confirmed bm) true) as (Hh & Hb & _ & Hs & _).
  pose proof (storeMetadata_metas c h (bm_height bm) (confirmed bm) true) as Hm.
  apply (chain_ok_state c); [|done|done].
  eapply (storage_ok_meta_update valid c _ h bm); [done|done|exact Hm|done| |apply Hok]. by rewrite Hbm.
Qed.

Lemma InitializeDifficulty_state c h td : chainState (InitializeDifficulty c h td) = chainState c.
Proof.
  unfold InitializeDifficulty. destruct (storeMetadata_rest
    (storeEthHeaderAtHeight (storeBlockDifficulty c h td) 0 (mkethHeader None h)) h 0 true false) as (_ & _ & _ & -> & _).
  destruct (storeEthHeader_rest (storeBlockDifficulty c h td) 0 (mkethHeader None h)) as (_ & _ & _ & -> & _).
  by destruct (storeDifficulty_rest c h td) as (_ & _ & _ & _ & -> & _).
Qed.

Lemma SetTotalDifficulty_ok c info : chain_ok c -> chain_ok (SetTotalDifficulty c info).1.1.
Proof.
  intros Hok. unfold SetTotalDifficulty. repeat case_match; simpl; try done.
  destruct (storeDifficulty_rest c (block_hash (bi_Block info)) (TotalDifficulty
    (BlockInfo_SetTotalDifficulty info (Some (z + block_difficulty (bi_Block info)))))) as (Hh & Hm & Hb & _ & Hs & _).
  apply (chain_ok_state c); [|done|done]. eapply storage_ok_views; [done..|apply Hok].
Qed.

(** *** Cleaning *)
Lemma gone_storage_ok keys hashes c c' :
  (forall k l eh, k ∈ keys -> hdrs c !! k = Some l -> eh ∈ l -> hash_string (eh_hash eh) ∈ hashes) ->
  gone keys hashes c c' -> storage_ok c -> storage_ok c'.
Proof.
  intros Hk (Gh & Gm & Gb & _) [A B C]. split.
  - intros k l eh. rewrite Gh. unfold without. case_decide; [done|]. apply A.
  - intros h bm. rewrite Gm. unfold without. case_decide as Hh; [done|]. intros Hbm.
    destruct (B h bm Hbm) as [Hpos (l & eh & Hl & Hin & Heh)]. split; [done|].
    exists l, eh. split; [|done]. rewrite Gh. unfold without. rewrite decide_False; [done|].
    intros Hkey. apply Hh. rewrite <- Heh. by eapply Hk.
  - intros h. rewrite Gm, Gb. unfold without. case_decide; [done|apply C].
Qed.

Lemma cleaned_keys_hashes mh c k l eh :
  k ∈ cleaned_keys mh (cm_iter (heightToBlockHeaders c)) -> hdrs c !! k = Some l -> eh ∈ l ->
  hash_string (eh_hash eh) ∈ cleaned_hashes mh (cm_iter (heightToBlockHeaders c)).
Proof.
  unfold cleaned_keys, cleaned_hashes. intros Hk Hl Hin.
  apply list_elem_of_fmap in Hk as ([k' l'] & -> & [Hc Hitem]%list_elem_of_filter). simpl in *.
  apply cm_iter_elem in Hitem as Hl'. assert (l' = l) as -> by (unfold hdrs in Hl; congruence).
  apply list_elem_of_In, in_concat. exists (header_keys l). split; apply list_elem_of_In.
  - rewrite <- list_fmap_compose. apply list_elem_of_fmap. exists (k', l). split; [done|]. by apply list_elem_of_filter.
  - unfold header_keys. apply list_elem_of_fmap. by exists eh.
Qed.

Definition min_height c (maxSize : Z) : Z :=
  int64 (int64 (height (chain_head (chainState c))) - maxSize + 1).

(** The result of a clean-up that runs: the heights below [min_height] are gone with everything
    stored for their headers, and the chain state is cut to [maxSize]. *)
Definition cleaned c (maxSize : Z) c' (num : Z) : Prop :=
  let items := cm_iter (heightToBlockHeaders c) in
  let mh := min_height c maxSize in
  (exists c1, gone (cleaned_keys mh items) (cleaned_hashes mh items) c c1 /\
     c' = with_state c1 (take (Z.to_nat maxSize) (chainState c))) /\
  num = Z.of_nat (length (cleaned_hashes mh items)).

Lemma Chain_clean_returns c maxSize :
  0 <= maxSize ->
  exists c' lo hi num, Chain_clean c maxSize = Ret (c', lo, hi, num) /\
    ((chainState c = [] \/ cm_count (heightToBlockHeaders c) < maxSize) -> c' = c /\ num = 0) /\
    (chainState c <> [] -> maxSize <= cm_count (heightToBlockHeaders c) -> cleaned c maxSize c' num).
Proof.
  intros Hsize. unfold Chain_clean, cleaned, min_height. destruct (chainState c) as [|head s] eqn:Hs.
  { eexists _, _, _, _. split; [done|]. split; [done|]. done. }
  simpl. case_decide as Hcount.
  2:{ eexists _, _, _, _. split; [done|]. split; [done|]. lia. }
  set (mh := int64 (int64 (height head) - maxSize + 1)).
  destruct (clean_fold_gone mh (cm_iter (heightToBlockHeaders c)) (c, int64 (height head), 0, 0)) as [Hg Hn].
  destruct (foldl _ _ _) as [[[c1 lo] hi] num]. unfold st_chain, st_num in Hg, Hn. simpl in Hg, Hn.
  pose proof Hg as (_ & _ & _ & _ & Hst). rewrite Hs in Hst. rewrite Hst.
  case_decide as Hlen.
  - rewrite decide_False by lia. eexists _, _, _, _. split; [done|]. split; [intros [?|?]; [done|lia]|].
    intros _ _. split; [|done]. exists c1. done.
  - eexists c1, _, _, _. split; [done|]. split; [intros [?|?]; [done|lia]|].
    intros _ _. split; [|done]. exists c1. split; [done|].
    rewrite take_ge by (unfold refs_len in Hlen; lia). rewrite <- Hst. by destruct c1.
Qed.

Lemma Sorted_take {A} (R : A -> A -> Prop) n (l : list A) : Sorted R l -> Sorted R (take n l).
Proof.
  revert n. induction l as [|x l IH]; intros [|n] Hs; try constructor; apply Sorted_inv in Hs as [Hl Hhd]; auto.
  destruct l, n; constructor. by apply HdRel_inv in Hhd.
Qed.

Lemma cleaned_ok c maxSize c' num : chain_ok c -> cleaned c maxSize c' num -> chain_ok c'.
Proof.
  intros Hok [(c1 & Hg & ->) _]. split.
  - apply with_state_ok. eapply gone_storage_ok; [|exact Hg|apply Hok]. intros k l eh. apply cleaned_keys_hashes.
  - simpl. apply Forall_take, Hok.
  - simpl. apply Sorted_take, Hok.
Qed.
End Update.
