(* ===== verification/ChainUpdate.v ===== *)
(** What [updateChainState] makes of the chain state, without its loops: in terms of the walk from the
    new block along stored parents, which branch is taken, what it returns and what it leaves. *)
From S2P Require Import Prelude CMap EthTypes Chain ChainFacts ChainSpec.

Section Walk.
Context `{EthTypes} {M : Type -> Type} `{!ConcurrentMap M}.
Implicit Types c : Chain M.

(** [k] steps from the header with hash [h] at height [ht] along stored parents: the references
    passed and where the walk arrives. [None] if one of the [k] headers is not stored. *)
Fixpoint walk c (k : nat) (ht : Z) (h : Hash) : option (list blockRef * Z * Hash) :=
  match k with
  | O => Some ([], ht, h)
  | S k =>
      match getBlockHeader c ht h with
      | Some (Some hd) =>
          match walk c k (uint64 (ht - 1)) (header_parent hd) with
          | Some (l, ht', h') => Some (mkblockRef ht h :: l, ht', h')
          | None => None
          end
      | _ => None
      end
  end.

(** The state after the first test: the block is in front of it if it extends the head. *)
Definition base_of (s : list blockRef) (r : blockRef) (parentHash : Hash) : list blockRef :=
  match s with
  | [] => []
  | head :: _ => if decide (uint64 (height head + 1) = height r /\ hash head = parentHash) then r :: s else s
  end.

(** The walk meets none of the first [k] references of [s]: after [j] steps it is not at the hash of the [j]th. *)
Definition apart c (s : list blockRef) (ht : Z) (h : Hash) (k : nat) : Prop :=
  forall j l ht' h' q, (j < k)%nat -> walk c j ht h = Some (l, ht', h') -> s !! j = Some q -> h' <> hash q.

(** A chain of this length replaces the state, and a reorganisation of this depth: at least one entry. *)
Definition valid_length c : Z := Z.max 1 (minValidChain c).
Definition reorg_depth c : nat := Z.to_nat (Z.max 1 (maxReorg c)).

(** Where the reorganisation of the state [s] ends, for a walk that goes on from [h] at [ht]. *)
Inductive reorganized c (s : list blockRef) (ht : Z) (h : Hash) : option (list blockRef * list blockRef) -> Prop :=
  | reorganized_join k l ht' h' :
      (k < reorg_depth c)%nat -> (k <= length s)%nat -> apart c s ht h k ->
      walk c k ht h = Some (l, ht', h') -> (forall q, s !! k = Some q -> h' = hash q) ->
      reorganized c s ht h (Some (l, drop k s))
  | reorganized_trim l ht' h' :
      (reorg_depth c <= length s)%nat -> apart c s ht h (reorg_depth c) ->
      walk c (reorg_depth c) ht h = Some (l, ht', h') ->
      reorganized c s ht h (Some (l, []))
  | reorganized_missing k :
      (k < reorg_depth c)%nat -> (k < length s)%nat -> apart c s ht h (S k) ->
      walk c (S k) ht h = None ->
      reorganized c s ht h None.

(** What an update of the state [s] for the block [r] returns and leaves, with the headers of [c]. *)
Inductive update_result c (s : list blockRef) (r : blockRef) (parentHash : Hash) : Z -> list blockRef -> Prop :=
  | update_first : s = [] -> update_result c s r parentHash 1 [r]
  | update_past : s <> [] -> height r <= height (chain_head s) ->
      update_result c s r parentHash 0 (base_of s r parentHash)
  | update_missing : s <> [] -> height (chain_head s) < height r ->
      walk c (Z.to_nat (Z.min (height r - height (chain_head s)) (valid_length c))) (height r) (hash r) = None ->
      update_result c s r parentHash 0 (base_of s r parentHash)
  | update_replaced l ht' h' : s <> [] -> valid_length c <= height r - height (chain_head s) ->
      walk c (Z.to_nat (valid_length c)) (height r) (hash r) = Some (l, ht', h') ->
      update_result c s r parentHash (valid_length c) l
  | update_filled l : s <> [] -> 0 < height r - height (chain_head s) < valid_length c ->
      walk c (Z.to_nat (height r - height (chain_head s))) (height r) (hash r)
        = Some (l, height (chain_head s), hash (chain_head s)) ->
      update_result c s r parentHash (height r - height (chain_head s)) (l ++ base_of s r parentHash)
  | update_reorganized l h' l2 rest : s <> [] -> 0 < height r - height (chain_head s) < valid_length c ->
      walk c (Z.to_nat (height r - height (chain_head s))) (height r) (hash r) = Some (l, height (chain_head s), h') ->
      h' <> hash (chain_head s) ->
      reorganized c (base_of s r parentHash) (height (chain_head s)) h' (Some (l2, rest)) ->
      update_result c s r parentHash (refs_len (l ++ l2)) (l ++ l2 ++ rest)
  | update_no_ancestor l h' : s <> [] -> 0 < height r - height (chain_head s) < valid_length c ->
      walk c (Z.to_nat (height r - height (chain_head s))) (height r) (hash r) = Some (l, height (chain_head s), h') ->
      h' <> hash (chain_head s) ->
      reorganized c (base_of s r parentHash) (height (chain_head s)) h' None ->
      update_result c s r parentHash 0 (base_of s r parentHash).

Lemma walk_length c k ht h l ht' h' : walk c k ht h = Some (l, ht', h') -> length l = k.
Proof.
  revert ht h l. induction k as [|k IH]; intros ht h l; cbn [walk]; [by intros [= <- _ _]|].
  destruct (getBlockHeader c ht h) as [[hd|]|]; [|done..].
  destruct (walk c k _ _) as [[[l0 ht0] h0]|] eqn:Hw; [|done]. cbn. intros [= <- -> ->]. cbn. f_equal. by eapply IH.
Qed.

Lemma walk_prefix c j k ht h : (j <= k)%nat -> is_Some (walk c k ht h) -> is_Some (walk c j ht h).
Proof.
  revert k ht h. induction j as [|j IH]; intros k ht h Hle Hs; [by eexists|]. destruct k as [|k]; [lia|]. revert Hs. cbn [walk].
  destruct (getBlockHeader c ht h) as [[hd|]|]; [|by intros [? ?]..].
  intros Hs. destruct (IH k (uint64 (ht - 1)) (header_parent hd)) as [[[l1 ht1] h1] Hw]; [lia| |rewrite Hw; by eexists].
  destruct (walk c k (uint64 (ht - 1)) (header_parent hd)); [by eexists|by destruct Hs].
Qed.

Lemma apart_weaken c s ht h j k : (j <= k)%nat -> apart c s ht h k -> apart c s ht h j.
Proof. intros Hle Ha i l ht' h' q Hi. apply Ha. lia. Qed.

Lemma apart_cons c s r ht h hd k :
  h <> hash r -> getBlockHeader c ht h = Some (Some hd) -> apart c s (uint64 (ht - 1)) (header_parent hd) k ->
  apart c (r :: s) ht h (S k).
Proof.
  intros Hne Hget Ha [|j] l ht' h' q Hj; cbn [walk]; [intros [= _ _ <-] [= <-]; done|]. rewrite Hget.
  destruct (walk c j _ _) as [[[l0 ht0] h0]|] eqn:Hw; [|done]. intros [= _ _ ->] Hq. eapply Ha; [|exact Hw|exact Hq]. lia.
Qed.

Lemma apart_zero c s ht h : apart c s ht h 0.
Proof. intros j l ht' h' q Hj. lia. Qed.

Lemma apart_one c s r ht h : h <> hash r -> apart c (r :: s) ht h 1.
Proof. intros Hne [|j] l ht' h' q Hj; [|lia]. cbn. by intros [= _ _ <-] [= <-]. Qed.

Lemma apart_joined c s ht h k j l ht' h' :
  apart c s ht h k -> (j < length s)%nat -> walk c j ht h = Some (l, ht', h') -> (forall q, s !! j = Some q -> h' = hash q) ->
  (k <= j)%nat.
Proof.
  intros Ha Hj Hw Hq. destruct (decide (k <= j)%nat) as [|Hlt]; [done|]. destruct (lookup_lt_is_Some_2 s j Hj) as [q Hs].
  destruct (Ha j l ht' h' q); [lia|done|done|by apply Hq].
Qed.

(** The branches exclude each other: there is one result. *)
Lemma reorganized_unique c s ht h r1 r2 : reorganized c s ht h r1 -> reorganized c s ht h r2 -> r1 = r2.
Proof.
  intros H1 H2. destruct H1 as [k l ht' h' Hk Hl Ha Hw Hq|l ht' h' Hl Ha Hw|k Hk Hl Ha Hw],
    H2 as [k2 l2 ht2 h2 Hk2 Hl2 Ha2 Hw2 Hq2|l2 ht2 h2 Hl2 Ha2 Hw2|k2 Hk2 Hl2 Ha2 Hw2]; try done; try congruence.
  - assert (k = k2) as <-; [|by simplify_eq].
    destruct (decide (k < length s)%nat), (decide (k2 < length s)%nat); try lia;
      repeat match goal with Hx : apart _ _ _ _ ?a, Hy : walk _ ?b _ _ = Some _ |- _ =>
        assert_fails (constr_eq a b); epose proof (apart_joined _ _ _ _ a b _ _ _ Hx); clear Hx end; naive_solver lia.
  - exfalso. assert (reorg_depth c <= k)%nat by (eapply apart_joined; [exact Ha2|lia|exact Hw|exact Hq]). lia.
  - exfalso. assert (k2 < k)%nat by (destruct (decide (k2 < k)%nat); [done|];
      assert (S k2 <= k)%nat by (eapply apart_joined; [exact Ha2|lia|exact Hw|exact Hq]); lia).
    destruct (walk_prefix c (S k2) k ht h) as [? ?]; [lia|by eexists|congruence].
  - exfalso. assert (reorg_depth c <= k2)%nat by (eapply apart_joined; [exact Ha|lia|exact Hw2|exact Hq2]). lia.
  - exfalso. destruct (walk_prefix c (S k2) (reorg_depth c) ht h) as [? ?]; [lia|by eexists|congruence].
  - exfalso. assert (k < k2)%nat by (destruct (decide (k < k2)%nat); [done|];
      assert (S k <= k2)%nat by (eapply apart_joined; [exact Ha|lia|exact Hw2|exact Hq2]); lia).
    destruct (walk_prefix c (S k) k2 ht h) as [? ?]; [lia|by eexists|congruence].
  - exfalso. destruct (walk_prefix c (S k) (reorg_depth c) ht h) as [? ?]; [lia|by eexists|congruence].
Qed.

Lemma update_result_unique c s r p n1 s1 n2 s2 :
  update_result c s r p n1 s1 -> update_result c s r p n2 s2 -> n1 = n2 /\ s1 = s2.
Proof.
  assert (1 <= valid_length c) as Hvl by (unfold valid_length; lia).
  destruct 1; destruct 1; try done; try congruence; try lia;
    try match goal with Hx : s = [], Hy : s <> [] |- _ => by destruct Hy end.
  all: try (rewrite Z.min_r in * by lia; congruence).
  all: try (rewrite Z.min_l in * by lia; congruence).
  all: try (split; congruence).
  all: repeat match goal with Hx : walk _ _ _ _ = Some _, Hy : walk _ _ _ _ = Some _ |- _ => rewrite Hx in Hy; injection Hy as Hy; subst end.
  all: try match goal with Hx : reorganized _ _ _ _ _, Hy : reorganized _ _ _ _ _ |- _ => pose proof (reorganized_unique _ _ _ _ _ _ Hx Hy) end.
  all: by simplify_eq/=.
Qed.
End Walk.

Section Exact.
Context `{EthLaws} {M : Type -> Type} `{ConcurrentMapLaws M}.
Variable valid : Header -> Prop.
Hypothesis valid_not_nil : forall hd, valid hd -> header_hash hd <> nil_header_hash /\ header_parent hd <> nil_header_hash.
Implicit Types c : Chain M.

(** Headers are all that a walk looks at. *)
Lemma walk_ext c c' k ht h :
  (forall ht h, getBlockHeader c' ht h = getBlockHeader c ht h) -> walk c' k ht h = walk c k ht h.
Proof.
  intros He. revert ht h. induction k as [|k IH]; intros ht h; [done|]. cbn [walk]. rewrite He.
  destruct (getBlockHeader c ht h) as [[hd|]|]; [|done..]. by rewrite IH.
Qed.

Lemma reorganized_ext c c' s ht h res :
  (forall ht h, getBlockHeader c' ht h = getBlockHeader c ht h) -> maxReorg c' = maxReorg c ->
  reorganized c' s ht h res -> reorganized c s ht h res.
Proof.
  intros He Hm. assert (reorg_depth c' = reorg_depth c) as Hd by (unfold reorg_depth; by rewrite Hm).
  assert (forall k, apart c' s ht h k -> apart c s ht h k) as Ha
    by (intros k Ha j l ht' h' q Hj Hw; eapply Ha; [done|]; by rewrite (walk_ext c)).
  destruct 1 as [k l ht' h' Hk Hl Hap Hw Hq|l ht' h' Hl Hap Hw|k Hk Hl Hap Hw]; rewrite ?Hd in *; rewrite (walk_ext c) in Hw by done.
  - eapply reorganized_join; eauto.
  - eapply reorganized_trim; eauto.
  - eapply reorganized_missing; eauto.
Qed.

Lemma update_result_ext c c' s r p n s' :
  (forall ht h, getBlockHeader c' ht h = getBlockHeader c ht h) -> maxReorg c' = maxReorg c ->
  minValidChain c' = minValidChain c -> update_result c' s r p n s' -> update_result c s r p n s'.
Proof.
  intros He Hm Hv. assert (valid_length c' = valid_length c) as Hd by (unfold valid_length; by rewrite Hv).
  destruct 1 as [ | |Hne Hlt Hw|l ht' h' Hne Hlt Hw|l Hne Hlt Hw|l h' l2 rest Hne Hlt Hw Hh Hres|l h' Hne Hlt Hw Hh Hres];
    try apply (reorganized_ext c) in Hres; rewrite ?Hd in *; try rewrite (walk_ext c) in Hw by done; try done.
  - by apply update_first.
  - by apply update_past.
  - by apply update_missing.
  - by eapply update_replaced.
  - by apply update_filled.
  - by eapply update_reorganized.
  - by eapply update_no_ancestor.
Qed.

(** A walk is a path, so its end after at least one step is not the nil header. *)
Lemma walk_path c k ht h l ht' h' :
  storage_ok valid c -> is_uint64 ht -> walk c k ht h = Some (l, ht', h') -> path valid c ht h l ht' h'.
Proof.
  intros Hs. revert ht h l. induction k as [|k IH]; intros ht h l Hht; cbn [walk]; [intros [= <- <- <-]; constructor|].
  destruct (getBlockHeader c ht h) as [[hd|]|] eqn:Hget; [|done..].
  destruct (walk c k _ _) as [[[l0 ht0] h0]|] eqn:Hw; [|done]. cbn. intros [= <- -> ->].
  econstructor; [|exact Hget|by apply IH; [apply uint64_bounds|]].
  apply (getBlockHeader_ok valid c); [done|unfold is_uint64 in Hht; lia|done].
Qed.

(** The first loop. *)
Lemma fill_missing_walk fuel c chainHeight ht h missing :
  storage_ok valid c -> is_uint64 ht -> 0 <= chainHeight <= ht ->
  refs_len missing < valid_length c -> valid_length c - refs_len missing <= Z.of_nat fuel -> (ht = chainHeight -> (0 < fuel)%nat) ->
  let more := valid_length c - refs_len missing in
  fill_missing fuel c chainHeight ht h missing
  = Ret (match walk c (Z.to_nat (Z.min (ht - chainHeight) more)) ht h with
         | None => FillMissing
         | Some (l, ht', h') =>
             if decide (more <= ht - chainHeight) then FillTrim (missing ++ l) else FillDone (missing ++ l) ht' h'
         end).
Proof.
  intros Hs. revert ht h missing. induction fuel as [|fuel IH]; intros ht h missing Hht Hch Hlen Hfuel Hpos; [lia|].
  cbn zeta. cbn [fill_missing]. destruct (decide (chainHeight < ht)) as [Hlt|Hge].
  2:{ replace (Z.min _ _) with 0 by lia. change (Z.to_nat 0) with 0%nat; cbn [walk].
  rewrite decide_False by lia. by rewrite app_nil_r. }
  set (more := valid_length c - refs_len missing) in *.
  replace (Z.to_nat (Z.min (ht - chainHeight) more)) with (S (Z.to_nat (Z.min (ht - 1 - chainHeight) (more - 1)))) by lia.
  cbn [walk]. destruct (getBlockHeader c ht h) as [[hd|]|] eqn:Hget; [| |done].
  2:{ exfalso. destruct (getBlockHeader_nil valid c ht h Hs) as [? _]; [lia|done|lia]. }
  go_simpl. assert (uint64 (ht - 1) = ht - 1) as Hm1 by (apply uint64_small; unfold is_uint64 in *; lia).
  assert (Z.of_nat (length (missing ++ [mkblockRef ht h])) = refs_len missing + 1) as Hsnoc
    by (unfold refs_len; rewrite length_app; simpl; lia).
  assert (0 <= refs_len missing) as Hnn by (unfold refs_len; lia).
  rewrite Hsnoc, Hm1. case_decide as Hmv.
  - assert (more = 1) as Hone by (unfold more, valid_length in *; lia).
    rewrite Hone. replace (Z.min _ (1 - 1)) with 0 by lia. change (Z.to_nat 0) with 0%nat; cbn [walk]. go_simpl.
    rewrite decide_True by lia. done.
  - unfold refs_len in IH. assert (1 < more) by (unfold more, valid_length in *; lia).
    rewrite IH; rewrite ?Hsnoc; [|unfold is_uint64, more in *; lia..].
    replace (valid_length c - (refs_len missing + 1)) with (more - 1) by (unfold more; lia).
    destruct (walk c _ (ht - 1) _) as [[[l ht'] h']|]; [|done]. go_simpl. rewrite <- !app_assoc. cbn [app].
    f_equal. do 2 case_decide; try done; lia.
Qed.

(** The second loop, from index [i] on. *)
Lemma reorganize_walk c i rest ht h missing :
  storage_ok valid c -> is_uint64 ht -> h <> nil_header_hash -> (i < reorg_depth c)%nat ->
  exists res, reorganize c (Z.of_nat i) rest ht h missing = Ret res /\
    match res with
    | ReorgMissing => exists k, (i + k < reorg_depth c)%nat /\ (k < length rest)%nat /\ apart c rest ht h (S k) /\
        walk c (S k) ht h = None
    | ReorgTrim l => exists k l2 ht' h', (i + k = reorg_depth c)%nat /\ (k <= length rest)%nat /\ apart c rest ht h k /\
        walk c k ht h = Some (l2, ht', h') /\ l = missing ++ l2
    | ReorgJoin l rest' => exists k l2 ht' h', (i + k < reorg_depth c)%nat /\ (k <= length rest)%nat /\ apart c rest ht h k /\
        walk c k ht h = Some (l2, ht', h') /\ l = missing ++ l2 /\ rest' = drop k rest /\
        (forall q, rest !! k = Some q -> h' = hash q)
    end.
Proof.
  intros Hs. revert i ht h missing. induction rest as [|r rest IH]; intros i ht h missing Hht Hnil Hi; cbn [reorganize].
  { eexists. split; [done|]. exists 0%nat, [], ht, h. rewrite app_nil_r. split_and!; [lia|simpl; lia|apply apart_zero|done..]. }
  case_decide as Hh.
  { eexists. split; [done|]. exists 0%nat, [], ht, h. rewrite app_nil_r. split_and!; [lia|simpl; lia|apply apart_zero|done|done|done|by intros ? [= <-]]. }
  destruct (getBlockHeader c ht h) as [[hd|]|] eqn:Hget.
  2:{ exfalso. destruct (getBlockHeader_nil valid c ht h Hs) as [_ ?]; [unfold is_uint64 in *; lia|done|done]. }
  2:{ eexists. split; [done|]. exists 0%nat. split_and!; [lia|simpl; lia|by apply apart_one|]. cbn [walk]. by rewrite Hget. }
  go_simpl. pose proof (getBlockHeader_ok valid c ht h hd Hs ltac:(unfold is_uint64 in *; lia) Hget) as [Hv _].
  case_decide as Hmr.
  - eexists. split; [done|]. exists 1%nat, [mkblockRef ht h], (uint64 (ht - 1)), (header_parent hd).
    split_and!; [unfold reorg_depth in *; lia|simpl; lia|by apply apart_one| |done]. cbn [walk]. by rewrite Hget.
  - destruct (IH (S i) (uint64 (ht - 1)) (header_parent hd) (missing ++ [mkblockRef ht h])) as (res & Hres & Hspec);
      [apply uint64_bounds|by apply valid_not_nil|unfold reorg_depth in *; lia|].
    exists res. split; [rewrite <- Hres; f_equal; lia|].
    assert (forall k l2 ht' h', walk c k (uint64 (ht - 1)) (header_parent hd) = Some (l2, ht', h') ->
      walk c (S k) ht h = Some (mkblockRef ht h :: l2, ht', h')) as Hstep by (intros k l2 ht' h' Hw; cbn [walk]; by rewrite Hget, Hw).
    destruct res as [|l|l rest'].
    + destruct Hspec as (k & Hk & Hlen & Ha & Hw). exists (S k). split_and!; [lia|simpl; lia|by eapply apart_cons|].
      cbn [walk] in Hw |- *. by rewrite Hget, Hw.
    + destruct Hspec as (k & l2 & ht' & h' & Hk & Hlen & Ha & Hw & ->). exists (S k), (mkblockRef ht h :: l2), ht', h'.
      split_and!; [lia|simpl; lia|by eapply apart_cons|by apply Hstep|by rewrite <- app_assoc].
    + destruct Hspec as (k & l2 & ht' & h' & Hk & Hlen & Ha & Hw & -> & -> & Hq).
      exists (S k), (mkblockRef ht h :: l2), ht', h'.
      split_and!; [lia|simpl; lia|by eapply apart_cons|by apply Hstep|by rewrite <- app_assoc|done|exact Hq].
Qed.

Lemma reorganize_reorganized c s ht h missing :
  storage_ok valid c -> is_uint64 ht -> h <> nil_header_hash ->
  exists res, reorganized c s ht h res /\
    reorganize c 0 s ht h missing
    = Ret (match res with
           | None => ReorgMissing
           | Some (l, rest) => if decide (length l = reorg_depth c) then ReorgTrim (missing ++ l) else ReorgJoin (missing ++ l) rest
           end) /\
    (forall l rest, res = Some (l, rest) -> length l = reorg_depth c -> rest = []).
Proof.
  intros Hs Hht Hnil. destruct (reorganize_walk c 0 s ht h missing Hs Hht Hnil) as (res & Hres & Hspec); [unfold reorg_depth; lia|].
  change (Z.of_nat 0) with 0 in Hres. destruct res as [|l|l rest'].
  - destruct Hspec as (k & Hk & Hlen & Ha & Hw). exists None. split; [by apply (reorganized_missing _ _ _ _ k)|]. done.
  - destruct Hspec as (k & l2 & ht' & h' & Hk & Hlen & Ha & Hw & ->). simpl in Hk. subst k.
    exists (Some (l2, [])). split; [by eapply reorganized_trim|]. rewrite Hres.
    rewrite decide_True by (by eapply walk_length). split; [done|]. by intros ? ? [= _ <-].
  - destruct Hspec as (k & l2 & ht' & h' & Hk & Hlen & Ha & Hw & -> & -> & Hq). simpl in Hk.
    exists (Some (l2, drop k s)). pose proof (walk_length _ _ _ _ _ _ _ Hw) as Hl2.
    split; [by eapply reorganized_join|]. rewrite Hres. rewrite decide_False by lia. split; [done|].
    intros l rest [= <- _] ?. lia.
Qed.

Lemma walk_height c k ht h l ht' h' :
  is_uint64 ht -> Z.of_nat k <= ht -> walk c k ht h = Some (l, ht', h') -> ht' = ht - Z.of_nat k.
Proof.
  revert ht h l h'. induction k as [|k IH]; intros ht h l h' Hht Hk; cbn [walk]; [intros [= _ -> _]; lia|].
  destruct (getBlockHeader c ht h) as [[hd|]|]; [|done..].
  rewrite uint64_small by (unfold is_uint64 in *; lia).
  destruct (walk c k _ _) as [[[l0 ht0] h0]|] eqn:Hw; [|done]. intros [= _ -> _].
  apply IH in Hw; [lia|unfold is_uint64 in *; lia|lia].
Qed.

Lemma walk_not_nil c k ht h l ht' h' :
  storage_ok valid c -> is_uint64 ht -> (0 < k)%nat -> walk c k ht h = Some (l, ht', h') -> h' <> nil_header_hash.
Proof.
  intros Hs Hht Hk Hw. pose proof (walk_length _ _ _ _ _ _ _ Hw) as Hl. apply walk_path in Hw; [|done..].
  eapply (path_end_not_nil valid valid_not_nil); [exact Hw|]. destruct l; [simpl in Hl; lia|done].
Qed.

(** From a head to a higher block: the two loops on the state [s], which the first test left. *)
Lemma loops_exact c head rest r p s :
  storage_ok valid c -> is_uint64 (height head) -> is_uint64 (height r) -> height head < height r ->
  s = head :: rest -> chainState c = base_of s r p ->
  exists n s', (filled ← fill_missing (fill_fuel c) c (height head) (height r) (hash r) [];
      match filled with
      | FillMissing => mret (0, c)
      | FillTrim missingEntries => mret (refs_len missingEntries, with_state c missingEntries)
      | FillDone missingEntries headHeight headHash =>
          if decide (headHeight = height head /\ headHash = hash head) then
            mret (refs_len missingEntries, with_state c (missingEntries ++ chainState c))
          else
            reorg ← reorganize c 0 (chainState c) headHeight headHash missingEntries;
            match reorg with
            | ReorgMissing => mret (0, c)
            | ReorgTrim missingEntries => mret (refs_len missingEntries, with_state c missingEntries)
            | ReorgJoin missingEntries rest => mret (refs_len missingEntries, with_state c (missingEntries ++ rest))
            end
      end) = Ret (n, with_state c s') /\ update_result c s r p n s'.
Proof.
  intros Hs Hhead Hr Hlt -> Hst. unfold is_uint64 in Hhead, Hr.
  assert (c = with_state c (base_of (head :: rest) r p)) as Hsame by (rewrite <- Hst; by destruct c).
  assert (1 <= valid_length c) as Hvl by (unfold valid_length; lia).
  rewrite fill_missing_walk by (unfold refs_len, is_uint64, fill_fuel, valid_length in *; simpl; lia || done).
  replace (valid_length c - refs_len []) with (valid_length c) by (unfold refs_len; simpl; lia). go_simpl.
  destruct (walk c _ (height r) (hash r)) as [[[l ht'] h']|] eqn:Hw.
  2:{ exists 0, (base_of (head :: rest) r p). rewrite <- Hsame. split; [done|]. by apply update_missing. }
  pose proof (walk_length _ _ _ _ _ _ _ Hw) as Hlen. cbn [app]. case_decide as Hgap.
  { rewrite Z.min_r in Hw, Hlen by lia. exists (valid_length c), l.
    split; [unfold refs_len; rewrite Hlen; do 2 f_equal; lia|]. by eapply update_replaced. }
  rewrite Z.min_l in Hw, Hlen by lia.
  assert (ht' = height head) as -> by (apply walk_height in Hw; [lia|done|lia]).
  case_decide as Hjoin.
  { destruct Hjoin as [_ ->]. exists (height r - height head), (l ++ base_of (head :: rest) r p). rewrite Hst.
    split; [unfold refs_len; rewrite Hlen; do 2 f_equal; lia|]. apply update_filled; simpl; [done|lia|exact Hw]. }
  assert (h' <> hash head) as Hne by tauto.
  destruct (reorganize_reorganized c (chainState c) (height head) h' l Hs) as (res & Hres & Heq & Hrest);
    [done|eapply walk_not_nil; [done..| |exact Hw]; lia|].
  rewrite Heq. go_simpl. rewrite Hst in Hres. destruct res as [[l2 rest2]|].
  - exists (refs_len (l ++ l2)), (l ++ l2 ++ rest2).
    split; [|eapply update_reorganized; simpl; [done|lia|exact Hw|done|exact Hres]].
    case_decide as Hl2; [rewrite (Hrest _ _ eq_refl Hl2), app_nil_r|rewrite app_assoc]; done.
  - exists 0, (base_of (head :: rest) r p). rewrite <- Hsame. split; [done|].
    eapply update_no_ancestor; simpl; [done|lia|exact Hw|done|exact Hres].
Qed.
Lemma updateChainState_exact c r hd :
  chain_ok valid c -> header_at valid r hd ->
  let p := header_parent hd in
  (exists n s, updateChainState c (height r) (hash r) p = Ret (n, with_state c s) /\ update_result c (chainState c) r p n s) \/
  (chainState c <> [] /\ height (chain_head (chainState c)) < height r /\
   max_alloc < (height r - height (chain_head (chainState c))) * 40 /\
   updateChainState c (height r) (hash r) p = Panics MakeSliceTooLarge).
Proof.
  intros Hok Hat p. pose proof (ok_storage _ c Hok) as Hs.
  assert (is_uint64 (height r)) as Hr by (destruct Hat as (_ & _ & <-); apply header_number_range).
  unfold updateChainState. destruct (chainState c) as [|head rest] eqn:Hst.
  { left. eexists _, _. split; [destruct r; done|]. by apply update_first. }
  assert (is_uint64 (height head)) as Hhead.
  { pose proof (ok_refs _ c Hok) as Href. rewrite Hst in Href. apply Forall_cons in Href as [(hd' & _ & _ & <-) _].
    apply header_number_range. }
  set (c1 := if decide _ then _ else c).
  assert (c1 = with_state c (base_of (head :: rest) r p)) as ->.
  { unfold c1, base_of. destruct r as [ht h]. cbn [height hash]. case_decide; [done|]. rewrite <- Hst. by destruct c. }
  cbn [chain_head]. unfold is_uint64 in Hr, Hhead. destruct (decide (height r <= height head)) as [Hle|Hgt].
  { left. eexists _, _. split; [done|]. by apply update_past. }
  rewrite uint64_small by (unfold is_uint64; lia).
  destruct (decide (max_alloc < (height r - height head) * 40)) as [Hbig|Hsmall].
  { right. split_and!; [done|lia|done|]. rewrite make_cap_panics by lia. done. }
  left. rewrite make_cap_ok by lia. go_simpl.
  destruct (loops_exact (with_state c (base_of (head :: rest) r p)) head rest r p (head :: rest)) as (n & s & Heq & Hu);
    [by apply (storage_ok_views valid c)|done|done|lia|done|done|].
  exists n, s. split; [exact Heq|]. by apply (update_result_ext c (with_state c (base_of (head :: rest) r p))).
Qed.
End Exact.
