(* ===== verification/ChainCanonical.v ===== *)
(** A block of the node that extends the head: what it leaves in the storage and in the chain state, and
    that it is the next block for the BDN. *)
From S2P Require Import Prelude CMap EthTypes Chain ChainFacts ChainSpec.

Section Canonical.
Context `{EthLaws} {M : Type -> Type} `{ConcurrentMapLaws M}.
Variable valid : Header -> Prop.
Hypothesis valid_not_nil : forall hd, valid hd -> header_hash hd <> nil_header_hash /\ header_parent hd <> nil_header_hash.
Implicit Types c : Chain M.

(** A block is stored with its metadata, header and body. *)
Definition stored c (b : Block) : Prop :=
  HasBlock c (block_hash b) = true /\
  getBlockHeader c (block_number b) (block_hash b) = Some (Some (block_header b)) /\
  getBlockBody c (block_hash b) = Some (block_body b).

(** A block that is stored already, or one whose header is unknown; and one that the BDN was not sent. *)
Definition storable c (b : Block) : Prop :=
  stored c b \/ HasBlock c (block_hash b) = false /\ getBlockHeader c (block_number b) (block_hash b) = None.
Definition unsent c (b : Block) : Prop := HasSentToBDN c (block_hash b) = false /\ storable c b.

Lemma find_header_snoc l x h :
  find_header (l ++ [x]) h
  = match find_header l h with Some y => Some y | None => if decide (header_ptr_hash x = h) then Some x else None end.
Proof. induction l as [|y l IH]; [done|]. cbn. by destruct (decide (header_ptr_hash y = h)). Qed.

Lemma getBlockHeader_storeBlock c b d s ht h :
  getBlockHeader (storeBlock c b d s) ht h
  = match getBlockHeader c ht h with
    | Some x => Some x
    | None => if decide (height_key ht = height_key (block_number b))
              then if decide (block_hash b = h) then Some (Some (block_header b)) else None else None
    end.
Proof.
  destruct (storeBlock_spec c b d s) as (Hh & _). cbn zeta in Hh. rewrite !getBlockHeader_spec, Hh, block_number_header.
  rewrite block_hash_header, lookup_insert. destruct (decide (height_key ht = _)) as [->|Hne].
  - rewrite decide_True by done. rewrite fmap_app. cbn [fmap list_fmap eh_Header]. rewrite find_header_snoc. cbn [header_ptr_hash].
    by destruct (hdrs c !! _).
  - rewrite decide_False by done. by destruct (hdrs c !! height_key ht) as [l|]; [destruct (find_header _ _)|].
Qed.

(** The storage step stores the block, and does not mark it as sent. *)
Lemma with_block_stores c info s :
  storable c (bi_Block info) ->
  stored (with_block c info s) (bi_Block info) /\
  HasSentToBDN (with_block c info s) (block_hash (bi_Block info)) = HasSentToBDN c (block_hash (bi_Block info)).
Proof.
  intros Hst. set (b := bi_Block info) in *. unfold with_block. fold b.
  destruct (HasBlock c (block_hash b)) eqn:Hhas.
  - destruct Hst as [(_ & Hget & Hbody)|[? _]]; [|congruence].
    destruct (storeMetadata_rest c (block_hash b) (block_number b) (bool_decide (s = BSBlockchain)) false) as (Gh & Gb & _).
    pose proof (storeMetadata_metas c (block_hash b) (block_number b) (bool_decide (s = BSBlockchain)) false) as Gm.
    apply HasBlock_spec in Hhas as [[bm Hbm] Hbd]. split; [split_and!|].
    + apply HasBlock_spec. rewrite Gm, Gb, lookup_insert_eq. split; [by eexists|done].
    + rewrite getBlockHeader_spec in Hget |- *. by rewrite Gh.
    + rewrite getBlockBody_spec in Hbody |- *. by rewrite Gb.
    + unfold HasSentToBDN. rewrite !getBlockMetadata_spec, Gm, lookup_insert_eq, Hbm. done.
  - destruct Hst as [(? & _)|[_ Hget]]; [congruence|].
    destruct (storeBlock_spec c b (TotalDifficulty info) s) as (_ & Gm & Gb & _). cbn zeta in Gm, Gb.
    rewrite <- block_hash_header in Gm, Gb. split; [split_and!|].
    + apply HasBlock_spec. rewrite Gm, Gb, !lookup_insert_eq. split; by eexists.
    + rewrite getBlockHeader_storeBlock, Hget, !decide_True by done. done.
    + rewrite getBlockBody_spec, Gb. apply lookup_insert_eq.
    + unfold HasSentToBDN. rewrite !getBlockMetadata_spec, Gm, lookup_insert_eq.
      by destruct (metas c !! _).
Qed.

(** What is known of a block is the same in two chains. *)
Definition same_block c c' (b : Block) : Prop :=
  HasBlock c' (block_hash b) = HasBlock c (block_hash b) /\
  HasSentToBDN c' (block_hash b) = HasSentToBDN c (block_hash b) /\
  getBlockBody c' (block_hash b) = getBlockBody c (block_hash b) /\
  getBlockHeader c' (block_number b) (block_hash b) = getBlockHeader c (block_number b) (block_hash b).

Lemma same_block_trans c1 c2 c3 b : same_block c1 c2 b -> same_block c2 c3 b -> same_block c1 c3 b.
Proof. unfold same_block. intros (-> & -> & -> & ->) (-> & -> & -> & ->). done. Qed.

Lemma same_block_unsent c c' b : same_block c c' b -> unsent c b -> unsent c' b.
Proof. unfold unsent, storable, stored. intros (-> & -> & -> & ->). done. Qed.

(** Equal entries, or entries that differ in what is not part of it. *)
Lemma same_block_views c c' b :
  (is_Some (metas c' !! hash_string (block_hash b)) <-> is_Some (metas c !! hash_string (block_hash b))) ->
  HasSentToBDN c' (block_hash b) = HasSentToBDN c (block_hash b) ->
  bodies c' !! hash_string (block_hash b) = bodies c !! hash_string (block_hash b) ->
  getBlockHeader c' (block_number b) (block_hash b) = getBlockHeader c (block_number b) (block_hash b) ->
  same_block c c' b.
Proof.
  intros Hm Hs Hb Hg. split_and!; [|done| |done].
  - apply eq_iff_eq_true. by rewrite !HasBlock_spec, Hm, Hb.
  - by rewrite !getBlockBody_spec.
Qed.

Lemma same_metadata c c' b : metas c' !! hash_string (block_hash b) = metas c !! hash_string (block_hash b) ->
  HasSentToBDN c' (block_hash b) = HasSentToBDN c (block_hash b).
Proof. unfold HasSentToBDN. rewrite !getBlockMetadata_spec. by intros ->. Qed.

(** Storing or marking a block leaves the others as they are. *)
Lemma with_block_others c info s b : block_hash b <> block_hash (bi_Block info) -> same_block c (with_block c info s) b.
Proof.
  intros Hne. assert (hash_string (block_hash (bi_Block info)) <> hash_string (block_hash b)) as Hns
    by (intros Heq%hash_string_eq; congruence).
  unfold with_block. destruct (HasBlock c _).
  - edestruct storeMetadata_rest as (Gh & Gb & _).
    assert (metas (storeBlockMetadata c (block_hash (bi_Block info)) (block_number (bi_Block info)) (bool_decide (s = BSBlockchain)) false)
      !! hash_string (block_hash b) = metas c !! hash_string (block_hash b)) as Hm by (by rewrite storeMetadata_metas, lookup_insert_ne).
    apply same_block_views; [by rewrite Hm|by apply same_metadata|by rewrite Gb|by rewrite !getBlockHeader_spec, Gh].
  - destruct (storeBlock_spec c (bi_Block info) (TotalDifficulty info) s) as (_ & Gm & Gb & _). cbn zeta in Gm, Gb.
    rewrite <- block_hash_header in Gm, Gb.
    assert (metas (storeBlock c (bi_Block info) (TotalDifficulty info) s) !! hash_string (block_hash b)
      = metas c !! hash_string (block_hash b)) as Hm by (by rewrite Gm, lookup_insert_ne).
    apply same_block_views; [by rewrite Hm|by apply same_metadata|by rewrite Gb, lookup_insert_ne|].
    rewrite getBlockHeader_storeBlock. destruct (getBlockHeader c _ _); [done|].
    destruct (decide (height_key _ = _)); [|done]. by destruct (decide (block_hash (bi_Block info) = _)) as [Heq|]; [rewrite Heq in Hne|].
Qed.

Lemma MarkSent_others c h b : block_hash b <> h -> same_block c (MarkSentToBDN c h) b.
Proof.
  intros Hne. unfold MarkSentToBDN. destruct (getBlockMetadata c h) as [bm|]; [|done].
  set (c' := with_metadata c _).
  assert (metas c' !! hash_string (block_hash b) = metas c !! hash_string (block_hash b)) as Hm.
  { unfold c', metas. cbn. rewrite cm_view_set, lookup_insert_ne; [done|]. intros Heq%hash_string_eq. by subst. }
  apply same_block_views; [by rewrite Hm|by apply same_metadata|done|done].
Qed.

(** Announcing a confirmation changes nothing a new head needs. *)
Lemma confirm_message_same c h bm b : getBlockMetadata c h = Some bm ->
  same_block c (storeBlockMetadata c h (bm_height bm) (confirmed bm) true) b.
Proof.
  intros Hbm. rewrite getBlockMetadata_spec in Hbm. pose proof (storeMetadata_metas c h (bm_height bm) (confirmed bm) true) as Gm.
  destruct (storeMetadata_rest c h (bm_height bm) (confirmed bm) true) as (Gh & Gb & _).
  apply same_block_views; [| |by rewrite Gb|by rewrite !getBlockHeader_spec, Gh].
  - rewrite Gm, lookup_insert. case_decide as Heq; [|done]. rewrite <- Heq, Hbm. split; intros; by eexists.
  - unfold HasSentToBDN. rewrite !getBlockMetadata_spec, Gm, lookup_insert.
    case_decide as Heq; [|done]. rewrite <- Heq, Hbm. done.
Qed.

(** *** The chain state *)
Lemma with_block_rest c info s :
  chainState (with_block c info s) = chainState c /\ minValidChain (with_block c info s) = minValidChain c.
Proof.
  unfold with_block. destruct (HasBlock c _).
  - edestruct storeMetadata_rest as (_ & _ & _ & Hs & _ & Hm). by split; [exact Hs|exact Hm].
  - edestruct storeBlock_spec as (_ & _ & _ & _ & Hs & _ & Hm). by split; [exact Hs|exact Hm].
Qed.

Lemma AddBlock_node c info :
  AddBlock c info BSBlockchain
  = updateChainState (with_block c info BSBlockchain) (block_number (bi_Block info)) (block_hash (bi_Block info))
      (block_parent (bi_Block info)).
Proof. done. Qed.

Lemma AddBlock_canonical c info head rest :
  chain_ok valid c -> 1 < minValidChain c -> storable c (bi_Block info) ->
  chainState c = head :: rest -> block_parent (bi_Block info) = hash head ->
  block_number (bi_Block info) = height head + 1 ->
  AddBlock c info BSBlockchain
  = Ret (1, with_state (with_block c info BSBlockchain) (block_ref info :: block_ref info :: head :: rest)).
Proof.
  intros Hok Hmv Hun Hst Hpar Hnum. set (b := bi_Block info) in *. set (r := block_ref info).
  destruct (with_block_stores c info BSBlockchain Hun) as [(_ & Hget & _) _]. fold b in Hget.
  assert (0 <= height head) as Hpos.
  { pose proof (ok_refs _ c Hok) as Hr. rewrite Hst in Hr. apply Forall_cons in Hr as [(hd' & _ & _ & <-) _].
    apply header_number_range. }
  assert (is_uint64 (height head + 1)) as Hu by (rewrite <- Hnum, block_number_header; apply header_number_range).
  assert (chainState (with_block c info BSBlockchain) = head :: rest /\ minValidChain (with_block c info BSBlockchain) = minValidChain c)
    as [Hs Hm].
  { rewrite <- Hst. apply with_block_rest. }
  rewrite AddBlock_node. fold b. set (c1 := with_block c info BSBlockchain) in *. unfold updateChainState. rewrite Hs, Hpar, Hnum.
  rewrite (uint64_small (height head + 1)) by done. rewrite (decide_True (P := _ /\ _)) by done.
  rewrite (decide_False (P := height head + 1 <= height head)) by lia.
  replace (uint64 (height head + 1 - height head)) with 1 by (replace (height head + 1 - height head) with 1 by lia; done).
  rewrite make_cap_ok by (unfold max_alloc; lia). go_simpl.
  unfold fill_fuel. cbn [minValidChain with_state]. rewrite Hm.
  destruct (Z.to_nat (minValidChain c)) as [|fuel] eqn:Hf; [lia|].
  set (c2 := with_state c1 (mkblockRef (height head + 1) (block_hash b) :: head :: rest)).
  cbn [fill_missing]. rewrite decide_True by lia. rewrite Hnum in Hget.
  change (getBlockHeader c1) with (getBlockHeader c2) in Hget. rewrite Hget. go_simpl. cbn [length app].
  change (minValidChain c2) with (minValidChain c1). rewrite Hm.
  rewrite decide_False by lia. rewrite decide_False; [|rewrite uint64_small; unfold is_uint64 in *; lia].
  replace (uint64 (height head + 1 - 1)) with (height head) by (rewrite uint64_small; unfold is_uint64 in *; lia).
  go_simpl. rewrite decide_True; [|split; [done|rewrite <- Hpar; symmetry; apply block_parent_header]].
  unfold r, block_ref. fold b. by rewrite Hnum.
Qed.

(** The block stored last, with the difficulty that is stored for it. *)
Definition head_of c (b : Block) : BlockInfo :=
  NewBlockInfo (block_with (block_header b) (Transactions (block_body b)) (Uncles (block_body b))) (getBlockDifficulty c (block_hash b)).

Lemma GetNewHeads_one c b rest :
  stored c b -> HasSentToBDN c (block_hash b) = false ->
  chainState c = mkblockRef (block_number b) (block_hash b) :: rest ->
  GetNewHeadsForBDN c 1 = Ret ([head_of c b], None).
Proof.
  intros (Hhas & Hget & Hbody) Hsent Hst. unfold GetNewHeadsForBDN. rewrite make_cap_ok by (unfold max_alloc; lia). go_simpl.
  rewrite Hst. cbn [new_heads]. rewrite decide_False by lia. cbn [hash height].
  apply HasBlock_spec in Hhas as [[bm Hbm] _]. unfold HasSentToBDN in Hsent. rewrite getBlockMetadata_spec in Hsent |- *.
  rewrite Hbm in Hsent |- *. rewrite Hsent, Hget, Hbody. go_simpl.
  replace (1 - 1) with 0 by lia. by destruct rest; cbn [new_heads]; rewrite decide_True by lia.
Qed.

(** No entry of the chain state is above the head. *)
Definition below_head c : Prop := Forall (fun r => height r <= height (chain_head (chainState c))) (chainState c).

Lemma getHeaderAtHeight_found c r :
  chain_ok valid c -> below_head c -> height (chain_head (chainState c)) < 2 ^ 63 -> r ∈ chainState c ->
  getHeaderAtHeight c (height r) <> Ok None.
Proof.
  intros Hok Hbelow Hmax Hin. unfold getHeaderAtHeight. unfold below_head in Hbelow.
  assert (0 <= height r) as Hr.
  { pose proof (ok_refs _ c Hok) as Hrefs. rewrite Forall_forall in Hrefs. destruct (Hrefs r Hin) as (hd & _ & _ & <-).
    apply header_number_range. }
  rewrite Forall_forall in Hbelow. specialize (Hbelow r Hin).
  destruct (chainState c) as [|head rest] eqn:Hst; [done|]. rewrite <- Hst in *. cbn [chain_head] in *.
  assert (chain_head (chainState c) = head) as Hhead by (by rewrite Hst). rewrite Hhead in *.
  rewrite uint64_small by (unfold is_uint64; lia). rewrite int64_small by (unfold is_int64; lia).
  rewrite decide_False by lia. case_decide; [done|]. destruct (chainState c !! _) as [q|] eqn:Hq; [|done].
  destruct (getBlockHeader c (height r) (hash q)) as [[hd|]|] eqn:Hget; [done| |done].
  destruct (getBlockHeader_nil valid c (height r) (hash q) (ok_storage _ c Hok) Hr Hget) as [_ Hnil].
  apply list_elem_of_lookup_2 in Hq. pose proof (ok_refs _ c Hok) as Hrefs. rewrite Forall_forall in Hrefs.
  destruct (Hrefs q Hq) as (hd & Hv & Hh & _). destruct (valid_not_nil hd Hv). congruence.
Qed.

(** So the lookup at a depth never meets the nil header. *)
Lemma BlockAtDepth_returns c depth :
  chain_ok valid c -> below_head c -> height (chain_head (chainState c)) < 2 ^ 63 -> 0 <= depth ->
  is_ret (BlockAtDepth c depth) = true.
Proof.
  intros Hok Hbelow Hmax Hd. unfold BlockAtDepth, refs_len. case_decide as Hlen; [done|]. rewrite decide_False by lia.
  destruct (chainState c !! Z.to_nat depth) as [r|] eqn:Hr; [|apply lookup_ge_None in Hr; lia].
  apply list_elem_of_lookup_2 in Hr. pose proof (getHeaderAtHeight_found c r Hok Hbelow Hmax Hr) as Hf.
  destruct (getHeaderAtHeight c (height r)) as [[hd|]|e]; [|done|done]. by destruct (getBlockBody c (hash r)).
Qed.
End Canonical.
