(* ===== verification/ChainProps.v ===== *)
(** The properties of the chain. *)
From S2P Require Import Prelude CMap EthTypes Chain ChainFacts ChainExamples ChainClean ChainSpec ChainUpdate ChainCanonical.
From Stdlib Require Import Sorting.Sorted.

Section Steps.
Context `{EthLaws} {M : Type -> Type} `{ConcurrentMapLaws M}.
Variable valid : Header -> Prop.

(** One call of a method that changes the chain, by whoever holds it. *)
Inductive chain_step : Chain M -> Chain M -> Prop :=
  | step_AddBlock c b source n c' :
      valid (block_header (bi_Block b)) -> AddBlock c b source = Ret (n, c') -> chain_step c c'
  | step_ConfirmBlock c h n c' : ConfirmBlock c h = Ret (n, c') -> chain_step c c'
  | step_MarkSentToBDN c h : chain_step c (MarkSentToBDN c h)
  | step_InitializeDifficulty c h td : chain_step c (InitializeDifficulty c h td)
  | step_SetTotalDifficulty c info : chain_step c (SetTotalDifficulty c info).1.1
  | step_confirm_message c h bm : getBlockMetadata c h = Some bm ->
      chain_step c (storeBlockMetadata c h (bm_height bm) (confirmed bm) true)
  | step_chain_clean c maxSize c' lo hi n :
      0 <= maxSize -> Chain_clean c maxSize = Ret (c', lo, hi, n) -> chain_step c c'.
End Steps.

Section Properties.
Context `{EthLaws} {M : Type -> Type} `{ConcurrentMapLaws M}.
Variable valid : Header -> Prop.
Hypothesis valid_not_nil : forall hd, valid hd -> header_hash hd <> nil_header_hash /\ header_parent hd <> nil_header_hash.
Implicit Types c : Chain M.

Lemma newChain_ok r v : chain_ok valid (newChain (M:=M) r v).
Proof.
  split; [|constructor..]. split; unfold hdrs, metas, bodies; simpl; intros *; rewrite cm_view_new, lookup_empty; try done; by intros [? ?].
Qed.

Lemma chain_step_ok c c' : chain_ok valid c -> chain_step valid c c' -> chain_ok valid c'.
Proof.
  intros Hok. destruct 1 as [c b source n c' Hv Hadd|c h n c' Hconf| | | |c h bm Hbm|c maxSize c' lo hi n Hsize Hclean].
  - destruct (AddBlock_returns valid valid_not_nil c b source Hv Hok) as [(m & st & Heq & Hok' & _)|[_ Heq]]; [|congruence].
    assert (c' = with_state (with_block c b source) st) as -> by congruence. done.
  - by eapply ConfirmBlock_returns.
  - by apply MarkSentToBDN_ok.
  - eapply chain_ok_state; [|apply InitializeDifficulty_state|done]. apply storage_ok_Init; try done; apply Hok.
  - by apply SetTotalDifficulty_ok.
  - by apply confirm_message_ok.
  - destruct (Chain_clean_returns c maxSize Hsize) as (c2 & lo2 & hi2 & n2 & Heq & Hskip & Hrun).
    assert (c' = c2 /\ n = n2) as [-> ->] by (split; congruence).
    destruct (decide (chainState c = [])); [by destruct Hskip as [-> _]; auto|].
    destruct (decide (cm_count (heightToBlockHeaders c) < maxSize)); [by destruct Hskip as [-> _]; auto|].
    eapply cleaned_ok; [done..|]. apply Hrun; [done|lia].
Qed.

(** C6: In every state the chain can reach, whatever blocks arrive in whatever order, from whichever
    source, and whenever it is confirmed, queried or cleaned: every entry of the chain state
    describes a header of the network at that header's height, every entry is followed by its
    parent (or by a second copy of itself), a header is filed under its own number and hash,
    metadata always lead to a filed header, and a stored body has metadata. *)
Theorem chain_reachable_ok maxReorg minValidChain c :
  rtc (chain_step valid) (newChain maxReorg minValidChain) c -> chain_ok valid c.
Proof.
  intros Hr. pose proof (newChain_ok maxReorg minValidChain) as Hok. revert Hok.
  induction Hr as [|x y z Hxy Hyz IH]; [done|]. intros Hx. apply IH. by eapply chain_step_ok.
Qed.

(** What [AddBlock] does to the storage. The metadata of the block are created, or merged with what is
    there; they are confirmed if they were or if the block comes from the node. A block stored already
    changes nothing else; another is filed with header, body and, if it has one, difficulty. *)
Definition block_filed c (b : BlockInfo) (source : BlockSource) (c' : Chain M) : Prop :=
  let h := block_hash (bi_Block b) in
  let number := block_number (bi_Block b) in
  let hd := block_header (bi_Block b) in
  metas c' = <[hash_string h :=
    merged_metadata (metas c !! hash_string h) number (bool_decide (source = BSBlockchain)) false]> (metas c) /\
  if HasBlock c h then hdrs c' = hdrs c /\ bodies c' = bodies c /\ tds c' = tds c
  else
    hdrs c' = <[height_key number := default [] (hdrs c !! height_key number) ++ [mkethHeader (Some hd) h]]> (hdrs c) /\
    bodies c' = <[hash_string h := block_body (bi_Block b)]> (bodies c) /\
    tds c' = match TotalDifficulty b with Some d => <[hash_string h := d]> (tds c) | None => tds c end.

Lemma with_block_filed c b source : block_filed c b source (with_block c b source).
Proof.
  unfold block_filed, with_block. destruct (HasBlock c (block_hash (bi_Block b))).
  - destruct (storeMetadata_rest c (block_hash (bi_Block b)) (block_number (bi_Block b)) (bool_decide (source = BSBlockchain)) false)
      as (Hh & Hb & Ht & _).
    split; [apply storeMetadata_metas|done].
  - destruct (storeBlock_spec c (bi_Block b) (TotalDifficulty b) source) as (Hh & Hm & Hb & Ht & _). cbn zeta in *.
    rewrite block_hash_header, block_number_header. done.
Qed.

(** What the filing means for the three questions asked about a block. *)
Lemma block_filed_status c b source c' :
  block_filed c b source c' ->
  let h := block_hash (bi_Block b) in
  HasBlock c' h = true /\ HasConfirmedBlock c' h = HasConfirmedBlock c h || bool_decide (source = BSBlockchain) /\
  HasSentToBDN c' h = HasSentToBDN c h.
Proof.
  intros [Hm Hrest] h. unfold h. split.
  - apply HasBlock_spec. rewrite Hm, lookup_insert_eq. split; [by eexists|].
    destruct (HasBlock c _) eqn:Hhas.
    + destruct Hrest as (_ & -> & _). by apply HasBlock_spec in Hhas as [_ ?].
    + destruct Hrest as (_ & -> & _). rewrite lookup_insert_eq. by eexists.
  - unfold HasConfirmedBlock, HasSentToBDN. rewrite !getBlockMetadata_spec, Hm, lookup_insert_eq.
    by destruct (metas c !! _).
Qed.

(** C23: What [AddBlock] does. The block is filed: it is stored afterwards, is confirmed if it was or if
    it comes from the node, and is as much sent to the BDN as before. A block from the BDN changes
    neither the chain state nor the head. For a block from the node [update_result] fixes the number
    returned and the new chain state, and [update_result_unique] says that it leaves one of each: the
    first block is the whole state; one at or below the head leaves the state; for one above it the
    walk along stored parents decides: with a header missing on the way down to the head's height the
    state stays; a walk of [minValidChain] headers replaces it; one that ends at the head is put in
    front of it; from one that ends beside the head the walk goes on to the first common ancestor,
    which is kept with what is behind it, or to [maxReorg] entries, which replace the state, or to a
    missing header, and then the state stays. A block that extends the head is put in front of the state
    before any of this. The only failure is the run-time panic for a height so far ahead that the slice
    of missing entries exceeds the address space. *)
Theorem AddBlock_spec c b source :
  chain_ok valid c -> valid (block_header (bi_Block b)) ->
  let h := block_hash (bi_Block b) in
  let above := block_number (bi_Block b) - height (chain_head (chainState c)) in
  (exists n c', AddBlock c b source = Ret (n, c') /\ chain_ok valid c' /\
     block_filed c b source c' /\ HasBlock c' h = true /\
     HasConfirmedBlock c' h = HasConfirmedBlock c h || bool_decide (source = BSBlockchain) /\
     HasSentToBDN c' h = HasSentToBDN c h /\
     match source with
     | BSBDN => n = 0 /\ chainState c' = chainState c
     | BSBlockchain => update_result c' (chainState c) (block_ref b) (block_parent (bi_Block b)) n (chainState c')
     end) \/
  (source = BSBlockchain /\ chainState c <> [] /\ 0 < above /\ max_alloc < above * 40 /\
   AddBlock c b source = Panics MakeSliceTooLarge).
Proof.
  intros Hok Hv h above.
  destruct (with_block_ok valid valid_not_nil c b source Hv Hok) as (Hok1 & Hst1 & _).
  pose proof (with_block_filed c b source) as Hf. unfold AddBlock. fold (with_block c b source).
  destruct source.
  { left. exists 0, (with_block c b BSBDN). rewrite decide_True by done.
    do 3 (split; [done|]). destruct (block_filed_status _ _ _ _ Hf) as (? & ? & ?). done. }
  rewrite decide_False by done.
  destruct (updateChainState_exact valid valid_not_nil _ _ _ Hok1 (block_ref_at valid b Hv)) as [(n & st & Heq & Hu)|Hp].
  2:{ right. rewrite Hst1, <- block_parent_header in Hp. destruct Hp as (? & Hlt & ? & Hp). unfold above. simpl in *.
      split_and!; [done|done|lia|done|exact Hp]. }
  left. rewrite <- block_parent_header, Hst1 in Hu. rewrite <- block_parent_header in Heq.
  exists n, (with_state (with_block c b BSBlockchain) st). split; [exact Heq|]. split.
  { destruct (AddBlock_returns valid valid_not_nil c b BSBlockchain Hv Hok) as [(m & st2 & Heq2 & Hok2 & _)|[_ Heq2]];
      unfold AddBlock in Heq2; fold (with_block c b BSBlockchain) in Heq2; rewrite decide_False in Heq2 by done;
      simpl in Heq; rewrite Heq in Heq2; [|done]. by injection Heq2 as -> <-. }
  split; [exact Hf|]. destruct (block_filed_status _ _ _ _ Hf) as (? & ? & ?). do 3 (split; [done|]).
  by apply (update_result_ext _ (with_block c b BSBlockchain)).
Qed.

(** C38: A block from the node that extends the head is put into the chain state twice (the branch
    that appends it does not return), so the state no longer has one entry per height: the header
    of the previous head, still stored, is no longer found by its height. *)
Theorem canonical_block_twice c b head rest :
  chain_ok valid c -> valid (block_header (bi_Block b)) -> 1 < minValidChain c ->
  HasBlock c (block_hash (bi_Block b)) = false ->
  hdrs c !! height_key (block_number (bi_Block b)) = None ->
  chainState c = head :: rest -> block_parent (bi_Block b) = hash head ->
  block_number (bi_Block b) = height head + 1 ->
  getBlockHeader c (height head) (block_hash (bi_Block b)) = None ->
  exists c', AddBlock c b BSBlockchain = Ret (1, c') /\
    chainState c' = block_ref b :: block_ref b :: head :: rest /\
    getHeaderAtHeight c' (height head) = Fail no_header.
Proof.
  intros Hok Hv Hmv Hhas Hnone Hst Hpar Hnum Hother.
  assert (0 <= height head) as Hpos.
  { pose proof (ok_refs _ c Hok) as Hr. rewrite Hst in Hr. apply Forall_cons in Hr as [(hd' & _ & _ & <-) _].
    apply header_number_range. }
  assert (storable c (bi_Block b)) as Hstor by (right; split; [done|]; by rewrite getBlockHeader_spec, Hnone).
  eexists. split; [by eapply AddBlock_canonical|]. split; [done|].
  unfold getHeaderAtHeight. cbn [chainState with_state block_ref height hash]. rewrite Hnum.
  replace (int64 (uint64 (height head + 1 - height head))) with 1
    by (replace (height head + 1 - height head) with 1 by lia; done).
  rewrite decide_False by lia. rewrite decide_False by (unfold refs_len; simpl; lia). simpl.
  unfold with_block. rewrite Hhas. match goal with |- context [getBlockHeader ?c' _ _] =>
    change (getBlockHeader c') with (getBlockHeader (storeBlock c (bi_Block b) (TotalDifficulty b) BSBlockchain)) end.
  rewrite getBlockHeader_storeBlock, Hother, decide_False; [done|].
  intros Heq%height_key_inj; lia.
Qed.

(** *** Queries *)
Lemma ref_not_nil c r : chain_ok valid c -> r ∈ chainState c -> getBlockHeader c (height r) (hash r) <> Some None.
Proof.
  intros Hok Hin Hget. pose proof (ok_refs _ c Hok) as Hr. rewrite Forall_forall in Hr.
  destruct (Hr r Hin) as (hd & Hv & Hh & Hn).
  destruct (getBlockHeader_nil valid c (height r) (hash r) (ok_storage _ c Hok)) as [_ Hnil]; [|done|].
  - rewrite <- Hn. apply header_number_range.
  - destruct (valid_not_nil hd Hv). congruence.
Qed.

(** An unsent entry of the chain state, completely stored, and what is returned for it. *)
Definition head_info c (r : blockRef) (info : BlockInfo) : Prop :=
  exists bm hd body, getBlockMetadata c (hash r) = Some bm /\ sentToBDN bm = false /\
    getBlockHeader c (height r) (hash r) = Some (Some hd) /\ getBlockBody c (hash r) = Some body /\
    info = NewBlockInfo (block_with hd (Transactions body) (Uncles body)) (getBlockDifficulty c (hash r)).

Definition already_sent c (r : blockRef) : Prop :=
  exists bm, getBlockMetadata c (hash r) = Some bm /\ sentToBDN bm = true.

Lemma new_heads_spec c count refs :
  (forall r, r ∈ refs -> getBlockHeader c (height r) (hash r) <> Some None) ->
  exists heads err, new_heads c count refs = Ret (heads, err) /\
    Forall2 (head_info c) (take (length heads) refs) heads /\ Z.of_nat (length heads) <= Z.max 0 count /\
    match err with
    | None => Z.of_nat (length heads) = Z.max 0 count \/
        exists r, refs !! length heads = Some r /\ already_sent c r
    | Some _ => forall r, refs !! length heads = Some r -> forall info, ~ head_info c r info
    end.
Proof.
  revert count. induction refs as [|r refs IH]; intros count Hnil; cbn [new_heads]; case_decide as Hc.
  - eexists [], None. split; [done|]. split_and!; [constructor|simpl; lia|left; simpl; lia].
  - eexists [], _. split; [done|]. split_and!; [constructor|simpl; lia|done].
  - eexists [], None. split; [done|]. split_and!; [constructor|simpl; lia|left; simpl; lia].
  - pose proof (Hnil r ltac:(by left)) as Hr.
    destruct (getBlockMetadata c (hash r)) as [bm|] eqn:Hbm.
    2:{ eexists [], _. split; [done|]. split_and!; [constructor|simpl; lia|].
        simpl. intros ? [= <-] info (? & ? & ? & ? & _). congruence. }
    destruct (sentToBDN bm) eqn:Hsent.
    { eexists [], None. split; [done|]. split_and!; [constructor|simpl; lia|]. right. exists r. split; [done|]. by exists bm. }
    destruct (getBlockHeader c (height r) (hash r)) as [[hd|]|] eqn:Hget; [|done|].
    2:{ eexists [], _. split; [done|]. split_and!; [constructor|simpl; lia|].
        simpl. intros ? [= <-] info (? & ? & ? & ? & ? & ? & _). congruence. }
    destruct (getBlockBody c (hash r)) as [body|] eqn:Hbody.
    2:{ eexists [], _. split; [done|]. split_and!; [constructor|simpl; lia|].
        simpl. intros ? [= <-] info (? & ? & ? & ? & ? & ? & ? & _). congruence. }
    go_simpl. destruct (IH (count - 1)) as (heads & err & -> & Hf & Hlen & Herr); [intros; apply Hnil; by right|].
    go_simpl. eexists (_ :: heads), err. split; [done|]. split_and!.
    + simpl. constructor; [|done]. exists bm, hd, body. done.
    + simpl. lia.
    + destruct err; [done|]. destruct Herr as [?|?]; [left; simpl; lia|by right].
Qed.

(** C31: [GetNewHeadsForBDN] returns, newest first, the blocks of the longest prefix of the chain
    state (of at most [count] entries) that are stored completely and were not sent to the BDN:
    it stops without error at [count] or at the first block sent before, and with an error at the
    end of the state or at the first entry of which something is missing. It never panics. *)
Theorem GetNewHeadsForBDN_spec c count :
  chain_ok valid c -> 0 <= count -> count * 8 <= max_alloc ->
  exists heads err, GetNewHeadsForBDN c count = Ret (heads, err) /\
    Forall2 (head_info c) (take (length heads) (chainState c)) heads /\ Z.of_nat (length heads) <= count /\
    match err with
    | None => Z.of_nat (length heads) = count \/
        exists r, chainState c !! length heads = Some r /\ already_sent c r
    | Some _ => forall r, chainState c !! length heads = Some r -> forall info, ~ head_info c r info
    end.
Proof.
  intros Hok Hpos Hmax. unfold GetNewHeadsForBDN. rewrite make_cap_ok by done. go_simpl.
  destruct (new_heads_spec c count (chainState c)) as (heads & err & Heq & Hf & Hlen & Herr).
  { intros r Hr. by apply ref_not_nil. }
  exists heads, err. rewrite Z.max_r in Hlen, Herr by done. done.
Qed.

(** A header with hash [h] is filed at a height that a clean-up with least height [mh] removes. *)
Definition filed_below c (mh : Z) (h : Hash) : Prop :=
  exists k l eh, hdrs c !! k = Some l /\ cleaned_height mh k = true /\ eh ∈ l /\ eh_hash eh = h.

Lemma cleaned_hashes_elem mh c h :
  hash_string h ∈ cleaned_hashes mh (cm_iter (heightToBlockHeaders c)) <-> filed_below c mh h.
Proof.
  split.
  - intros Hin%list_elem_of_In. unfold cleaned_hashes in Hin. apply in_concat in Hin as (ks & Hks & Hin).
    apply list_elem_of_In in Hks, Hin. rewrite <- list_fmap_compose in Hks.
    apply list_elem_of_fmap in Hks as ([k l] & -> & [Hc Hit]%list_elem_of_filter).
    apply list_elem_of_fmap in Hin as (eh & Heh%hash_string_eq & Hin). apply cm_iter_elem in Hit.
    exists k, l, eh. split_and!; try done.
  - intros (k & l & eh & Hl & Hc & Hin & <-). eapply cleaned_keys_hashes; [|done|done].
    unfold cleaned_keys. apply list_elem_of_fmap. exists (k, l). split; [done|].
    apply list_elem_of_filter. split; [done|by apply cm_iter_elem].
Qed.

(** What cleaning leaves at a height. *)
Lemma without_cleaned_keys c minHeight h :
  0 <= h ->
  without (cleaned_keys minHeight (cm_iter (heightToBlockHeaders c))) (hdrs c) (height_key h)
  = if decide (h < minHeight /\ h < 2 ^ 63) then None else hdrs c !! height_key h.
Proof.
  intros Hh. unfold without, cleaned_keys.
  assert (height_key h ∈ fst <$> filter (fun item => cleaned_height minHeight item.1 = true)
      (cm_iter (heightToBlockHeaders c))
    <-> (h < minHeight /\ h < 2 ^ 63) /\ is_Some (hdrs c !! height_key h)) as Hiff.
  { rewrite list_elem_of_fmap. setoid_rewrite list_elem_of_filter.
    assert (cleaned_height minHeight (height_key h) = true <-> h < minHeight /\ h < 2 ^ 63) as Hch.
    { unfold cleaned_height, height_key. rewrite atoi_format_uint by done.
      case_decide; [rewrite bool_decide_eq_true; tauto|]. split; [done|tauto]. }
    rewrite <- Hch. split.
    - intros ([k l] & Hk & Hc & Hin). simpl in *. subst k. apply cm_iter_elem in Hin. split; [done|by exists l].
    - intros [Hc [l Hl]]. exists (height_key h, l). split_and!; [done|done|by apply cm_iter_elem]. }
  destruct (decide (height_key h ∈ _)) as [Hin|Hni].
  - apply Hiff in Hin as [Hc _]. by rewrite decide_True.
  - case_decide as Hc; [|done]. destruct (hdrs c !! height_key h) eqn:Hl; [|done]. exfalso. apply Hni, Hiff. eauto.
Qed.

(** C35: Cleaning. With no chain state, or fewer stored heights than [maxSize], nothing changes.
    Otherwise the chain state is cut to [maxSize] entries, exactly the heights below
    [head - maxSize + 1] lose their headers (a stored height of 2^63 or more does not parse as an [int]
    and stays), and the metadata, body and difficulty of exactly the hashes filed there are removed, all three, while every other hash keeps all three. If the entries of the chain state descend by at most one
    height at a time, no entry that is left loses its header. *)
Theorem Chain_clean_spec c maxSize :
  chain_ok valid c -> 0 <= maxSize ->
  let head := height (chain_head (chainState c)) in
  let mh := min_height c maxSize in
  exists c' lo hi num, Chain_clean c maxSize = Ret (c', lo, hi, num) /\ chain_ok valid c' /\
    (chainState c = [] \/ cm_count (heightToBlockHeaders c) < maxSize -> c' = c /\ num = 0) /\
    (chainState c <> [] -> maxSize <= cm_count (heightToBlockHeaders c) ->
       chainState c' = take (Z.to_nat maxSize) (chainState c) /\
       (forall h, 0 <= h -> hdrs c' !! height_key h
          = if decide (h < mh /\ h < 2 ^ 63) then None else hdrs c !! height_key h) /\
       (forall h, filed_below c mh h ->
          metas c' !! hash_string h = None /\ bodies c' !! hash_string h = None /\ tds c' !! hash_string h = None) /\
       (forall h, ~ filed_below c mh h ->
          metas c' !! hash_string h = metas c !! hash_string h /\
          bodies c' !! hash_string h = bodies c !! hash_string h /\ tds c' !! hash_string h = tds c !! hash_string h) /\
       (head < 2 ^ 62 -> maxSize < 2 ^ 62 ->
        (forall i r, chainState c !! i = Some r -> head - Z.of_nat i <= height r) ->
        forall r, r ∈ chainState c' -> getBlockHeader c' (height r) (hash r) = getBlockHeader c (height r) (hash r))).
Proof.
  intros Hok Hsize. cbn zeta.
  destruct (Chain_clean_returns c maxSize Hsize) as (c' & lo & hi & num & Heq & Hskip & Hrun).
  exists c', lo, hi, num. split; [done|].
  assert (forall h, 0 <= h -> chainState c <> [] -> maxSize <= cm_count (heightToBlockHeaders c) ->
    hdrs c' !! height_key h
    = if decide (h < min_height c maxSize /\ h < 2 ^ 63) then None else hdrs c !! height_key h) as Hhdr.
  { intros h Hh Hne Hcount. destruct (Hrun Hne Hcount) as [(c1 & (Gh & _) & ->) _].
    change (hdrs (with_state c1 (take (Z.to_nat maxSize) (chainState c)))) with (hdrs c1).
    rewrite Gh. by apply without_cleaned_keys. }
  split; [|split; [exact Hskip|]].
  - destruct (decide (chainState c = [])); [by destruct Hskip as [-> _]; auto|].
    destruct (decide (cm_count (heightToBlockHeaders c) < maxSize)); [by destruct Hskip as [-> _]; auto|].
    eapply cleaned_ok; [done..|]. apply Hrun; [done|lia].
  - intros Hne Hcount. pose proof (Hrun Hne Hcount) as [(c1 & Hg & ->) _]. split; [done|].
    split; [intros h Hh; by apply Hhdr|]. split.
    + destruct Hg as (_ & Gm & Gb & Gt & _). intros h Hf%cleaned_hashes_elem. split_and!;
        [refine (eq_trans (Gm _) _)|refine (eq_trans (Gb _) _)|refine (eq_trans (Gt _) _)]; unfold without; by rewrite decide_True.
    + split.
      { destruct Hg as (_ & Gm & Gb & Gt & _). intros h Hf. rewrite <- cleaned_hashes_elem in Hf. split_and!;
          [refine (eq_trans (Gm _) _)|refine (eq_trans (Gb _) _)|refine (eq_trans (Gt _) _)]; unfold without; by rewrite decide_False. }
      intros Hhead Hmax Hdesc r Hr. rewrite !getBlockHeader_spec.
      change (chainState (with_state c1 (take (Z.to_nat maxSize) (chainState c))))
        with (take (Z.to_nat maxSize) (chainState c)) in Hr.
      apply list_elem_of_lookup in Hr as [i Hi]. apply lookup_take_Some in Hi as [Hi Hlt].
      pose proof (Hdesc i r Hi) as Hge.
      assert (0 <= height r) as Hpos.
      { pose proof (ok_refs _ c Hok) as Hrefs. rewrite Forall_lookup in Hrefs.
        destruct (Hrefs i r Hi) as (hd & _ & _ & <-). apply header_number_range. }
      assert (0 <= height (chain_head (chainState c))) as Hpos0.
      { destruct (chainState c) as [|q s] eqn:Hs; [done|]. pose proof (ok_refs _ c Hok) as Hrefs. rewrite Hs in Hrefs.
        apply Forall_cons in Hrefs as [(hd & _ & _ & Hn) _]. simpl. rewrite <- Hn. apply header_number_range. }
      rewrite Hhdr by done. rewrite decide_False; [done|].
      unfold min_height. drop_int64. lia.
Qed.

End Properties.

Section Difficulty.
Context `{EthLaws} {M : Type -> Type} `{ConcurrentMapLaws M}.
Implicit Types c : Chain M.

(** [ValidateBlock] refuses a block that was stored, sent and confirmed as already seen, and,
    once there is a head, one more than 100 above it; it accepts the others. A block number of
    2^63 or more, which the callers pass as a negative [int64], is accepted whatever the head. *)
Theorem ValidateBlock_spec c h ht :
  0 <= height (chain_head (chainState c)) < 2 ^ 63 - 100 ->
  let seen := HasBlock c h && HasSentToBDN c h && HasConfirmedBlock c h in
  let head := height (chain_head (chainState c)) in
  (ValidateBlock c h ht = Some ErrAlreadySeen <-> seen = true) /\
  (ValidateBlock c h ht = None <-> seen = false /\ (head = 0 \/ ht <= head + maxFutureBlockNumber)) /\
  (forall number, 2 ^ 63 <= number < 2 ^ 64 -> seen = false -> ValidateBlock c h (int64 number) = None).
Proof.
  intros Hhead. cbn zeta. unfold ValidateBlock, maxFutureBlockNumber.
  destruct (HasBlock c h && HasSentToBDN c h && HasConfirmedBlock c h); [naive_solver|].
  rewrite uint64_small by (unfold is_uint64; lia). drop_int64. split_and!.
  - split; [|done]. by case_decide.
  - case_decide; split; try done; [intros [_ ?]; lia|]. intros _. split; [done|].
    destruct (decide (height (chain_head (chainState c)) = 0)); lia.
  - intros number Hn _. rewrite int64_high by done. rewrite decide_False by lia. done.
Qed.

(** What [SetTotalDifficulty] does on every path. A known difficulty is left alone; with the
    parent's difficulty stored, the block's becomes their sum; otherwise there is an error. The sum
    is stored for the block's own children exactly when its low 64 bits are positive as a signed
    number: beyond 2^63 the difficulty may be dropped, and the next block has none to add to. *)
Theorem SetTotalDifficulty_spec c info :
  let '(c', info', err) := SetTotalDifficulty c info in
  let h := block_hash (bi_Block info) in
  let parent := getBlockDifficulty c (block_parent (bi_Block info)) in
  (forall td, TotalDifficulty info = Some td -> c' = c /\ info' = info /\ err = None) /\
  (TotalDifficulty info = None -> parent = None -> c' = c /\ info' = info /\ is_Some err) /\
  (TotalDifficulty info = None -> forall p, parent = Some p ->
     let td := p + block_difficulty (bi_Block info) in
     err = None /\ totalDifficulty info' = td /\ bi_Block info' = bi_Block info /\
     getBlockDifficulty c' h = if decide (0 < int64 td) then Some td else getBlockDifficulty c h).
Proof.
  unfold SetTotalDifficulty. destruct (TotalDifficulty info) as [td|] eqn:Htd; [naive_solver|].
  destruct (getBlockDifficulty c (block_parent (bi_Block info))) as [p|] eqn:Hp;
    [|split_and!; try done; intros _ _; split_and!; try done; by eexists].
  split_and!; try done. intros _ _ [= <-]. cbn zeta. split_and!; try done.
  set (td := p + block_difficulty (bi_Block info)).
  assert (TotalDifficulty (BlockInfo_SetTotalDifficulty info (Some td)) = if decide (0 < int64 td) then Some td else None) as ->.
  { unfold TotalDifficulty, big_Int64. simpl. repeat case_decide; try done; lia. }
  rewrite !getBlockDifficulty_spec.
  destruct (storeDifficulty_rest c (block_hash (bi_Block (BlockInfo_SetTotalDifficulty info (Some td))))
    (if decide (0 < int64 td) then Some td else None)) as (_ & _ & _ & -> & _).
  case_decide; [|done]. apply lookup_insert_eq.
Qed.

(** A block announced by a peer's status message is never confirmed: its metadata are filed at
    height 0 and stay there when the block itself arrives, so confirming it finds no header and
    leaves the chain state as it is, although the block is stored at its own height. *)
Theorem status_head_not_confirmed c td b :
  let h := block_hash (bi_Block b) in
  let c1 := InitializeDifficulty c h td in
  metas c !! hash_string h = None -> bodies c !! hash_string h = None ->
  h <> nil_header_hash -> 0 < block_number (bi_Block b) ->
  (forall l eh, hdrs c !! height_key 0 = Some l -> eh ∈ l -> header_ptr_hash (eh_Header eh) <> h) ->
  exists c2, AddBlock c1 b BSBDN = Ret (0, c2) /\ HasBlock c2 h = true /\
    (exists bm, getBlockMetadata c2 h = Some bm /\ bm_height bm = 0) /\
    exists c3, ConfirmBlock c2 h = Ret (0, c3) /\ chainState c3 = chainState c.
Proof.
  cbn zeta. intros Hm Hb Hnil Hnum Hzero. set (h := block_hash (bi_Block b)) in *.
  set (c1 := InitializeDifficulty c h td).
  set (ca := storeBlockDifficulty c h td). set (cb := storeEthHeaderAtHeight ca 0 (mkethHeader None h)).
  destruct (storeDifficulty_rest c h td) as (Ah & Am & Ab & _ & As & _). fold ca in Ah, Am, Ab, As.
  destruct (storeEthHeader_rest ca 0 (mkethHeader None h)) as (Bm & Bb & _ & Bs & _). fold cb in Bm, Bb, Bs.
  pose proof (storeEthHeader_hdrs ca 0 (mkethHeader None h)) as Bh. fold cb in Bh.
  destruct (storeMetadata_rest cb h 0 true false) as (Ch & Cb & _ & Cs & _).
  pose proof (storeMetadata_metas cb h 0 true false) as Cm.
  change (storeBlockMetadata cb h 0 true false) with c1 in Ch, Cb, Cs, Cm.
  rewrite Bm, Am, Hm in Cm. simpl in Cm.
  assert (HasBlock c1 h = false) as Hhas.
  { apply not_true_iff_false. rewrite HasBlock_spec. intros [_ Hbody].
    rewrite Cb, Bb, Ab, Hb in Hbody. by destruct Hbody. }
  destruct (storeBlock_spec c1 (bi_Block b) (TotalDifficulty b) BSBDN) as (Dh & Dm & Db & _ & Ds & _). cbn zeta in *.
  set (c2 := storeBlock c1 (bi_Block b) (TotalDifficulty b) BSBDN) in *.
  rewrite <- block_hash_header in Dm, Db. fold h in Dm, Db.
  rewrite Cm, lookup_insert_eq in Dm. simpl in Dm.
  exists c2. unfold AddBlock. fold h. rewrite Hhas. fold c2. rewrite decide_True by done. split; [done|].
  assert (getBlockMetadata c2 h = Some (mkblockMetadata 0 false true false)) as Hmeta.
  { rewrite getBlockMetadata_spec, Dm. apply lookup_insert_eq. }
  split; [apply HasBlock_spec; rewrite Dm, Db, !lookup_insert_eq; split; by eexists|].
  split; [by eexists|]. unfold ConfirmBlock. rewrite Hmeta. simpl.
  match goal with |- context [getBlockHeader ?c' 0 h] => assert (getBlockHeader c' 0 h = None) as -> end.
  2:{ eexists. split; [done|]. simpl. congruence. }
  rewrite getBlockHeader_spec. simpl. change (hdrs (with_metadata c2 _)) with (hdrs c2).
  rewrite Dh, lookup_insert_ne, Ch, Bh, Ah, lookup_insert_eq.
  2:{ intros Heq%height_key_inj; [|apply header_number_range|done]. rewrite block_number_header in Hnum. lia. }
  apply eq_None_not_Some. intros Hs%find_header_is_Some.
  destruct Hs as (x & Hx & Hxh). apply list_elem_of_fmap in Hx as (eh & -> & Hin).
  apply elem_of_app in Hin as [Hin| ->%list_elem_of_singleton]; [|by apply Hnil].
  destruct (hdrs c !! height_key 0) as [l|] eqn:Hl; [|by apply not_elem_of_nil in Hin]. by eapply Hzero.
Qed.
End Difficulty.

(** ** Witnesses *)
Lemma ex_chain_step c source b : toy_valid (tbk_header b) -> rtc (chain_step toy_valid) c (ex_add c source b).
Proof.
  intros Hv. unfold ex_add. destruct (AddBlock c (ex_info b) source) as [[n c']| |] eqn:Hadd; [|done..].
  apply rtc_once. by eapply (step_AddBlock toy_valid c (ex_info b) source).
Qed.

Lemma ex_chain_reachable : rtc (chain_step toy_valid) NewChain ex_chain.
Proof.
  transitivity ex_chain1; [by apply ex_chain_step|]. transitivity ex_chain2; by apply ex_chain_step.
Qed.

Lemma ex_chain_ok : chain_ok toy_valid ex_chain.
Proof.
  pose proof ex_chain_reachable as Hr. assert (chain_ok toy_valid (NewChain (M:=gmap string))) as Hok by apply newChain_ok.
  revert Hok. induction Hr as [|x y z Hxy Hyz IH]; [done|]. intros Hx. apply IH.
  eapply chain_step_ok; [apply toy_valid_not_nil|done..].
Qed.

Example chain_reachable_ok_witness : chain_ok toy_valid ex_chain.
Proof.
  apply (chain_reachable_ok toy_valid toy_valid_not_nil maxReorgLength minValidChainLength). apply ex_chain_reachable.
Defined.

Example AddBlock_spec_witness :
  exists n c', AddBlock ex_chain (ex_info (toy 103 102 13)) BSBlockchain = Ret (n, c') /\
    chain_ok toy_valid c' /\ HasBlock c' (toy_id 103) = true /\ HasConfirmedBlock c' (toy_id 103) = true /\
    update_result c' (chainState ex_chain) (toy_ref 13 103) (toy_id 102) n (chainState c').
Proof.
  pose proof (AddBlock_spec toy_valid toy_valid_not_nil ex_chain (ex_info (toy 103 102 13)) BSBlockchain ex_chain_ok) as Hspec.
  cbn zeta in Hspec. destruct Hspec as [(n & c' & Heq & Hok & _ & Hhas & Hconf & _ & Hup)|(_ & _ & _ & Hbig & _)]; [done| |].
  - exists n, c'. split; [exact Heq|]. split; [exact Hok|]. split; [exact Hhas|]. split; [|exact Hup].
    refine (eq_trans Hconf _). apply orb_true_r.
  - exfalso. revert Hbig. rewrite ex_chain_state. by vm_compute.
Defined.

Example canonical_block_twice_witness :
  exists c', AddBlock ex_chain (ex_info (toy 103 102 13)) BSBlockchain = Ret (1, c') /\
    getHeaderAtHeight c' 12 = Fail no_header.
Proof.
  destruct (canonical_block_twice toy_valid ex_chain (ex_info (toy 103 102 13))
    (toy_ref 12 102) [toy_ref 11 101; toy_ref 10 100] ex_chain_ok)
    as (c' & Heq & _ & Hget);
    [done|reflexivity|reflexivity|vm_cast_no_check (@eq_refl (option (list ethHeader)) None)
    |apply ex_chain_state|reflexivity|reflexivity|vm_cast_no_check (@eq_refl (option (option Header)) None)|].
  exists c'. split; [exact Heq|exact Hget].
Defined.

Example GetNewHeadsForBDN_spec_witness :
  exists heads err, GetNewHeadsForBDN ex_chain 2 = Ret (heads, err) /\
    Forall2 (head_info ex_chain) (take (length heads) (chainState ex_chain)) heads.
Proof.
  destruct (GetNewHeadsForBDN_spec toy_valid toy_valid_not_nil ex_chain 2 ex_chain_ok) as (heads & err & Heq & Hf & _);
    [lia|unfold max_alloc; lia|].
  exists heads, err. split; [exact Heq|exact Hf].
Defined.

Example Chain_clean_spec_witness :
  exists c' lo hi num, Chain_clean ex_chain 2 = Ret (c', lo, hi, num) /\
    chainState c' = [toy_ref 12 102; toy_ref 11 101] /\
    hdrs c' !! height_key 10 = None /\
    bodies c' !! hash_string (toy_id 100 : Hash) = None /\ tds c' !! hash_string (toy_id 100 : Hash) = None.
Proof.
  destruct (Chain_clean_spec toy_valid ex_chain 2 ex_chain_ok) as (c' & lo & hi & num & Heq & _ & _ & Hrun);
    [lia|].
  destruct Hrun as (Hst & Hh & Hgone & _); [by rewrite ex_chain_state|vm_compute; congruence|].
  exists c', lo, hi, num. split; [exact Heq|]. split; [|split].
  - rewrite Hst, ex_chain_state. reflexivity.
  - rewrite Hh by lia. unfold min_height. rewrite ex_chain_state. reflexivity.
  - destruct (Hgone (toy_id 100)) as (_ & Hb & Ht); [|split; [exact Hb|exact Ht]].
    unfold min_height. rewrite ex_chain_state.
    set (eh := mkethHeader (Some (mkToyHeader 100 99 10 : @Header toy_EthTypes)) (toy_id 100 : @Hash toy_EthTypes)).
    exists (height_key 10), [eh], eh.
    split; [|split; [reflexivity|split; [by left|reflexivity]]].
    vm_cast_no_check (@eq_refl (option (list ethHeader)) (hdrs ex_chain !! height_key 10)).
Defined.

Example ValidateBlock_spec_witness :
  ValidateBlock ex_chain (toy_id 200) 113 <> None /\
  ValidateBlock ex_chain (toy_id 200) (int64 (2 ^ 63)) = None.
Proof.
  assert (height (chain_head (chainState ex_chain)) = 12) as Hh by (by rewrite ex_chain_state).
  destruct (ValidateBlock_spec ex_chain (toy_id 200) 113) as (_ & Hnone & Hbypass); [rewrite Hh; lia|].
  rewrite Hh in Hnone. split.
  - intros Hn. apply Hnone in Hn as [_ [Hz|Hle]]; [lia|unfold maxFutureBlockNumber in Hle; lia].
  - apply Hbypass; [lia|vm_cast_no_check (@eq_refl bool false)].
Defined.

Example status_head_not_confirmed_witness :
  exists c2, AddBlock (InitializeDifficulty (NewChain (M:=gmap string)) (toy_id 105) (Some 9)) (ex_info (toy 105 104 15)) BSBDN = Ret (0, c2) /\
    exists c3, ConfirmBlock c2 (toy_id 105) = Ret (0, c3) /\ chainState c3 = [].
Proof.
  assert (forall (V : Type) k, cm_view (cm_new : gmap string V) !! k = None) as Hempty by (intros; apply lookup_empty).
  destruct (status_head_not_confirmed (NewChain (M:=gmap string)) (Some 9) (ex_info (toy 105 104 15)))
    as (c2 & Heq & _ & _ & c3 & Hc & Hs);
    [apply Hempty|apply Hempty|by intros ?|done|intros l eh Hl; rewrite (Hempty _ _ : hdrs NewChain !! _ = None) in Hl; done|].
  exists c2. split; [exact Heq|]. exists c3. split; [exact Hc|exact Hs].
Defined.

(** A parent difficulty of 2^63 - 1: the sum is computed but not stored. *)
Example SetTotalDifficulty_spec_witness :
  let c := storeBlockDifficulty ex_chain (toy_id 102) (Some (2 ^ 63 - 1)) in
  let '(c', info', err) := SetTotalDifficulty c (NewBlockInfo (toy 103 102 13 : Block) None) in
  err = None /\ totalDifficulty info' = 2 ^ 63 + 2 /\ getBlockDifficulty c' (toy_id 103) = None.
Proof.
  intros c. pose proof (SetTotalDifficulty_spec c (NewBlockInfo (toy 103 102 13 : Block) None)) as Hspec.
  destruct (SetTotalDifficulty c _) as [[c' info'] err]. cbn zeta in Hspec.
  destruct Hspec as (_ & _ & Hsum). destruct (Hsum eq_refl (2 ^ 63 - 1)) as (Herr & Htd & _ & Hget);
    [vm_cast_no_check (@eq_refl (option Z) (Some (2 ^ 63 - 1)))|].
  split; [exact Herr|]. split; [refine (eq_trans Htd _); vm_cast_no_check (@eq_refl Z (2 ^ 63 + 2))|]. refine (eq_trans Hget _).
  vm_cast_no_check (@eq_refl (option Z) None).
Defined.
