(* ===== verification/ChainHeaders.v ===== *)
(** Header queries: [GetHeaders] terminates on every request, and answers as specified on a chain
    state with one stored entry per height. *)
From S2P Require Import Prelude CMap EthTypes Chain ChainFacts ChainExamples.

Section Headers.
Context `{EthLaws} {M : Type -> Type} `{ConcurrentMapLaws M}.
Implicit Types c : Chain M.

(** *** Termination and size, in any state *)
Lemma more_headers_returns fuel c ht increment count requested :
  count - Z.of_nat (length requested) <= Z.of_nat fuel ->
  exists r, more_headers fuel c ht increment count requested = Some r /\
    forall l, r = Ok l -> exists more, l = requested ++ more /\
      Z.of_nat (length l) <= Z.max (Z.of_nat (length requested)) count /\ Forall (fun x => x <> None) more.
Proof.
  revert ht requested. induction fuel as [|fuel IH]; intros ht requested Hf; cbn [more_headers].
  - rewrite decide_True by lia. eexists. split; [done|]. intros l [= <-]. exists []. rewrite app_nil_r.
    split_and!; [done|lia|constructor].
  - case_decide as Hc.
    { eexists. split; [done|]. intros l [= <-]. exists []. rewrite app_nil_r. split_and!; [done|lia|constructor]. }
    destruct (getHeaderAtHeight c (uint64 ht)) as [[hd|]|e].
    + destruct (IH (int64 (ht + increment)) (requested ++ [Some hd])) as (r & -> & Hr); [rewrite length_app; simpl; lia|].
      exists r. split; [done|]. intros l Hl. destruct (Hr l Hl) as (more & -> & Hlen & Hm).
      exists (Some hd :: more). rewrite <- app_assoc. split_and!; [done| |by constructor].
      rewrite !length_app in *. simpl in *. lia.
    + eexists. split; [done|]. intros l [= <-]. exists []. rewrite app_nil_r. split_and!; [done|lia|constructor].
    + eexists. split; [done|]. done.
Qed.

Lemma origin_length c start ht l : origin_headers c start = Ok (ht, l) -> (length l <= 1)%nat.
Proof.
  unfold origin_headers. intros Ho. destruct (decide (0 < hon_Number start)).
  - destruct (decide (_ < hon_Number start)); [done|].
    destruct (match chain_tail _ with Some _ => _ | None => _ end); [done|].
    destruct (getHeaderAtHeight c (hon_Number start)) as [[]|]; try (injection Ho as <- <-); simpl; try lia; done.
  - case_decide; [|done]. destruct (getBlockMetadata c (hon_Hash start)) as [bm|]; [|done].
    destruct (getBlockHeader c (bm_height bm) (hon_Hash start)); [|done]. injection Ho as <- <-. simpl. lia.
Qed.

(** C39: [GetHeaders] terminates on every request: it returns an error or at most [count] headers
    (one, if [count] is 0). The one way it fails is a negative or absurdly large [count], which the
    run time refuses to allocate for. *)
Theorem GetHeaders_total c start count skip reverse :
  (0 <= count /\ count * 8 <= max_alloc ->
     exists r, GetHeaders c start count skip reverse = Ret r /\
       forall l, r = Ok l -> Z.of_nat (length l) <= Z.max 1 count) /\
  (count < 0 \/ max_alloc < count * 8 -> GetHeaders c start count skip reverse = Panics MakeSliceTooLarge).
Proof.
  split.
  - intros [Hpos Hmax]. unfold GetHeaders. rewrite make_cap_ok by done. go_simpl.
    destruct (origin_headers c start) as [[ht l0]|e] eqn:Ho; [|eexists; split; [done|]; done].
    apply origin_length in Ho as Hlen. case_decide as Hc.
    { eexists. split; [done|]. intros l [= <-]. lia. }
    set (increment := int64 (int64 (skip + 1) * (if reverse then -1 else 1))).
    destruct (more_headers_returns (Z.to_nat count) c (int64 (int64 ht + increment)) increment count l0)
      as (r & -> & Hr); [lia|].
    exists r. split; [done|]. intros l Hl. destruct (Hr l Hl) as (more & -> & Hlen' & _). lia.
  - intros Hbad. unfold GetHeaders. by rewrite make_cap_panics.
Qed.

(** *** The answer, on a tidy chain state

    [tidy c hs]: the chain state has one entry per height, descending, with the headers [hs]
    stored for its entries. *)
Record tidy c (hs : list Header) : Prop := {
  tidy_height i r : chainState c !! i = Some r -> height r = height (chain_head (chainState c)) - Z.of_nat i;
  tidy_headers : Forall2 (fun r hd => getBlockHeader c (height r) (hash r) = Some (Some hd)) (chainState c) hs;
  tidy_nonempty : chainState c <> [];
  tidy_range : 0 < height (chain_head (chainState c)) - refs_len (chainState c) + 1 /\
               height (chain_head (chainState c)) < 2 ^ 62
}.

Definition head_height c : Z := height (chain_head (chainState c)).
Definition tail_height c : Z := head_height c - refs_len (chainState c) + 1.

(** The header at a height. *)
Definition header_for c (hs : list Header) (ht : Z) : option Header := hs !! Z.to_nat (head_height c - ht).

Lemma getHeaderAtHeight_tidy c hs ht :
  tidy c hs -> - 2 ^ 62 <= ht < 2 ^ 63 ->
  getHeaderAtHeight c (uint64 ht)
  = if decide (head_height c < ht) then Ok None
    else if decide (ht < tail_height c) then Fail no_header
    else Ok (header_for c hs ht).
Proof.
  intros Ht Hrange. pose proof (tidy_range c hs Ht) as Hr. pose proof (tidy_nonempty c hs Ht) as Hne.
  unfold getHeaderAtHeight, tail_height, header_for, head_height.
  destruct (chainState c) as [|head s] eqn:Hs; [done|]. cbn [chain_head] in *.
  assert (1 <= refs_len (head :: s)) as Hlen1 by (unfold refs_len; simpl; lia).
  set (hh := height head) in *. rewrite <- Hs in *.
  assert (int64 (uint64 (hh - uint64 ht)) = hh - ht) as ->.
  { unfold uint64. rewrite Zminus_mod_idemp_r. unfold int64.
    rewrite Zplus_mod_idemp_l. rewrite Z.mod_small; lia. }
  destruct (decide (hh < ht)); [by rewrite decide_True by lia|]. rewrite decide_False by lia.
  assert (refs_len (chainState c) = Z.of_nat (length (chainState c))) as Hlen by done.
  destruct (decide (ht < hh - refs_len (chainState c) + 1)); [by rewrite decide_True by lia|].
  rewrite decide_False by lia.
  destruct (lookup_lt_is_Some_2 (chainState c) (Z.to_nat (hh - ht))) as [r Hlook]; [lia|].
  rewrite Hlook. pose proof (tidy_height c hs Ht _ _ Hlook) as Hh. rewrite Hs in Hh. simpl in Hh. fold hh in Hh.
  assert (height r = ht) as Hrh by lia.
  destruct (Forall2_lookup_l _ _ _ _ _ (tidy_headers c hs Ht) Hlook) as (hd & Hhd & Hget).
  rewrite Hrh in Hget. rewrite (uint64_small ht) by (unfold is_uint64; lia). by rewrite Hget, Hhd.
Qed.

(** The heights a request asks for, and what a list of heights is answered with: the headers up
    to the first height above the head; an error if a height below the tail comes first. *)
Definition requested_heights (origin step : Z) (n : nat) : list Z :=
  (fun k => origin + Z.of_nat k * step) <$> seq 0 n.

Fixpoint answer c (hs : list Header) (heights : list Z) : result (list (option Header)) :=
  match heights with
  | [] => Ok []
  | ht :: heights =>
      if decide (head_height c < ht) then Ok []
      else if decide (ht < tail_height c) then Fail no_header
      else rest ← answer c hs heights; mret (header_for c hs ht :: rest)
  end.

Lemma header_for_Some c hs ht : tidy c hs -> tail_height c <= ht <= head_height c -> is_Some (header_for c hs ht).
Proof.
  intros Ht Hr. unfold header_for, tail_height in *. apply lookup_lt_is_Some_2.
  rewrite <- (Forall2_length _ _ _ (tidy_headers c hs Ht)). unfold refs_len in *. lia.
Qed.

Lemma requested_heights_cons origin step n :
  requested_heights origin step (S n) = origin :: requested_heights (origin + step) step n.
Proof.
  unfold requested_heights. simpl. f_equal; [lia|]. rewrite <- seq_shift, <- list_fmap_compose.
  apply list_fmap_ext. intros i k _. simpl. lia.
Qed.

Lemma more_headers_answer c hs fuel ht step n requested :
  tidy c hs -> (n <= fuel)%nat -> - 2 ^ 61 <= step <= 2 ^ 61 -> - 2 ^ 62 <= ht < 2 ^ 63 ->
  more_headers fuel c ht step (Z.of_nat (length requested) + Z.of_nat n) requested
  = Some (rest ← answer c hs (requested_heights ht step n); mret (requested ++ rest)).
Proof.
  intros Ht. revert fuel ht requested. induction n as [|n IH]; intros fuel ht requested Hfuel Hstep Hht.
  { destruct fuel; cbn [more_headers]; rewrite decide_True by lia; simpl; by rewrite app_nil_r. }
  destruct fuel as [|fuel]; [lia|]. cbn [more_headers]. rewrite decide_False by lia.
  rewrite (getHeaderAtHeight_tidy c hs ht Ht) by lia.
  rewrite requested_heights_cons. cbn [answer].
  destruct (decide (head_height c < ht)) as [Habove|Habove]; [go_simpl; by rewrite app_nil_r|].
  destruct (decide (ht < tail_height c)) as [Hbelow|Hbelow]; [done|].
  destruct (header_for_Some c hs ht Ht ltac:(lia)) as [hd Hhd]. rewrite Hhd.
  pose proof (tidy_range c hs Ht). unfold tail_height, head_height in Habove, Hbelow.
  rewrite (int64_small (ht + step)) by (unfold is_int64; lia).
  replace (Z.of_nat (length requested) + Z.of_nat (S n))
    with (Z.of_nat (length (requested ++ [Some hd])) + Z.of_nat n) by (rewrite length_app; simpl; lia).
  rewrite IH by lia. destruct (answer c hs _); go_simpl; [|done]. by rewrite <- app_assoc.
Qed.

(** C32: On a chain state with one stored entry per height, a request by number is answered with the
    headers at the requested heights, [skip + 1] apart, upwards or downwards from the origin: an
    upward answer ends at the head; a downward one that would go below the oldest entry is an
    error; an origin above the head is a future request, one below the oldest entry an ancient
    one. *)
Theorem GetHeaders_by_number c hs h number count skip (reverse : bool) :
  tidy c hs -> 0 < number < 2 ^ 62 -> 0 < count -> count * 8 <= max_alloc -> 0 <= skip < 2 ^ 61 ->
  let step := if reverse then - (skip + 1) else skip + 1 in
  let r := GetHeaders c (mkHashOrNumber h number) count skip reverse in
  (head_height c < number -> r = Ret (Fail ErrFutureHeaders)) /\
  (number < tail_height c -> r = Ret (Fail ErrAncientHeaders)) /\
  (tail_height c <= number <= head_height c ->
     r = Ret (answer c hs (requested_heights number step (Z.to_nat count)))).
Proof.
  intros Ht Hnum Hcount Hmax Hskip. cbn zeta.
  pose proof (tidy_range c hs Ht) as Hrange. pose proof (tidy_nonempty c hs Ht) as Hne.
  unfold GetHeaders. rewrite make_cap_ok by lia. go_simpl.
  unfold origin_headers. cbn [hon_Number hon_Hash]. rewrite decide_True by lia.
  fold (head_height c) in *.
  assert (exists tl, chain_tail (chainState c) = Some tl /\ height tl = tail_height c) as (tl & Htl & Htlh).
  { unfold chain_tail. rewrite last_lookup.
    destruct (lookup_lt_is_Some_2 (chainState c) (pred (length (chainState c)))) as [tl Htl].
    { destruct (chainState c); [done|simpl; lia]. }
    exists tl. split; [done|]. rewrite (tidy_height c hs Ht _ _ Htl). unfold tail_height, head_height, refs_len.
    destruct (chainState c); [done|simpl; lia]. }
  rewrite Htl, Htlh. split_and!.
  - intros Hf. by rewrite decide_True by lia.
  - intros Ha. unfold tail_height in *.
    destruct (chainState c) eqn:Hs; [done|]. rewrite decide_False by (unfold refs_len in *; simpl in *; lia).
    by rewrite bool_decide_true by lia.
  - intros Hin. rewrite decide_False by lia. rewrite bool_decide_false by lia.
    assert (is_uint64 number) as Hu by (unfold is_uint64; lia).
    pose proof (getHeaderAtHeight_tidy c hs number Ht ltac:(lia)) as Hget.
    rewrite (uint64_small number Hu), decide_False, decide_False in Hget by lia. rewrite Hget. go_simpl.
    destruct (header_for_Some c hs number Ht Hin) as [hd Hhd]. rewrite Hhd.
    destruct (Z.to_nat count) as [|n] eqn:Hn; [lia|].
    rewrite requested_heights_cons. cbn [answer].
    rewrite (decide_False (P := head_height c < number)), (decide_False (P := number < tail_height c)) by lia.
    rewrite Hhd. case_decide as Hone.
    { subst count. assert (n = 0)%nat as -> by lia. done. }
    set (step := if reverse then - (skip + 1) else skip + 1).
    assert (int64 (int64 (skip + 1) * (if reverse then -1 else 1)) = step) as ->.
    { unfold step. rewrite (int64_small (skip + 1)) by (unfold is_int64; lia).
      rewrite int64_small; unfold is_int64; destruct reverse; lia. }
    assert (- 2 ^ 61 <= step <= 2 ^ 61) as Hstep by (unfold step; destruct reverse; lia).
    rewrite (int64_small number) by (unfold is_int64; lia).
    rewrite (int64_small (number + step)) by (unfold is_int64; lia).
    pose proof (more_headers_answer c hs (S n) (number + step) step n [Some hd] Ht ltac:(lia) Hstep ltac:(lia)) as Hmore.
    simpl length in Hmore. replace (Z.of_nat 1 + Z.of_nat n) with count in Hmore by lia.
    rewrite Hmore. done.
Qed.
End Headers.

Lemma ex_chain_tidy :
  tidy ex_chain [mkToyHeader 102 101 12; mkToyHeader 101 100 11; mkToyHeader 100 99 10].
Proof.
  split.
  - rewrite ex_chain_state. intros i r Hr. simpl chain_head. simpl height.
    do 3 (destruct i as [|i]; [by injection Hr as <-|]). done.
  - rewrite ex_chain_state. repeat constructor.
  - by rewrite ex_chain_state.
  - rewrite ex_chain_state. unfold refs_len. simpl. lia.
Qed.

(** Three headers down from the head, and two from below the head upwards. *)
Example GetHeaders_by_number_witness :
  GetHeaders ex_chain (mkHashOrNumber zero_Hash 12) 3 0 true
  = Ret (Ok [Some (mkToyHeader 102 101 12); Some (mkToyHeader 101 100 11); Some (mkToyHeader 100 99 10)]) /\
  GetHeaders ex_chain (mkHashOrNumber zero_Hash 11) 5 0 false
  = Ret (Ok [Some (mkToyHeader 101 100 11); Some (mkToyHeader 102 101 12)]).
Proof.
  destruct (GetHeaders_by_number ex_chain _ zero_Hash 12 3 0 true ex_chain_tidy) as (_ & _ & H12);
    [lia|lia|unfold max_alloc; lia|lia|].
  destruct (GetHeaders_by_number ex_chain _ zero_Hash 11 5 0 false ex_chain_tidy) as (_ & _ & H11);
    [lia|lia|unfold max_alloc; lia|lia|].
  assert (head_height ex_chain = 12 /\ tail_height ex_chain = 10) as [Hh Ht] by (vm_compute; split; reflexivity).
  rewrite H12, H11 by (rewrite Hh, Ht; lia). split; vm_compute; reflexivity.
Defined.

Example GetHeaders_total_witness :
  (exists r, GetHeaders ex_chain (mkHashOrNumber zero_Hash 11) 1000 7 true = Ret r) /\
  GetHeaders ex_chain (mkHashOrNumber zero_Hash 11) (-1) 7 true = Panics MakeSliceTooLarge.
Proof.
  split.
  - destruct (GetHeaders_total ex_chain (mkHashOrNumber zero_Hash 11) 1000 7 true) as [[r [Hr _]] _];
      [unfold max_alloc; lia|]. exists r. exact Hr.
  - destruct (GetHeaders_total ex_chain (mkHashOrNumber zero_Hash 11) (-1) 7 true) as [_ Hp]. apply Hp. left. lia.
Defined.
