(* ===== verification/Bridge.v ===== *)
(** [TurboBridge] (blockchain/bridge.go): the channels between the blockchain backend and the gateway.
    The converter it embeds is in [Converter]. *)
From S2P Require Import Prelude Bytes Types Channel.

(** ** Definitions *)
Definition transactionBacklog : Z := 500.
Definition transactionHashesBacklog : Z := 1000.
Definition blockBacklog : Z := 100.
Definition statusBacklog : Z := 10.

Record TransactionAnnouncement := mkTransactionAnnouncement { ta_Hashes : list SHA256Hash; ta_PeerID : string }.
Record TransactionsFromNode := mkTransactionsFromNode {
  tn_Transactions : list TbTransaction;
  tn_PeerEndpoint : NodeEndpoint
}.
Record BlockFromNode := mkBlockFromNode { bn_Block : TbBlock; bn_PeerEndpoint : NodeEndpoint }.

Section Bridge.
(** [network.EthConfig] *)
Context {EthConfig : Type}.

Record TurboBridge := mkTurboBridge {
  br_config : chan EthConfig;
  transactionsFromNode : chan TransactionsFromNode;
  transactionsFromBDN : chan (list TbTransaction);
  transactionHashesFromNode : chan TransactionAnnouncement;
  transactionHashesRequests : chan TransactionAnnouncement;
  blocksFromNode : chan BlockFromNode;
  blocksFromBDN : chan TbBlock;
  confirmedBlockFromNode : chan BlockFromNode;
  noActiveBlockchainPeers : chan unit;
  blockchainStatusRequest : chan unit;
  blockchainStatusResponse : chan (list NodeEndpoint)
}.

Definition NewTurboBridge : TurboBridge :=
  mkTurboBridge (make_chan 0) (make_chan transactionBacklog) (make_chan transactionBacklog)
    (make_chan transactionHashesBacklog) (make_chan transactionHashesBacklog) (make_chan blockBacklog)
    (make_chan blockBacklog) (make_chan blockBacklog) (make_chan 0) (make_chan statusBacklog) (make_chan statusBacklog).

(** [b.config <- config] on an unbuffered channel: it returns once a receiver takes the value. *)
Definition UpdateNetworkConfig (b : TurboBridge) (config : EthConfig) : outcome TurboBridge :=
  c ← send (br_config b) config;
  mret (mkTurboBridge c (transactionsFromNode b) (transactionsFromBDN b) (transactionHashesFromNode b)
    (transactionHashesRequests b) (blocksFromNode b) (blocksFromBDN b) (confirmedBlockFromNode b)
    (noActiveBlockchainPeers b) (blockchainStatusRequest b) (blockchainStatusResponse b)).

Definition SendTransactionsToBDN (b : TurboBridge) (txs : list TbTransaction) (peerEndpoint : NodeEndpoint)
    : option go_error * TurboBridge :=
  let '(err, c) := try_send (transactionsFromNode b) (mkTransactionsFromNode txs peerEndpoint) in
  (err, mkTurboBridge (br_config b) c (transactionsFromBDN b) (transactionHashesFromNode b)
    (transactionHashesRequests b) (blocksFromNode b) (blocksFromBDN b) (confirmedBlockFromNode b)
    (noActiveBlockchainPeers b) (blockchainStatusRequest b) (blockchainStatusResponse b)).

Definition SendTransactionsFromBDN (b : TurboBridge) (transactions : list TbTransaction)
    : option go_error * TurboBridge :=
  let '(err, c) := try_send (transactionsFromBDN b) transactions in
  (err, mkTurboBridge (br_config b) (transactionsFromNode b) c (transactionHashesFromNode b)
    (transactionHashesRequests b) (blocksFromNode b) (blocksFromBDN b) (confirmedBlockFromNode b)
    (noActiveBlockchainPeers b) (blockchainStatusRequest b) (blockchainStatusResponse b)).

Definition AnnounceTransactionHashes (b : TurboBridge) (peerID : string) (hashes : list SHA256Hash)
    : option go_error * TurboBridge :=
  let '(err, c) := try_send (transactionHashesFromNode b) (mkTransactionAnnouncement hashes peerID) in
  (err, mkTurboBridge (br_config b) (transactionsFromNode b) (transactionsFromBDN b) c
    (transactionHashesRequests b) (blocksFromNode b) (blocksFromBDN b) (confirmedBlockFromNode b)
    (noActiveBlockchainPeers b) (blockchainStatusRequest b) (blockchainStatusResponse b)).

Definition RequestTransactionsFromNode (b : TurboBridge) (peerID : string) (hashes : list SHA256Hash)
    : option go_error * TurboBridge :=
  let '(err, c) := try_send (transactionHashesRequests b) (mkTransactionAnnouncement hashes peerID) in
  (err, mkTurboBridge (br_config b) (transactionsFromNode b) (transactionsFromBDN b) (transactionHashesFromNode b)
    c (blocksFromNode b) (blocksFromBDN b) (confirmedBlockFromNode b)
    (noActiveBlockchainPeers b) (blockchainStatusRequest b) (blockchainStatusResponse b)).

Definition SendBlockToBDN (b : TurboBridge) (block : TbBlock) (peerEndpoint : NodeEndpoint)
    : option go_error * TurboBridge :=
  let '(err, c) := try_send (blocksFromNode b) (mkBlockFromNode block peerEndpoint) in
  (err, mkTurboBridge (br_config b) (transactionsFromNode b) (transactionsFromBDN b) (transactionHashesFromNode b)
    (transactionHashesRequests b) c (blocksFromBDN b) (confirmedBlockFromNode b)
    (noActiveBlockchainPeers b) (blockchainStatusRequest b) (blockchainStatusResponse b)).

Definition SendBlockToNode (b : TurboBridge) (block : TbBlock) : option go_error * TurboBridge :=
  let '(err, c) := try_send (blocksFromBDN b) block in
  (err, mkTurboBridge (br_config b) (transactionsFromNode b) (transactionsFromBDN b) (transactionHashesFromNode b)
    (transactionHashesRequests b) (blocksFromNode b) c (confirmedBlockFromNode b)
    (noActiveBlockchainPeers b) (blockchainStatusRequest b) (blockchainStatusResponse b)).

Definition SendConfirmedBlockToGateway (b : TurboBridge) (block : TbBlock) (peerEndpoint : NodeEndpoint)
    : option go_error * TurboBridge :=
  let '(err, c) := try_send (confirmedBlockFromNode b) (mkBlockFromNode block peerEndpoint) in
  (err, mkTurboBridge (br_config b) (transactionsFromNode b) (transactionsFromBDN b) (transactionHashesFromNode b)
    (transactionHashesRequests b) (blocksFromNode b) (blocksFromBDN b) c
    (noActiveBlockchainPeers b) (blockchainStatusRequest b) (blockchainStatusResponse b)).

Definition SendNoActiveBlockchainPeersAlert (b : TurboBridge) : option go_error * TurboBridge :=
  let '(err, c) := try_send (noActiveBlockchainPeers b) tt in
  (err, mkTurboBridge (br_config b) (transactionsFromNode b) (transactionsFromBDN b) (transactionHashesFromNode b)
    (transactionHashesRequests b) (blocksFromNode b) (blocksFromBDN b) (confirmedBlockFromNode b)
    c (blockchainStatusRequest b) (blockchainStatusResponse b)).

Definition SendBlockchainStatusRequest (b : TurboBridge) : option go_error * TurboBridge :=
  let '(err, c) := try_send (blockchainStatusRequest b) tt in
  (err, mkTurboBridge (br_config b) (transactionsFromNode b) (transactionsFromBDN b) (transactionHashesFromNode b)
    (transactionHashesRequests b) (blocksFromNode b) (blocksFromBDN b) (confirmedBlockFromNode b)
    (noActiveBlockchainPeers b) c (blockchainStatusResponse b)).

Definition SendBlockchainStatusResponse (b : TurboBridge) (endpoints : list NodeEndpoint)
    : option go_error * TurboBridge :=
  let '(err, c) := try_send (blockchainStatusResponse b) endpoints in
  (err, mkTurboBridge (br_config b) (transactionsFromNode b) (transactionsFromBDN b) (transactionHashesFromNode b)
    (transactionHashesRequests b) (blocksFromNode b) (blocksFromBDN b) (confirmedBlockFromNode b)
    (noActiveBlockchainPeers b) (blockchainStatusRequest b) c).

(** Receiving from the channel [ReceiveBlockFromNode] returns. *)
Definition ReceiveBlockFromNode (b : TurboBridge) : outcome (BlockFromNode * TurboBridge) :=
  '(v, c) ← recv (blocksFromNode b);
  mret (v, mkTurboBridge (br_config b) (transactionsFromNode b) (transactionsFromBDN b) (transactionHashesFromNode b)
    (transactionHashesRequests b) c (blocksFromBDN b) (confirmedBlockFromNode b)
    (noActiveBlockchainPeers b) (blockchainStatusRequest b) (blockchainStatusResponse b)).

(** Receiving from the channel [ReceiveNodeTransactions] returns. *)
Definition ReceiveNodeTransactions (b : TurboBridge) : outcome (TransactionsFromNode * TurboBridge) :=
  '(v, c) ← recv (transactionsFromNode b);
  mret (v, mkTurboBridge (br_config b) c (transactionsFromBDN b) (transactionHashesFromNode b)
    (transactionHashesRequests b) (blocksFromNode b) (blocksFromBDN b) (confirmedBlockFromNode b)
    (noActiveBlockchainPeers b) (blockchainStatusRequest b) (blockchainStatusResponse b)).

(** Receiving from the channel [ReceiveConfirmedBlockFromNode] returns. *)
Definition ReceiveConfirmedBlockFromNode (b : TurboBridge) : outcome (BlockFromNode * TurboBridge) :=
  '(v, c) ← recv (confirmedBlockFromNode b);
  mret (v, mkTurboBridge (br_config b) (transactionsFromNode b) (transactionsFromBDN b) (transactionHashesFromNode b)
    (transactionHashesRequests b) (blocksFromNode b) (blocksFromBDN b) c
    (noActiveBlockchainPeers b) (blockchainStatusRequest b) (blockchainStatusResponse b)).

(** Receiving from the channel [ReceiveBlockFromBDN] returns. *)
Definition ReceiveBlockFromBDN (b : TurboBridge) : outcome (TbBlock * TurboBridge) :=
  '(v, c) ← recv (blocksFromBDN b);
  mret (v, mkTurboBridge (br_config b) (transactionsFromNode b) (transactionsFromBDN b) (transactionHashesFromNode b)
    (transactionHashesRequests b) (blocksFromNode b) c (confirmedBlockFromNode b)
    (noActiveBlockchainPeers b) (blockchainStatusRequest b) (blockchainStatusResponse b)).

(** Receiving from the channel [ReceiveBDNTransactions] returns. *)
Definition ReceiveBDNTransactions (b : TurboBridge) : outcome (list TbTransaction * TurboBridge) :=
  '(v, c) ← recv (transactionsFromBDN b);
  mret (v, mkTurboBridge (br_config b) (transactionsFromNode b) c (transactionHashesFromNode b)
    (transactionHashesRequests b) (blocksFromNode b) (blocksFromBDN b) (confirmedBlockFromNode b)
    (noActiveBlockchainPeers b) (blockchainStatusRequest b) (blockchainStatusResponse b)).

(** Receiving from the channel [ReceiveNetworkConfigUpdates] returns. *)
Definition ReceiveNetworkConfigUpdates (b : TurboBridge) : outcome (EthConfig * TurboBridge) :=
  '(v, c) ← recv (br_config b);
  mret (v, mkTurboBridge c (transactionsFromNode b) (transactionsFromBDN b) (transactionHashesFromNode b)
    (transactionHashesRequests b) (blocksFromNode b) (blocksFromBDN b) (confirmedBlockFromNode b)
    (noActiveBlockchainPeers b) (blockchainStatusRequest b) (blockchainStatusResponse b)).

(** Receiving from the channel [ReceiveTransactionHashesAnnouncement] returns. *)
Definition ReceiveTransactionHashesAnnouncement (b : TurboBridge) : outcome (TransactionAnnouncement * TurboBridge) :=
  '(v, c) ← recv (transactionHashesFromNode b);
  mret (v, mkTurboBridge (br_config b) (transactionsFromNode b) (transactionsFromBDN b) c
    (transactionHashesRequests b) (blocksFromNode b) (blocksFromBDN b) (confirmedBlockFromNode b)
    (noActiveBlockchainPeers b) (blockchainStatusRequest b) (blockchainStatusResponse b)).

(** Receiving from the channel [ReceiveTransactionHashesRequest] returns. *)
Definition ReceiveTransactionHashesRequest (b : TurboBridge) : outcome (TransactionAnnouncement * TurboBridge) :=
  '(v, c) ← recv (transactionHashesRequests b);
  mret (v, mkTurboBridge (br_config b) (transactionsFromNode b) (transactionsFromBDN b) (transactionHashesFromNode b)
    c (blocksFromNode b) (blocksFromBDN b) (confirmedBlockFromNode b)
    (noActiveBlockchainPeers b) (blockchainStatusRequest b) (blockchainStatusResponse b)).

(** Receiving from the channel [ReceiveNoActiveBlockchainPeersAlert] returns. *)
Definition ReceiveNoActiveBlockchainPeersAlert (b : TurboBridge) : outcome (unit * TurboBridge) :=
  '(v, c) ← recv (noActiveBlockchainPeers b);
  mret (v, mkTurboBridge (br_config b) (transactionsFromNode b) (transactionsFromBDN b) (transactionHashesFromNode b)
    (transactionHashesRequests b) (blocksFromNode b) (blocksFromBDN b) (confirmedBlockFromNode b)
    c (blockchainStatusRequest b) (blockchainStatusResponse b)).

(** Receiving from the channel [ReceiveBlockchainStatusRequest] returns. *)
Definition ReceiveBlockchainStatusRequest (b : TurboBridge) : outcome (unit * TurboBridge) :=
  '(v, c) ← recv (blockchainStatusRequest b);
  mret (v, mkTurboBridge (br_config b) (transactionsFromNode b) (transactionsFromBDN b) (transactionHashesFromNode b)
    (transactionHashesRequests b) (blocksFromNode b) (blocksFromBDN b) (confirmedBlockFromNode b)
    (noActiveBlockchainPeers b) c (blockchainStatusResponse b)).

(** Receiving from the channel [ReceiveBlockchainStatusResponse] returns. *)
Definition ReceiveBlockchainStatusResponse (b : TurboBridge) : outcome (list NodeEndpoint * TurboBridge) :=
  '(v, c) ← recv (blockchainStatusResponse b);
  mret (v, mkTurboBridge (br_config b) (transactionsFromNode b) (transactionsFromBDN b) (transactionHashesFromNode b)
    (transactionHashesRequests b) (blocksFromNode b) (blocksFromBDN b) (confirmedBlockFromNode b)
    (noActiveBlockchainPeers b) (blockchainStatusRequest b) c).
End Bridge.
Arguments TurboBridge EthConfig : clear implicits.

(** ** Histories of the bridge *)
Section History.
Context {EthConfig : Type}.
Implicit Types b : TurboBridge EthConfig.

(** The calls of the backend and of the gateway. *)
Inductive bridge_op :=
  | OpSendBlockToBDN (block : TbBlock) (ep : NodeEndpoint)
  | OpReceiveBlockFromNode
  | OpSendTransactionsToBDN (txs : list TbTransaction) (ep : NodeEndpoint)
  | OpReceiveNodeTransactions
  | OpSendConfirmedBlock (block : TbBlock) (ep : NodeEndpoint)
  | OpReceiveConfirmedBlock
  | OpSendBlockToNode (block : TbBlock)
  | OpReceiveBlockFromBDN
  | OpSendTransactionsFromBDN (txs : list TbTransaction)
  | OpReceiveBDNTransactions
  | OpAnnounceHashes (peerID : string) (hashes : list SHA256Hash)
  | OpRequestTransactions (peerID : string) (hashes : list SHA256Hash)
  | OpAlert | OpStatusRequest
  | OpUpdateConfig (config : EthConfig)
  | OpReceiveConfig | OpReceiveAnnouncement | OpReceiveRequest
  | OpReceiveAlert | OpReceiveStatusRequest | OpReceiveStatusResponse
  | OpStatusResponse (endpoints : list NodeEndpoint).

Definition received {V} b (o : outcome (V * TurboBridge EthConfig)) : TurboBridge EthConfig :=
  if o is Ret (_, b') then b' else b.

Definition bridge_do b (op : bridge_op) : TurboBridge EthConfig :=
  match op with
  | OpSendBlockToBDN block ep => snd (SendBlockToBDN b block ep)
  | OpReceiveBlockFromNode => received b (ReceiveBlockFromNode b)
  | OpSendTransactionsToBDN txs ep => snd (SendTransactionsToBDN b txs ep)
  | OpReceiveNodeTransactions => received b (ReceiveNodeTransactions b)
  | OpSendConfirmedBlock block ep => snd (SendConfirmedBlockToGateway b block ep)
  | OpReceiveConfirmedBlock => received b (ReceiveConfirmedBlockFromNode b)
  | OpSendBlockToNode block => snd (SendBlockToNode b block)
  | OpReceiveBlockFromBDN => received b (ReceiveBlockFromBDN b)
  | OpSendTransactionsFromBDN txs => snd (SendTransactionsFromBDN b txs)
  | OpReceiveBDNTransactions => received b (ReceiveBDNTransactions b)
  | OpAnnounceHashes peerID hashes => snd (AnnounceTransactionHashes b peerID hashes)
  | OpRequestTransactions peerID hashes => snd (RequestTransactionsFromNode b peerID hashes)
  | OpAlert => snd (SendNoActiveBlockchainPeersAlert b)
  | OpStatusRequest => snd (SendBlockchainStatusRequest b)
  | OpStatusResponse endpoints => snd (SendBlockchainStatusResponse b endpoints)
  | OpUpdateConfig config => match UpdateNetworkConfig b config with Ret b' => b' | _ => b end
  | OpReceiveConfig => received b (ReceiveNetworkConfigUpdates b)
  | OpReceiveAnnouncement => received b (ReceiveTransactionHashesAnnouncement b)
  | OpReceiveRequest => received b (ReceiveTransactionHashesRequest b)
  | OpReceiveAlert => received b (ReceiveNoActiveBlockchainPeersAlert b)
  | OpReceiveStatusRequest => received b (ReceiveBlockchainStatusRequest b)
  | OpReceiveStatusResponse => received b (ReceiveBlockchainStatusResponse b)
  end.

(** The blocks the gateway accepted from the backend and those it took, over a history. *)
Fixpoint blocks_accepted b (ops : list bridge_op) : list BlockFromNode :=
  match ops with
  | [] => []
  | op :: ops =>
      match op with
      | OpSendBlockToBDN block ep =>
          match fst (SendBlockToBDN b block ep) with None => [mkBlockFromNode block ep] | Some _ => [] end
      | _ => []
      end ++ blocks_accepted (bridge_do b op) ops
  end.

Fixpoint blocks_taken b (ops : list bridge_op) : list BlockFromNode :=
  match ops with
  | [] => []
  | op :: ops =>
      match op with
      | OpReceiveBlockFromNode => match ReceiveBlockFromNode b with Ret (v, _) => [v] | _ => [] end
      | _ => []
      end ++ blocks_taken (bridge_do b op) ops
  end.

(** The other calls leave the channel of blocks alone. *)
Lemma bridge_do_blocks b op :
  match op with
  | OpSendBlockToBDN block ep =>
      blocksFromNode (bridge_do b op) = snd (try_send (blocksFromNode b) (mkBlockFromNode block ep)) /\
      fst (SendBlockToBDN b block ep) = fst (try_send (blocksFromNode b) (mkBlockFromNode block ep))
  | OpReceiveBlockFromNode =>
      match recv (blocksFromNode b) with
      | Ret (v, c) => exists b', ReceiveBlockFromNode b = Ret (v, b') /\ blocksFromNode (bridge_do b op) = c
      | _ => ReceiveBlockFromNode b = Blocks /\ bridge_do b op = b
      end
  | _ => blocksFromNode (bridge_do b op) = blocksFromNode b
  end.
Proof.
  destruct op; cbn [bridge_do];
    try (unfold UpdateNetworkConfig, send; destruct (decide (chan_full (br_config b))); done);
    unfold SendBlockToBDN, SendTransactionsToBDN, SendConfirmedBlockToGateway, SendBlockToNode,
      SendTransactionsFromBDN, AnnounceTransactionHashes, RequestTransactionsFromNode,
      SendNoActiveBlockchainPeersAlert, SendBlockchainStatusRequest, SendBlockchainStatusResponse;
    try (match goal with |- context [try_send ?c ?v] => destruct (try_send c v) end; done);
    unfold received, ReceiveBlockFromNode, ReceiveNodeTransactions, ReceiveConfirmedBlockFromNode,
      ReceiveBlockFromBDN, ReceiveBDNTransactions, ReceiveNetworkConfigUpdates, ReceiveTransactionHashesAnnouncement, ReceiveTransactionHashesRequest,
      ReceiveNoActiveBlockchainPeersAlert, ReceiveBlockchainStatusRequest, ReceiveBlockchainStatusResponse, recv;
    match goal with |- context [ch_buf ?c] => destruct (ch_buf c) end; go_simpl; eauto.
Qed.

(** From any state of the channel. *)
Lemma blocks_history b ops :
  ch_cap (blocksFromNode b) = blockBacklog -> Z.of_nat (length (ch_buf (blocksFromNode b))) <= blockBacklog ->
  ch_buf (blocksFromNode b) ++ blocks_accepted b ops
    = blocks_taken b ops ++ ch_buf (blocksFromNode (foldl bridge_do b ops)) /\
  ch_cap (blocksFromNode (foldl bridge_do b ops)) = blockBacklog /\
  Z.of_nat (length (ch_buf (blocksFromNode (foldl bridge_do b ops)))) <= blockBacklog.
Proof.
  revert b. induction ops as [|op ops IH]; intros b Hcap Hlen; cbn [foldl blocks_accepted blocks_taken].
  { by rewrite app_nil_r. }
  pose proof (bridge_do_blocks b op) as Hdo.
  destruct op; try (destruct (IH _ (eq_trans (f_equal ch_cap Hdo) Hcap)) as (H1 & H2 & H3);
    [by rewrite Hdo|]; rewrite Hdo in H1; done).
  - destruct Hdo as [Hb He]. rewrite He. unfold try_send in *. case_decide as Hf; simpl in Hb |- *.
    + rewrite <- Hb at 1. apply IH; by rewrite Hb.
    + unfold chan_full in Hf. specialize (IH (bridge_do b (OpSendBlockToBDN block ep))). cbn [bridge_do] in *. rewrite Hb in IH. simpl in IH.
      rewrite length_app in IH. simpl in IH. destruct IH as (H1 & H2 & H3); [done|lia|].
      rewrite <- app_assoc in H1. done.
  - unfold recv in Hdo. destruct (blocksFromNode b) as [cap [|v buf]] eqn:Hc; simpl in *; go_simpl.
    + destruct Hdo as [-> ->]. specialize (IH b). rewrite Hc in IH. simpl in IH. by apply IH.
    + destruct Hdo as (b' & Hr & Hb). specialize (IH (bridge_do b OpReceiveBlockFromNode)). cbn [bridge_do] in *.
      rewrite Hb in IH. simpl in IH.
      destruct IH as (H1 & H2 & H3); [done|lia|]. rewrite Hr in H1, H2, H3 |- *.
      cbn [received] in *. split_and!; [|done|done]. simpl. by rewrite H1.
Qed.

Lemma blocks_in_order ops :
  let b := NewTurboBridge (EthConfig:=EthConfig) in
  blocks_accepted b ops = blocks_taken b ops ++ ch_buf (blocksFromNode (foldl bridge_do b ops)).
Proof. by destruct (blocks_history NewTurboBridge ops eq_refl) as (H & _). Qed.

(** Blocks cross the bridge in order and none is lost silently: whatever the backend and the
    gateway do in between, the blocks accepted are the blocks taken so far followed by the blocks
    waiting, at most 100 wait, and a block is refused exactly when 100 do, with [ErrChannelFull]. *)
Theorem bridge_blocks_fifo ops :
  let b := NewTurboBridge (EthConfig:=EthConfig) in
  let b' := foldl bridge_do b ops in
  blocks_accepted b ops = blocks_taken b ops ++ ch_buf (blocksFromNode b') /\
  Z.of_nat (length (ch_buf (blocksFromNode b'))) <= blockBacklog /\
  forall block ep, fst (SendBlockToBDN b' block ep)
    = if decide (Z.of_nat (length (ch_buf (blocksFromNode b'))) = blockBacklog) then Some ErrChannelFull else None.
Proof.
  cbn zeta. set (b := NewTurboBridge).
  destruct (blocks_history b ops eq_refl) as (H1 & H2 & H3); [by vm_compute|]. simpl in H1.
  split_and!; [done|done|]. intros block ep. pose proof (bridge_do_blocks (foldl bridge_do b ops) (OpSendBlockToBDN block ep)) as [_ ->].
  unfold try_send. destruct (decide (chan_full _)) as [Hf|Hf]; unfold chan_full in Hf; case_decide; try done; lia.
Qed.
End History.
