(* ===== verification/Peer.v ===== *)
(** An Ethereum peer (blockchain/eth/peer.go): the queue of blocks it is to be sent, the requests
    waiting for a response and the messages sent to it. Reading from and writing to the wire
    belongs to go-ethereum: [p2p_Send] is a parameter, the messages a call sends are listed in its
    effects. *)
From S2P Require Import Prelude CMap EthTypes Chain Channel Types.

(** ** Definitions *)
Definition maxMessageSize : Z := 10 * 1024 * 1024.
Definition responseQueueSize : Z := 10.
Definition fastBlockConfirmationInterval : Z := 200 * (1000 * 1000).
Definition fastBlockConfirmationAttempts : Z := 5.
Definition slowBlockConfirmationInterval : Z := 1000 * (1000 * 1000).
Definition headChannelBacklog : Z := 10.
Definition blockChannelBacklog : Z := 10.
Definition blockQueueMaxSize : Z := 50.
(** [eth.ETH66] and [eth.StatusMsg] *)
Definition ETH66 : Z := 66.
Definition StatusMsgCode : Z := 0.

Section Peer.
Context `{EthTypes} {M : Type -> Type} `{!ConcurrentMap M}.

(** *** Messages *)
Record StatusPacket := mkStatusPacket {
  ProtocolVersion : Z;
  NetworkID : Z;
  st_TD : option Z;
  st_Head : Hash;
  st_Genesis : Hash;
  ForkID : Z
}.
Definition empty_status : StatusPacket := mkStatusPacket 0 0 None zero_Hash zero_Hash 0.

Record NewBlockPacket := mkNewBlockPacket { nb_Block : Block; nb_TD : option Z }.

(** The messages the gateway sends; the request ID is there for ETH66. *)
Inductive eth_msg :=
  | StatusMsg (s : StatusPacket)
  | NewBlockHashesMsg (blocks : list (Hash * Z))
  | NewBlockMsg (p : NewBlockPacket)
  | TransactionsMsg (txs : list EthTransaction)
  | GetBlockHeadersMsg (id : option Z) (origin : HashOrNumber) (amount skip : Z) (reverse : bool)
  | BlockHeadersMsg (id : option Z) (headers : list (option Header))
  | GetBlockBodiesMsg (id : option Z) (hashes : list Hash)
  | BlockBodiesMsg (id : option Z) (bodies : list Body)
  | GetPooledTransactionsMsg (id : option Z) (hashes : list Hash).

(** A response packet, as passed over a response channel. *)
Inductive eth_response :=
  | HeadersResponse (headers : list Header)
  | BodiesResponse (bodies : list Body).

(** What a call does besides changing the peer. A channel is named by a number. *)
Inductive effect :=
  | Sent (m : eth_msg)
  | Delivered (ch : Z) (r : eth_response)
  | AwaitConfirmation (p : NewBlockPacket).

Record Peer := mkPeer {
  peer_id : string;
  version : Z;
  endpoint : NodeEndpoint;
  disconnected : bool;
  checkpointPassed : bool;
  responseQueue : chan (option Z);
  responseQueue66 : M (option Z);
  newHeadCh : chan blockRef;
  newBlockCh : chan NewBlockPacket;
  confirmedHead : blockRef;
  sentHead : blockRef;
  queuedBlocks : list NewBlockPacket;
  requestConfirmations : bool
}.

Definition newPeer (id : string) (version : Z) (endpoint : NodeEndpoint) : Peer :=
  mkPeer id version endpoint false false (make_chan responseQueueSize) cm_new
    (make_chan headChannelBacklog) (make_chan blockChannelBacklog) empty_ref empty_ref [] true.

Definition isVersion66 (ep : Peer) : bool := bool_decide (ETH66 <= version ep).

Definition with_queue (ep : Peer) (confirmed sent : blockRef) (queue : list NewBlockPacket) : Peer :=
  mkPeer (peer_id ep) (version ep) (endpoint ep) (disconnected ep) (checkpointPassed ep) (responseQueue ep)
    (responseQueue66 ep) (newHeadCh ep) (newBlockCh ep) confirmed sent queue (requestConfirmations ep).
Definition with_channels (ep : Peer) (heads : chan blockRef) (blocks : chan NewBlockPacket) : Peer :=
  mkPeer (peer_id ep) (version ep) (endpoint ep) (disconnected ep) (checkpointPassed ep) (responseQueue ep)
    (responseQueue66 ep) heads blocks (confirmedHead ep) (sentHead ep) (queuedBlocks ep) (requestConfirmations ep).
Definition with_responses (ep : Peer) (q : chan (option Z)) (q66 : M (option Z)) : Peer :=
  mkPeer (peer_id ep) (version ep) (endpoint ep) (disconnected ep) (checkpointPassed ep) q
    q66 (newHeadCh ep) (newBlockCh ep) (confirmedHead ep) (sentHead ep) (queuedBlocks ep) (requestConfirmations ep).
Definition with_flags (ep : Peer) (disconnected checkpointPassed : bool) : Peer :=
  mkPeer (peer_id ep) (version ep) (endpoint ep) disconnected checkpointPassed (responseQueue ep)
    (responseQueue66 ep) (newHeadCh ep) (newBlockCh ep) (confirmedHead ep) (sentHead ep) (queuedBlocks ep)
    (requestConfirmations ep).

Definition Disconnect (ep : Peer) : Peer := with_flags ep true (checkpointPassed ep).

(** *** Sending *)
Variable p2p_Send : eth_msg -> option go_error.

Definition peer_send (ep : Peer) (m : eth_msg) : option go_error * list effect :=
  if disconnected ep then (None, []) else (p2p_Send m, [Sent m]).

Definition AnnounceBlock (ep : Peer) (h : Hash) (number : Z) := peer_send ep (NewBlockHashesMsg [(h, number)]).
Definition SendBlockBodies (ep : Peer) (bodies : list Body) := peer_send ep (BlockBodiesMsg None bodies).
Definition ReplyBlockBodies (ep : Peer) (id : Z) (bodies : list Body) := peer_send ep (BlockBodiesMsg (Some id) bodies).
Definition SendBlockHeaders (ep : Peer) (headers : list (option Header)) := peer_send ep (BlockHeadersMsg None headers).
Definition ReplyBlockHeaders (ep : Peer) (id : Z) (headers : list (option Header)) :=
  peer_send ep (BlockHeadersMsg (Some id) headers).
Definition SendTransactions (ep : Peer) (txs : list EthTransaction) := peer_send ep (TransactionsMsg txs).

(** [rand] is the number [rand.Uint64] gives. *)
Definition RequestTransactions (ep : Peer) (rand : Z) (txHashes : list Hash) : option go_error * list effect :=
  if isVersion66 ep then peer_send ep (GetPooledTransactionsMsg (Some rand) txHashes)
  else peer_send ep (GetPooledTransactionsMsg None txHashes).

(** [sendNewBlock]: a block sent without error is watched until it is confirmed. *)
Definition sendNewBlock (ep : Peer) (packet : NewBlockPacket) : option go_error * list effect :=
  let '(err, effects) := peer_send ep (NewBlockMsg packet) in
  match err with
  | Some e => (Some e, effects)
  | None => (None, effects ++ (if requestConfirmations ep then [AwaitConfirmation packet] else []))
  end.

(** *** The block loop *)
Definition packet_number (p : NewBlockPacket) : Z := block_number (nb_Block p).
Definition packet_ref (p : NewBlockPacket) : blockRef := mkblockRef (packet_number p) (block_hash (nb_Block p)).

(** The loop over the queue for a new head [confirmed]: the breakpoint (-1 if none was set) and
    whether the block there is released. *)
Fixpoint find_breakpoint (confirmed : blockRef) (i : Z) (queue : list NewBlockPacket) (breakpoint : Z) : Z * bool :=
  match queue with
  | [] => (breakpoint, false)
  | qb :: queue =>
      let queuedBlock := nb_Block qb in
      let nextHeight := bool_decide (block_number queuedBlock = uint64 (height confirmed + 1)) in
      let isNextBlock := nextHeight && bool_decide (block_parent queuedBlock = hash confirmed) in
      let exceedsHeight := bool_decide (uint64 (height confirmed + 1) < block_number queuedBlock) in
      if isNextBlock then (i, true) else
      let breakpoint := if nextHeight then i else breakpoint in
      if exceedsHeight then ((if decide (breakpoint = -1) then i else breakpoint), false)
      else find_breakpoint confirmed (i + 1) queue breakpoint
  end.

Definition sendTopBlock (ep : Peer) : outcome (list effect * Peer) :=
  match queuedBlocks ep with
  | [] => Panics IndexOutOfRange
  | block :: queue =>
      let ep := with_queue ep (confirmedHead ep) (packet_ref block) queue in
      let '(_, effects) := sendNewBlock ep block in
      mret (effects, ep)
  end.

(** The first case of the [select] of [blockLoop]. *)
Definition on_new_head (ep : Peer) (newHead : blockRef) : outcome (list effect * Peer) :=
  if decide (height newHead < height (confirmedHead ep)) then mret ([], ep) else
  let sent := if decide (height (sentHead ep) <= height newHead) then newHead else sentHead ep in
  let '(breakpoint, releaseBlock) := find_breakpoint newHead 0 (queuedBlocks ep) (-1) in
  let breakpoint := if decide (breakpoint = -1) then Z.of_nat (length (queuedBlocks ep)) else breakpoint in
  let ep := with_queue ep newHead sent (drop (Z.to_nat breakpoint) (queuedBlocks ep)) in
  if releaseBlock then sendTopBlock ep else mret ([], ep).

(** The loop that looks for the insertion point: it goes through the whole queue. *)
Fixpoint insertion_point (i : Z) (queue : list NewBlockPacket) (newNumber point : Z) : Z :=
  match queue with
  | [] => point
  | block :: queue =>
      insertion_point (i + 1) queue newNumber (if decide (newNumber < packet_number block) then i else point)
  end.

Definition insert_at (i : nat) (p : NewBlockPacket) (queue : list NewBlockPacket) : list NewBlockPacket :=
  take i queue ++ p :: drop i queue.

(** The second case. *)
Definition on_new_block (ep : Peer) (newBlock : NewBlockPacket) : list effect * Peer :=
  let newBlockNumber := packet_number newBlock in
  let confirmed := confirmedHead ep in
  if decide (newBlockNumber <= height (sentHead ep) /\ height (sentHead ep) <> 0) then ([], ep) else
  let parent := block_parent (nb_Block newBlock) in
  let nextBlock := bool_decide (newBlockNumber = uint64 (height confirmed + 1) /\ parent = hash confirmed) in
  let initialBlock := bool_decide (height confirmed = 0 /\ height (sentHead ep) = 0 /\ parent = hash confirmed) in
  if nextBlock || initialBlock then
    let '(_, effects) := sendNewBlock ep newBlock in
    (effects, with_queue ep confirmed (packet_ref newBlock) (queuedBlocks ep))
  else
    let queue := queuedBlocks ep in
    let point := insertion_point 0 queue newBlockNumber (Z.of_nat (length queue)) in
    let queue := insert_at (Z.to_nat point) newBlock queue in
    let queue := if decide (blockQueueMaxSize < Z.of_nat (length queue))
                 then drop (length queue - Z.to_nat blockQueueMaxSize) queue else queue in
    ([], with_queue ep confirmed (sentHead ep) queue).

(** One round of [blockLoop]: either channel may be served first. *)
Inductive loop_step : Peer -> list effect -> Peer -> Prop :=
  | loop_head ep newHead heads effects ep' :
      recv (newHeadCh ep) = Ret (newHead, heads) ->
      on_new_head (with_channels ep heads (newBlockCh ep)) newHead = Ret (effects, ep') ->
      loop_step ep effects ep'
  | loop_block ep newBlock blocks effects ep' :
      recv (newBlockCh ep) = Ret (newBlock, blocks) ->
      on_new_block (with_channels ep (newHeadCh ep) blocks) newBlock = (effects, ep') ->
      loop_step ep effects ep'.

Definition UpdateHead (ep : Peer) (ht : Z) (h : Hash) : outcome Peer :=
  heads ← send (newHeadCh ep) (mkblockRef ht h); mret (with_channels ep heads (newBlockCh ep)).

Definition QueueNewBlock (ep : Peer) (block : Block) (td : option Z) : outcome Peer :=
  blocks ← send (newBlockCh ep) (mkNewBlockPacket block td); mret (with_channels ep (newHeadCh ep) blocks).

(** *** Requests and responses *)
Definition convertRequestIDKey (requestID : Z) : string := format_uint requestID.

Definition registerForResponse (ep : Peer) (responseCh : option Z) : outcome Peer :=
  q ← send (responseQueue ep) responseCh; mret (with_responses ep q (responseQueue66 ep)).
Definition registerForResponse66 (ep : Peer) (requestID : Z) (responseCh : option Z) : Peer :=
  with_responses ep (responseQueue ep) (cm_set (responseQueue66 ep) (convertRequestIDKey requestID) responseCh).

(** [responseCh <- packet]: response channels have no buffer, so that the send waits for a receiver.
    [listens] says on which of them somebody still receives; whoever requested a block gives up after a
    while, and a packet for its channel then blocks the reader of the peer's messages for ever. *)
Definition deliver (listens : Z -> bool) (ch : Z) (packet : eth_response) : outcome (list effect) :=
  if listens ch then mret [Delivered ch packet] else Blocks.

Definition NotifyResponse (listens : Z -> bool) (ep : Peer) (packet : eth_response) : outcome (bool * list effect * Peer) :=
  '(responseCh, q) ← recv (responseQueue ep);
  let ep := with_responses ep q (responseQueue66 ep) in
  match responseCh with
  | Some ch => effects ← deliver listens ch packet; mret (true, effects, ep)
  | None => mret (false, [], ep)
  end.

Definition NotifyResponse66 (listens : Z -> bool) (ep : Peer) (requestID : Z) (packet : eth_response)
    : outcome (bool * option go_error * list effect * Peer) :=
  let '(raw, q66) := cm_pop (responseQueue66 ep) (convertRequestIDKey requestID) in
  match raw with
  | None => mret (false, Some ErrUnknownRequestID, [], ep)
  | Some responseCh =>
      let ep := with_responses ep (responseQueue ep) q66 in
      match responseCh with
      | Some ch => effects ← deliver listens ch packet; mret (true, None, effects, ep)
      | None => mret (false, None, [], ep)
      end
  end.

Definition by_hash (h : Hash) : HashOrNumber := mkHashOrNumber h 0.

Definition RequestBlock (ep : Peer) (blockHash : Hash) (headersCh bodiesCh : Z)
    : outcome (option go_error * list effect * Peer) :=
  if isVersion66 ep then Panics (Explicit "unexpected call to request block for a ETH66 peer") else
  ep ← registerForResponse ep (Some headersCh);
  ep ← registerForResponse ep (Some bodiesCh);
  let '(err, e1) := peer_send ep (GetBlockHeadersMsg None (by_hash blockHash) 1 0 false) in
  match err with
  | Some err => mret (Some err, e1, ep)
  | None =>
      let '(err, e2) := peer_send ep (GetBlockBodiesMsg None [blockHash]) in mret (err, e1 ++ e2, ep)
  end.

Definition RequestBlock66 (ep : Peer) (rand1 rand2 : Z) (blockHash : Hash) (headersCh bodiesCh : Z)
    : outcome (option go_error * list effect * Peer) :=
  if negb (isVersion66 ep) then Panics (Explicit "unexpected call to request block 66 for a <ETH66 peer") else
  let ep := registerForResponse66 ep rand1 (Some headersCh) in
  let ep := registerForResponse66 ep rand2 (Some bodiesCh) in
  let '(err, e1) := peer_send ep (GetBlockHeadersMsg (Some rand1) (by_hash blockHash) 1 0 false) in
  match err with
  | Some err => mret (Some err, e1, ep)
  | None =>
      let '(err, e2) := peer_send ep (GetBlockBodiesMsg (Some rand2) [blockHash]) in mret (err, e1 ++ e2, ep)
  end.

Definition RequestBlockHeaderRaw (ep : Peer) (rand : Z) (origin : HashOrNumber) (amount skip : Z) (reverse : bool)
    (responseCh : option Z) : outcome (option go_error * list effect * Peer) :=
  if isVersion66 ep then
    let ep := registerForResponse66 ep rand responseCh in
    let '(err, effects) := peer_send ep (GetBlockHeadersMsg (Some rand) origin amount skip reverse) in
    mret (err, effects, ep)
  else
    ep ← registerForResponse ep responseCh;
    let '(err, effects) := peer_send ep (GetBlockHeadersMsg None origin amount skip reverse) in
    mret (err, effects, ep).

Definition RequestBlockHeader (ep : Peer) (rand : Z) (h : Hash) : outcome (option go_error * list effect * Peer) :=
  RequestBlockHeaderRaw ep rand (by_hash h) 1 0 false None.

(** The goroutine of [sendNewBlock]: how long it waits before its tick number [count], and what it
    does at a tick; it ends when the block is confirmed or the request fails. *)
Definition confirmation_interval (count : Z) : Z :=
  if decide (count < fastBlockConfirmationAttempts) then fastBlockConfirmationInterval
  else slowBlockConfirmationInterval.

Definition confirmation_tick (ep : Peer) (rand : Z) (packet : NewBlockPacket) : outcome (bool * list effect * Peer) :=
  if decide (packet_number packet <= height (confirmedHead ep)) then mret (false, [], ep) else
  '(err, effects, ep) ← RequestBlockHeader ep rand (block_hash (nb_Block packet));
  match err with
  | Some _ => mret (false, effects, ep)
  | None => mret (true, effects, ep)
  end.

(** *** Handshake *)
(** What [rw.ReadMsg] returns: code, size, and what decoding it as a status message leaves in the
    packet, with the error. *)
Record p2p_Msg := mkp2p_Msg { msg_Code : Z; msg_Size : Z; msg_status : StatusPacket * option go_error }.

Definition readStatus (read : result p2p_Msg) : option StatusPacket * option go_error :=
  match read with
  | Fail err => (None, Some err)
  | Ok msg =>
      if decide (msg_Code msg <> StatusMsgCode) then (Some empty_status, Some (Errorf "unexpected first message")) else
      if decide (maxMessageSize < msg_Size msg) then (Some empty_status, Some (Errorf "message is too big")) else
      match msg_status msg with
      | (status, Some _) => (Some status, Some (Errorf "could not decode status message"))
      | (status, None) => (Some status, None)
      end
  end.

Definition Handshake (ep : Peer) (read : result p2p_Msg) (vers network : Z) (td : option Z) (head genesis : Hash)
    : option StatusPacket * option go_error * list effect * Peer :=
  match readStatus read with
  | (peerStatus, Some err) => (peerStatus, Some err, [], ep)
  | (None, None) => (None, None, [], ep)
  | (Some peerStatus, None) =>
      let ep := with_queue ep (mkblockRef 0 head) (sentHead ep) (queuedBlocks ep) in
      let '(_, effects) := peer_send ep (StatusMsg (mkStatusPacket vers network td head genesis (ForkID peerStatus))) in
      if decide (NetworkID peerStatus <> network) then
        (Some peerStatus, Some (Errorf "network ID does not match"), effects, ep) else
      if decide (ProtocolVersion peerStatus <> vers) then
        (Some peerStatus, Some (Errorf "protocol version does not match"), effects, ep) else
      if decide (st_Genesis peerStatus <> genesis) then
        (Some peerStatus, Some (Errorf "genesis block does not match"), effects, ep) else
      (Some peerStatus, None, effects, ep)
  end.
End Peer.
Arguments Peer {_} M.
Arguments NewBlockPacket {_}.
Arguments effect {_}.
Arguments eth_msg {_}.
