(* ===== verification/PeerFacts.v ===== *)
(** Correctness of the block queue of a peer. *)
From S2P Require Import Prelude CMap EthTypes Chain Channel Types Peer ChainExamples.

Section Facts.
Context `{EthTypes} {M : Type -> Type} `{!ConcurrentMap M}.
Variable p2p_Send : eth_msg -> option go_error.
Implicit Types ep : Peer M.
Implicit Types queue : list NewBlockPacket.

(** The block a peer with confirmed head [confirmed] waits for. *)
Definition is_child (confirmed : blockRef) (p : NewBlockPacket) : Prop :=
  packet_number p = uint64 (height confirmed + 1) /\ block_parent (nb_Block p) = hash confirmed.

#[local] Instance is_child_dec confirmed p : Decision (is_child confirmed p).
Proof. unfold is_child. apply _. Defined.

(** The first round of [find_breakpoint]. *)
Lemma find_breakpoint_cons confirmed i p queue bp :
  find_breakpoint confirmed i (p :: queue) bp
  = if decide (is_child confirmed p) then (i, true)
    else if decide (uint64 (height confirmed + 1) < packet_number p) then ((if decide (bp = -1) then i else bp), false)
    else find_breakpoint confirmed (i + 1) queue (if decide (packet_number p = uint64 (height confirmed + 1)) then i else bp).
Proof.
  cbn [find_breakpoint]. unfold is_child, packet_number.
  set (n := block_number (nb_Block p)). set (u := uint64 (height confirmed + 1)).
  rewrite (bool_decide_decide (n = u)), (bool_decide_decide (u < n)), (bool_decide_decide (block_parent _ = _)).
  destruct (decide (n = u)) as [Hn|Hn], (decide (block_parent (nb_Block p) = hash confirmed)) as [Hp|Hp]; simpl;
    [rewrite decide_True by done|rewrite (decide_False (P := _ /\ _)) by tauto..]; [done|..];
    destruct (decide (u < n)); done || lia.
Qed.

Lemma find_breakpoint_released confirmed i queue bp k :
  find_breakpoint confirmed i queue bp = (k, true) ->
  i <= k /\ exists p, queue !! Z.to_nat (k - i) = Some p /\ is_child confirmed p.
Proof.
  revert i bp. induction queue as [|p queue IH]; intros i bp; [done|]. rewrite find_breakpoint_cons.
  case_decide as Hc; [intros [= <-]; split; [lia|]; exists p; rewrite Z.sub_diag; done|].
  case_decide as Ha; [done|]. intros Hk. apply IH in Hk as (Hle & q & Hq & Hch). split; [lia|]. exists q.
  replace (Z.to_nat (k - i)) with (S (Z.to_nat (k - (i + 1)))) by lia. done.
Qed.

(** The queue in three parts: blocks up to the new head, blocks just above it, blocks beyond. *)
Definition split_at (h : Z) (stale nexts beyond : list NewBlockPacket) : Prop :=
  Forall (fun p => packet_number p <= h) stale /\ Forall (fun p => packet_number p = h + 1) nexts /\
  Forall (fun p => h + 1 < packet_number p) beyond.

Section Scan.
Variable confirmed : blockRef.
Hypothesis no_overflow : 0 <= height confirmed < 2 ^ 64 - 1.

Lemma next_height : uint64 (height confirmed + 1) = height confirmed + 1.
Proof. apply uint64_small. unfold is_uint64. lia. Qed.

Lemma not_child p : packet_number p <> height confirmed + 1 -> ~ is_child confirmed p.
Proof. intros Hn [Hc _]. by rewrite next_height in Hc. Qed.

Lemma scan_stale i stale queue bp :
  Forall (fun p => packet_number p <= height confirmed) stale ->
  find_breakpoint confirmed i (stale ++ queue) bp = find_breakpoint confirmed (i + Z.of_nat (length stale)) queue bp.
Proof.
  intros Hs. revert i. induction Hs as [|p stale Hp Hs IH]; intros i; [by rewrite Z.add_0_r|].
  simpl app. rewrite find_breakpoint_cons, next_height.
  rewrite (decide_False (P := is_child _ _)) by (apply not_child; lia). rewrite !decide_False by lia. rewrite IH. f_equal. simpl. lia.
Qed.

Lemma scan_nexts i nexts queue bp :
  Forall (fun p => packet_number p = height confirmed + 1 /\ ~ is_child confirmed p) nexts ->
  find_breakpoint confirmed i (nexts ++ queue) bp
  = find_breakpoint confirmed (i + Z.of_nat (length nexts)) queue
      (if decide (nexts = []) then bp else i + Z.of_nat (length nexts) - 1).
Proof.
  intros Hs. revert i bp. induction Hs as [|p nexts [Hp Hc] Hs IH]; intros i bp; [by rewrite Z.add_0_r|].
  simpl app. rewrite find_breakpoint_cons. rewrite (decide_False (P := is_child _ _)) by done. rewrite next_height.
  rewrite decide_False by lia. rewrite (decide_True (P := packet_number p = _)) by done. rewrite IH.
  rewrite (decide_False (P := p :: nexts = [])) by done. simpl length. f_equal; [lia|].
  destruct nexts; [rewrite decide_True by done; simpl; lia|rewrite decide_False by done; simpl; lia].
Qed.

Lemma scan_beyond i beyond bp :
  Forall (fun p => height confirmed + 1 < packet_number p) beyond ->
  find_breakpoint confirmed i beyond bp
  = ((if decide (bp = -1 /\ beyond <> []) then i else bp), false).
Proof.
  intros [|p beyond' Hp Hb]; [rewrite decide_False by tauto; done|].
  rewrite find_breakpoint_cons, next_height. rewrite (decide_False (P := is_child _ _)) by (apply not_child; lia).
  rewrite (decide_True (P := _ < _)) by lia.
  destruct (decide (bp = -1)); [by rewrite decide_True|by rewrite decide_False by tauto].
Qed.
End Scan.

(** *** The queue after a new head *)
Definition last_list {A} (l : list A) : list A := match last l with Some x => [x] | None => [] end.

Lemma drop_last {A} (l r : list A) : l <> [] -> drop (length l - 1) (l ++ r) = last_list l ++ r.
Proof.
  intros Hl. unfold last_list. destruct l as [|x l] using rev_ind; [done|]. rewrite last_snoc, length_app. simpl.
  replace (length l + 1 - 1)%nat with (length l) by lia. rewrite <- app_assoc. by rewrite drop_app_length.
Qed.

(** How a peer's queue follows its confirmed head. When a new head arrives that is not below the
      confirmed one, the head is taken over, all blocks up to its height leave the queue, and if the
      queue holds its child, the first such block is sent and leaves the queue with everything
      before it; otherwise nothing is sent and of the blocks just above the head the last one stays. *)
Theorem on_new_head_spec ep newHead stale nexts beyond :
  0 <= height newHead < 2 ^ 64 - 1 -> height (confirmedHead ep) <= height newHead ->
  queuedBlocks ep = stale ++ nexts ++ beyond -> split_at (height newHead) stale nexts beyond ->
  (forall n1 child n2, nexts = n1 ++ child :: n2 -> is_child newHead child -> Forall (fun p => ~ is_child newHead p) n1 ->
     exists ep', on_new_head p2p_Send ep newHead = Ret (snd (sendNewBlock p2p_Send ep child), ep') /\
       confirmedHead ep' = newHead /\ sentHead ep' = packet_ref child /\ queuedBlocks ep' = n2 ++ beyond) /\
  (Forall (fun p => ~ is_child newHead p) nexts ->
     exists ep', on_new_head p2p_Send ep newHead = Ret ([], ep') /\
       confirmedHead ep' = newHead /\ queuedBlocks ep' = last_list nexts ++ beyond).
Proof.
  intros Hov Hle Hq (Hs & Hn & Hb). unfold on_new_head. rewrite decide_False by lia. rewrite Hq. split.
  - intros n1 child n2 -> Hchild Hn1. apply Forall_app in Hn as [Hn1' Hn2].
    rewrite scan_stale by done. rewrite <- app_assoc. rewrite scan_nexts; [|done|by apply Forall_and].
    rewrite <- app_comm_cons, find_breakpoint_cons, decide_True by done.
    set (k := 0 + Z.of_nat (length stale) + Z.of_nat (length n1)).
    rewrite (decide_False (P := k = -1)) by lia. unfold sendTopBlock. cbn [queuedBlocks with_queue].
    assert (drop (Z.to_nat k) (stale ++ n1 ++ child :: n2 ++ beyond) = child :: n2 ++ beyond) as ->.
    { replace (Z.to_nat k) with (length stale + length n1)%nat by (unfold k; lia).
      rewrite app_assoc. by rewrite drop_app_length' by (rewrite length_app; lia). }
    assert (forall ep' : Peer M, requestConfirmations ep' = requestConfirmations ep -> disconnected ep' = disconnected ep ->
      sendNewBlock p2p_Send ep' child = sendNewBlock p2p_Send ep child) as Hsend.
    { intros ep' H1 H2. unfold sendNewBlock, peer_send. by rewrite H1, H2. }
    rewrite Hsend by done. destruct (sendNewBlock p2p_Send ep child) as [err effects]. by eexists.
  - intros Hnc. rewrite scan_stale by done. rewrite scan_nexts; [|done|by apply Forall_and].
    rewrite scan_beyond by done. eexists. split; [reflexivity|]. split; [done|]. cbn [queuedBlocks with_queue].
    destruct nexts as [|n nexts'] eqn:Hnx.
    + rewrite (decide_True (P := [] = [])) by done. unfold last_list. cbn [last app length]. destruct beyond as [|b beyond'].
      * rewrite (decide_False (P := _ /\ _)) by tauto. rewrite (decide_True (P := -1 = -1)) by done.
        rewrite app_nil_r, Nat2Z.id. by rewrite drop_all.
      * rewrite (decide_True (P := _ /\ _)) by done. rewrite (decide_False (P := _ = -1)) by lia.
        replace (Z.to_nat _) with (length stale) by lia. by rewrite drop_app_length.
    + rewrite <- Hnx in *. assert (nexts <> []) as Hne by (by rewrite Hnx).
      rewrite (decide_False (P := nexts = [])) by done.
      assert (1 <= Z.of_nat (length nexts)) as H1 by (destruct nexts; [done|simpl; lia]).
      rewrite (decide_False (P := _ /\ _)) by lia. rewrite (decide_False (P := _ = -1)) by lia.
      rewrite <- drop_last by done.
      replace (Z.to_nat (0 + Z.of_nat (length stale) + Z.of_nat (length nexts) - 1))
        with (length stale + (length nexts - 1))%nat by lia.
      rewrite <- drop_drop, drop_app_length. done.
Qed.

(** *** Insertion *)
Lemma insertion_point_app i lo hi n point :
  Forall (fun p => packet_number p <= n) lo ->
  insertion_point i (lo ++ hi) n point = insertion_point (i + Z.of_nat (length lo)) hi n point.
Proof.
  intros Hlo. revert i. induction Hlo as [|p lo Hp Hlo IH]; intros i; [by rewrite Z.add_0_r|].
  cbn [app insertion_point]. rewrite decide_False by lia. rewrite IH. f_equal. simpl. lia.
Qed.

Lemma insertion_point_high i hi n point :
  Forall (fun p => n < packet_number p) hi ->
  insertion_point i hi n point = if decide (hi = []) then point else i + Z.of_nat (length hi) - 1.
Proof.
  intros Hhi. revert i point. induction Hhi as [|p hi Hp Hhi IH]; intros i point; [done|].
  cbn [insertion_point]. rewrite decide_True by lia. rewrite IH. rewrite (decide_False (P := p :: hi = [])) by done.
  case_decide; [subst hi|]; simpl; lia.
Qed.

(** A block that has to wait, and fits in. *)
Definition has_to_wait ep (p : NewBlockPacket) : Prop :=
  ~ (packet_number p <= height (sentHead ep) /\ height (sentHead ep) <> 0) /\ ~ is_child (confirmedHead ep) p /\
  ~ (height (confirmedHead ep) = 0 /\ height (sentHead ep) = 0 /\ block_parent (nb_Block p) = hash (confirmedHead ep)) /\
  Z.of_nat (length (queuedBlocks ep)) < blockQueueMaxSize.

Lemma on_new_block_waits ep p lo hi :
  has_to_wait ep p -> queuedBlocks ep = lo ++ hi ->
  Forall (fun q => packet_number q <= packet_number p) lo -> Forall (fun q => packet_number p < packet_number q) hi ->
  on_new_block p2p_Send ep p
  = ([], with_queue ep (confirmedHead ep) (sentHead ep)
           (lo ++ take (length hi - 1) hi ++ p :: drop (length hi - 1) hi)).
Proof.
  intros (Hw1 & Hw2 & Hw3 & Hlen) Hq Hlo Hhi. unfold on_new_block. rewrite decide_False by done.
  unfold is_child in Hw2. rewrite (bool_decide_false (packet_number p = _ /\ _)) by done.
  rewrite bool_decide_false by done. cbn [orb].
  rewrite Hq in *. rewrite insertion_point_app, insertion_point_high by done.
  assert (insert_at (Z.to_nat (if decide (hi = []) then Z.of_nat (length (lo ++ hi))
            else 0 + Z.of_nat (length lo) + Z.of_nat (length hi) - 1)) p (lo ++ hi)
    = lo ++ take (length hi - 1) hi ++ p :: drop (length hi - 1) hi) as ->.
  { unfold insert_at. destruct hi as [|h hi].
    - rewrite decide_True by done. rewrite app_nil_r, Nat2Z.id. by rewrite take_ge, drop_ge by lia.
    - rewrite decide_False by done.
      replace (Z.to_nat (0 + Z.of_nat (length lo) + Z.of_nat (length (h :: hi)) - 1))
        with (length lo + (length (h :: hi) - 1))%nat by (simpl; lia).
      rewrite take_app_add, drop_app_add by done. by rewrite <- app_assoc. }
  rewrite decide_False; [done|].
  rewrite !length_app in *. simpl. rewrite length_take, length_drop.
  unfold blockQueueMaxSize in *. lia.
Qed.

(** A late block can be lost. The insertion point is that of the last higher block, so a block that
      arrives after two higher ones is queued behind one of them: the queue is no longer ordered.
      When the parent of the block is confirmed, the scan stops at the higher block in front of it,
      nothing is sent and nothing leaves the queue, although the peer's next block is in it. *)
Theorem late_block_not_sent ep p z1 hi z2 newHead :
  0 <= height newHead < 2 ^ 64 - 1 -> height (confirmedHead ep) <= height newHead ->
  is_child newHead p -> has_to_wait ep p ->
  queuedBlocks ep = z1 :: hi ++ [z2] -> Forall (fun q => packet_number p < packet_number q) (z1 :: hi ++ [z2]) ->
  exists ep1 ep2,
    on_new_block p2p_Send ep p = ([], ep1) /\ queuedBlocks ep1 = z1 :: hi ++ [p; z2] /\
    on_new_head p2p_Send ep1 newHead = Ret ([], ep2) /\ queuedBlocks ep2 = queuedBlocks ep1.
Proof.
  intros Hov Hle [Hnum Hpar] Hw Hq Hhi. rewrite (next_height newHead Hov) in Hnum.
  pose proof (on_new_block_waits ep p [] (z1 :: hi ++ [z2]) Hw Hq ltac:(constructor) Hhi) as Hblock.
  assert (length (z1 :: hi ++ [z2]) - 1 = length (z1 :: hi))%nat as Hlen by (simpl; rewrite length_app; simpl; lia).
  rewrite Hlen in Hblock. change (z1 :: hi ++ [z2]) with ((z1 :: hi) ++ [z2]) in Hblock.
  rewrite take_app_length, drop_app_length in Hblock.
  eexists _, _. split; [exact Hblock|]. split; [done|]. unfold on_new_head.
  cbn [queuedBlocks confirmedHead sentHead with_queue app].
  rewrite (decide_False (P := height newHead < _)) by lia.
  apply Forall_cons in Hhi as [Hz1 _].
  rewrite find_breakpoint_cons, (next_height newHead Hov).
  rewrite (decide_False (P := is_child _ _)) by (apply not_child; [done|lia]).
  rewrite (decide_True (P := _ < packet_number z1)) by lia.
  rewrite (decide_True (P := -1 = -1)) by done. rewrite (decide_False (P := 0 = -1)) by lia. split; reflexivity.
Qed.
End Facts.

(** ** Witnesses *)
Definition ex_packet (hash parent number : N) : NewBlockPacket := mkNewBlockPacket (toy hash parent number : Block) (Some 7).
Definition ex_peer (queue : list NewBlockPacket) : Peer (gmap string) :=
  with_queue (newPeer "node" 65 (mkNodeEndpoint "1.2.3.4" 30303 "enode"))
    (toy_ref 9 99) (toy_ref 9 99) queue.
Definition ex_send : eth_msg -> option go_error := fun _ => None.

Example on_new_head_spec_witness :
  exists effects ep',
    on_new_head ex_send (ex_peer [ex_packet 98 97 8; ex_packet 111 55 11; ex_packet 101 100 11; ex_packet 102 101 12])
      (toy_ref 10 100) = Ret (effects, ep') /\
    sentHead ep' = toy_ref 11 101 /\ queuedBlocks ep' = [ex_packet 102 101 12].
Proof.
  set (queue := [ex_packet 98 97 8; ex_packet 111 55 11; ex_packet 101 100 11; ex_packet 102 101 12]).
  destruct (on_new_head_spec ex_send (ex_peer queue) (toy_ref 10 100) [ex_packet 98 97 8]
    [ex_packet 111 55 11; ex_packet 101 100 11] [ex_packet 102 101 12]) as [Hr _].
  1-2: vm_compute; intuition congruence.
  { reflexivity. }
  { split_and!; repeat constructor; vm_compute; congruence. }
  destruct (Hr [ex_packet 111 55 11] (ex_packet 101 100 11) [] eq_refl) as (ep' & Hnew & _ & Hs & Hq).
  { split; vm_compute; reflexivity. }
  { repeat constructor. intros [_ Hp]. vm_compute in Hp. discriminate. }
  eexists _, ep'. split; [exact Hnew|]. split; [exact Hs|exact Hq].
Defined.

Example late_block_not_sent_witness :
  exists ep1 ep2,
    on_new_block ex_send (ex_peer [ex_packet 102 101 12; ex_packet 103 102 13]) (ex_packet 101 100 11) = ([], ep1) /\
    queuedBlocks ep1 = [ex_packet 102 101 12; ex_packet 101 100 11; ex_packet 103 102 13] /\
    on_new_head ex_send ep1 (toy_ref 10 100) = Ret ([], ep2) /\ queuedBlocks ep2 = queuedBlocks ep1.
Proof.
  apply (late_block_not_sent ex_send (ex_peer [ex_packet 102 101 12; ex_packet 103 102 13]) (ex_packet 101 100 11)
    (ex_packet 102 101 12) [] (ex_packet 103 102 13) (toy_ref 10 100)).
  1-2: vm_compute; intuition congruence.
  - split; vm_compute; reflexivity.
  - split_and!; [| | |vm_compute; reflexivity]; intros Hc; vm_compute in Hc; intuition congruence.
  - reflexivity.
  - repeat constructor; vm_compute; congruence.
Defined.
