(* ===== verification/PeerProps.v ===== *)
(** The life of a peer after its handshake: every step of the goroutines that work on it, the
    invariant they keep and what they may send. *)
From S2P Require Import Prelude CMap EthTypes Chain Channel Types Peer ChainExamples PeerFacts.

Section Props.
Context `{EthTypes} {M : Type -> Type} `{!ConcurrentMap M}.
Variable p2p_Send : eth_msg -> option go_error.
Implicit Types ep : Peer M.

(** A peer whose handshake succeeded. *)
Inductive handshaken : Peer M -> Prop :=
  | handshake_done id vers endpoint read network td head genesis status effects ep :
      Handshake p2p_Send (newPeer id vers endpoint) read vers network td head genesis = (Some status, None, effects, ep) ->
      handshaken ep.

(** What may happen to it: the block loop serves a channel, a head or a block is put into a channel,
    a request is made, a response comes in and is delivered, or its channel is taken and its delivery waits,
    the peer is disconnected or marked. A head comes with any [uint64] for its height. *)
Inductive peer_step : Peer M -> list effect -> Peer M -> Prop :=
  | ps_loop ep effects ep' : loop_step p2p_Send ep effects ep' -> peer_step ep effects ep'
  | ps_head ep ht h ep' : 0 <= ht < 2 ^ 64 -> UpdateHead ep ht h = Ret ep' -> peer_step ep [] ep'
  | ps_block ep block td ep' : QueueNewBlock ep block td = Ret ep' -> peer_step ep [] ep'
  | ps_request ep h ch1 ch2 err effects ep' :
      RequestBlock p2p_Send ep h ch1 ch2 = Ret (err, effects, ep') -> peer_step ep effects ep'
  | ps_request66 ep r1 r2 h ch1 ch2 err effects ep' :
      RequestBlock66 p2p_Send ep r1 r2 h ch1 ch2 = Ret (err, effects, ep') -> peer_step ep effects ep'
  | ps_request_header ep rand origin amount skip reverse ch err effects ep' :
      RequestBlockHeaderRaw p2p_Send ep rand origin amount skip reverse ch = Ret (err, effects, ep') ->
      peer_step ep effects ep'
  | ps_tick ep rand p goon effects ep' :
      confirmation_tick p2p_Send ep rand p = Ret (goon, effects, ep') -> peer_step ep effects ep'
  | ps_response listens ep r waiting effects ep' :
      NotifyResponse listens ep r = Ret (waiting, effects, ep') -> peer_step ep effects ep'
  | ps_response66 listens ep id r waiting err effects ep' :
      NotifyResponse66 listens ep id r = Ret (waiting, err, effects, ep') -> peer_step ep effects ep'
  | ps_response_waits ep ch q :
      recv (responseQueue ep) = Ret (Some ch, q) -> peer_step ep [] (with_responses ep q (responseQueue66 ep))
  | ps_response66_waits ep id ch q66 :
      cm_pop (responseQueue66 ep) (convertRequestIDKey id) = (Some (Some ch), q66) ->
      peer_step ep [] (with_responses ep (responseQueue ep) q66)
  | ps_disconnect ep : peer_step ep [] (Disconnect ep)
  | ps_checkpoint ep b : peer_step ep [] (with_flags ep (disconnected ep) b).

Inductive peer_reachable : Peer M -> Prop :=
  | reachable_start ep : handshaken ep -> peer_reachable ep
  | reachable_step ep effects ep' : peer_reachable ep -> peer_step ep effects ep' -> peer_reachable ep'.

(** The number of values in a channel is at most its capacity, which is [cap]. *)
Definition chan_within {A} (cap : Z) (c : chan A) : Prop :=
  ch_cap c = cap /\ Z.of_nat (length (ch_buf c)) <= cap.

(** The confirmed head is not above the last block sent, except that the height after the largest one is 0. *)
Definition heads_ordered (confirmed sent : blockRef) : Prop :=
  height confirmed <= height sent \/ (height confirmed = 2 ^ 64 - 1 /\ height sent = 0).

(** The fields the block loop works on. *)
Definition queue_ok ep : Prop :=
  Z.of_nat (length (queuedBlocks ep)) <= blockQueueMaxSize /\ heads_ordered (confirmedHead ep) (sentHead ep) /\
  0 <= height (confirmedHead ep) < 2 ^ 64.

Definition peer_ok ep : Prop :=
  queue_ok ep /\ chan_within headChannelBacklog (newHeadCh ep) /\ chan_within blockChannelBacklog (newBlockCh ep) /\
  chan_within responseQueueSize (responseQueue ep) /\
  Forall (fun r => 0 <= height r < 2 ^ 64) (ch_buf (newHeadCh ep)).

Lemma send_within {A} cap (c : chan A) v c' : chan_within cap c -> send c v = Ret c' ->
  chan_within cap c' /\ ch_buf c' = ch_buf c ++ [v].
Proof.
  unfold send, chan_within, chan_full, chan_push. intros [Hc Hl]. case_decide; [done|]. intros [= <-].
  simpl. rewrite length_app. simpl. split; [split; [done|lia]|done].
Qed.

Lemma recv_within {A} cap (c : chan A) v c' : chan_within cap c -> recv c = Ret (v, c') ->
  chan_within cap c' /\ ch_buf c = v :: ch_buf c'.
Proof.
  unfold recv, chan_within. destruct (ch_buf c) as [|w buf] eqn:Hb; [done|]. intros [Hc Hl] [= <- <-].
  simpl in *. split; [split; [done|lia]|done].
Qed.

(** Two peers that agree on everything but the response queues and the flags. *)
Definition same_queues ep ep' : Prop :=
  queuedBlocks ep' = queuedBlocks ep /\ confirmedHead ep' = confirmedHead ep /\ sentHead ep' = sentHead ep /\
  newHeadCh ep' = newHeadCh ep /\ newBlockCh ep' = newBlockCh ep.

#[local] Instance same_queues_po : PreOrder same_queues.
Proof. split; [by intros ?|]. intros ??? (?&?&?&?&?) (?&?&?&?&?). split_and!; congruence. Qed.

Lemma peer_ok_same ep ep' : same_queues ep ep' -> chan_within responseQueueSize (responseQueue ep') ->
  peer_ok ep -> peer_ok ep'.
Proof.
  intros (Hq & Hc & Hs & Hh & Hb) Hr (Hok & Hhead & Hblock & _ & Hall). unfold peer_ok, queue_ok.
  rewrite Hq, Hc, Hs, Hh, Hb. done.
Qed.

Lemma register_ok ep ch ep' : registerForResponse ep ch = Ret ep' ->
  chan_within responseQueueSize (responseQueue ep) ->
  same_queues ep ep' /\ chan_within responseQueueSize (responseQueue ep').
Proof.
  unfold registerForResponse. destruct (send _ _) as [q| |] eqn:Hs; go_simpl; [|done..]. intros [= <-] Hr.
  split; [done|]. by eapply send_within.
Qed.

(** A call that registers requests and sends messages other than blocks. *)
Definition quiet ep (effects : list effect) ep' : Prop :=
  same_queues ep ep' /\ chan_within responseQueueSize (responseQueue ep') /\
  (forall p, Sent (NewBlockMsg p) ∉ effects).

Lemma peer_send_quiet ep m err effects : peer_send p2p_Send ep m = (err, effects) ->
  (forall p, m <> NewBlockMsg p) -> forall p, Sent (NewBlockMsg p) ∉ effects.
Proof.
  unfold peer_send. intros Hs Hm p. destruct (disconnected ep); simplify_eq/=; [apply not_elem_of_nil|].
  intros Hin%list_elem_of_singleton. injection Hin as Hin. by apply (Hm p).
Qed.

Lemma request_header_quiet ep rand origin amount skip reverse ch err effects ep' :
  RequestBlockHeaderRaw p2p_Send ep rand origin amount skip reverse ch = Ret (err, effects, ep') ->
  chan_within responseQueueSize (responseQueue ep) -> quiet ep effects ep'.
Proof.
  unfold RequestBlockHeaderRaw. intros Hreq Hr. destruct (isVersion66 ep).
  - destruct (peer_send _ _ _) as [err' effects'] eqn:Hs. injection Hreq as <- <- <-.
    split_and!; [done|done|]. by eapply peer_send_quiet.
  - destruct (registerForResponse ep ch) as [ep1| |] eqn:Hreg; go_simpl; [|done..].
    destruct (peer_send _ _ _) as [err' effects'] eqn:Hs. injection Hreq as <- <- <-.
    destruct (register_ok _ _ _ Hreg Hr) as [Hsame Hr1].
    split_and!; [done|done|]. by eapply peer_send_quiet.
Qed.

(** The two messages of a block request. *)
Lemma two_sends ep m1 m2 err effects ep' :
  (forall p, m1 <> NewBlockMsg p) -> (forall p, m2 <> NewBlockMsg p) ->
  (let '(err, e1) := peer_send p2p_Send ep m1 in
   match err with
   | Some err => mret (Some err, e1, ep)
   | None => let '(err, e2) := peer_send p2p_Send ep m2 in mret (err, e1 ++ e2, ep)
   end) = Ret (err, effects, ep') ->
  ep' = ep /\ forall p, Sent (NewBlockMsg p) ∉ effects.
Proof.
  intros Hm1 Hm2. destruct (peer_send _ _ m1) as [[e|] e1] eqn:Hs1.
  - intros [= <- <- <-]. split; [done|]. by eapply peer_send_quiet.
  - destruct (peer_send _ _ m2) as [err2 e2] eqn:Hs2. intros [= <- <- <-]. split; [done|].
    intros p [Hin|Hin]%elem_of_app; revert Hin; by eapply peer_send_quiet.
Qed.

Lemma request_block_quiet ep h ch1 ch2 err effects ep' :
  RequestBlock p2p_Send ep h ch1 ch2 = Ret (err, effects, ep') ->
  chan_within responseQueueSize (responseQueue ep) -> quiet ep effects ep'.
Proof.
  unfold RequestBlock. intros Hreq Hr. destruct (isVersion66 ep); [done|].
  destruct (registerForResponse ep (Some ch1)) as [ep1| |] eqn:H1; go_simpl; [|done..].
  destruct (registerForResponse ep1 (Some ch2)) as [ep2| |] eqn:H2; go_simpl; [|done..].
  destruct (register_ok _ _ _ H1 Hr) as [Hs1 Hr1]. destruct (register_ok _ _ _ H2 Hr1) as [Hs2 Hr2].
  apply two_sends in Hreq as [-> Hno]; [|done..]. split_and!; [by transitivity ep1|done|done].
Qed.

Lemma request_block66_quiet ep r1 r2 h ch1 ch2 err effects ep' :
  RequestBlock66 p2p_Send ep r1 r2 h ch1 ch2 = Ret (err, effects, ep') ->
  chan_within responseQueueSize (responseQueue ep) -> quiet ep effects ep'.
Proof.
  unfold RequestBlock66. intros Hreq Hr. destruct (negb _); [done|].
  apply two_sends in Hreq as [-> Hno]; [|done..]. by split_and!.
Qed.

(** A block that may be sent: the child of the confirmed head or, while nothing is confirmed or sent,
    a child of the head of the handshake. *)
Definition may_be_sent (confirmed sent : blockRef) (p : NewBlockPacket) : Prop :=
  is_child confirmed p \/ (height confirmed = 0 /\ height sent = 0 /\ block_parent (nb_Block p) = hash confirmed).

(** What a round of the block loop does: heads only move up, and at most one block is sent, which
    becomes the last one sent. *)
Definition loop_effects ep (effects : list effect) ep' : Prop :=
  height (confirmedHead ep) <= height (confirmedHead ep') /\
  forall p, Sent (NewBlockMsg p) ∈ effects ->
    may_be_sent (confirmedHead ep') (sentHead ep) p /\ sentHead ep' = packet_ref p.

Lemma nothing_sent ep ep' : height (confirmedHead ep) <= height (confirmedHead ep') -> loop_effects ep [] ep'.
Proof. intros Hle. split; [done|]. by intros p ?%elem_of_nil. Qed.

Lemma sendNewBlock_sends ep p q : Sent (NewBlockMsg q) ∈ snd (sendNewBlock p2p_Send ep p) -> q = p.
Proof.
  unfold sendNewBlock, peer_send. destruct (disconnected ep); simpl.
  - destruct (requestConfirmations ep); [|by intros ?%elem_of_nil]. by intros ?%list_elem_of_singleton.
  - destruct (p2p_Send _); simpl; [by intros [= ->]%list_elem_of_singleton|].
    intros [[= ->]|Hin]%elem_of_cons; [done|].
    destruct (requestConfirmations ep); [by apply list_elem_of_singleton in Hin|by apply elem_of_nil in Hin].
Qed.

Lemma packet_number_range (p : NewBlockPacket) : 0 <= packet_number p < 2 ^ 64.
Proof. apply uint64_bounds. Qed.

(** A child of the confirmed head leaves the heads ordered. *)
Lemma child_ordered confirmed (p : NewBlockPacket) :
  0 <= height confirmed < 2 ^ 64 -> is_child confirmed p -> heads_ordered confirmed (packet_ref p).
Proof.
  intros Hr [Hn _]. unfold heads_ordered. cbn [height packet_ref]. rewrite Hn.
  destruct (decide (height confirmed = 2 ^ 64 - 1)) as [->|Hne]; [right; by split|left].
  rewrite uint64_small by (unfold is_uint64; lia). lia.
Qed.

Lemma on_new_head_ok ep newHead effects ep' :
  0 <= height newHead < 2 ^ 64 -> queue_ok ep -> on_new_head p2p_Send ep newHead = Ret (effects, ep') ->
  queue_ok ep' /\ loop_effects ep effects ep' /\ newHeadCh ep' = newHeadCh ep /\ newBlockCh ep' = newBlockCh ep /\
  responseQueue ep' = responseQueue ep.
Proof.
  intros Hov (Hlen & Hle & Hrange) Hnew. unfold on_new_head in Hnew. case_decide as Hold.
  { injection Hnew as <- <-. split_and!; try done. by apply nothing_sent. }
  set (sent := if decide (height (sentHead ep) <= height newHead) then newHead else sentHead ep) in *.
  assert (height newHead <= height sent) as Hsent by (unfold sent; case_decide; lia).
  destruct (find_breakpoint newHead 0 (queuedBlocks ep) (-1)) as [bp rel] eqn:Hbp. destruct rel.
  - apply find_breakpoint_released in Hbp as (Hb & p & Hp & Hchild). rewrite Z.sub_0_r in Hp.
    rewrite (decide_False (P := bp = -1)) in Hnew by lia.
    unfold sendTopBlock in Hnew. cbn [queuedBlocks with_queue] in Hnew.
    rewrite (drop_S _ _ _ Hp) in Hnew. cbn [confirmedHead with_queue] in Hnew.
    destruct (sendNewBlock p2p_Send _ p) as [err es] eqn:Hsend. injection Hnew as <- <-.
    unfold queue_ok, loop_effects. cbn [queuedBlocks confirmedHead sentHead with_queue].
    split_and!; try done; [rewrite length_drop; lia|by apply child_ordered|lia|lia|lia|].
    intros q Hq. replace es with (snd (Some err, es)) in Hq by done.
    assert (q = p) as ->; [|by split; [left|]].
    match type of Hsend with sendNewBlock _ ?e _ = _ => apply (sendNewBlock_sends e p q) end. by rewrite Hsend.
  - injection Hnew as <- <-. unfold queue_ok, loop_effects. cbn [queuedBlocks confirmedHead sentHead with_queue].
    split_and!; try done; [rewrite length_drop; lia|by left|lia|lia|lia|]. by intros p ?%elem_of_nil.
Qed.

Lemma on_new_block_ok ep p effects ep' :
  queue_ok ep -> on_new_block p2p_Send ep p = (effects, ep') ->
  queue_ok ep' /\ loop_effects ep effects ep' /\ newHeadCh ep' = newHeadCh ep /\ newBlockCh ep' = newBlockCh ep /\
  responseQueue ep' = responseQueue ep.
Proof.
  intros (Hlen & Hle & Hcr) Hnew. unfold on_new_block in Hnew. pose proof (packet_number_range p) as Hrange.
  case_decide as Hstale.
  { injection Hnew as <- <-. split_and!; try done. by apply nothing_sent. }
  destruct (_ || _) eqn:Hnext.
  - destruct (sendNewBlock p2p_Send ep p) as [err es] eqn:Hsend. injection Hnew as <- <-.
    apply orb_true_iff in Hnext.
    assert (may_be_sent (confirmedHead ep) (sentHead ep) p) as Hmay.
    { destruct Hnext as [Hc%bool_decide_eq_true|Hi%bool_decide_eq_true]; [by left|by right]. }
    split_and!; try done.
    + split; [done|]. split; [|done]. cbn [confirmedHead sentHead with_queue].
      destruct Hmay as [Hc|(Hzero & _)]; [by apply child_ordered|]. left. cbn [height packet_ref]. lia.
    + split; [done|]. intros q Hq. assert (q = p) as ->; [|done].
      apply (sendNewBlock_sends ep p q). by rewrite Hsend.
  - injection Hnew as <- <-. split_and!; try done; [|by apply nothing_sent].
    split; cbn [queuedBlocks confirmedHead sentHead with_queue]; [|by split].
    set (queue := insert_at _ _ _). destruct (decide (blockQueueMaxSize < Z.of_nat (length queue))); [|lia].
    rewrite length_drop. unfold blockQueueMaxSize in *. lia.
Qed.

Lemma loop_step_ok ep effects ep' : peer_ok ep -> loop_step p2p_Send ep effects ep' ->
  peer_ok ep' /\ loop_effects ep effects ep'.
Proof.
  intros (Hq & Hheads & Hblocks & Hr & Hall) Hstep. destruct Hstep as [ep newHead heads effects ep' Hrecv Hnew|ep p blocks effects ep' Hrecv Hnew].
  - destruct (recv_within _ _ _ _ Hheads Hrecv) as [Hw Hbuf]. rewrite Hbuf in Hall. apply Forall_cons in Hall as [Hh Hall].
    apply on_new_head_ok in Hnew as (Hq' & Heff & Hn & Hb & Hr'); [|done|done].
    cbn [newHeadCh newBlockCh responseQueue with_channels] in *. split; [|exact Heff].
    unfold peer_ok. by rewrite Hn, Hb, Hr'.
  - destruct (recv_within _ _ _ _ Hblocks Hrecv) as [Hw Hbuf].
    apply on_new_block_ok in Hnew as (Hq' & Heff & Hn & Hb & Hr'); [|done].
    cbn [newHeadCh newBlockCh responseQueue with_channels] in *. split; [|exact Heff].
    unfold peer_ok. by rewrite Hn, Hb, Hr'.
Qed.

Lemma quiet_ok ep effects ep' : peer_ok ep -> quiet ep effects ep' -> peer_ok ep' /\ loop_effects ep effects ep'.
Proof.
  intros Hok (Hs & Hr & Hno). split; [by eapply peer_ok_same|]. destruct Hs as (_ & Hc & _).
  split; [by rewrite Hc|]. intros p Hin. by apply Hno in Hin.
Qed.

Lemma quiet_refl ep effects : peer_ok ep -> (forall p, Sent (NewBlockMsg p) ∉ effects) -> quiet ep effects ep.
Proof. by intros (_ & _ & _ & Hr & _) Hno. Qed.

Lemma notify_quiet listens ep r waiting effects ep' : peer_ok ep -> NotifyResponse listens ep r = Ret (waiting, effects, ep') ->
  quiet ep effects ep'.
Proof.
  intros (_ & _ & _ & Hr & _). unfold NotifyResponse, deliver. destruct (recv _) as [[ch q]| |] eqn:Hrecv; go_simpl; [|done..].
  destruct (recv_within _ _ _ _ Hr Hrecv) as [Hw _]. destruct ch as [ch|]; go_simpl; [destruct (listens ch); [|done]|];
    intros [= <- <- <-]; split_and!; try done; intros p; rewrite ?list_elem_of_singleton; [done|apply not_elem_of_nil].
Qed.

Lemma notify66_quiet listens ep id r waiting err effects ep' : peer_ok ep ->
  NotifyResponse66 listens ep id r = Ret (waiting, err, effects, ep') -> quiet ep effects ep'.
Proof.
  intros Hok. pose proof Hok as (_ & _ & _ & Hr & _). unfold NotifyResponse66, deliver.
  destruct (cm_pop _ _) as [[[ch|]|] q]; go_simpl; [destruct (listens ch); [|done]|..];
    intros [= <- <- <- <-]; split_and!; try done; intros p; rewrite ?list_elem_of_singleton; first [done|apply not_elem_of_nil].
Qed.

Lemma tick_quiet ep rand p goon effects ep' : peer_ok ep ->
  confirmation_tick p2p_Send ep rand p = Ret (goon, effects, ep') -> quiet ep effects ep'.
Proof.
  intros Hok. unfold confirmation_tick. case_decide.
  { intros [= <- <- <-]. apply quiet_refl; [done|]. intros q. apply not_elem_of_nil. }
  unfold RequestBlockHeader.
  destruct (RequestBlockHeaderRaw _ _ _ _ _ _ _ _) as [[[err es] ep1]| |] eqn:Hreq; go_simpl; [|done..].
  apply request_header_quiet in Hreq; [|apply Hok]. destruct err; by intros [= <- <- <-].
Qed.

Lemma peer_step_ok ep effects ep' : peer_ok ep -> peer_step ep effects ep' ->
  peer_ok ep' /\ loop_effects ep effects ep'.
Proof.
  intros Hok Hstep. pose proof Hok as (Hq & Hheads & Hblocks & Hr & Hall).
  destruct Hstep as [ep effects ep' Hl|ep ht h ep' Hrange Hs|ep block td ep' Hs| | | | | | |ep ch q Hrecv|ep id ch q66 Hpop|ep|ep b].
  - by apply loop_step_ok.
  - unfold UpdateHead in Hs. destruct (send _ _) as [c| |] eqn:Hsend; go_simpl; [|done..]. injection Hs as <-.
    destruct (send_within _ _ _ _ Hheads Hsend) as [Hw Hbuf]. split.
    + split_and!; try done. cbn [newHeadCh with_channels]. rewrite Hbuf. apply Forall_app. split; [done|].
      by apply Forall_singleton.
    + by apply nothing_sent.
  - unfold QueueNewBlock in Hs. destruct (send _ _) as [c| |] eqn:Hsend; go_simpl; [|done..]. injection Hs as <-.
    destruct (send_within _ _ _ _ Hblocks Hsend) as [Hw Hbuf]. split; [by split_and!|]. by apply nothing_sent.
  - eapply quiet_ok; [done|]. by eapply request_block_quiet.
  - eapply quiet_ok; [done|]. by eapply request_block66_quiet.
  - eapply quiet_ok; [done|]. by eapply request_header_quiet.
  - eapply quiet_ok; [done|]. by eapply tick_quiet.
  - eapply quiet_ok; [done|]. by eapply notify_quiet.
  - eapply quiet_ok; [done|]. by eapply notify66_quiet.
  - destruct (recv_within _ _ _ _ Hr Hrecv) as [Hw _].
    apply quiet_ok; [done|]. split; [done|]. split; [exact Hw|]. intros p. apply not_elem_of_nil.
  - apply quiet_ok; [done|]. split; [done|]. split; [exact Hr|]. intros p. apply not_elem_of_nil.
  - apply quiet_ok; [done|]. split_and!; try done. intros p. apply not_elem_of_nil.
  - apply quiet_ok; [done|]. split_and!; try done. intros p. apply not_elem_of_nil.
Qed.

Lemma handshake_ok ep : handshaken ep -> peer_ok ep.
Proof.
  intros [id vers endpoint read network td head genesis status effects ep' Hshake].
  unfold Handshake in Hshake. destruct (readStatus read) as [[st|] [e|]]; [done| |done|done].
  destruct (peer_send _ _ _) as [err es]. repeat (case_decide; [done|]). injection Hshake as <- <- <-.
  split_and!; try done; try (split; vm_compute; congruence).
  split; [done|]. split; [by left|]. cbn. lia.
Qed.

Lemma peer_reachable_inv ep : peer_reachable ep -> peer_ok ep.
Proof. induction 1 as [ep Hh|ep effects ep' _ Hok Hs]; [by apply handshake_ok|]. by eapply peer_step_ok. Qed.

(** C17: The life of a peer. In every state that steps of its goroutines reach after the handshake, its
    queue holds at most 50 blocks and its channels no more than their capacity, and the confirmed head is
    not above the last block sent, with one exception: after the head of the largest height, 2^64 - 1, comes
    height 0, since the code adds in [uint64]. In every such step the confirmed head does not go down,
    and a block is sent only if it is the child of the confirmed head, or nothing has been confirmed
    or sent and it is a child of the head of the handshake; it is then the last block sent. Heads may
    be announced with any [uint64] for their height. *)
Theorem peer_reachable_ok ep effects ep' :
  peer_reachable ep -> peer_step ep effects ep' ->
  Z.of_nat (length (queuedBlocks ep')) <= 50 /\
  Z.of_nat (length (ch_buf (newHeadCh ep'))) <= 10 /\ Z.of_nat (length (ch_buf (newBlockCh ep'))) <= 10 /\
  Z.of_nat (length (ch_buf (responseQueue ep'))) <= 10 /\
  heads_ordered (confirmedHead ep') (sentHead ep') /\ height (confirmedHead ep) <= height (confirmedHead ep') /\
  forall p, Sent (NewBlockMsg p) ∈ effects ->
    may_be_sent (confirmedHead ep') (sentHead ep) p /\ sentHead ep' = packet_ref p.
Proof.
  intros Hreach Hstep. apply peer_reachable_inv in Hreach.
  destruct (peer_step_ok _ _ _ Hreach Hstep) as [((Hq & Hc & _) & [_ Hh] & [_ Hb] & [_ Hr] & _) [Hup Hsent]]. done.
Qed.
End Props.

(** ** Witness *)
Definition ex_status : StatusPacket := mkStatusPacket 65 1 (Some 5) (toy_id 99) (toy_id 1) 7.
Definition ex_ready : Peer (gmap string) :=
  snd (Handshake ex_send (newPeer "node" 65 (mkNodeEndpoint "1.2.3.4" 30303 "enode"))
    (Ok (mkp2p_Msg StatusMsgCode 100 (ex_status, None))) 65 1 (Some 5) (toy_id 99) (toy_id 1)).
Definition ex_queued : Peer (gmap string) :=
  with_channels ex_ready (newHeadCh ex_ready) (chan_push (newBlockCh ex_ready) (ex_packet 100 99 10)).

Example peer_reachable_ok_witness :
  exists effects ep', loop_step ex_send ex_queued effects ep' /\ Sent (NewBlockMsg (ex_packet 100 99 10)) ∈ effects /\
    sentHead ep' = toy_ref 10 100 /\ Z.of_nat (length (queuedBlocks ep')) <= 50.
Proof.
  assert (peer_reachable ex_send ex_queued) as Hreach.
  { apply (reachable_step _ ex_ready []).
    - apply reachable_start. apply (handshake_done ex_send "node" 65 (mkNodeEndpoint "1.2.3.4" 30303 "enode")
        (Ok (mkp2p_Msg StatusMsgCode 100 (ex_status, None))) 1 (Some 5) (toy_id 99) (toy_id 1) ex_status
        [Sent (StatusMsg ex_status)]). reflexivity.
    - apply (ps_block ex_send ex_ready (nb_Block (ex_packet 100 99 10)) (Some 7)). reflexivity. }
  assert (loop_step ex_send ex_queued [Sent (NewBlockMsg (ex_packet 100 99 10)); AwaitConfirmation (ex_packet 100 99 10)]
    (with_queue ex_ready (toy_ref 0 99) (toy_ref 10 100) [])) as Hstep.
  { eapply loop_block; [reflexivity|]. reflexivity. }
  destruct (peer_reachable_ok ex_send _ _ _ Hreach (ps_loop _ _ _ _ Hstep)) as (Hq & _ & _ & _ & _ & _ & Hs).
  destruct (Hs (ex_packet 100 99 10)) as [_ Hsent]; [by left|].
  eexists _, _. split; [exact Hstep|]. split; [by left|]. split; [reflexivity|exact Hq].
Defined.

(** The exception is reached: a block of number 0 waits in the queue, its parent is announced with the
    largest height, and the block is released as the next one. *)
Definition ex_wrapped_block : NewBlockPacket := ex_packet 100 77 0.
Definition ex_last_head : blockRef := mkblockRef (2 ^ 64 - 1) (toy_id 77 : @Hash toy_EthTypes).
Definition ex_waiting : Peer (gmap string) := with_queue ex_ready (confirmedHead ex_ready) (sentHead ex_ready) [ex_wrapped_block].

Lemma ex_handshaken : handshaken ex_send ex_ready.
Proof.
  apply (handshake_done ex_send "node" 65 (mkNodeEndpoint "1.2.3.4" 30303 "enode")
    (Ok (mkp2p_Msg StatusMsgCode 100 (ex_status, None))) 1 (Some 5) (toy_id 99) (toy_id 1) ex_status
    [Sent (StatusMsg ex_status)]). reflexivity.
Qed.

Lemma heads_unordered_reachable : exists ep, peer_reachable ex_send ep /\
  height (confirmedHead ep) = 2 ^ 64 - 1 /\ height (sentHead ep) = 0.
Proof.
  assert (peer_reachable ex_send ex_waiting) as Hw.
  { eapply reachable_step; [eapply reachable_step; [apply reachable_start, ex_handshaken|]|].
    - apply (ps_block ex_send ex_ready (nb_Block ex_wrapped_block) (Some 7)). reflexivity.
    - apply ps_loop. eapply loop_block; [reflexivity|]. vm_compute. reflexivity. }
  eexists. split; [eapply reachable_step; [eapply reachable_step; [exact Hw|]|]|].
  - apply (ps_head ex_send ex_waiting (height ex_last_head) (hash ex_last_head)); [vm_compute; split; congruence|reflexivity].
  - apply ps_loop. eapply loop_head; [reflexivity|]. vm_compute. reflexivity.
  - split; reflexivity.
Qed.
