(* ===== verification/NetworkConfig.v ===== *)
(** The Ethereum network configuration (blockchain/network/config.go and preset.go) and how it is
    read from the command line. The flags come from [urfave/cli] and the node records from
    go-ethereum's [enode]: parameters. *)
From S2P Require Import Prelude Bytes EthTypes.

(** ** strings *)
(** [strings.Split] for a separator of one character. *)
Fixpoint split_on (sep : ascii) (s : string) : list string :=
  match s with
  | EmptyString => [EmptyString]
  | String c s =>
      if decide (c = sep) then EmptyString :: split_on sep s
      else match split_on sep s with
           | w :: ws => String c w :: ws
           | [] => [String c EmptyString]
           end
  end.

(** [strings.HasPrefix] *)
Definition HasPrefix (s prefix : string) : bool := String.prefix prefix s.

(** The values of the flags, as [cli.Context] gives them. *)
Record cli_Context := mkcli_Context { cli_IsSet : string -> bool; cli_String : string -> string }.

(** ** Definitions *)
Definition privateKeyLen : Z := 64.

Section Config.
Context `{EthTypes}.
(** [enode.Node], [ecdsa.PrivateKey] and the functions that read them *)
Context {Node PrivateKeyT : Type} (enode_Parse : string -> result Node) (HexToECDSA : string -> result PrivateKeyT).

Record PeerInfo := mkPeerInfo { Enode : Node; EthWsURI : string }.

Record EthConfig := mkEthConfig {
  StaticPeers : list PeerInfo;
  PrivateKey : option PrivateKeyT;
  Network : Z;
  cfg_TotalDifficulty : option Z;
  Head : Hash;
  Genesis : Hash;
  BlockConfirmationsCount : Z;
  SendBlockConfirmation : bool;
  IgnoreBlockTimeout : Z      (* nanoseconds *)
}.

Definition unknownConfig : EthConfig := mkEthConfig [] None 0 None zero_Hash zero_Hash 0 false 0.

Definition mainnet_genesis : list byte :=
  default [] (hex_decode (of_string "d4e56740f876aef8c010b86a40d5f56745a118d0906a34e69aec8c0db1cb8fa3")).

Definition newEthereumMainnetConfig : EthConfig :=
  mkEthConfig [] None 1 (Some (4 * 16 ^ 8)) (BytesToHash mainnet_genesis) (BytesToHash mainnet_genesis)
    0 false (150 * (1000 * 1000 * 1000)).

(** [networkMapping] *)
Definition networkMapping : list (string * EthConfig) := [("ethereum-mainnet"%string, newEthereumMainnetConfig)].

(** Looking up an association list that stands for a Go map literal. *)
Fixpoint map_lookup {V} (m : list (string * V)) (k : string) : option V :=
  match m with
  | [] => None
  | (k', v) :: m => if decide (k = k') then Some v else map_lookup m k
  end.

Definition NewEthereumPreset (network : string) : EthConfig * option go_error :=
  match map_lookup networkMapping network with
  | Some config => (config, None)
  | None => (unknownConfig, Some (Errorf "network did not have an available configuration"))
  end.

Definition validateWsURI (ethWsURI : string) : option go_error :=
  if negb (HasPrefix ethWsURI "ws://") && negb (HasPrefix ethWsURI "wss://")
  then Some (Errorf "unable to parse websockets URI") else None.

(** One round of the loop of [ParseMultiNode]. *)
Definition parse_pair (pairStr : string) : result PeerInfo :=
  match split_on "+"%char pairStr with
  | [] => Fail (Errorf "unable to parse --multi-node")
  | enode :: rest =>
      en ← enode_Parse enode;
      match rest with
      | [] => mret (mkPeerInfo en "")
      | ethWsURI :: _ =>
          if decide (ethWsURI = ""%string) then mret (mkPeerInfo en "") else
          match validateWsURI ethWsURI with
          | Some err => Fail err
          | None => mret (mkPeerInfo en ethWsURI)
          end
      end
  end.

Fixpoint parse_pairs (pairs : list string) : result (list PeerInfo) :=
  match pairs with
  | [] => mret []
  | pairStr :: pairs => peer ← parse_pair pairStr; peers ← parse_pairs pairs; mret (peer :: peers)
  end.

Definition ParseMultiNode (multiEthWsURI : string) : result (list PeerInfo) :=
  parse_pairs (split_on ","%char multiEthWsURI).

(** The peers of the command line. *)
Definition peers_from_cli (ctx : cli_Context) : result (list PeerInfo) :=
  if cli_IsSet ctx "multi-node" then
    if cli_IsSet ctx "enodes" then Fail (Errorf "parameters --multi-node and --enodes should not be used simultaneously")
    else ParseMultiNode (cli_String ctx "multi-node")
  else if cli_IsSet ctx "enodes" then
    node ← enode_Parse (cli_String ctx "enodes");
    if cli_IsSet ctx "eth-ws-uri" then
      let ethWsURI := cli_String ctx "eth-ws-uri" in
      match validateWsURI ethWsURI with
      | Some err => Fail err
      | None => mret [mkPeerInfo node ethWsURI]
      end
    else mret [mkPeerInfo node ""]
  else mret [].

Definition NewPresetEthConfigFromCLI (ctx : cli_Context) : result EthConfig :=
  match NewEthereumPreset (cli_String ctx "blockchain-network") with
  | (_, Some err) => Fail err
  | (preset, None) =>
      peers ← peers_from_cli ctx;
      let with_key key := mkEthConfig peers key (Network preset) (cfg_TotalDifficulty preset) (Head preset)
        (Genesis preset) (BlockConfirmationsCount preset) (SendBlockConfirmation preset) (IgnoreBlockTimeout preset) in
      if cli_IsSet ctx "private-key" then
        let privateKeyHex := cli_String ctx "private-key" in
        if decide (Z.of_nat (String.length privateKeyHex) <> privateKeyLen)
        then Fail (Errorf "incorrect private key length")
        else privateKey ← HexToECDSA privateKeyHex; mret (with_key (Some privateKey))
      else mret (with_key (PrivateKey preset))
  end.

Definition EthConfig_Update (ec otherConfig : EthConfig) : EthConfig :=
  mkEthConfig (StaticPeers ec) (PrivateKey ec) (Network otherConfig) (cfg_TotalDifficulty otherConfig)
    (Head otherConfig) (Genesis otherConfig) (BlockConfirmationsCount otherConfig)
    (SendBlockConfirmation ec) (IgnoreBlockTimeout ec).

Definition StaticEnodes (ec : EthConfig) : list Node := Enode <$> StaticPeers ec.
End Config.
Arguments PeerInfo Node : clear implicits.
Arguments EthConfig {_} Node PrivateKeyT.

(** ** Writing the peers down again

    [generatePeers] (nodes/gateway.go) joins the peers to the text [--multi-node] takes. *)
Section Generate.
Context {Node : Type} (Node_String : Node -> string).

Definition generate_step (result : string) (peer : PeerInfo Node) : string :=
  (result +:+ (Node_String (Enode peer) +:+ "+" +:+ EthWsURI peer +:+ ","))%string.

Definition generatePeers (peersInfo : list (PeerInfo Node)) : string :=
  match peersInfo with
  | [] => ""%string
  | _ => let result := foldl generate_step ""%string peersInfo in
         String.substring 0 (String.length result - 1) result
  end.
End Generate.

(** ** Lemmas *)
Fixpoint has_char (c : ascii) (s : string) : Prop :=
  match s with EmptyString => False | String c' s => c' = c \/ has_char c s end.

Lemma cons_append c s t : (String c s +:+ t = String c (s +:+ t))%string.
Proof. done. Qed.
Lemma nil_append t : ("" +:+ t = t)%string.
Proof. done. Qed.

Lemma has_char_app c s t : has_char c (s +:+ t)%string <-> has_char c s \/ has_char c t.
Proof.
  induction s as [|c' s IH]; [rewrite nil_append; simpl; tauto|]. rewrite cons_append. simpl. rewrite IH. tauto.
Qed.

Lemma string_app_assoc (s t u : string) : (s +:+ t +:+ u = (s +:+ t) +:+ u)%string.
Proof. induction s as [|c s IH]; [done|]. rewrite !cons_append. f_equal. exact IH. Qed.

Lemma split_on_none sep s : ~ has_char sep s -> split_on sep s = [s].
Proof.
  induction s as [|c s IH]; intros Hs; [done|]. simpl in *. rewrite decide_False by tauto.
  by rewrite IH by tauto.
Qed.

Lemma split_on_first sep s t : ~ has_char sep s -> split_on sep (s +:+ String sep t)%string = s :: split_on sep t.
Proof.
  induction s as [|c s IH]; intros Hs; [rewrite nil_append; simpl; by rewrite decide_True|].
  rewrite cons_append. simpl in *. rewrite decide_False by tauto. by rewrite IH by tauto.
Qed.

Lemma substring_last s c : String.substring 0 (String.length s) (s +:+ String c EmptyString)%string = s.
Proof. induction s as [|c' s IH]; [done|]. rewrite cons_append. simpl. f_equal. exact IH. Qed.

Lemma string_length_app (s t : string) : String.length (s +:+ t)%string = (String.length s + String.length t)%nat.
Proof. induction s as [|c s IH]; [done|]. rewrite cons_append. simpl. f_equal. exact IH. Qed.

Section Roundtrip.
Context `{EthTypes} {Node : Type} (enode_Parse : string -> result Node) (Node_String : Node -> string).

Definition peer_text (p : PeerInfo Node) : string := (Node_String (Enode p) +:+ "+" +:+ EthWsURI p)%string.

Fixpoint peers_text (p : PeerInfo Node) (ps : list (PeerInfo Node)) : string :=
  match ps with
  | [] => peer_text p
  | p' :: ps => (peer_text p +:+ String ","%char (peers_text p' ps))%string
  end.

Lemma generate_fold ps p acc :
  foldl (generate_step Node_String) acc (p :: ps) = (acc +:+ peers_text p ps +:+ ",")%string.
Proof.
  revert p acc. induction ps as [|p' ps IH]; intros p acc.
  - cbn [foldl peers_text]. unfold generate_step, peer_text. by rewrite !string_app_assoc.
  - change (foldl (generate_step Node_String) acc (p :: p' :: ps))
      with (foldl (generate_step Node_String) (generate_step Node_String acc p) (p' :: ps)).
    rewrite IH. cbn [peers_text]. unfold generate_step, peer_text.
    change (String ","%char (peers_text p' ps)) with ("," +:+ peers_text p' ps)%string.
    by rewrite !string_app_assoc.
Qed.

Lemma generatePeers_text p ps : generatePeers Node_String (p :: ps) = peers_text p ps.
Proof.
  unfold generatePeers. rewrite generate_fold, nil_append. cbv zeta. rewrite string_length_app.
  replace (String.length (peers_text p ps) + String.length "," - 1)%nat with (String.length (peers_text p ps)) by (simpl; lia).
  apply substring_last.
Qed.

(** A peer the command line can carry. *)
Definition peer_printable (p : PeerInfo Node) : Prop :=
  enode_Parse (Node_String (Enode p)) = Ok (Enode p) /\
  (forall c, c = ","%char \/ c = "+"%char -> ~ has_char c (Node_String (Enode p)) /\ ~ has_char c (EthWsURI p)) /\
  (EthWsURI p = ""%string \/ validateWsURI (EthWsURI p) = None).

Lemma parse_peer_text p : peer_printable p -> parse_pair enode_Parse (peer_text p) = Ok p.
Proof.
  intros (Hp & Hc & Hu). destruct (Hc "+"%char) as [Hn Hw]; [by right|]. unfold parse_pair, peer_text.
  change ("+" +:+ EthWsURI p)%string with (String "+"%char (EthWsURI p)).
  rewrite split_on_first, (split_on_none _ (EthWsURI p)) by done. rewrite Hp. go_simpl.
  destruct p as [en uri]. cbn in *. case_decide as He; [by subst|]. destruct Hu as [Hu|Hu]; [done|]. by rewrite Hu.
Qed.

Lemma peer_text_no_comma p : peer_printable p -> ~ has_char ","%char (peer_text p).
Proof.
  intros (_ & Hc & _). destruct (Hc ","%char) as [Hn Hw]; [by left|]. unfold peer_text.
  rewrite !has_char_app. simpl. intros [?|[[?|[]]|?]]; done.
Qed.

(** The peers the gateway prints can be given to [--multi-node] again. For peers whose enode text
      parses back and holds neither separator, and whose websocket address holds neither and is empty
      or valid, parsing the output of [generatePeers] gives the same peers. *)
Theorem multi_node_roundtrip p ps :
  Forall peer_printable (p :: ps) -> ParseMultiNode enode_Parse (generatePeers Node_String (p :: ps)) = Ok (p :: ps).
Proof.
  rewrite generatePeers_text. unfold ParseMultiNode. revert p. induction ps as [|p' ps IH]; intros p Hall;
    apply Forall_cons in Hall as [Hp Hall]; cbn [peers_text].
  - rewrite split_on_none by (by apply peer_text_no_comma). cbn [parse_pairs]. by rewrite parse_peer_text.
  - rewrite split_on_first by (by apply peer_text_no_comma). cbn [parse_pairs]. rewrite parse_peer_text by done.
    go_simpl. by rewrite IH.
Qed.
End Roundtrip.

(** ** Witness *)
Example multi_node_roundtrip_witness :
  ParseMultiNode (fun s => Ok s) (generatePeers (fun s => s) [mkPeerInfo "enode://ab@1.2.3.4:30303" "ws://1.2.3.4:8546";
    mkPeerInfo "enode://cd@1.2.3.5:30303" ""])
  = Ok [mkPeerInfo "enode://ab@1.2.3.4:30303"%string "ws://1.2.3.4:8546"; mkPeerInfo "enode://cd@1.2.3.5:30303"%string ""].
Proof.
  apply multi_node_roundtrip.
  apply Forall_cons; split; [|apply Forall_singleton].
  - split_and!; [done| |by right].
    intros c [-> | ->]; split; simpl; intuition congruence.
  - split_and!; [done| |by left].
    intros c [-> | ->]; split; simpl; intuition congruence.
Defined.
