(* ===== verification/Converter.v ===== *)
(** The converter between Ethereum and network types (blockchain/eth/converter.go). RLP belongs to
    go-ethereum: its encoders and decoders are operations of a class, their documented behaviour the
    laws of a second one. *)
From S2P Require Import Prelude Bytes CMap EthTypes Chain Types ChainExamples.

(** ** The interface of [rlp] *)
Class EthRlp `{EthTypes} := {
  rlp_encode_tx : EthTransaction -> result (list byte);
  rlp_encode_header : Header -> result (list byte);
  rlp_encode_uncles : list Header -> result (list byte);
  (* [TbBlockRLP]: a list of three values that are encoded already *)
  rlp_encode_block : list byte -> list (list byte) -> list byte -> result (list byte);
  (* decoding fills a value and returns an error *)
  rlp_decode_tx : list byte -> EthTransaction * option go_error;
  rlp_decode_block : list byte -> Block * option go_error
}.

(** Decoding undoes encoding; a block is encoded as the list of its header, its transactions and its
    uncles. *)
Class EthRlpLaws `{EthRlp} := {
  rlp_tx_roundtrip tx bs : rlp_encode_tx tx = Ok bs -> rlp_decode_tx bs = (tx, None);
  rlp_block_roundtrip hd txs us ehd etxs eus bs :
    rlp_encode_header hd = Ok ehd -> mapM rlp_encode_tx txs = Ok etxs -> rlp_encode_uncles us = Ok eus ->
    rlp_encode_block ehd etxs eus = Ok bs -> rlp_decode_block bs = (block_with hd txs us, None);
  rlp_encode_block_total ehd etxs eus : exists bs, rlp_encode_block ehd etxs eus = Ok bs
}.

(** ** Definitions *)
Section Converter.
Context `{EthRlp}.

(** The values the converter passes as [interface{}]. *)
Inductive interface_value :=
  | IfaceTransaction (tx : EthTransaction)
  | IfaceBlockInfo (b : BlockInfo).

(** eth/util.go *)
Definition NewSHA256Hash (h : Hash) : SHA256Hash := copy_bytes zero_hash (hash_Bytes h).

Definition TransactionBDNToBlockchain (transaction : TbTransaction) : interface_value * option go_error :=
  let '(ethTransaction, err) := rlp_decode_tx (tx_bytes transaction) in (IfaceTransaction ethTransaction, err).

Definition TransactionBlockchainToBDN (i : interface_value) : outcome (result TbTransaction) :=
  match i with
  | IfaceTransaction transaction =>
      let hash := NewSHA256Hash (transaction_hash transaction) in
      mret (content ← rlp_encode_tx transaction; mret (NewRawTbTransaction hash content))
  | IfaceBlockInfo _ => Panics TypeAssertion
  end.

(** The loop over the transactions of a block. *)
Fixpoint encode_txs (txs : list EthTransaction) : result (list TbBlockTransaction) :=
  match txs with
  | [] => mret []
  | tx :: txs =>
      match rlp_encode_tx tx with
      | Fail _ => Fail (Errorf "could not encode transaction")
      | Ok txBytes =>
          rest ← encode_txs txs;
          mret (NewTbBlockTransaction (NewSHA256Hash (transaction_hash tx)) txBytes :: rest)
      end
  end.

Definition BlockBlockchainToBDN (now : Z) (i : interface_value) : outcome (result TbBlock) :=
  match i with
  | IfaceTransaction _ => Panics TypeAssertion
  | IfaceBlockInfo blockInfo =>
      let block := bi_Block blockInfo in
      let hash := NewSHA256Hash (block_hash block) in
      mret
        match rlp_encode_header (block_header block) with
        | Fail _ => Fail (Errorf "could not encode block header")
        | Ok encodedHeader =>
            match rlp_encode_uncles (Uncles (block_body block)) with
            | Fail _ => Fail (Errorf "could not encode block trailer")
            | Ok encodedTrailer =>
                txs ← encode_txs (Transactions (block_body block));
                let difficulty := match TotalDifficulty blockInfo with None => 0 | Some d => d end in
                NewTbBlock now hash encodedHeader txs encodedTrailer (Some difficulty) (Some (block_Number block))
                  (block_size block)
            end
        end
  end.

Definition BlockBDNtoBlockchain (block : TbBlock) : result interface_value :=
  let txs := bt_content <$> tb_Txs block in
  match rlp_encode_block (tb_Header block) txs (tb_Trailer block) with
  | Fail _ => Fail (Errorf "could not convert block to blockchain format")
  | Ok b =>
      match rlp_decode_block b with
      | (_, Some _) => Fail (Errorf "could not convert block to blockchain format")
      | (ethBlock, None) => mret (IfaceBlockInfo (NewBlockInfo ethBlock (tb_TotalDifficulty block)))
      end
  end.
End Converter.

(** ** Lemmas *)
Section Facts.
Context `{EthRlpLaws} `{!EthLaws}.

Lemma NewSHA256Hash_bytes h : NewSHA256Hash h = hash_Bytes h.
Proof. unfold NewSHA256Hash. apply copy_bytes_same. by rewrite hash_Bytes_length. Qed.

(** Converting a hash there and back. *)
Lemma BytesToHash_NewSHA256Hash h : BytesToHash (NewSHA256Hash h) = h.
Proof. by rewrite NewSHA256Hash_bytes, BytesToHash_Bytes. Qed.

Lemma encode_txs_ok txs btxs : encode_txs txs = Ok btxs ->
  mapM rlp_encode_tx txs = Ok (bt_content <$> btxs) /\
  bt_hash <$> btxs = (fun tx => NewSHA256Hash (transaction_hash tx)) <$> txs.
Proof.
  revert btxs. induction txs as [|tx txs IH]; intros btxs; simpl; [by intros [= <-]|].
  destruct (rlp_encode_tx tx) as [bs|e]; [|done]. simpl. destruct (encode_txs txs) as [rest|e]; [|done].
  simpl. intros [= <-]. destruct (IH rest eq_refl) as [-> Hh]. split; [done|]. rewrite !fmap_cons, Hh. done.
Qed.

Lemma encode_txs_fails txs : (forall tx, tx ∈ txs -> exists bs, rlp_encode_tx tx = Ok bs) ->
  exists btxs, encode_txs txs = Ok btxs.
Proof.
  induction txs as [|tx txs IH]; intros Henc; [by eexists|]. simpl.
  destruct (Henc tx) as [bs ->]; [by left|]. destruct IH as [rest ->]; [intros; apply Henc; by right|].
  by eexists.
Qed.

Lemma encode_txs_error txs tx : tx ∈ txs -> is_ok (rlp_encode_tx tx) = false ->
  encode_txs txs = Fail (Errorf "could not encode transaction").
Proof.
  intros Hin Hf. induction txs as [|tx' txs IH]; [by apply not_elem_of_nil in Hin|]. simpl.
  destruct (rlp_encode_tx tx') as [bs|e] eqn:He; [|done].
  apply elem_of_cons in Hin as [->|Hin]; [by rewrite He in Hf|]. by rewrite IH.
Qed.

Lemma missing_tx_hash_spec txs : missing_tx_hash txs = true <-> zero_hash ∈ (bt_hash <$> txs).
Proof.
  induction txs as [|tx txs IH]; simpl; [by rewrite elem_of_nil|]. rewrite elem_of_cons.
  case_decide as Hz; [rewrite Hz; tauto|]. rewrite IH. naive_solver.
Qed.

(** A block that converts: what the network block holds, and what it converts back to. *)
Lemma BlockBlockchainToBDN_ok now info tb : BlockBlockchainToBDN now (IfaceBlockInfo info) = Ret (Ok tb) ->
  tb_hash tb = hash_Bytes (block_hash (bi_Block info)) /\ tb_Number tb = Some (block_Number (bi_Block info)) /\
  rlp_encode_header (block_header (bi_Block info)) = Ok (tb_Header tb) /\
  rlp_encode_uncles (Uncles (block_body (bi_Block info))) = Ok (tb_Trailer tb) /\
  BlockBDNtoBlockchain tb
  = Ok (IfaceBlockInfo (mkBlockInfo
      (block_with (block_header (bi_Block info)) (Transactions (block_body (bi_Block info)))
         (Uncles (block_body (bi_Block info)))) (default 0 (TotalDifficulty info)))).
Proof.
  unfold BlockBlockchainToBDN.
  destruct (rlp_encode_header _) as [ehd|] eqn:Hhd; [|done].
  destruct (rlp_encode_uncles _) as [eus|] eqn:Hus; [|done].
  destruct (encode_txs _) as [btxs|] eqn:Htxs; [|done]. apply encode_txs_ok in Htxs as [Htxs _].
  unfold NewTbBlock. simpl. destruct (missing_tx_hash btxs); [done|]. intros [= <-]. simpl.
  split_and!; try done; [apply NewSHA256Hash_bytes|].
  unfold BlockBDNtoBlockchain. simpl. destruct (rlp_encode_block_total ehd (bt_content <$> btxs) eus) as [bs Hbs].
  rewrite Hbs. rewrite (rlp_block_roundtrip _ _ _ _ _ _ _ Hhd Htxs Hus Hbs).
  unfold NewBlockInfo, BlockInfo_SetTotalDifficulty. simpl. by destruct (TotalDifficulty info).
Qed.

(** What the converter needs of a block: every part has an encoding, and no transaction's hash is all zero. *)
Definition convertible (b : Block) : Prop :=
  is_ok (rlp_encode_header (block_header b)) = true /\ is_ok (rlp_encode_uncles (Uncles (block_body b))) = true /\
  forall tx, tx ∈ Transactions (block_body b) ->
    is_ok (rlp_encode_tx tx) = true /\ NewSHA256Hash (transaction_hash tx) <> zero_hash.

(** Without one of these the conversion fails: with which error depends on the first of them that is missing. *)
Lemma BlockBlockchainToBDN_fails now info :
  let b := bi_Block info in
  let fails e := BlockBlockchainToBDN now (IfaceBlockInfo info) = Ret (Fail (Errorf e)) in
  (is_ok (rlp_encode_header (block_header b)) = false -> fails "could not encode block header"%string) /\
  (is_ok (rlp_encode_header (block_header b)) = true -> is_ok (rlp_encode_uncles (Uncles (block_body b))) = false ->
   fails "could not encode block trailer"%string) /\
  (is_ok (rlp_encode_header (block_header b)) = true -> is_ok (rlp_encode_uncles (Uncles (block_body b))) = true ->
   ((exists tx, tx ∈ Transactions (block_body b) /\ is_ok (rlp_encode_tx tx) = false) -> fails "could not encode transaction"%string) /\
   ((forall tx, tx ∈ Transactions (block_body b) -> is_ok (rlp_encode_tx tx) = true) ->
    (exists tx, tx ∈ Transactions (block_body b) /\ NewSHA256Hash (transaction_hash tx) = zero_hash) ->
    fails "all transactions must contain hashes"%string)).
Proof.
  cbn zeta. unfold BlockBlockchainToBDN. destruct (rlp_encode_header _) as [ehd|]; [|done].
  destruct (rlp_encode_uncles _) as [eus|]; [|done]. split_and!; [done..|]. intros _ _. split.
  - intros (tx & Hin & Hf). by rewrite (encode_txs_error _ tx).
  - intros Hall (tx & Hin & Hz). destruct (encode_txs_fails (Transactions (block_body (bi_Block info)))) as [btxs Hb].
    { intros tx' Hin'. specialize (Hall tx' Hin'). destruct (rlp_encode_tx tx'); [by eexists|done]. }
    rewrite Hb. simpl. unfold NewTbBlock. apply encode_txs_ok in Hb as [_ Hh].
    rewrite (proj2 (missing_tx_hash_spec btxs)); [done|]. rewrite Hh. apply list_elem_of_fmap. by exists tx.
Qed.

Lemma BlockBlockchainToBDN_total now info : convertible (bi_Block info) ->
  exists tb, BlockBlockchainToBDN now (IfaceBlockInfo info) = Ret (Ok tb).
Proof.
  intros (Hhd & Hus & Htxs). unfold BlockBlockchainToBDN.
  destruct (rlp_encode_header _) as [ehd|]; [|done]. destruct (rlp_encode_uncles _) as [eus|]; [|done].
  destruct (encode_txs_fails (Transactions (block_body (bi_Block info)))) as [btxs Hb].
  { intros tx Hin. destruct (Htxs tx Hin) as [Hok _]. destruct (rlp_encode_tx tx); [by eexists|done]. }
  rewrite Hb. simpl. unfold NewTbBlock. destruct (missing_tx_hash btxs) eqn:Hm; [|by eexists].
  apply missing_tx_hash_spec in Hm. apply encode_txs_ok in Hb as [_ Hh]. rewrite Hh in Hm.
  apply list_elem_of_fmap in Hm as (tx & Hz & Hin). by apply Htxs in Hin as [_ []].
Qed.

(** A block converts or fails with an error. *)
Lemma BlockBlockchainToBDN_cases now info :
  (exists tb, BlockBlockchainToBDN now (IfaceBlockInfo info) = Ret (Ok tb)) \/
  (exists e, BlockBlockchainToBDN now (IfaceBlockInfo info) = Ret (Fail e)).
Proof.
  unfold BlockBlockchainToBDN. match goal with |- context [mret ?r] => destruct r end; [left|right]; by eexists.
Qed.

Lemma BlockBlockchainToBDN_convertible now info tb :
  BlockBlockchainToBDN now (IfaceBlockInfo info) = Ret (Ok tb) -> convertible (bi_Block info).
Proof.
  intros Hconv. destruct (BlockBlockchainToBDN_fails now info) as (Hhd & Hus & Htxs). cbn zeta in *.
  destruct (is_ok (rlp_encode_header _)) eqn:Eh; [|specialize (Hhd eq_refl); congruence].
  destruct (is_ok (rlp_encode_uncles _)) eqn:Eu; [|specialize (Hus eq_refl eq_refl); congruence].
  destruct (Htxs eq_refl eq_refl) as [Henc Hhash]. split; [done|]. split; [done|].
  assert (forall tx, tx ∈ Transactions (block_body (bi_Block info)) -> is_ok (rlp_encode_tx tx) = true) as Hall.
  { intros tx Hin. destruct (is_ok (rlp_encode_tx tx)) eqn:Et; [done|]. rewrite Henc in Hconv; [done|by exists tx]. }
  intros tx Hin. split; [by apply Hall|]. intros Hz. rewrite Hhash in Hconv; [done|done|by exists tx].
Qed.

(** C28: A block survives the way through the network. If the converter turns a block into a network
    block, that has the block's hash, number and encoded parts; turning it back gives the header, the
    transactions and the uncles of the block, with the total difficulty it came with, where unknown
    or negative becomes zero. The conversion succeeds if and only if the block is [convertible]: if every part can
    be encoded and no transaction's hash is all zero. Otherwise it returns an error, which names the
    first of the parts that has no encoding, or the missing hash. A value that is not a block is a
    failed type assertion. *)
Theorem block_conversion now info :
  let b := bi_Block info in
  let converted := BlockBlockchainToBDN now (IfaceBlockInfo info) in
  (forall tb, converted = Ret (Ok tb) ->
     tb_hash tb = hash_Bytes (block_hash b) /\ tb_Number tb = Some (block_Number b) /\
     rlp_encode_header (block_header b) = Ok (tb_Header tb) /\
     rlp_encode_uncles (Uncles (block_body b)) = Ok (tb_Trailer tb) /\
     BlockBDNtoBlockchain tb
     = Ok (IfaceBlockInfo (mkBlockInfo
         (block_with (block_header b) (Transactions (block_body b)) (Uncles (block_body b)))
         (default 0 (TotalDifficulty info))))) /\
  (convertible b <-> exists tb, converted = Ret (Ok tb)) /\
  (~ convertible b <-> exists e, converted = Ret (Fail e)) /\
  (is_ok (rlp_encode_header (block_header b)) = false -> converted = Ret (Fail (Errorf "could not encode block header"))) /\
  (is_ok (rlp_encode_header (block_header b)) = true -> is_ok (rlp_encode_uncles (Uncles (block_body b))) = false ->
     converted = Ret (Fail (Errorf "could not encode block trailer"))) /\
  (is_ok (rlp_encode_header (block_header b)) = true -> is_ok (rlp_encode_uncles (Uncles (block_body b))) = true ->
     ((exists tx, tx ∈ Transactions (block_body b) /\ is_ok (rlp_encode_tx tx) = false) ->
      converted = Ret (Fail (Errorf "could not encode transaction"))) /\
     ((forall tx, tx ∈ Transactions (block_body b) -> is_ok (rlp_encode_tx tx) = true) ->
      (exists tx, tx ∈ Transactions (block_body b) /\ NewSHA256Hash (transaction_hash tx) = zero_hash) ->
      converted = Ret (Fail (Errorf "all transactions must contain hashes")))) /\
  (forall tx, BlockBlockchainToBDN now (IfaceTransaction tx) = Panics TypeAssertion).
Proof.
  cbn zeta. destruct (BlockBlockchainToBDN_fails now info) as (Hhd & Hus & Htxs).
  split; [apply BlockBlockchainToBDN_ok|]. split; [|split; [|done]].
  - split; [apply BlockBlockchainToBDN_total|]. intros [tb Htb]. by eapply BlockBlockchainToBDN_convertible.
  - split.
    + intros Hnot. destruct (BlockBlockchainToBDN_cases now info) as [[tb Htb]|He]; [|done].
      destruct Hnot. by eapply BlockBlockchainToBDN_convertible.
    + intros [e He] Hc. destruct (BlockBlockchainToBDN_total now info Hc). congruence.
Qed.
End Facts.

(** ** An instance and a witness

    The toy encoding writes a value's number, one bit per byte. *)
Fixpoint pos_bytes (p : positive) : list byte :=
  match p with xH => [] | xO p => x00 :: pos_bytes p | xI p => x01 :: pos_bytes p end.
Fixpoint bytes_pos (bs : list byte) : positive :=
  match bs with [] => xH | b :: bs => if decide (b = x00) then xO (bytes_pos bs) else xI (bytes_pos bs) end.

Lemma bytes_pos_bytes p : bytes_pos (pos_bytes p) = p.
Proof. induction p as [p IH|p IH|]; simpl; [by rewrite IH..|done]. Qed.

Definition enc {A} `{Countable A} (a : A) : list byte := pos_bytes (encode a).
Definition dec {A} `{Countable A} (bs : list byte) : option A := decode (bytes_pos bs).

Arguments enc : simpl never.
Arguments dec : simpl never.

Lemma dec_enc {A} `{Countable A} (a : A) : dec (enc a) = Some a.
Proof. unfold dec, enc. by rewrite bytes_pos_bytes, decode_encode. Qed.

#[export] Instance byte_countable : Countable byte.
Proof. apply (inj_countable Byte.to_N Byte.of_N). apply Byte.of_to_N. Defined.
#[export] Instance toy_header_eq_dec : EqDecision toy_header.
Proof. solve_decision. Defined.
#[export] Instance toy_header_countable : Countable toy_header.
Proof.
  refine (inj_countable' (fun h => (th_hash h, th_parent h, th_number h)) (fun '(h, p, n) => mkToyHeader h p n) _).
  by intros [].
Defined.

Definition toy_decode_parts (p : list byte * list (list byte) * list byte) : option Block :=
  let '(ehd, etxs, eus) := p in
  hd ← dec ehd; txs ← mapM dec etxs; us ← dec eus; Some (block_with (hd : toy_header) (txs : list N) (us : list toy_header)).

#[export] Instance toy_EthRlp : EthRlp := {
  rlp_encode_tx tx := Ok (enc (tx : N));
  rlp_encode_header hd := Ok (enc (hd : toy_header));
  rlp_encode_uncles us := Ok (enc (us : list toy_header));
  rlp_encode_block ehd etxs eus := Ok (enc (ehd, etxs, eus));
  rlp_decode_tx bs := match dec (A:=N) bs with Some tx => (tx, None) | None => (0%N, Some (Errorf "rlp")) end;
  rlp_decode_block bs :=
    match p ← dec bs; toy_decode_parts p with
    | Some b => (b, None)
    | None => (toy 0 0 0, Some (Errorf "rlp"))
    end
}.

#[export] Instance toy_EthRlpLaws : EthRlpLaws.
Proof.
  split.
  - intros tx bs [= <-]. simpl. by rewrite dec_enc.
  - intros hd txs us ehd etxs eus bs [= <-] Htxs [= <-] [= <-]. simpl. rewrite dec_enc. simpl. rewrite dec_enc. simpl.
    assert (mapM dec etxs = Some (txs : list N)) as ->; [|simpl; by rewrite dec_enc].
    revert etxs Htxs. induction txs as [|tx txs IH]; intros etxs; simpl; [by intros [= <-]|].
    destruct (mapM _ txs) as [ets|e]; [|done]. simpl. intros [= <-]. simpl. rewrite dec_enc. simpl. by rewrite IH.
  - intros. by eexists.
Qed.

Definition ex_block_info : BlockInfo :=
  NewBlockInfo (mkToyBlock (mkToyHeader 101 100 11) (mkBody [5%N; 6%N] [mkToyHeader 90 89 10]) 3 : Block) (Some 77).

(** The second transaction's hash is all zero. *)
Definition ex_hashless_info : BlockInfo :=
  NewBlockInfo (mkToyBlock (mkToyHeader 101 100 11) (mkBody [5%N; 0%N] []) 3 : Block) (Some 77).

Example block_conversion_witness :
  (exists tb, BlockBlockchainToBDN 0 (IfaceBlockInfo ex_block_info) = Ret (Ok tb) /\ tb_Number tb = Some 11 /\
    BlockBDNtoBlockchain tb = Ok (IfaceBlockInfo (mkBlockInfo
      (mkToyBlock (mkToyHeader 101 100 11) (mkBody [5%N; 6%N] [mkToyHeader 90 89 10]) 0 : Block) 77))) /\
  BlockBlockchainToBDN 0 (IfaceBlockInfo ex_hashless_info) = Ret (Fail (Errorf "all transactions must contain hashes")).
Proof.
  split.
  - destruct (block_conversion 0 ex_block_info) as (Hconv & [Hex _] & _).
    destruct Hex as [tb Htb].
    { split; [done|]. split; [done|].
      intros tx [-> |[-> |[]%elem_of_nil]%elem_of_cons]%elem_of_cons; split; try done; intros Heq; vm_compute in Heq; discriminate. }
    exists tb. destruct (Hconv tb Htb) as (_ & Hn & _ & _ & Hback). split; [exact Htb|]. split; [exact Hn|exact Hback].
  - destruct (block_conversion 0 ex_hashless_info) as (_ & _ & _ & _ & _ & Hhash & _).
    apply (Hhash eq_refl eq_refl); [done|]. exists 0%N. split; [by right; left|]. vm_compute. reflexivity.
Defined.
