(* ===== verification/PeerSet.v ===== *)
(** The set of connected peers (blockchain/eth/peerset.go). Peers are objects: the set maps an ID to
    the address of a peer. Its lock is held during each method. *)
From S2P Require Import Prelude.

(** ** Definitions *)
Abbreviation peerSet := (gmap string Z).

Definition newPeerSet : peerSet := ∅.

Definition register (ps : peerSet) (id : string) (ep : Z) : option go_error * peerSet :=
  match ps !! id with
  | Some _ => (Some (Errorf "peer already registered"), ps)
  | None => (None, <[id := ep]> ps)
  end.

Definition unregister (ps : peerSet) (id : string) : option go_error * peerSet :=
  match ps !! id with
  | None => (Some (Errorf "peer does not exist"), ps)
  | Some _ => (None, delete id ps)
  end.

Definition peerSet_get (ps : peerSet) (id : string) : option Z := ps !! id.

(** [getAll] lists the peers in the order in which Go ranges over the map, which is not specified;
    [range] is that order. *)
Class MapRange := { range : peerSet -> list string }.
Class MapRangeLaws `{MapRange} := { range_keys (ps : peerSet) : range ps ≡ₚ (map_to_list ps).*1 }.

Definition getAll `{MapRange} (ps : peerSet) : list Z := omap (fun id => ps !! id) (range ps).

(** ** Lemmas *)
#[export] Instance sorted_range : MapRange := {| range ps := (map_to_list ps).*1 |}.
#[export] Instance sorted_range_laws : MapRangeLaws.
Proof. split. done. Qed.

Lemma omap_keys (l : list (string * Z)) (ps : peerSet) :
  (forall k v, (k, v) ∈ l -> ps !! k = Some v) -> omap (fun id => ps !! id) (l.*1) = l.*2.
Proof.
  induction l as [|[k v] l IH]; intros Hl; [done|]. simpl. rewrite (Hl k v) by (by left). f_equal.
  apply IH. intros k' v' Hin. apply Hl. by right.
Qed.

(** [getAll] returns every registered peer once. *)
Lemma getAll_perm `{MapRangeLaws} ps : getAll ps ≡ₚ (map_to_list ps).*2.
Proof.
  unfold getAll. rewrite range_keys. rewrite omap_keys; [done|]. intros k v. apply elem_of_map_to_list.
Qed.

Lemma getAll_elem `{MapRangeLaws} ps p : p ∈ getAll ps <-> exists id, ps !! id = Some p.
Proof.
  rewrite getAll_perm, list_elem_of_fmap. split.
  - intros ([id q] & -> & Hin). exists id. by apply elem_of_map_to_list.
  - intros [id Hid]. exists (id, p). split; [done|]. by apply elem_of_map_to_list.
Qed.
