(* ===== verification/Backend.v ===== *)
(** The Ethereum backend (blockchain/eth/backend.go): what the messages of the peers and of the gateway
    do to the chain, the peers and the bridge. Each method of [Handler] is a computation that changes
    the handler's state, lists what it sends and starts, and can panic or wait. *)
From S2P Require Import Prelude Bytes CMap EthTypes Chain Channel Types Peer PeerSet Bridge Converter NetworkConfig.

(** ** The interfaces of the bridge

    [blockchain.Converter] and the part of [blockchain.Bridge] the backend calls; [now] is the time at
    which a block is converted. *)
Class ConverterOps `{EthTypes} := {
  conv_TransactionBlockchainToBDN : interface_value -> outcome (result TbTransaction);
  conv_TransactionBDNToBlockchain : TbTransaction -> interface_value * option go_error;
  conv_BlockBlockchainToBDN : Z -> interface_value -> outcome (result TbBlock);
  conv_BlockBDNtoBlockchain : TbBlock -> result interface_value
}.

Class BridgeOps (B : Type) := {
  br_SendTransactionsToBDN : B -> list TbTransaction -> NodeEndpoint -> option go_error * B;
  br_AnnounceTransactionHashes : B -> string -> list SHA256Hash -> option go_error * B;
  br_SendBlockToBDN : B -> TbBlock -> NodeEndpoint -> option go_error * B;
  br_SendConfirmedBlockToGateway : B -> TbBlock -> NodeEndpoint -> option go_error * B;
  br_SendBlockchainStatusResponse : B -> list NodeEndpoint -> option go_error * B;
  br_SendNoActiveBlockchainPeersAlert : B -> option go_error * B
}.

(** What the backend relies on: blocks are convertible without a crash; a block sent is accepted,
    behind the blocks accepted before, or the bridge is as it was. *)
Class ConverterLaws `{ConverterOps} := {
  conv_block_returns now info : is_ret (conv_BlockBlockchainToBDN now (IfaceBlockInfo info)) = true
}.
Class BridgeLaws (B : Type) `{BridgeOps B} := {
  pending_blocks : B -> list BlockFromNode;
  SendBlockToBDN_law b block ep :
    let '(err, b') := br_SendBlockToBDN b block ep in
    pending_blocks b' = pending_blocks b ++ (if err is None then [mkBlockFromNode block ep] else []);
  SendConfirmedBlock_law b block ep :
    pending_blocks (snd (br_SendConfirmedBlockToGateway b block ep)) = pending_blocks b
}.

#[export] Instance Converter_ops `{EthRlp} : ConverterOps := {
  conv_TransactionBlockchainToBDN := TransactionBlockchainToBDN;
  conv_TransactionBDNToBlockchain := TransactionBDNToBlockchain;
  conv_BlockBlockchainToBDN := BlockBlockchainToBDN;
  conv_BlockBDNtoBlockchain := BlockBDNtoBlockchain
}.

#[export] Instance Converter_laws `{EthRlp} : ConverterLaws.
Proof. done. Qed.

#[export] Instance TurboBridge_ops {C} : BridgeOps (TurboBridge C) := {
  br_SendTransactionsToBDN := SendTransactionsToBDN;
  br_AnnounceTransactionHashes := AnnounceTransactionHashes;
  br_SendBlockToBDN := SendBlockToBDN;
  br_SendConfirmedBlockToGateway := SendConfirmedBlockToGateway;
  br_SendBlockchainStatusResponse := SendBlockchainStatusResponse;
  br_SendNoActiveBlockchainPeersAlert := SendNoActiveBlockchainPeersAlert
}.

#[export] Instance TurboBridge_laws {C} : BridgeLaws (TurboBridge C).
Proof.
  refine {| pending_blocks b := ch_buf (blocksFromNode b) |}.
  - intros b block ep. cbn. unfold SendBlockToBDN, try_send. case_decide; simpl; by rewrite ?app_nil_r.
  - intros b block ep. cbn. unfold SendConfirmedBlockToGateway, try_send. by case_decide.
Defined.

(** ** Definitions *)
Definition checkpointTimeout : Z := 5 * (1000 * 1000 * 1000).

Section Backend.
Context `{EthTypes} {M : Type -> Type} `{!ConcurrentMap M} `{!ConverterOps} {B : Type} `{!BridgeOps B} `{MapRange}.
(** go-ethereum's [p2p.Send], the numbers of [math/rand], and the types of the configuration *)
Context (p2p_Send : eth_msg -> option go_error) (rand_Uint64 : Z -> Z) {Node PrivateKeyT : Type}.

(** [objects] holds the peers by address, registered or not. [counter] numbers the channels that are
    made and the random numbers that are drawn. *)
Record Handler := mkHandler {
  h_bridge : B;
  h_peers : peerSet;
  objects : gmap Z (Peer M);
  h_config : EthConfig Node PrivateKeyT;
  h_chain : Chain M;
  counter : Z
}.

(** What a method does besides changing the handler: effects on a peer, and goroutines. *)
Inductive handler_effect :=
  | OnPeer (p : Z) (e : effect)
  | GoAwaitBlock (p : Z) (blockHash : Hash) (headersCh bodiesCh : Z) (eth66 : bool)
  | GoForwardHeaders (p : Z) (id : option Z) (origin : HashOrNumber) (amount skip : Z) (reverse : bool).

(** *** The monad of the methods *)
Definition HM (A : Type) : Type := Handler -> outcome (A * list handler_effect * Handler).
#[export] Instance HM_ret : MRet HM := fun A a h => Ret (a, [], h).
#[export] Instance HM_bind : MBind HM := fun A A' f m h =>
  match m h with
  | Ret (a, effects, h) =>
      match f a h with
      | Ret (a', effects', h) => Ret (a', effects ++ effects', h)
      | Panics p => Panics p
      | Blocks => Blocks
      end
  | Panics p => Panics p
  | Blocks => Blocks
  end.

Definition gets {A} (f : Handler -> A) : HM A := fun h => Ret (f h, [], h).
Definition emit (effects : list handler_effect) : HM unit := fun h => Ret (tt, effects, h).
Definition go_panic_with {A} (p : go_panic) : HM A := fun _ => Panics p.
Definition lift {A} (o : outcome A) : HM A := fun h => match o with Ret a => Ret (a, [], h) | Panics p => Panics p | Blocks => Blocks end.

Definition with_chain (h : Handler) (c : Chain M) : Handler :=
  mkHandler (h_bridge h) (h_peers h) (objects h) (h_config h) c (counter h).
Definition with_bridge (h : Handler) (b : B) : Handler :=
  mkHandler b (h_peers h) (objects h) (h_config h) (h_chain h) (counter h).
Definition with_peers (h : Handler) (ps : peerSet) : Handler :=
  mkHandler (h_bridge h) ps (objects h) (h_config h) (h_chain h) (counter h).
Definition with_objects (h : Handler) (os : gmap Z (Peer M)) : Handler :=
  mkHandler (h_bridge h) (h_peers h) os (h_config h) (h_chain h) (counter h).
Definition with_config (h : Handler) (config : EthConfig Node PrivateKeyT) : Handler :=
  mkHandler (h_bridge h) (h_peers h) (objects h) config (h_chain h) (counter h).
Definition with_counter (h : Handler) (n : Z) : Handler :=
  mkHandler (h_bridge h) (h_peers h) (objects h) (h_config h) (h_chain h) n.

(** Calls of methods of the chain, of the bridge and of a peer. *)
Definition on_chain {A} (f : Chain M -> outcome (A * Chain M)) : HM A := fun h =>
  match f (h_chain h) with
  | Ret (a, c) => Ret (a, [], with_chain h c)
  | Panics p => Panics p
  | Blocks => Blocks
  end.
Definition on_bridge (f : B -> option go_error * B) : HM (option go_error) := fun h =>
  let '(err, b) := f (h_bridge h) in Ret (err, [], with_bridge h b).
Definition on_peers (f : peerSet -> option go_error * peerSet) : HM (option go_error) := fun h =>
  let '(err, ps) := f (h_peers h) in Ret (err, [], with_peers h ps).
Definition peer_at (p : Z) : HM (Peer M) := fun h =>
  match objects h !! p with Some ep => Ret (ep, [], h) | None => Panics NilDereference end.
Definition on_peer {A} (p : Z) (f : Peer M -> outcome (A * list effect * Peer M)) : HM A := fun h =>
  match objects h !! p with
  | None => Panics NilDereference
  | Some ep =>
      match f ep with
      | Ret (a, effects, ep) => Ret (a, OnPeer p <$> effects, with_objects h (<[p := ep]> (objects h)))
      | Panics e => Panics e
      | Blocks => Blocks
      end
  end.
(** A method that only sends. *)
Definition send_on_peer (p : Z) (f : Peer M -> option go_error * list effect) : HM (option go_error) :=
  on_peer p (fun ep => let '(err, effects) := f ep in Ret (err, effects, ep)).
(** A method that only changes the peer. *)
Definition update_peer (p : Z) (f : Peer M -> outcome (Peer M)) : HM unit :=
  on_peer p (fun ep => ep ← f ep; mret (tt, [], ep)).

(** The next number of [rand.Uint64], and a new channel. *)
Definition next_rand : HM Z := fun h => Ret (rand_Uint64 (counter h), [], with_counter h (counter h + 1)).
Definition make_channel : HM Z := fun h => Ret (counter h, [], with_counter h (counter h + 1)).

Fixpoint for_each {A} (l : list A) (f : A -> HM unit) : HM unit :=
  match l with [] => mret tt | x :: l => f x ;; for_each l f end.

(** *** Blocks for the BDN *)
Definition NewHandler (bridge : B) (config : EthConfig Node PrivateKeyT) : Handler :=
  mkHandler bridge newPeerSet ∅ config NewChain 0.

Definition blockAtDepth (now chainDepth : Z) : HM (result TbBlock) :=
  c ← gets h_chain;
  r ← lift (BlockAtDepth c chainDepth);
  match r with
  | Fail err => mret (Fail err)
  | Ok block => lift (conv_BlockBlockchainToBDN now (IfaceBlockInfo (NewBlockInfo block (Some (block_difficulty block)))))
  end.

(** One round of the loop over the new heads. *)
Definition send_head (now : Z) (peerEndpoint : NodeEndpoint) (newHead : BlockInfo) : HM unit :=
  r ← lift (conv_BlockBlockchainToBDN now (IfaceBlockInfo newHead));
  match r with
  | Fail _ => mret tt
  | Ok bdnBlock =>
      err ← on_bridge (fun b => br_SendBlockToBDN b bdnBlock peerEndpoint);
      match err with
      | Some _ => mret tt
      | None => on_chain (fun c => mret (tt, MarkSentToBDN c (block_hash (bi_Block newHead))))
      end
  end.

(** The second half of [sendConfirmedBlocksToBDN]. *)
Definition send_confirm_message (now : Z) (peerEndpoint : NodeEndpoint) : HM unit :=
  config ← gets h_config;
  r ← blockAtDepth now (BlockConfirmationsCount config);
  match r with
  | Fail _ => mret tt
  | Ok b =>
      let blockHash := BytesToHash (tb_hash b) in
      c ← gets h_chain;
      match getBlockMetadata c blockHash with
      | None => mret tt
      | Some metadata =>
          if confirmedMsgSent metadata then mret tt else
          err ← on_bridge (fun br => br_SendConfirmedBlockToGateway br b peerEndpoint);
          match err with
          | Some _ => mret tt
          | None => on_chain (fun c => mret (tt, storeBlockMetadata c blockHash (bm_height metadata) (confirmed metadata) true))
          end
      end
  end.

Definition sendConfirmedBlocksToBDN (now count : Z) (peerEndpoint : NodeEndpoint) : HM unit :=
  c ← gets h_chain;
  '(newHeads, _) ← lift (GetNewHeadsForBDN c count);
  for_each (reverse newHeads) (send_head now peerEndpoint) ;;
  send_confirm_message now peerEndpoint.

Definition confirmBlock (now : Z) (h : Hash) (peerEndpoint : NodeEndpoint) : HM unit :=
  newHeads ← on_chain (fun c => ConfirmBlock c h);
  sendConfirmedBlocksToBDN now newHeads peerEndpoint.

(** *** Messages of peers *)
(** [minTimestamp.Unix()]: seconds, rounded down. *)
Definition unix_seconds (t : Z) : Z := t / (1000 * 1000 * 1000).

Definition validateBlock (h : Handler) (now : Z) (blockHash : Hash) (blockHeight blockTime : Z) : option go_error :=
  match ValidateBlock (h_chain h) blockHash blockHeight with
  | Some err => Some err
  | None =>
      let minTimestamp := now - IgnoreBlockTimeout (h_config h) in
      if decide (blockTime < unix_seconds minTimestamp) then Some (Errorf "timestamp too old") else None
  end.

(** [sourceBlockchainPeer] is [None] for a block from the BDN. *)
Definition broadcastBlock (block : Block) (td : option Z) (sourceBlockchainPeer : option Z) : HM unit :=
  ps ← gets h_peers;
  for_each (getAll ps) (fun peer =>
    if decide (Some peer = sourceBlockchainPeer) then mret tt
    else update_peer peer (fun ep => QueueNewBlock ep block td)).

Definition broadcastBlockAnnouncement (block : Block) : HM unit :=
  ps ← gets h_peers;
  for_each (getAll ps) (fun peer =>
    _ ← send_on_peer peer (fun ep => AnnounceBlock p2p_Send ep (block_hash block) (block_number block)); mret tt).

Definition broadcastTransactions (txs : list EthTransaction) : HM unit :=
  ps ← gets h_peers;
  for_each (getAll ps) (fun peer => _ ← send_on_peer peer (fun ep => SendTransactions p2p_Send ep txs); mret tt).

(** The big integer [totalDifficulty] is handed on, never nil. *)
Definition processBlock (now : Z) (peer : Z) (blockInfo : BlockInfo) : HM (option go_error) :=
  let block := bi_Block blockInfo in
  err ← gets (fun h => validateBlock h now (block_hash block) (big_Int64 (block_Number block)) (int64 (block_time block)));
  match err with
  | Some _ => mret None
  | None =>
      newHeadCount ← on_chain (fun c => AddBlock c blockInfo BSBlockchain);
      ep ← peer_at peer;
      sendConfirmedBlocksToBDN now newHeadCount (endpoint ep) ;;
      broadcastBlock block (Some (totalDifficulty blockInfo)) (Some peer) ;;
      mret None
  end.

(** The loop of [processTransactions]. *)
Fixpoint transactions_to_bdn (txs : list EthTransaction) : outcome (result (list TbTransaction)) :=
  match txs with
  | [] => mret (Ok [])
  | tx :: txs =>
      r ← conv_TransactionBlockchainToBDN (IfaceTransaction tx);
      match r with
      | Fail err => mret (Fail err)
      | Ok bdnTx => rest ← transactions_to_bdn txs; mret (bdnTxs ← rest; mret (bdnTx :: bdnTxs))
      end
  end.

Definition processTransactions (peer : Z) (txs : list EthTransaction) : HM (option go_error) :=
  r ← lift (transactions_to_bdn txs);
  match r with
  | Fail err => mret (Some err)
  | Ok bdnTxs =>
      ep ← peer_at peer;
      err ← on_bridge (fun b => br_SendTransactionsToBDN b bdnTxs (endpoint ep));
      mret (if decide (err = Some ErrChannelFull) then None else err)
  end.

Definition processTransactionHashes (peer : Z) (txHashes : list Hash) : HM (option go_error) :=
  ep ← peer_at peer;
  err ← on_bridge (fun b => br_AnnounceTransactionHashes b (peer_id ep) (NewSHA256Hash <$> txHashes));
  mret (if decide (err = Some ErrChannelFull) then None else err).

Fixpoint processBlockAnnouncement (now : Z) (peer : Z) (newBlocks : list (Hash * Z)) : HM (option go_error) :=
  match newBlocks with
  | [] => mret None
  | (blockHash, _) :: newBlocks =>
      c ← gets h_chain;
      if HasBlock c blockHash then
        ep ← peer_at peer;
        confirmBlock now blockHash (endpoint ep) ;;
        processBlockAnnouncement now peer newBlocks
      else
        headersCh ← make_channel;
        bodiesCh ← make_channel;
        ep ← peer_at peer;
        err ← (if isVersion66 ep then
                 rand1 ← next_rand;
                 rand2 ← next_rand;
                 on_peer peer (fun ep => RequestBlock66 p2p_Send ep rand1 rand2 blockHash headersCh bodiesCh)
               else on_peer peer (fun ep => RequestBlock p2p_Send ep blockHash headersCh bodiesCh));
        match err with
        | Some e => mret (Some e)
        | None =>
            emit [GoAwaitBlock peer blockHash headersCh bodiesCh (isVersion66 ep)] ;;
            processBlockAnnouncement now peer newBlocks
        end
  end.

Definition processBlockHeaders (now : Z) (peer : Z) (blockHeaders : list Header) : HM (option go_error) :=
  for_each blockHeaders (fun blockHeader => ep ← peer_at peer; confirmBlock now (header_hash blockHeader) (endpoint ep)) ;;
  mret None.

(** The packets [Handle] knows. *)
Inductive packet :=
  | StatusPkt (s : StatusPacket)
  | TransactionsPkt (txs : list EthTransaction)
  | PooledTransactionsPkt (txs : list EthTransaction)
  | NewBlockPkt (p : NewBlockPacket)
  | NewBlockHashesPkt (blocks : list (Hash * Z))
  | BlockHeadersPkt (headers : list Header)
  | OtherPkt.

Definition Handle (now : Z) (peer : Z) (pkt : packet) : HM (option go_error) :=
  match pkt with
  | StatusPkt s => on_chain (fun c => mret (None, InitializeDifficulty c (st_Head s) (st_TD s)))
  | TransactionsPkt txs => processTransactions peer txs
  | PooledTransactionsPkt txs => processTransactions peer txs
  | NewBlockPkt p => processBlock now peer (NewBlockInfo (nb_Block p) (nb_TD p))
  | NewBlockHashesPkt blocks => processBlockAnnouncement now peer blocks
  | BlockHeadersPkt headers => processBlockHeaders now peer headers
  | OtherPkt => mret None
  end.

(** *** Block responses *)
(** What the goroutine of a request gets on its two channels; [None] is the time-out. For ETH66 both
    are awaited at once, and [bodiesFirst] tells whose result is seen first. *)
Definition headers_packet (r : option eth_response) : result (list Header) :=
  match r with
  | Some (HeadersResponse headers) => Ok headers
  | Some (BodiesResponse _) => Fail ErrInvalidPacketType
  | None => Fail ErrResponseTimeout
  end.
Definition bodies_packet (r : option eth_response) : result (list Body) :=
  match r with
  | Some (BodiesResponse bodies) => Ok bodies
  | Some (HeadersResponse _) => Fail ErrInvalidPacketType
  | None => Fail ErrResponseTimeout
  end.

Definition fetchBlockResponse (rawHeaders rawBodies : option eth_response) : result (list Header * list Body) :=
  headers ← headers_packet rawHeaders; bodies ← bodies_packet rawBodies; mret (headers, bodies).

Definition fetchBlockResponse66 (bodiesFirst : bool) (rawHeaders rawBodies : option eth_response)
    : result (list Header * list Body) :=
  match headers_packet rawHeaders, bodies_packet rawBodies with
  | Ok headers, Ok bodies => Ok (headers, bodies)
  | Fail err, Ok _ => Fail err
  | Ok _, Fail err => Fail err
  | Fail err1, Fail err2 => Fail (if bodiesFirst then err2 else err1)
  end.

Definition processBlockComponents (now : Z) (peer : Z) (headers : list Header) (bodies : list Body) : HM (option go_error) :=
  if decide (length headers <> 1%nat /\ length bodies <> 1%nat) then
    mret (Some (Errorf "received headers and bodies, instead of 1 of each"))
  else
    match headers, bodies with
    | header :: _, body :: _ =>
        let block := block_with header (Transactions body) (Uncles body) in
        blockInfo ← on_chain (fun c => let '(c, info, _) := SetTotalDifficulty c (NewBlockInfo block None) in mret (info, c));
        processBlock now peer blockInfo
    | _, _ => go_panic_with IndexOutOfRange
    end.

(** [awaitBlockResponse] after [fetchResponse] returned [fetched]. *)
Definition awaitBlockResponse (now : Z) (peer : Z) (fetched : result (list Header * list Body)) : HM unit :=
  match fetched with
  | Fail _ =>
      ep ← peer_at peer;
      if disconnected ep then mret tt else update_peer peer (fun ep => mret (Disconnect ep))
  | Ok (headers, bodies) => _ ← processBlockComponents now peer headers bodies; mret tt
  end.

(** *** Messages of the gateway *)
(** The loop of [processBDNTransactions]. *)
Fixpoint transactions_from_bdn (bdnTxs : list TbTransaction) : list EthTransaction :=
  match bdnTxs with
  | [] => []
  | bdnTx :: bdnTxs =>
      match conv_TransactionBDNToBlockchain bdnTx with
      | (IfaceTransaction ethTx, None) => ethTx :: transactions_from_bdn bdnTxs
      | _ => transactions_from_bdn bdnTxs
      end
  end.

Definition processBDNTransactions (bdnTxs : list TbTransaction) : HM unit :=
  broadcastTransactions (transactions_from_bdn bdnTxs).

Definition processBDNTransactionRequests (request : TransactionAnnouncement) : HM unit :=
  let ethTxHashes := BytesToHash <$> ta_Hashes request in
  ps ← gets h_peers;
  match peerSet_get ps (ta_PeerID request) with
  | None => mret tt
  | Some peer =>
      rand ← next_rand;
      _ ← send_on_peer peer (fun ep => RequestTransactions p2p_Send ep rand ethTxHashes);
      mret tt
  end.

(** [Ok None]: a duplicate. *)
Definition storeBDNBlock (bdnBlock : TbBlock) : HM (result (option BlockInfo)) :=
  let blockHash := BytesToHash (tb_hash bdnBlock) in
  c ← gets h_chain;
  if HasBlock c blockHash then mret (Ok None) else
  match conv_BlockBDNtoBlockchain bdnBlock with
  | Ok (IfaceBlockInfo ethBlockInfo) =>
      _ ← on_chain (fun c => AddBlock c ethBlockInfo BSBDN);
      mret (Ok (Some ethBlockInfo))
  | _ => mret (Fail (Errorf "could not convert BDN block to Ethereum block"))
  end.

Definition processBDNBlock (bdnBlock : TbBlock) : HM unit :=
  r ← storeBDNBlock bdnBlock;
  match r with
  | Fail _ => mret tt
  | Ok None => mret tt
  | Ok (Some ethBlockInfo) =>
      '(ethBlockInfo, err) ← on_chain (fun c =>
        let '(c, info, err) := SetTotalDifficulty c ethBlockInfo in mret ((info, err), c));
      match err with
      | Some _ => broadcastBlockAnnouncement (bi_Block ethBlockInfo)
      | None => broadcastBlock (bi_Block ethBlockInfo) (TotalDifficulty ethBlockInfo) None
      end
  end.

Definition processBlockchainStatusRequest : HM unit :=
  ps ← gets h_peers;
  os ← gets objects;
  _ ← on_bridge (fun b => br_SendBlockchainStatusResponse b (endpoint <$> omap (fun p => os !! p) (getAll ps)));
  mret tt.

(** The messages [handleBDNBridge] selects from. *)
Inductive bdn_message :=
  | BDNTransactions (txs : list TbTransaction)
  | BDNTransactionRequest (r : TransactionAnnouncement)
  | BDNBlock (b : TbBlock)
  | BDNConfig (config : EthConfig Node PrivateKeyT)
  | BDNStatusRequest.

Definition handleBDNBridge (m : bdn_message) : HM unit :=
  match m with
  | BDNTransactions bdnTxs => processBDNTransactions bdnTxs
  | BDNTransactionRequest request => processBDNTransactionRequests request
  | BDNBlock bdnBlock => processBDNBlock bdnBlock
  | BDNConfig config => fun h => Ret (tt, [], with_config h (EthConfig_Update (h_config h) config))
  | BDNStatusRequest => processBlockchainStatusRequest
  end.

(** One tick of [checkInitialBlockchainLiveliness]. *)
Definition checkInitialBlockchainLiveliness : HM unit :=
  ps ← gets h_peers;
  if decide (length (getAll ps) = 0%nat)
  then _ ← on_bridge br_SendNoActiveBlockchainPeersAlert; mret tt
  else mret tt.

(** *** The life of a peer *)
Definition backend_GetHeaders (start : HashOrNumber) (count skip : Z) (reverse : bool) : HM (result (list (option Header))) :=
  c ← gets h_chain; lift (GetHeaders c start count skip reverse).
Definition backend_GetBodies (hashes : list Hash) : HM (result (list Body)) :=
  c ← gets h_chain; mret (GetBodies c hashes).

(** [RunPeer]: what comes before [handler(ep)], the timer, and the deferred function. *)
Definition RunPeer_start (peer : Z) : HM (option go_error) :=
  ep ← peer_at peer; on_peers (fun ps => register ps (peer_id ep) peer).
Definition RunPeer_checkpoint (peer : Z) : HM unit :=
  update_peer peer (fun ep => mret (with_flags ep (disconnected ep) true)).
Definition RunPeer_end (peer : Z) : HM unit :=
  ep ← peer_at peer; _ ← on_peers (fun ps => unregister ps (peer_id ep)); mret tt.
Definition RunPeer (handler : Z -> HM (option go_error)) (peer : Z) : HM (option go_error) :=
  err ← RunPeer_start peer;
  match err with
  | Some e => mret (Some e)
  | None => err ← handler peer; RunPeer_end peer ;; mret err
  end.
End Backend.
Arguments Handler {_} M B Node PrivateKeyT.
Arguments HM {_ M B Node PrivateKeyT} A.
Arguments handler_effect {_}.
Arguments packet {_}.
