(* ===== verification/BackendFacts.v ===== *)
(** Facts about the computations of the backend: what they may change, and what the loop over the new
    heads hands to the bridge. *)
From S2P Require Import Prelude Bytes CMap EthTypes Chain ChainFacts ChainSpec ChainProps Channel Types Peer PeerSet Bridge Converter NetworkConfig Backend.

Create HintDb backend.

(** A relation between the states of the bridge that its operations preserve, whatever they are. *)
Class BridgeRel {B : Type} `{BridgeOps B} (R : relation B) : Prop := {
  bridge_rel_preorder :: PreOrder R;
  rel_SendTransactionsToBDN b txs ep : R b (snd (br_SendTransactionsToBDN b txs ep));
  rel_AnnounceTransactionHashes b id hs : R b (snd (br_AnnounceTransactionHashes b id hs));
  rel_SendBlockToBDN b block ep : R b (snd (br_SendBlockToBDN b block ep));
  rel_SendConfirmedBlockToGateway b block ep : R b (snd (br_SendConfirmedBlockToGateway b block ep));
  rel_SendBlockchainStatusResponse b eps : R b (snd (br_SendBlockchainStatusResponse b eps));
  rel_SendNoActiveBlockchainPeersAlert b : R b (snd (br_SendNoActiveBlockchainPeersAlert b))
}.

(** Applying a lemma about such a relation, which is found in the context or among the instances. *)
Tactic Notation "sapply" uconstr(H) := apply H; match goal with |- BridgeRel _ => exact _ | _ => idtac end.
#[export] Hint Extern 0 (BridgeRel _) => exact _ : backend.

Section Evolves.
Context `{EthLaws} {M : Type -> Type} `{ConcurrentMapLaws M} `{!ConverterOps} {B : Type} `{!BridgeOps B} (R : relation B) `{!BridgeRel R} `{MapRange}.
Context (p2p_Send : eth_msg -> option go_error) (rand_Uint64 : Z -> Z) {Node PrivateKeyT : Type}.
Variable valid : Header -> Prop.
#[local] Abbreviation Handler := (Handler M B Node PrivateKeyT).
#[local] Abbreviation HM := (HM (M:=M) (B:=B) (Node:=Node) (PrivateKeyT:=PrivateKeyT)).
Implicit Types h : Handler.

(** Peers stay where they are and keep their names. *)
Definition same_names (os os' : gmap Z (Peer M)) : Prop :=
  forall p ep, os !! p = Some ep -> exists ep', os' !! p = Some ep' /\ peer_id ep' = peer_id ep /\ endpoint ep' = endpoint ep.

(** What a method may do to the handler: calls of the chain's methods, changes to peers, and operations of
    the bridge. *)
Definition evolves h h' : Prop :=
  rtc (chain_step valid) (h_chain h) (h_chain h') /\ h_peers h' = h_peers h /\ same_names (objects h) (objects h') /\
  R (h_bridge h) (h_bridge h').

#[export] Instance evolves_preorder : PreOrder evolves.
Proof.
  split.
  - intros h. split_and!; [done|done| |done]. intros p ep Hp. by exists ep.
  - intros h1 h2 h3 (Hc1 & Hp1 & Hs1 & Hb1) (Hc2 & Hp2 & Hs2 & Hb2).
    split_and!; [by transitivity (h_chain h2)|congruence| |by transitivity (h_bridge h2)].
    intros p ep Hp. destruct (Hs1 p ep Hp) as (ep2 & Hp' & Hid & Hend). destruct (Hs2 p ep2 Hp') as (ep3 & Hp3 & ? & ?).
    exists ep3. split_and!; congruence.
Qed.

Lemma evolves_same h h' : h_chain h' = h_chain h -> h_peers h' = h_peers h -> objects h' = objects h ->
  R (h_bridge h) (h_bridge h') -> evolves h h'.
Proof. intros Hc Hp Ho Hb. split_and!; [by rewrite Hc|done| |done]. rewrite Ho. intros p ep Hep. by exists ep. Qed.

(** A computation all of whose results evolve. *)
Definition safe {A} (m : HM A) : Prop := forall h a es h', m h = Ret (a, es, h') -> evolves h h'.

Lemma bind_inv {A A'} (m : HM A) (f : A -> HM A') h a es h' :
  (x ← m; f x) h = Ret (a, es, h') ->
  exists x es1 h1 es2, m h = Ret (x, es1, h1) /\ f x h1 = Ret (a, es2, h') /\ es = es1 ++ es2.
Proof.
  unfold mbind, HM_bind. destruct (m h) as [[[x es1] h1]| |]; [|done..].
  destruct (f x h1) as [[[a' es2] h2]| |] eqn:Hf; [|done..]. intros [= <- <- <-]. by eexists _, _, _, _.
Qed.

Lemma bind_run {A A'} (m : HM A) (f : A -> HM A') h x es1 h1 a es2 h' :
  m h = Ret (x, es1, h1) -> f x h1 = Ret (a, es2, h') -> (x ← m; f x) h = Ret (a, es1 ++ es2, h').
Proof. intros Hm Hf. unfold mbind, HM_bind. by rewrite Hm, Hf. Qed.

Lemma safe_ret {A} (a : A) : safe (mret a).
Proof. by intros h ? ? ? [= <- <- <-]. Qed.
Lemma safe_bind {A A'} (m : HM A) (f : A -> HM A') : safe m -> (forall x, safe (f x)) -> safe (x ← m; f x).
Proof.
  intros Hm Hf h a es h' (x & es1 & h1 & es2 & Hr1 & Hr2 & _)%bind_inv. transitivity h1; [by eapply Hm|by eapply Hf].
Qed.
Lemma safe_gets {A} (f : Handler -> A) : safe (gets f).
Proof. by intros h ? ? ? [= <- <- <-]. Qed.
Lemma safe_emit es : safe (emit es).
Proof. by intros h ? ? ? [= <- <- <-]. Qed.
Lemma safe_panic {A} p : safe (A:=A) (go_panic_with p).
Proof. by intros h ? ? ?. Qed.
Lemma safe_lift {A} (o : outcome A) : safe (lift o).
Proof. intros h ? ? ?. unfold lift. destruct o; [by intros [= <- <- <-]|done..]. Qed.
Lemma safe_on_bridge f : (forall b, R b (snd (f b))) -> safe (on_bridge f).
Proof.
  intros Hf h ? ? ?. unfold on_bridge. specialize (Hf (h_bridge h)). destruct (f _). intros [= <- <- <-].
  by apply evolves_same.
Qed.
Lemma safe_peer_at p : safe (peer_at p).
Proof. intros h ? ? ?. unfold peer_at. destruct (objects h !! p); [by intros [= <- <- <-]|done]. Qed.
Lemma safe_next_rand : safe (next_rand rand_Uint64).
Proof. intros h ? ? ? [= <- <- <-]. by apply evolves_same. Qed.
Lemma safe_make_channel : safe make_channel.
Proof. intros h ? ? ? [= <- <- <-]. by apply evolves_same. Qed.

Lemma safe_for_each {A} (l : list A) (f : A -> HM unit) : (forall x, x ∈ l -> safe (f x)) -> safe (for_each l f).
Proof.
  induction l as [|x l IH]; intros Hf; simpl; [sapply safe_ret|]. sapply safe_bind; [apply Hf; by left|].
  intros _. apply IH. intros y Hy. apply Hf. by right.
Qed.

Lemma safe_on_chain {A} (f : Chain M -> outcome (A * Chain M)) :
  (forall c a c', f c = Ret (a, c') -> rtc (chain_step valid) c c') -> safe (on_chain f).
Proof.
  intros Hf h a es h'. unfold on_chain. destruct (f (h_chain h)) as [[a' c]| |] eqn:Hc; [|done..].
  intros [= <- <- <-]. split_and!; [by eapply Hf|done| |done]. intros p ep Hp. by exists ep.
Qed.

Definition keeps_name (ep ep' : Peer M) : Prop := peer_id ep' = peer_id ep /\ endpoint ep' = endpoint ep.

Lemma safe_on_peer {A} p (f : Peer M -> outcome (A * list effect * Peer M)) :
  (forall ep a es ep', f ep = Ret (a, es, ep') -> keeps_name ep ep') -> safe (on_peer p f).
Proof.
  intros Hf h a es h'. unfold on_peer. destruct (objects h !! p) as [ep|] eqn:Hp; [|done].
  destruct (f ep) as [[[a' es'] ep']| |] eqn:He; [|done..]. intros [= <- <- <-]. split_and!; [done|done| |done].
  intros q eq Hq. cbn. destruct (decide (p = q)) as [<-|Hne].
  - exists ep'. rewrite lookup_insert_eq. apply Hf in He as [? ?]. simplify_eq. done.
  - exists eq. by rewrite lookup_insert_ne.
Qed.

Lemma safe_send_on_peer p f : safe (send_on_peer p f).
Proof. sapply safe_on_peer. intros ep a es ep'. destruct (f ep). by intros [= <- <- <-]. Qed.

Lemma safe_update_peer p (f : Peer M -> outcome (Peer M)) :
  (forall ep ep', f ep = Ret ep' -> keeps_name ep ep') -> safe (update_peer p f).
Proof.
  intros Hf. sapply safe_on_peer. intros ep a es ep'. destruct (f ep) as [ep1| |] eqn:He; go_simpl; [|done..].
  intros [= <- <- <-]. by apply Hf.
Qed.

(** The operations of a peer keep its name. *)
Lemma QueueNewBlock_name ep b td ep' : QueueNewBlock ep b td = Ret ep' -> keeps_name ep ep'.
Proof. unfold QueueNewBlock. destruct (send _ _); go_simpl; [|done..]. by intros [= <-]. Qed.
Lemma UpdateHead_name ep ht x ep' : UpdateHead ep ht x = Ret ep' -> keeps_name ep ep'.
Proof. unfold UpdateHead. destruct (send _ _); go_simpl; [|done..]. by intros [= <-]. Qed.
Lemma register_name ep ch ep' : registerForResponse ep ch = Ret ep' -> keeps_name ep ep'.
Proof. unfold registerForResponse. destruct (send _ _); go_simpl; [|done..]. by intros [= <-]. Qed.

Lemma RequestBlock_name ep x c1 c2 err es ep' : RequestBlock p2p_Send ep x c1 c2 = Ret (err, es, ep') -> keeps_name ep ep'.
Proof.
  unfold RequestBlock. destruct (isVersion66 ep); [done|].
  destruct (registerForResponse ep _) as [ep1| |] eqn:Hr1; go_simpl; [|done..].
  destruct (registerForResponse ep1 _) as [ep2| |] eqn:Hr2; go_simpl; [|done..].
  apply register_name in Hr1 as [? ?], Hr2 as [? ?].
  destruct (peer_send _ _ _) as [[|] ?]; [by intros [= <- <- <-]; split; congruence|].
  destruct (peer_send _ _ _) as [? ?]. intros [= <- <- <-]; split; congruence.
Qed.
Lemma RequestBlock66_name ep r1 r2 x c1 c2 err es ep' :
  RequestBlock66 p2p_Send ep r1 r2 x c1 c2 = Ret (err, es, ep') -> keeps_name ep ep'.
Proof.
  unfold RequestBlock66. destruct (negb _); [done|].
  destruct (peer_send _ _ _) as [[|] ?]; [by intros [= <- <- <-]|].
  destruct (peer_send _ _ _) as [? ?]. by intros [= <- <- <-].
Qed.
Lemma RequestBlockHeaderRaw_name ep r o a s v ch err es ep' :
  RequestBlockHeaderRaw p2p_Send ep r o a s v ch = Ret (err, es, ep') -> keeps_name ep ep'.
Proof.
  unfold RequestBlockHeaderRaw. destruct (isVersion66 ep).
  - destruct (peer_send _ _ _). by intros [= <- <- <-].
  - destruct (registerForResponse ep _) as [ep1| |] eqn:Hr1; go_simpl; [|done..]. destruct (peer_send _ _ _).
    intros [= <- <- <-]. by apply register_name in Hr1.
Qed.

End Evolves.

#[export] Hint Resolve safe_ret safe_gets safe_emit safe_panic safe_lift safe_peer_at safe_next_rand
  safe_make_channel safe_send_on_peer QueueNewBlock_name UpdateHead_name RequestBlock_name RequestBlock66_name
  RequestBlockHeaderRaw_name : backend.

(** One of the operations of the bridge. *)
Ltac bridge_rel :=
  first [apply rel_SendTransactionsToBDN | apply rel_AnnounceTransactionHashes | apply rel_SendBlockToBDN
    | apply rel_SendConfirmedBlockToGateway | apply rel_SendBlockchainStatusResponse
    | apply rel_SendNoActiveBlockchainPeersAlert].

(** Split a computation into its parts; what is left are the calls of the chain. *)
Ltac safe_step :=
  match goal with
  | |- safe _ _ (mbind _ _) => sapply safe_bind; [|intros ?]
  | |- safe _ _ (for_each _ _) => sapply safe_for_each; intros ? ?
  | |- safe _ _ (update_peer _ _) => sapply safe_update_peer; intros ? ?
  | |- safe _ _ (on_peer _ _) => sapply safe_on_peer; intros ? ? ? ?
  | |- safe _ _ (on_bridge _) => sapply safe_on_bridge; intros ?; bridge_rel
  | |- safe _ _ (if ?b then _ else _) => destruct b
  | |- safe _ _ (match ?x with _ => _ end) => destruct x
  | |- safe _ _ _ => solve [eauto with backend]
  | |- _ -> keeps_name _ _ => solve [eauto with backend]
  end.

Section Methods.
Context `{EthLaws} {M : Type -> Type} `{ConcurrentMapLaws M} `{!ConverterOps} {B : Type} `{!BridgeOps B} (R : relation B) `{!BridgeRel R} `{MapRange}.
Context (p2p_Send : eth_msg -> option go_error) (rand_Uint64 : Z -> Z) {Node PrivateKeyT : Type}.
Variable valid : Header -> Prop.
#[local] Abbreviation Handler := (Handler M B Node PrivateKeyT).
#[local] Abbreviation HM := (HM (M:=M) (B:=B) (Node:=Node) (PrivateKeyT:=PrivateKeyT)).
#[local] Abbreviation safe := (safe R valid (M:=M) (B:=B) (Node:=Node) (PrivateKeyT:=PrivateKeyT)).
Implicit Types h : Handler.

Lemma safe_send_head now ep info : safe (send_head now ep info).
Proof.
  unfold send_head. repeat safe_step. sapply safe_on_chain. intros ? ? ? [= <- <-]. apply rtc_once. constructor.
Qed.

(** The message of a confirmed block marks a block that has metadata. *)
Lemma safe_send_confirm_message now ep : safe (send_confirm_message now ep).
Proof.
  intros h a es h'. unfold send_confirm_message. intros (config & ? & h1 & ? & [= <- <- <-] & Hrest & _)%bind_inv.
  apply bind_inv in Hrest as (r & ? & h1 & ? & Hr & Hrest & _).
  assert (h1 = h) as ->.
  { unfold blockAtDepth in Hr. apply bind_inv in Hr as (c & ? & h2 & ? & [= <- <- <-] & Hr & _).
    apply bind_inv in Hr as (r' & ? & h2 & ? & Hr' & Hr & _). unfold lift in Hr'.
    destruct (BlockAtDepth _ _); [|done..]. injection Hr' as <- <- <-.
    destruct a0; [|by injection Hr as <- <- <-]. unfold lift in Hr. destruct (conv_BlockBlockchainToBDN _ _); [|done..].
    by injection Hr as <- <- <-. }
  destruct r as [b|e]; [|by injection Hrest as <- <- <-].
  apply bind_inv in Hrest as (c & ? & h1 & ? & [= <- <- <-] & Hrest & _).
  destruct (getBlockMetadata _ _) as [bm|] eqn:Hbm; [|by injection Hrest as <- <- <-].
  destruct (confirmedMsgSent bm); [by injection Hrest as <- <- <-|].
  apply bind_inv in Hrest as (err & ? & h1 & ? & Hb & Hrest & _). unfold on_bridge in Hb.
  pose proof (rel_SendConfirmedBlockToGateway (h_bridge h) b ep) as Hrel.
  destruct (br_SendConfirmedBlockToGateway _ _ _) as [err' b']. injection Hb as <- <- <-.
  destruct err'; injection Hrest as <- <- <-; [by apply evolves_same|].
  split_and!; [|done|by intros p ep' Hp; exists ep'|done]. apply rtc_once. cbn. by constructor.
Qed.
#[local] Hint Resolve safe_send_head safe_send_confirm_message : backend.

Lemma safe_sendConfirmedBlocks now count ep : safe (sendConfirmedBlocksToBDN now count ep).
Proof. unfold sendConfirmedBlocksToBDN. repeat safe_step. Qed.
#[local] Hint Resolve safe_sendConfirmedBlocks : backend.

Lemma safe_confirmBlock now x ep : safe (confirmBlock now x ep).
Proof.
  unfold confirmBlock. repeat safe_step. sapply safe_on_chain. intros ? ? ? Hc. apply rtc_once. by econstructor.
Qed.
#[local] Hint Resolve safe_confirmBlock : backend.

Lemma safe_broadcastBlock b td src : safe (broadcastBlock b td src).
Proof. unfold broadcastBlock. repeat safe_step. Qed.
Lemma safe_broadcastBlockAnnouncement b : safe (broadcastBlockAnnouncement p2p_Send b).
Proof. unfold broadcastBlockAnnouncement. repeat safe_step. Qed.
Lemma safe_broadcastTransactions txs : safe (broadcastTransactions p2p_Send txs).
Proof. unfold broadcastTransactions. repeat safe_step. Qed.
#[local] Hint Resolve safe_broadcastBlock safe_broadcastBlockAnnouncement safe_broadcastTransactions : backend.

Lemma safe_processBlock now p info : valid (block_header (bi_Block info)) -> safe (processBlock now p info).
Proof.
  intros Hv. unfold processBlock. repeat safe_step. sapply safe_on_chain. intros ? ? ? Hc. apply rtc_once.
  by econstructor.
Qed.

Lemma safe_processTransactions p txs : safe (processTransactions p txs).
Proof. unfold processTransactions. repeat safe_step. Qed.
Lemma safe_processBlockHeaders now p hds : safe (processBlockHeaders now p hds).
Proof. unfold processBlockHeaders. repeat safe_step. Qed.
#[local] Hint Resolve safe_processTransactions safe_processBlockHeaders : backend.

Lemma safe_processBlockAnnouncement now p blocks : safe (processBlockAnnouncement p2p_Send rand_Uint64 now p blocks).
Proof.
  induction blocks as [|[x n] blocks IH]; simpl; [sapply safe_ret|]. repeat safe_step; try apply IH.
Qed.
#[local] Hint Resolve safe_processBlockAnnouncement : backend.

(** The blocks a packet brings have headers of the network. *)
Definition packet_valid (pkt : packet) : Prop :=
  if pkt is NewBlockPkt p then valid (block_header (nb_Block p)) else True.

Lemma safe_Handle now p pkt : packet_valid pkt -> safe (Handle p2p_Send rand_Uint64 now p pkt).
Proof.
  intros Hv. destruct pkt; simpl; repeat safe_step; try by sapply safe_processBlock.
  sapply safe_on_chain. intros ? ? ? [= <- <-]. apply rtc_once. constructor.
Qed.

Lemma safe_processBlockComponents now p hds bodies : Forall valid hds -> safe (processBlockComponents now p hds bodies).
Proof.
  intros Hv. unfold processBlockComponents. safe_step; [repeat safe_step|].
  destruct hds as [|hd hds]; [repeat safe_step|]. destruct bodies as [|body bodies]; [repeat safe_step|].
  apply Forall_cons in Hv as [Hv _]. intros h a es h' (info & es1 & h1 & es2 & Hr1 & Hr2 & _)%bind_inv.
  unfold on_chain in Hr1.
  destruct (SetTotalDifficulty (h_chain h) (NewBlockInfo (block_with hd (Transactions body) (Uncles body)) None))
    as [[c info'] err] eqn:Hset. injection Hr1 as <- <- <-.
  assert (bi_Block info' = block_with hd (Transactions body) (Uncles body)) as Hb.
  { unfold SetTotalDifficulty in Hset. repeat case_match; by simplify_eq/=. }
  transitivity (with_chain h c).
  - split_and!; [|done|by intros q eq Hq; exists eq|done]. apply rtc_once. cbn.
    assert (c = (SetTotalDifficulty (h_chain h) (NewBlockInfo (block_with hd (Transactions body) (Uncles body)) None)).1.1)
      as -> by (by rewrite Hset). constructor.
  - eapply safe_processBlock; [|exact Hr2]. by rewrite Hb, block_with_header.
Qed.

Lemma safe_awaitBlockResponse now p fetched :
  (forall hds bodies, fetched = Ok (hds, bodies) -> Forall valid hds) -> safe (awaitBlockResponse now p fetched).
Proof.
  intros Hv. unfold awaitBlockResponse. destruct fetched as [[hds bodies]|e].
  - sapply safe_bind; [|intros; sapply safe_ret]. sapply safe_processBlockComponents. by eapply Hv.
  - repeat safe_step. by intros [= <-].
Qed.

(** The blocks of the gateway convert to blocks of the network. *)
Definition bdn_valid (m : bdn_message (Node:=Node) (PrivateKeyT:=PrivateKeyT)) : Prop :=
  match m with
  | BDNBlock b => forall info, conv_BlockBDNtoBlockchain b = Ok (IfaceBlockInfo info) -> valid (block_header (bi_Block info))
  | _ => True
  end.

Lemma safe_processBDNBlock b :
  bdn_valid (BDNBlock b) -> safe (processBDNBlock p2p_Send b).
Proof.
  intros Hv. unfold processBDNBlock. sapply safe_bind.
  - unfold storeBDNBlock. safe_step; [safe_step|]. safe_step; [safe_step|].
    destruct (conv_BlockBDNtoBlockchain b) as [[tx|info]|e] eqn:Hc; [sapply safe_ret| |sapply safe_ret].
    sapply safe_bind; [|intros; sapply safe_ret]. sapply safe_on_chain. intros ? ? ? Hadd. apply rtc_once.
    eapply step_AddBlock; [|exact Hadd]. by apply Hv.
  - intros [[info|]|e]; [|sapply safe_ret..]. sapply safe_bind.
    + sapply safe_on_chain. intros c ? c'. destruct (SetTotalDifficulty c info) as [[c1 i1] e1] eqn:Hset.
      intros [= <- <-]. apply rtc_once.
      assert (c1 = (SetTotalDifficulty c info).1.1) as -> by (by rewrite Hset). constructor.
    + intros [i err]. destruct err; eauto with backend.
Qed.

Lemma safe_handleBDNBridge m : bdn_valid m -> safe (handleBDNBridge p2p_Send rand_Uint64 m).
Proof.
  intros Hv. destruct m; simpl.
  - unfold processBDNTransactions. eauto with backend.
  - unfold processBDNTransactionRequests. repeat safe_step.
  - by sapply safe_processBDNBlock.
  - intros h a es h' [= <- <- <-]. by apply evolves_same.
  - unfold processBlockchainStatusRequest. repeat safe_step.
Qed.
End Methods.

#[export] Hint Resolve safe_send_head safe_send_confirm_message safe_sendConfirmedBlocks safe_confirmBlock
  safe_broadcastBlock safe_broadcastBlockAnnouncement safe_broadcastTransactions safe_processTransactions
  safe_processBlockHeaders safe_processBlockAnnouncement safe_Handle safe_handleBDNBridge safe_awaitBlockResponse : backend.
