(* ===== verification/BackendProps.v ===== *)
(** What the backend hands to the gateway. *)
From S2P Require Import Prelude Bytes CMap EthTypes Chain ChainFacts ChainSpec ChainProps ChainExamples Channel Types Peer PeerSet Bridge Converter NetworkConfig Backend BackendFacts.

Section Sending.
Context `{EthLaws} {M : Type -> Type} `{ConcurrentMapLaws M} `{!ConverterOps, !ConverterLaws} {B : Type} `{BridgeLaws B} `{MapRange}.
Context {Node PrivateKeyT : Type}.
Variable valid : Header -> Prop.
Hypothesis valid_not_nil : forall hd, valid hd -> header_hash hd <> nil_header_hash /\ header_parent hd <> nil_header_hash.
#[local] Abbreviation Handler := (Handler M B Node PrivateKeyT).
Implicit Types h : Handler.
Implicit Types c : Chain M.

Definition has_metadata c (x : Hash) : Prop := is_Some (getBlockMetadata c x).

Lemma MarkSent_spec c x y :
  (HasSentToBDN (MarkSentToBDN c x) y = true <-> HasSentToBDN c y = true \/ (y = x /\ has_metadata c x)) /\
  (has_metadata (MarkSentToBDN c x) y <-> has_metadata c y) /\ chainState (MarkSentToBDN c x) = chainState c.
Proof.
  unfold MarkSentToBDN, HasSentToBDN, has_metadata. destruct (getBlockMetadata c x) as [bm|] eqn:Hx.
  2:{ split_and!; [|done|done]. split; [by left|]. intros [?|[_ [? ?]]]; done. }
  rewrite !getBlockMetadata_spec in *. unfold metas in *. cbn. rewrite cm_view_set, lookup_insert.
  case_decide as Hxy; [apply hash_string_eq in Hxy as <-|].
  - rewrite Hx. split_and!; [|split; by eexists|done]. cbn. split; [right; split; [done|by eexists]|done].
  - split_and!; [|done|done]. split; [by left|]. intros [?|[-> _]]; done.
Qed.

(** What the loop over the new heads leaves: [sent] are the blocks the bridge took. *)
Definition heads_sent (now : Z) (ep : NodeEndpoint) h (infos : list BlockInfo) (sent : list (BlockInfo * TbBlock)) h' : Prop :=
  sent.*1 `sublist_of` infos /\
  Forall (fun x => conv_BlockBlockchainToBDN now (IfaceBlockInfo x.1) = Ret (Ok x.2)) sent /\
  pending_blocks (h_bridge h') = pending_blocks (h_bridge h) ++ ((fun x => mkBlockFromNode x.2 ep) <$> sent) /\
  (forall x, HasSentToBDN (h_chain h') x = true <->
     HasSentToBDN (h_chain h) x = true \/ x ∈ (fun s => block_hash (bi_Block s.1)) <$> sent) /\
  (forall x, has_metadata (h_chain h') x <-> has_metadata (h_chain h) x) /\
  chainState (h_chain h') = chainState (h_chain h).

Lemma send_head_spec now ep h info : has_metadata (h_chain h) (block_hash (bi_Block info)) ->
  exists sent h', send_head now ep info h = Ret (tt, [], h') /\ heads_sent now ep h [info] sent h'.
Proof.
  intros Hmeta. unfold send_head, mbind, HM_bind, lift.
  pose proof (conv_block_returns now info) as Hconv. destruct (conv_BlockBlockchainToBDN now _) as [[tb|e]| |] eqn:Hc; [| |done..].
  2:{ exists [], h. split; [done|]. split_and!; try done; [apply sublist_nil_l|by rewrite app_nil_r|].
      intros x. cbn. rewrite elem_of_nil. tauto. }
  unfold on_bridge. pose proof (SendBlockToBDN_law (h_bridge h) tb ep) as Hlaw.
  destruct (br_SendBlockToBDN (h_bridge h) tb ep) as [[e|] b'].
  - exists [], (with_bridge h b'). split; [done|].
    split_and!; try done; [apply sublist_nil_l|]. intros x. cbn. rewrite elem_of_nil. tauto.
  - eexists [(info, tb)], _. split; [reflexivity|]. cbn.
    split_and!; [done|by repeat constructor|done| | |].
    + intros x. destruct (MarkSent_spec (h_chain h) (block_hash (bi_Block info)) x) as (Hs & _).
      cbn. rewrite list_elem_of_singleton. rewrite Hs. tauto.
    + intros x. apply MarkSent_spec.
    + apply (MarkSent_spec (h_chain h) (block_hash (bi_Block info)) zero_Hash).
Qed.

Lemma for_each_heads now ep infos h :
  Forall (fun info => has_metadata (h_chain h) (block_hash (bi_Block info))) infos ->
  exists sent h', for_each infos (send_head now ep) h = Ret (tt, [], h') /\ heads_sent now ep h infos sent h'.
Proof.
  revert h. induction infos as [|info infos IH]; intros h Hall.
  { exists [], h. split; [done|]. split_and!; try done; [by rewrite app_nil_r|]. intros x. cbn. rewrite elem_of_nil. tauto. }
  apply Forall_cons in Hall as [Hinfo Hall]. destruct (send_head_spec now ep h info Hinfo) as (s1 & h1 & Heq1 & Hs1).
  destruct Hs1 as (Hsub1 & Hconv1 & Hp1 & Hsent1 & Hmeta1 & Hst1).
  destruct (IH h1) as (s2 & h2 & Heq2 & Hsub2 & Hconv2 & Hp2 & Hsent2 & Hmeta2 & Hst2).
  { eapply Forall_impl; [exact Hall|]. cbn. intros i. by rewrite Hmeta1. }
  exists (s1 ++ s2), h2. split.
  { cbn [for_each]. unfold mbind, HM_bind. rewrite Heq1, Heq2. done. }
  split_and!.
  - rewrite fmap_app. by apply (sublist_app _ [info]).
  - by apply Forall_app.
  - rewrite Hp2, Hp1, fmap_app. by rewrite app_assoc.
  - intros x. rewrite Hsent2, Hsent1, fmap_app, elem_of_app. tauto.
  - intros x. by rewrite Hmeta2, Hmeta1.
  - congruence.
Qed.

(** The second half leaves the blocks alone. *)
Lemma send_confirm_message_keeps now ep h es h' :
  send_confirm_message now ep h = Ret (tt, es, h') ->
  pending_blocks (h_bridge h') = pending_blocks (h_bridge h) /\ chainState (h_chain h') = chainState (h_chain h) /\
  forall x, HasSentToBDN (h_chain h') x = HasSentToBDN (h_chain h) x.
Proof.
  unfold send_confirm_message, blockAtDepth, gets, lift, mbind, HM_bind.
  destruct (BlockAtDepth _ _) as [[block|e]| |]; cbn; [|by intros [= <- <-]|done..].
  destruct (conv_BlockBlockchainToBDN _ _) as [[tb|e]| |]; cbn; [|by intros [= <- <-]|done..].
  destruct (getBlockMetadata _ _) as [bm|] eqn:Hbm; [|by intros [= <- <-]].
  destruct (confirmedMsgSent bm); [by intros [= <- <-]|]. unfold on_bridge.
  pose proof (SendConfirmedBlock_law (h_bridge h) tb ep) as Hlaw.
  destruct (br_SendConfirmedBlockToGateway _ _ _) as [[e|] b']; intros [= <- <-]; [done|]. cbn in *.
  split_and!; [done|apply storeMetadata_rest|]. intros x. unfold HasSentToBDN.
  rewrite getBlockMetadata_spec in Hbm |- *. rewrite storeMetadata_metas, Hbm, lookup_insert.
  rewrite getBlockMetadata_spec. case_decide as Hx; [|done]. rewrite <- Hx, Hbm. done.
Qed.

(** C13: New heads go to the gateway once and parents first. On a consistent chain the loop of
      [sendConfirmedBlocksToBDN] always returns. The blocks the bridge accepts are conversions of new
      heads, in the reverse order of the chain state, so that older blocks come first; they stand
      behind those accepted before. None of them had been sent, and exactly they are marked as sent.
      The confirmation message that follows changes none of this. *)
Theorem sendConfirmedBlocks_spec now count ep h :
  chain_ok valid (h_chain h) -> 0 <= count -> count * 8 <= max_alloc ->
  exists heads err sent h1,
    GetNewHeadsForBDN (h_chain h) count = Ret (heads, err) /\
    Forall2 (head_info (h_chain h)) (take (length heads) (chainState (h_chain h))) heads /\
    heads_sent now ep h (reverse heads) sent h1 /\
    Forall (fun s => HasSentToBDN (h_chain h) (block_hash (bi_Block s.1)) = false) sent /\
    sendConfirmedBlocksToBDN now count ep h = send_confirm_message now ep h1 /\
    (forall es h', sendConfirmedBlocksToBDN now count ep h = Ret (tt, es, h') ->
       pending_blocks (h_bridge h') = pending_blocks (h_bridge h1) /\ chainState (h_chain h') = chainState (h_chain h) /\
       forall x, HasSentToBDN (h_chain h') x = HasSentToBDN (h_chain h1) x).
Proof.
  intros Hok Hpos Hmax.
  destruct (new_heads_spec (h_chain h) count (chainState (h_chain h))) as (heads & err & Heq' & Hf & _).
  { intros r Hr. by apply (ref_not_nil valid). }
  assert (GetNewHeadsForBDN (h_chain h) count = Ret (heads, err)) as Heq.
  { unfold GetNewHeadsForBDN. by rewrite make_cap_ok. }
  assert (Forall (fun i => exists bm, getBlockMetadata (h_chain h) (block_hash (bi_Block i)) = Some bm /\ sentToBDN bm = false) heads)
    as Hmeta.
  { clear Heq Heq'. induction Hf as [|r i rs infos Hri Hf IH]; constructor; [|done].
    destruct Hri as (bm & hd & body & Hbm & Hs & Hhd & Hbody & ->). exists bm. split; [|done].
    cbn. rewrite block_hash_header, block_with_header.
    apply getBlockHeader_elem in Hhd as (_ & _ & _ & _ & _ & Hhash). cbn in Hhash. by rewrite Hhash. }
  destruct (for_each_heads now ep (reverse heads) h) as (sent & h1 & Hfor & Hsent).
  { apply Forall_reverse. eapply Forall_impl; [exact Hmeta|]. intros i (bm & Hbm & _). by exists bm. }
  exists heads, err, sent, h1.
  assert (sendConfirmedBlocksToBDN now count ep h = send_confirm_message now ep h1) as Hall.
  { unfold sendConfirmedBlocksToBDN, gets, lift, mbind, HM_bind. rewrite Heq. cbn. rewrite Hfor.
    by destruct (send_confirm_message now ep h1) as [[[[] es] h']| |]. }
  split_and!; try done.
  - pose proof Hsent as (Hsub & _).
    apply Forall_forall. intros s Hs. 
    assert (s.1 ∈ heads) as Hin.
    { apply elem_of_reverse. eapply elem_of_sublist; [|exact Hsub]. apply list_elem_of_fmap. by exists s. }
    rewrite Forall_forall in Hmeta. destruct (Hmeta _ Hin) as (bm & Hbm & Hf0). unfold HasSentToBDN. by rewrite Hbm.
  - intros es h'. rewrite Hall. intros Hc. pose proof Hsent as (_ & _ & _ & _ & _ & Hst).
    rewrite <- Hst. by eapply send_confirm_message_keeps.
Qed.
End Sending.

(** ** Witness *)
Definition ex_endpoint : NodeEndpoint := mkNodeEndpoint "1.2.3.4" 30303 "enode".
Definition ex_handler : Handler (gmap string) (TurboBridge (EthConfig string unit)) string unit :=
  with_chain (NewHandler NewTurboBridge unknownConfig) ex_chain.

Example sendConfirmedBlocks_spec_witness :
  exists heads err sent h1, GetNewHeadsForBDN ex_chain 3 = Ret (heads, err) /\
    heads_sent 0 ex_endpoint ex_handler (reverse heads) sent h1.
Proof.
  destruct (sendConfirmedBlocks_spec toy_valid toy_valid_not_nil 0 3 ex_endpoint ex_handler ex_chain_ok)
    as (heads & err & sent & h1 & Hheads & _ & Hsent & _); [lia|unfold max_alloc; lia|].
  exists heads, err, sent, h1. split; [exact Hheads|exact Hsent].
Defined.
