(* ===== verification/NodeBlocks.v ===== *)
(** Blocks a node sends: a new block that extends the head goes to the gateway and to the other peers. *)
From S2P Require Import Prelude Bytes CMap EthTypes Chain ChainFacts ChainSpec ChainCanonical ChainProps ChainExamples Channel Types.
From S2P Require Import Peer PeerSet Bridge Converter NetworkConfig Backend BackendFacts BackendProps.

Section NodeBlocks.
Context `{EthLaws} {M : Type -> Type} `{ConcurrentMapLaws M} `{!ConverterOps, !ConverterLaws} `{MapRangeLaws}.
Context (p2p_Send : eth_msg -> option go_error) (rand_Uint64 : Z -> Z) {Config Node PrivateKeyT : Type}.
Variable valid : Header -> Prop.
Hypothesis valid_not_nil : forall hd, valid hd -> header_hash hd <> nil_header_hash /\ header_parent hd <> nil_header_hash.
#[local] Abbreviation HM := (HM (M:=M) (B:=TurboBridge Config) (Node:=Node) (PrivateKeyT:=PrivateKeyT)).
#[local] Abbreviation Handler := (Handler M (TurboBridge Config) Node PrivateKeyT).
Implicit Types h : Handler.
Implicit Types ep : Peer M.

(** *** The other peers *)
Definition queue_block (block : Block) (td : option Z) ep : Peer M :=
  with_channels ep (newHeadCh ep) (chan_push (newBlockCh ep) (mkNewBlockPacket block td)).

(** Peer [q] exists and its loop has room for [n] more blocks. *)
Definition has_room h (n : Z) (q : Z) : Prop :=
  exists ep, objects h !! q = Some ep /\ Z.of_nat (length (ch_buf (newBlockCh ep))) + n <= ch_cap (newBlockCh ep).

Lemma queue_one block td q h ep :
  objects h !! q = Some ep -> ~ chan_full (newBlockCh ep) ->
  update_peer q (fun ep => QueueNewBlock ep block td) h = Ret (tt, [], with_objects h (<[q := queue_block block td ep]> (objects h))).
Proof.
  intros Hq Hf. unfold update_peer, on_peer. rewrite Hq. unfold QueueNewBlock, send. rewrite decide_False by done. done.
Qed.

Lemma for_each_step {A} (x : A) l (f : A -> HM unit) h h1 : f x h = Ret (tt, [], h1) -> for_each (x :: l) f h = for_each l f h1.
Proof. intros Hx. cbn [for_each]. unfold mbind, HM_bind. rewrite Hx. by destruct (for_each l f h1) as [[[[] es] h2]| |]. Qed.

Lemma queue_all block td p l h :
  NoDup l -> (forall q, q ∈ l -> q <> p -> has_room h 1 q) ->
  exists os, for_each l (fun peer => if decide (Some peer = Some p) then mret tt
      else update_peer peer (fun ep => QueueNewBlock ep block td)) h = Ret (tt, [], with_objects h os) /\
    forall q, os !! q = (if decide (q ∈ l /\ q <> p) then queue_block block td <$> objects h !! q else objects h !! q).
Proof.
  revert h. induction l as [|x l IH]; intros h Hnd Hroom.
  { exists (objects h). split; [by destruct h|]. intros q. rewrite decide_False; [done|]. by intros [?%not_elem_of_nil _]. }
  apply NoDup_cons in Hnd as [Hx Hnd]. destruct (decide (Some x = Some p)) as [[= ->]|Hne].
  - destruct (IH h Hnd) as (os & Heq & Hos); [intros q Hq; apply Hroom; by right|].
    exists os. split; [erewrite for_each_step; [exact Heq|by rewrite decide_True]|]. intros q. rewrite Hos.
    apply decide_ext. rewrite elem_of_cons. naive_solver.
  - destruct (Hroom x) as (ep & Hep & Hr); [by left|naive_solver|].
    set (h1 := with_objects h (<[x := queue_block block td ep]> (objects h))). destruct (IH h1 Hnd) as (os & Heq & Hos).
    { intros q Hq Hqp. destruct (Hroom q) as (eq & Heq & Hrq); [by right|done|]. exists eq. split; [|done]. cbn.
      rewrite lookup_insert_ne; [done|]. by intros ->. }
    exists os. split.
    { erewrite for_each_step; [exact Heq|]. rewrite decide_False by done. apply queue_one; [done|unfold chan_full; lia]. }
    intros q. rewrite Hos. cbn [objects with_objects h1].
    destruct (decide (q = x)) as [->|Hqx].
    + rewrite decide_False by naive_solver. rewrite decide_True by (split; [by left|naive_solver]). by rewrite lookup_insert_eq, Hep.
    + rewrite lookup_insert_ne by done. apply decide_ext. rewrite elem_of_cons. naive_solver.
Qed.

(** *** The confirmation message *)
(** What a call leaves alone: the peers, the configuration, the blocks on the bridge and, of every block, all
    but its confirmation. *)
Definition quiet h h' : Prop :=
  h_peers h' = h_peers h /\ objects h' = objects h /\ h_config h' = h_config h /\
  blocksFromNode (h_bridge h') = blocksFromNode (h_bridge h) /\
  chainState (h_chain h') = chainState (h_chain h) /\ minValidChain (h_chain h') = minValidChain (h_chain h) /\
  forall b, same_block (h_chain h) (h_chain h') b.

Lemma bridge_quiet_refl h : quiet h h.
Proof. by split_and!. Qed.

Lemma on_bridge_confirmed b e h :
  exists err br, on_bridge (fun br => SendConfirmedBlockToGateway br b e) h = Ret (err, [], with_bridge h br) /\
    blocksFromNode br = blocksFromNode (h_bridge h).
Proof.
  unfold on_bridge, SendConfirmedBlockToGateway. destruct (try_send _ _) as [err q].
  by eexists _, _.
Qed.

Lemma send_confirm_message_quiet now e h :
  chain_ok valid (h_chain h) -> below_head (h_chain h) -> height (chain_head (chainState (h_chain h))) < 2 ^ 63 ->
  0 <= BlockConfirmationsCount (h_config h) ->
  exists h', send_confirm_message now e h = Ret (tt, [], h') /\ chain_ok valid (h_chain h') /\ quiet h h'.
Proof.
  intros Hok Hbelow Hmax Hdepth. unfold send_confirm_message, blockAtDepth, gets, lift, mbind, HM_bind.
  pose proof (BlockAtDepth_returns valid valid_not_nil (h_chain h) (BlockConfirmationsCount (h_config h)) Hok Hbelow Hmax Hdepth) as Hat.
  destruct (BlockAtDepth _ _) as [[block|err]| |]; [| |done..]; cbn; [|exists h; auto using bridge_quiet_refl].
  pose proof (conv_block_returns now (NewBlockInfo block (Some (block_difficulty block)))) as Hconv.
  destruct (conv_BlockBlockchainToBDN _ _) as [[tb|err]| |]; [| |done..]; cbn; [|exists h; auto using bridge_quiet_refl].
  destruct (getBlockMetadata (h_chain h) (BytesToHash (tb_hash tb))) as [bm|] eqn:Hbm; [|exists h; auto using bridge_quiet_refl].
  destruct (confirmedMsgSent bm); [exists h; auto using bridge_quiet_refl|].
  destruct (on_bridge_confirmed tb e h) as (err & br & -> & Hbr). destruct err as [err|]; cbn.
  - eexists. split; [done|]. split; [done|]. by split_and!.
  - eexists. split; [done|]. split; [by apply confirm_message_ok|].
    edestruct storeMetadata_rest as (_ & _ & _ & Hs & _ & Hm).
    split_and!; try done; [exact Hs|exact Hm|]. intros b. by apply confirm_message_same.
Qed.

(** *** One block *)
(** The handler can take [n] more blocks of peer [p], whose endpoint is [e]. *)
Record takes_blocks h (p : Z) (e : NodeEndpoint) (n : Z) : Prop := {
  tk_chain : chain_ok valid (h_chain h);
  tk_length : 1 < minValidChain (h_chain h);
  tk_below : below_head (h_chain h);
  tk_depth : 0 <= BlockConfirmationsCount (h_config h);
  tk_peer : exists ep, objects h !! p = Some ep /\ endpoint ep = e;
  tk_bridge : Z.of_nat (length (ch_buf (blocksFromNode (h_bridge h)))) + n <= ch_cap (blocksFromNode (h_bridge h));
  tk_listed : NoDup (getAll (h_peers h));
  tk_room q : q ∈ getAll (h_peers h) -> q <> p -> has_room h n q
}.

(** A block of the network that is recent enough at [now] and can be converted. *)
Definition sendable (timeout : Z) (now : Z) (b : Block) : Prop :=
  valid (block_header b) /\ unix_seconds (now - timeout) <= int64 (block_time b) /\ block_number b < 2 ^ 63 - maxFutureBlockNumber /\
  forall td, exists tb, conv_BlockBlockchainToBDN now (IfaceBlockInfo
    (NewBlockInfo (block_with (block_header b) (Transactions (block_body b)) (Uncles (block_body b))) td)) = Ret (Ok tb).

(** The block the converter makes, with whatever difficulty is known. *)
Definition converted (now : Z) (b : Block) (tb : TbBlock) : Prop :=
  exists td, conv_BlockBlockchainToBDN now (IfaceBlockInfo
    (NewBlockInfo (block_with (block_header b) (Transactions (block_body b)) (Uncles (block_body b))) td)) = Ret (Ok tb).

Lemma validateBlock_accepts h now b head rest :
  HasSentToBDN (h_chain h) (block_hash b) = false -> sendable (IgnoreBlockTimeout (h_config h)) now b ->
  chainState (h_chain h) = head :: rest -> 0 <= height head -> block_number b = height head + 1 ->
  validateBlock h now (block_hash b) (big_Int64 (block_Number b)) (int64 (block_time b)) = None.
Proof.
  intros Hsent (_ & Htime & Hmax & _) Hst Hpos Hnum. unfold maxFutureBlockNumber in *.
  unfold validateBlock, ValidateBlock. rewrite Hsent, andb_false_r, Hst. cbn [chain_head andb].
  unfold big_Int64. rewrite <- (int64_uint64 (block_Number b)). fold (block_number b). rewrite Hnum. unfold maxFutureBlockNumber.
  rewrite uint64_small by (unfold is_uint64; lia). rewrite !int64_small by (unfold is_int64; lia).
  rewrite decide_False by lia. by rewrite decide_False by lia.
Qed.

Lemma send_head_ok now e h info tb :
  conv_BlockBlockchainToBDN now (IfaceBlockInfo info) = Ret (Ok tb) -> ~ chan_full (blocksFromNode (h_bridge h)) ->
  exists br, send_head now e info h
    = Ret (tt, [], with_chain (with_bridge h br) (MarkSentToBDN (h_chain h) (block_hash (bi_Block info)))) /\
    blocksFromNode br = chan_push (blocksFromNode (h_bridge h)) (mkBlockFromNode tb e).
Proof.
  intros Hconv Hf. unfold send_head, lift, mbind, HM_bind. rewrite Hconv. unfold on_bridge. cbn.
  unfold SendBlockToBDN, try_send. rewrite decide_False by done. by eexists.
Qed.

Lemma head_of_hash (c : Chain M) b : block_hash (bi_Block (head_of c b)) = block_hash b.
Proof. unfold head_of. cbn. by rewrite !block_hash_header, block_with_header. Qed.

(** The next block of the node: what its message leaves. *)
Definition block_taken h p (e : NodeEndpoint) (pkt : NewBlockPacket) (tb : TbBlock) h' : Prop :=
  let b := nb_Block pkt in
  chainState (h_chain h') = mkblockRef (block_number b) (block_hash b) :: mkblockRef (block_number b) (block_hash b) :: chainState (h_chain h) /\
  minValidChain (h_chain h') = minValidChain (h_chain h) /\
  HasSentToBDN (h_chain h') (block_hash b) = true /\
  (forall b', block_hash b' <> block_hash b -> same_block (h_chain h) (h_chain h') b') /\
  blocksFromNode (h_bridge h') = chan_push (blocksFromNode (h_bridge h)) (mkBlockFromNode tb e) /\
  h_peers h' = h_peers h /\ h_config h' = h_config h /\
  forall q, objects h' !! q
    = (if decide (q ∈ getAll (h_peers h) /\ q <> p) then queue_block b (Some (default 0 (nb_TD pkt))) <$> objects h !! q
       else objects h !! q).

Lemma send_new_head now e h b rest tb :
  chain_ok valid (h_chain h) -> below_head (h_chain h) -> block_number b < 2 ^ 63 -> 0 <= BlockConfirmationsCount (h_config h) ->
  stored (h_chain h) b -> HasSentToBDN (h_chain h) (block_hash b) = false ->
  chainState (h_chain h) = mkblockRef (block_number b) (block_hash b) :: rest ->
  conv_BlockBlockchainToBDN now (IfaceBlockInfo (head_of (h_chain h) b)) = Ret (Ok tb) ->
  ~ chan_full (blocksFromNode (h_bridge h)) ->
  exists br h', blocksFromNode br = chan_push (blocksFromNode (h_bridge h)) (mkBlockFromNode tb e) /\
    sendConfirmedBlocksToBDN now 1 e h = Ret (tt, [], h') /\ chain_ok valid (h_chain h') /\
    quiet (with_chain (with_bridge h br) (MarkSentToBDN (h_chain h) (block_hash b))) h'.
Proof.
  intros Hok Hbelow Hmax Hdepth Hst Hsent Hstate Hconv Hroom.
  pose proof (GetNewHeads_one (h_chain h) b rest Hst Hsent Hstate) as Hheads.
  destruct (send_head_ok now e h (head_of (h_chain h) b) tb Hconv Hroom) as (br & Hsend & Hbr). rewrite head_of_hash in Hsend.
  set (h1 := with_chain _ _) in *.
  assert (chainState (h_chain h1) = chainState (h_chain h)) as Hs1.
  { unfold h1. cbn. by destruct (MarkSent_spec (h_chain h) (block_hash b) zero_Hash) as (_ & _ & ?). }
  destruct (send_confirm_message_quiet now e h1) as (h' & Hcm & Hok' & Hq).
  { unfold h1. by apply MarkSentToBDN_ok. }
  { unfold below_head. by rewrite Hs1. }
  { by rewrite Hs1, Hstate. }
  { done. }
  exists br, h'. split; [done|]. split; [|by split].
  unfold sendConfirmedBlocksToBDN, gets, lift, mbind, HM_bind. rewrite Hheads. cbn [reverse rev_append mret outcome_ret].
  change (reverse [head_of (h_chain h) b]) with [head_of (h_chain h) b].
  erewrite for_each_step; [|exact Hsend]. cbn [for_each]. unfold mret, HM_ret. by rewrite Hcm.
Qed.

(** The chain with the block in it. *)
Lemma add_new_block (c : Chain M) info head rest :
  chain_ok valid c -> 1 < minValidChain c -> below_head c -> valid (block_header (bi_Block info)) ->
  unsent c (bi_Block info) -> chainState c = head :: rest ->
  block_parent (bi_Block info) = hash head -> block_number (bi_Block info) = height head + 1 ->
  exists c', AddBlock c info BSBlockchain = Ret (1, c') /\ chain_ok valid c' /\ below_head c' /\
    minValidChain c' = minValidChain c /\ chainState c' = block_ref info :: block_ref info :: chainState c /\
    stored c' (bi_Block info) /\ HasSentToBDN c' (block_hash (bi_Block info)) = false /\
    forall b, block_hash b <> block_hash (bi_Block info) -> same_block c c' b.
Proof.
  intros Hok Hmv Hbelow Hv [Hs0 Hstor] Hst Hpar Hnum.
  pose proof (AddBlock_canonical valid c info head rest Hok Hmv Hstor Hst Hpar Hnum) as Hadd.
  destruct (with_block_stores c info BSBlockchain Hstor) as [Hstored Hsent].
  destruct (with_block_rest c info BSBlockchain) as [_ Hm].
  eexists. split; [exact Hadd|]. rewrite Hst. split_and!; try done.
  - eapply (chain_step_ok valid valid_not_nil c); [done|]. eapply step_AddBlock; [exact Hv|exact Hadd].
  - unfold below_head in *. cbn. rewrite Hst in Hbelow. apply Forall_cons in Hbelow as [_ Hbelow].
    repeat (apply Forall_cons; split; [cbn; lia|]). eapply Forall_impl; [exact Hbelow|]. cbn. lia.
  - by rewrite <- Hs0.
  - intros b Hb. by apply (with_block_others c info BSBlockchain).
Qed.

Lemma new_block_taken now h p e n pkt head rest :
  takes_blocks h p e (n + 1) -> 0 <= n -> sendable (IgnoreBlockTimeout (h_config h)) now (nb_Block pkt) ->
  unsent (h_chain h) (nb_Block pkt) -> chainState (h_chain h) = head :: rest ->
  block_parent (nb_Block pkt) = hash head -> block_number (nb_Block pkt) = height head + 1 ->
  exists tb h', Handle p2p_Send rand_Uint64 now p (NewBlockPkt pkt) h = Ret (None, [], h') /\
    converted now (nb_Block pkt) tb /\ block_taken h p e pkt tb h' /\ chain_ok valid (h_chain h').
Proof.
  intros [Hok Hmv Hbelow Hdepth (ep & Hep & He) Hbr Hnd Hroom] Hn Hsd Hun Hst Hpar Hnum.
  set (b := nb_Block pkt) in *. set (info := NewBlockInfo b (nb_TD pkt)).
  assert (0 <= height head) as Hpos.
  { pose proof (ok_refs _ _ Hok) as Hr. rewrite Hst in Hr. apply Forall_cons in Hr as [(hd' & _ & _ & <-) _].
    apply header_number_range. }
  pose proof Hsd as (Hv & _ & Hmax & Hconv). unfold maxFutureBlockNumber in Hmax.
  destruct (add_new_block (h_chain h) info head rest Hok Hmv Hbelow Hv Hun Hst Hpar Hnum)
    as (c1 & Hadd & Hok1 & Hbelow1 & Hm1 & Hst1 & Hstored & Hsent & Hothers).
  destruct (Hconv (getBlockDifficulty c1 (block_hash b))) as [tb Htb].
  destruct (send_new_head now e (with_chain h c1) b (block_ref info :: chainState (h_chain h)) tb)
    as (br & h2 & Hbr2 & Hsend & Hok2 & Hq1 & Hq2 & Hq3 & Hq4 & Hq5 & Hq6 & Hq7);
    try done; [lia|cbn; unfold chan_full; lia|].
  destruct (queue_all b (Some (default 0 (nb_TD pkt))) p (getAll (h_peers h2)) h2) as (os & Hbc & Hos).
  { by rewrite Hq1. }
  { rewrite Hq1. intros q Hin Hne. destruct (Hroom q Hin Hne) as (eq & Heq & Hrq). exists eq. rewrite Hq2. split; [done|]. lia. }
  exists tb, (with_objects h2 os). split; [|split; [by eexists|split; [|done]]].
  - cbn [Handle]. unfold processBlock.
    eapply (bind_run (gets _) _ h _ [] h _ []); [done|]. cbn [bi_Block NewBlockInfo BlockInfo_SetTotalDifficulty]. fold b.
    rewrite (validateBlock_accepts h now b head rest) by (done || apply Hun).
    eapply (bind_run (on_chain _) _ h 1 [] (with_chain h c1) _ []); [unfold on_chain; fold info; by rewrite Hadd|].
    eapply (bind_run (peer_at p) _ _ ep [] (with_chain h c1) _ []); [unfold peer_at; cbn; by rewrite Hep|]. rewrite He.
    eapply (bind_run _ _ _ _ [] h2 _ []); [exact Hsend|]. 
    eapply (bind_run _ _ _ _ [] (with_objects h2 os) _ []); [|done]. unfold broadcastBlock.
    by eapply (bind_run (gets _) _ h2 _ [] h2 _ []).
  - unfold block_taken. fold b. cbn [h_chain with_objects h_bridge h_peers h_config objects] in *. split_and!.
    + rewrite Hq5. cbn. by destruct (MarkSent_spec c1 (block_hash b) zero_Hash) as (_ & _ & ->).
    + rewrite Hq6. cbn. unfold MarkSentToBDN. by destruct (getBlockMetadata _ _).
    + destruct (Hq7 b) as (_ & -> & _). cbn. apply MarkSent_spec. right. split; [done|].
      destruct Hstored as (Hhas & _). apply HasBlock_spec in Hhas as [? _]. unfold has_metadata. by rewrite getBlockMetadata_spec.
    + intros b' Hb'. eapply same_block_trans; [by apply Hothers|]. eapply same_block_trans; [by apply MarkSent_others|apply Hq7].
    + by rewrite Hq4.
    + by rewrite Hq1.
    + by rewrite Hq3.
    + intros q. rewrite Hos, Hq1, Hq2. done.
Qed.

Lemma block_taken_takes h p e n pkt tb h' :
  takes_blocks h p e (n + 1) -> 0 <= n -> block_taken h p e pkt tb h' -> chain_ok valid (h_chain h') ->
  (forall head rest, chainState (h_chain h) = head :: rest -> block_number (nb_Block pkt) = height head + 1) ->
  takes_blocks h' p e n.
Proof.
  intros [Hok Hmv Hbelow Hdepth (ep & Hep & He) Hbr Hnd Hroom] Hn (Hst & Hm & _ & _ & Hq & Hps & Hcfg & Hos) Hok' Hnum.
  split; [done|by rewrite Hm| |by rewrite Hcfg| | |by rewrite Hps|].
  - unfold below_head in *. rewrite Hst. cbn [chain_head height]. repeat (apply Forall_cons; split; [done|]).
    destruct (chainState (h_chain h)) as [|head rest] eqn:Hs; [done|]. specialize (Hnum head rest eq_refl).
    eapply Forall_impl; [exact Hbelow|]. cbn. lia.
  - exists ep. rewrite Hos, decide_False by naive_solver. done.
  - rewrite Hq. cbn. rewrite length_app. cbn. lia.
  - rewrite Hps. intros q Hin Hne. destruct (Hroom q Hin Hne) as (eq & Heq & Hrq).
    exists (queue_block (nb_Block pkt) (Some (default 0 (nb_TD pkt))) eq). rewrite Hos, decide_True, Heq by done. split; [done|].
    cbn. rewrite length_app. cbn. lia.
Qed.

(** *** A chain of blocks *)
Fixpoint take_blocks (p : Z) (l : list (Z * NewBlockPacket)) : HM unit :=
  match l with
  | [] => mret tt
  | (now, pkt) :: l => _ ← Handle p2p_Send rand_Uint64 now p (NewBlockPkt pkt); take_blocks p l
  end.

(** Each block is the child of the one before. *)
Fixpoint follows (head : blockRef) (l : list NewBlockPacket) : Prop :=
  match l with
  | [] => True
  | pkt :: l => block_parent (nb_Block pkt) = hash head /\ block_number (nb_Block pkt) = height head + 1 /\
      follows (mkblockRef (block_number (nb_Block pkt)) (block_hash (nb_Block pkt))) l
  end.

Definition handed_over (p : Z) (e : NodeEndpoint) (l : list (Z * NewBlockPacket)) (tbs : list TbBlock) h h' : Prop :=
  Forall2 (fun x tb => converted x.1 (nb_Block x.2) tb) l tbs /\
  chain_ok valid (h_chain h') /\
  ch_buf (blocksFromNode (h_bridge h')) = ch_buf (blocksFromNode (h_bridge h)) ++ ((fun tb => mkBlockFromNode tb e) <$> tbs) /\
  (forall x, x ∈ l -> HasSentToBDN (h_chain h') (block_hash (nb_Block x.2)) = true) /\
  (forall b, block_hash b ∉ (fun x => block_hash (nb_Block x.2)) <$> l -> same_block (h_chain h) (h_chain h') b) /\
  forall q ep, objects h !! q = Some ep -> exists ep', objects h' !! q = Some ep' /\
    ch_buf (newBlockCh ep') = ch_buf (newBlockCh ep) ++
      (if decide (q ∈ getAll (h_peers h) /\ q <> p)
       then (fun x => mkNewBlockPacket (nb_Block x.2) (Some (default 0 (nb_TD x.2)))) <$> l else []).

Lemma blocks_taken h p e l head rest :
  takes_blocks h p e (Z.of_nat (length l)) -> chainState (h_chain h) = head :: rest -> follows head (snd <$> l) ->
  NoDup ((fun x => block_hash (nb_Block x.2)) <$> l) ->
  Forall (fun x => sendable (IgnoreBlockTimeout (h_config h)) x.1 (nb_Block x.2) /\ unsent (h_chain h) (nb_Block x.2)) l ->
  exists tbs h', take_blocks p l h = Ret (tt, [], h') /\ handed_over p e l tbs h h'.
Proof.
  revert h head rest. induction l as [|[now pkt] l IH]; intros h head rest Htk Hst Hf Hnd Hall.
  { exists [], h. split; [done|]. split_and!; [constructor|apply Htk|by rewrite app_nil_r|by intros x ?%not_elem_of_nil|done|].
    intros q ep Hq. exists ep. split; [done|]. case_decide; by rewrite app_nil_r. }
  apply NoDup_cons in Hnd as [Hfresh Hnd]. apply Forall_cons in Hall as [[Hsd Hun] Hall]. cbn [snd fst] in *.
  destruct Hf as (Hpar & Hnum & Hf). replace (Z.of_nat (length ((now, pkt) :: l))) with (Z.of_nat (length l) + 1) in Htk by (cbn; lia).
  destruct (new_block_taken now h p e _ pkt head rest Htk ltac:(lia) Hsd Hun Hst Hpar Hnum) as (tb & h1 & Hrun1 & Hconv & Htaken & Hok1).
  assert (takes_blocks h1 p e (Z.of_nat (length l))) as Htk1.
  { eapply block_taken_takes; [exact Htk|lia|exact Htaken|done|]. intros hd' rest' Heq. rewrite Hst in Heq. by injection Heq as <- _. }
  destruct Htaken as (Hs1 & _ & Hsent1 & Hsame1 & Hq1 & Hps1 & Hcfg1 & Hos1).
  destruct (IH h1 _ _ Htk1 Hs1 Hf Hnd) as (tbs & h' & Hrun & Hc2 & Hok' & Hq2 & Hsent2 & Hsame2 & Hos2).
  { rewrite Forall_forall in Hall |- *. intros x Hx. destruct (Hall x Hx) as [Hsx Hux]. rewrite Hcfg1. split; [done|].
    eapply same_block_unsent; [apply Hsame1|done]. intros Heq. apply Hfresh. rewrite <- Heq. apply list_elem_of_fmap. by exists x. }
  exists (tb :: tbs), h'. split; [by eapply (bind_run _ _ _ _ [] h1 _ [])|]. split_and!.
  - by constructor.
  - done.
  - rewrite Hq2, Hq1. cbn. by rewrite <- app_assoc.
  - intros x [->|Hx]%elem_of_cons; [|by apply Hsent2]. cbn [snd]. destruct (Hsame2 (nb_Block pkt)) as (_ & -> & _); done.
  - intros b Hb. eapply same_block_trans; [apply Hsame1|apply Hsame2]; set_solver.
  - intros q ep Hq. specialize (Hos1 q). rewrite Hq in Hos1. rewrite Hps1 in Hos2.
    destruct (decide (q ∈ getAll (h_peers h) /\ q <> p)) as [Hin|Hni].
    + destruct (Hos2 _ _ Hos1) as (ep' & Hep' & Hbuf). exists ep'. split; [done|]. rewrite Hbuf, decide_True by done.
      cbn. by rewrite <- app_assoc.
    + destruct (Hos2 _ _ Hos1) as (ep' & Hep' & Hbuf). exists ep'. split; [done|]. rewrite Hbuf, decide_False by done. done.
Qed.
End NodeBlocks.
