(* ===== verification/Handlers.v ===== *)
(** The handlers of the messages of a peer (blockchain/eth/handlers.go) and the protocol that reads
    and dispatches them (blockchain/eth/protocol.go). Decoding belongs to go-ethereum: a message comes
    with a decoder for each packet type. *)
From S2P Require Import Prelude Bytes CMap EthTypes Chain Channel Types Peer PeerSet Bridge Converter NetworkConfig Backend.

(** ** The codes of the Ethereum protocol *)
Definition NewBlockHashesCode : Z := 1.
Definition TransactionsCode : Z := 2.
Definition GetBlockHeadersCode : Z := 3.
Definition BlockHeadersCode : Z := 4.
Definition GetBlockBodiesCode : Z := 5.
Definition BlockBodiesCode : Z := 6.
Definition NewBlockCode : Z := 7.
Definition NewPooledTransactionHashesCode : Z := 8.
Definition GetPooledTransactionsCode : Z := 9.
Definition PooledTransactionsCode : Z := 10.
Definition GetNodeDataCode : Z := 13.
Definition NodeDataCode : Z := 14.
Definition GetReceiptsCode : Z := 15.
Definition ReceiptsCode : Z := 16.
Definition ETH65 : Z := 65.

Definition SupportedProtocols : list Z := [ETH65; ETH66].
Definition ProtocolLengths : list (Z * Z) := [(ETH65, 17); (ETH66, 17)].

(** ** Messages and their decoders *)
Section Packets.
Context `{EthTypes}.

(** [eth.GetBlockHeadersPacket] *)
Record GetBlockHeadersPacket := mkGetBlockHeadersPacket {
  Origin : HashOrNumber;
  Amount : Z;
  Skip : Z;
  Reverse : bool
}.

(** The packets with a request ID in front are pairs. *)
Class Decoder (Msg : Type) := {
  msg_code : Msg -> Z;
  decode_GetBlockHeaders : Msg -> result GetBlockHeadersPacket;
  decode_GetBlockHeaders66 : Msg -> result (Z * GetBlockHeadersPacket);
  decode_GetBlockBodies : Msg -> result (list Hash);
  decode_GetBlockBodies66 : Msg -> result (Z * list Hash);
  decode_NewBlock : Msg -> result NewBlockPacket;
  decode_Transactions : Msg -> result (list EthTransaction);
  decode_PooledTransactions : Msg -> result (list EthTransaction);
  decode_PooledTransactions66 : Msg -> result (Z * list EthTransaction);
  decode_NewPooledTransactionHashes : Msg -> result (list Hash);
  decode_NewBlockHashes : Msg -> result (list (Hash * Z));
  decode_BlockHeaders : Msg -> result (list Header);
  decode_BlockHeaders66 : Msg -> result (Z * list Header);
  decode_BlockBodies : Msg -> result (list Body);
  decode_BlockBodies66 : Msg -> result (Z * list Body)
}.
End Packets.

(** ** Definitions *)
Section Handlers.
Context `{EthTypes} {M : Type -> Type} `{!ConcurrentMap M} `{!ConverterOps} {B : Type} `{!BridgeOps B} `{MapRange}.
Context (p2p_Send : eth_msg -> option go_error) (rand_Uint64 : Z -> Z) {Node PrivateKeyT : Type}.
Context {Msg : Type} `{!Decoder Msg}.
#[local] Abbreviation HM := (HM (M:=M) (B:=B) (Node:=Node) (PrivateKeyT:=PrivateKeyT)).
#[local] Abbreviation Handle := (Handle p2p_Send rand_Uint64).

Definition decode_error : go_error := Errorf "could not decode message".

(** Decode a message and go on, or return the error. *)
Definition decoded {A} (r : result A) (f : A -> HM (option go_error)) : HM (option go_error) :=
  match r with Fail _ => mret (Some decode_error) | Ok a => f a end.

(** *** Requests of the peer *)
Definition answerGetBlockHeaders (query : GetBlockHeadersPacket) (peer : Z) : HM (result (list (option Header))) :=
  ep ← peer_at peer;
  if negb (checkpointPassed ep) then
    update_peer peer (fun ep => mret (with_flags ep (disconnected ep) true)) ;; mret (Ok [])
  else
    r ← backend_GetHeaders (Origin query) (int64 (Amount query)) (int64 (Skip query)) (Reverse query);
    mret match r with
         | Fail err => if decide (err = ErrInvalidRequest \/ err = ErrAncientHeaders) then Fail err else Ok []
         | Ok headers => Ok headers
         end.

Definition handleGetBlockHeaders (msg : Msg) (peer : Z) : HM (option go_error) :=
  decoded (decode_GetBlockHeaders msg) (fun query =>
    r ← answerGetBlockHeaders query peer;
    match r with
    | Fail err =>
        if decide (err = ErrAncientHeaders)
        then emit [GoForwardHeaders peer None (Origin query) (Amount query) (Skip query) (Reverse query)] ;; mret None
        else mret None
    | Ok headers => send_on_peer peer (fun ep => SendBlockHeaders p2p_Send ep headers)
    end).

Definition handleGetBlockHeaders66 (msg : Msg) (peer : Z) : HM (option go_error) :=
  decoded (decode_GetBlockHeaders66 msg) (fun '(RequestId, query) =>
    r ← answerGetBlockHeaders query peer;
    match r with
    | Fail err =>
        if decide (err = ErrAncientHeaders)
        then emit [GoForwardHeaders peer (Some RequestId) (Origin query) (Amount query) (Skip query) (Reverse query)] ;;
             mret None
        else mret None
    | Ok headers => send_on_peer peer (fun ep => ReplyBlockHeaders p2p_Send ep RequestId headers)
    end).

(** The goroutine for ancient headers: the request to the node, with the channel it waits on, and
    what it does with the response. *)
Definition forward_request (peer : Z) (origin : HashOrNumber) (amount skip : Z) (reverse : bool) : HM (option Z) :=
  headerCh ← make_channel;
  rand ← next_rand rand_Uint64;
  err ← on_peer peer (fun ep => RequestBlockHeaderRaw p2p_Send ep rand origin amount skip reverse (Some headerCh));
  mret (match err with Some _ => None | None => Some headerCh end).

Definition forward_response (peer : Z) (id : option Z) (response : eth_response) : HM unit :=
  match response with
  | BodiesResponse _ => go_panic_with TypeAssertion
  | HeadersResponse headers =>
      _ ← send_on_peer peer (fun ep =>
            match id with
            | None => SendBlockHeaders p2p_Send ep (Some <$> headers)
            | Some id => ReplyBlockHeaders p2p_Send ep id (Some <$> headers)
            end);
      mret tt
  end.

Definition answerGetBlockBodies (query : list Hash) : HM (result (list Body)) :=
  r ← backend_GetBodies query;
  mret match r with
       | Fail err => if decide (err = ErrBodyNotFound) then Ok [] else Fail err
       | Ok bodies => Ok ((fun body => mkBody (Transactions body) (Uncles body)) <$> bodies)
       end.

Definition handleGetBlockBodies (msg : Msg) (peer : Z) : HM (option go_error) :=
  decoded (decode_GetBlockBodies msg) (fun query =>
    r ← answerGetBlockBodies query;
    match r with
    | Fail err => mret (Some err)
    | Ok bodies => send_on_peer peer (fun ep => SendBlockBodies p2p_Send ep bodies)
    end).

Definition handleGetBlockBodies66 (msg : Msg) (peer : Z) : HM (option go_error) :=
  decoded (decode_GetBlockBodies66 msg) (fun '(RequestId, query) =>
    r ← answerGetBlockBodies query;
    match r with
    | Fail err => mret (Some err)
    | Ok bodies => send_on_peer peer (fun ep => ReplyBlockBodies p2p_Send ep RequestId bodies)
    end).

(** *** News of the peer *)
Definition handleNewBlock (now : Z) (msg : Msg) (peer : Z) : HM (option go_error) :=
  decoded (decode_NewBlock msg) (fun blockPacket =>
    update_peer peer (fun ep => UpdateHead ep (block_number (nb_Block blockPacket)) (block_hash (nb_Block blockPacket))) ;;
    Handle now peer (NewBlockPkt blockPacket)).

Definition handleTransactions (now : Z) (msg : Msg) (peer : Z) : HM (option go_error) :=
  decoded (decode_Transactions msg) (fun txs => Handle now peer (TransactionsPkt txs)).

Definition handlePooledTransactions (now : Z) (msg : Msg) (peer : Z) : HM (option go_error) :=
  decoded (decode_PooledTransactions msg) (fun txs => Handle now peer (PooledTransactionsPkt txs)).

Definition handlePooledTransactions66 (now : Z) (msg : Msg) (peer : Z) : HM (option go_error) :=
  decoded (decode_PooledTransactions66 msg) (fun '(_, txs) =>
    if decide (length txs = 0%nat) then mret None else Handle now peer (PooledTransactionsPkt txs)).

Definition handleNewPooledTransactionHashes (now : Z) (msg : Msg) (peer : Z) : HM (option go_error) :=
  decoded (decode_NewPooledTransactionHashes msg) (fun _ => Handle now peer OtherPkt).

(** The loop of [updatePeerHeadFromHeaders]. *)
Fixpoint max_header (maxHeight : Z) (h : Hash) (headers : list Header) : Z * Hash :=
  match headers with
  | [] => (maxHeight, h)
  | header :: headers =>
      if decide (maxHeight < header_Number header) then max_header (header_Number header) (header_hash header) headers
      else max_header maxHeight h headers
  end.

Definition updatePeerHeadFromHeaders (headers : list Header) (peer : Z) : HM unit :=
  match headers with
  | [] => mret tt
  | header :: headers =>
      let '(maxHeight, h) := max_header (header_Number header) (header_hash header) headers in
      update_peer peer (fun ep => UpdateHead ep (uint64 maxHeight) h)
  end.

(** The loop of [updatePeerHeadFromNewHashes]. *)
Fixpoint max_announced (maxHeight : Z) (h : Hash) (newBlocks : list (Hash * Z)) : Z * Hash :=
  match newBlocks with
  | [] => (maxHeight, h)
  | (newHash, number) :: newBlocks =>
      if decide (maxHeight < number) then max_announced number newHash newBlocks
      else max_announced maxHeight h newBlocks
  end.

Definition updatePeerHeadFromNewHashes (newBlocks : list (Hash * Z)) (peer : Z) : HM unit :=
  match newBlocks with
  | [] => mret tt
  | (h, maxHeight) :: newBlocks =>
      let '(maxHeight, h) := max_announced maxHeight h newBlocks in
      update_peer peer (fun ep => UpdateHead ep maxHeight h)
  end.

Definition handleNewBlockHashes (now : Z) (msg : Msg) (peer : Z) : HM (option go_error) :=
  decoded (decode_NewBlockHashes msg) (fun blockHashes =>
    updatePeerHeadFromNewHashes blockHashes peer ;;
    Handle now peer (NewBlockHashesPkt blockHashes)).

(** *** Responses of the peer *)
Definition handleBlockHeaders (now : Z) (listens : Z -> bool) (msg : Msg) (peer : Z) : HM (option go_error) :=
  decoded (decode_BlockHeaders msg) (fun blockHeaders =>
    updatePeerHeadFromHeaders blockHeaders peer ;;
    handled ← on_peer peer (fun ep => NotifyResponse listens ep (HeadersResponse blockHeaders));
    if handled : bool then mret None else Handle now peer (BlockHeadersPkt blockHeaders)).

Definition notify66 (listens : Z -> bool) (peer : Z) (RequestId : Z) (r : eth_response) : HM (bool * option go_error) :=
  on_peer peer (fun ep => '(handled, err, effects, ep) ← NotifyResponse66 listens ep RequestId r;
                          mret ((handled, err), effects, ep)).

Definition handleBlockHeaders66 (now : Z) (listens : Z -> bool) (msg : Msg) (peer : Z) : HM (option go_error) :=
  decoded (decode_BlockHeaders66 msg) (fun '(RequestId, blockHeaders) =>
    updatePeerHeadFromHeaders blockHeaders peer ;;
    '(handled, err) ← notify66 listens peer RequestId (HeadersResponse blockHeaders);
    match err with
    | Some e => mret (Some e)
    | None => if handled : bool then mret None else Handle now peer (BlockHeadersPkt blockHeaders)
    end).

Definition handleBlockBodies (listens : Z -> bool) (msg : Msg) (peer : Z) : HM (option go_error) :=
  decoded (decode_BlockBodies msg) (fun blockBodies =>
    _ ← on_peer peer (fun ep => NotifyResponse listens ep (BodiesResponse blockBodies)); mret None).

Definition handleBlockBodies66 (listens : Z -> bool) (msg : Msg) (peer : Z) : HM (option go_error) :=
  decoded (decode_BlockBodies66 msg) (fun '(RequestId, blockBodies) =>
    '(_, err) ← notify66 listens peer RequestId (BodiesResponse blockBodies); mret err).

Definition handleUnimplemented (_ : Msg) (_ : Z) : HM (option go_error) := mret None.

(** *** protocol.go *)
Definition msgHandler : Type := Msg -> Z -> HM (option go_error).

Definition eth65 (now : Z) (listens : Z -> bool) : list (Z * msgHandler) :=
  [ (GetBlockHeadersCode, handleGetBlockHeaders);
    (BlockHeadersCode, handleBlockHeaders now listens);
    (GetBlockBodiesCode, handleGetBlockBodies);
    (BlockBodiesCode, handleBlockBodies listens);
    (GetNodeDataCode, handleUnimplemented);
    (NodeDataCode, handleUnimplemented);
    (GetReceiptsCode, handleUnimplemented);
    (ReceiptsCode, handleUnimplemented);
    (NewBlockHashesCode, handleNewBlockHashes now);
    (NewBlockCode, handleNewBlock now);
    (TransactionsCode, handleTransactions now);
    (NewPooledTransactionHashesCode, handleNewPooledTransactionHashes now);
    (GetPooledTransactionsCode, handleUnimplemented);
    (PooledTransactionsCode, handlePooledTransactions now) ].

Definition eth66 (now : Z) (listens : Z -> bool) : list (Z * msgHandler) :=
  [ (NewBlockHashesCode, handleNewBlockHashes now);
    (NewBlockCode, handleNewBlock now);
    (TransactionsCode, handleTransactions now);
    (NewPooledTransactionHashesCode, handleNewPooledTransactionHashes now);
    (GetBlockHeadersCode, handleGetBlockHeaders66);
    (BlockHeadersCode, handleBlockHeaders66 now listens);
    (GetBlockBodiesCode, handleGetBlockBodies66);
    (BlockBodiesCode, handleBlockBodies66 listens);
    (GetNodeDataCode, handleUnimplemented);
    (NodeDataCode, handleUnimplemented);
    (GetReceiptsCode, handleUnimplemented);
    (ReceiptsCode, handleUnimplemented);
    (GetPooledTransactionsCode, handleUnimplemented);
    (PooledTransactionsCode, handlePooledTransactions66 now) ].

Fixpoint find_handler (handlers : list (Z * msgHandler)) (code : Z) : option msgHandler :=
  match handlers with
  | [] => None
  | (c, handler) :: handlers => if decide (c = code) then Some handler else find_handler handlers code
  end.

(** [read] is what [ReadMsg] gives; [listens] is who waits for a response at that time. *)
Definition handleMessage (now : Z) (listens : Z -> bool) (read : result Msg) (peer : Z) : HM (option go_error) :=
  match read with
  | Fail err => mret (Some err)
  | Ok msg =>
      ep ← peer_at peer;
      let handlers := if decide (ETH66 <= version ep) then eth66 now listens else eth65 now listens in
      match find_handler handlers (msg_code msg) with
      | Some handler => handler msg peer
      | None => mret None
      end
  end.

(** The loop of [Run] over the messages that are read, each at its time and with those who then wait for
    responses; it ends with the first error. *)
Fixpoint message_loop (reads : list (Z * (Z -> bool) * result Msg)) (peer : Z) : HM (option go_error) :=
  match reads with
  | [] => mret None
  | (now, listens, read) :: reads =>
      err ← handleMessage now listens read peer;
      match err with Some e => mret (Some e) | None => message_loop reads peer end
  end.

(** [Run] of the protocol: [peer] is the address of the new peer. *)
Definition protocol_Run (now : Z) (peer : Z) (vers : Z) (status : result p2p_Msg) (reads : list (Z * (Z -> bool) * result Msg))
    : HM (option go_error) :=
  config ← gets h_config;
  '(peerStatus, err) ← on_peer peer (fun ep =>
    let '(st, err, effects, ep) := Handshake p2p_Send ep status vers (Network config) (cfg_TotalDifficulty config)
                                     (Head config) (Genesis config) in
    Ret ((st, err), effects, ep));
  match err, peerStatus with
  | Some e, _ => mret (Some e)
  | None, None => go_panic_with NilDereference
  | None, Some st => _ ← Handle now peer (StatusPkt st); RunPeer (message_loop reads) peer
  end.
End Handlers.
