(* ===== verification/SystemProps.v ===== *)
(** The Ethereum side of the gateway as a whole: the states its handlers, goroutines and peers reach. *)
From S2P Require Import Prelude Bytes CMap EthTypes Chain ChainFacts ChainSpec ChainProps ChainExamples Channel Types Peer PeerFacts PeerProps PeerSet Bridge Converter NetworkConfig Backend BackendFacts BackendProps Handlers.

Section Handlers.
Context `{EthLaws} {M : Type -> Type} `{ConcurrentMapLaws M} `{!ConverterOps} {B : Type} `{!BridgeOps B} (R : relation B) `{!BridgeRel R} `{MapRange}.
Context (p2p_Send : eth_msg -> option go_error) (rand_Uint64 : Z -> Z) {Node PrivateKeyT : Type}.
Context {Msg : Type} `{!Decoder Msg}.
Variable valid : Header -> Prop.
#[local] Abbreviation Handler := (Handler M B Node PrivateKeyT).
#[local] Abbreviation HM := (HM (M:=M) (B:=B) (Node:=Node) (PrivateKeyT:=PrivateKeyT)).
#[local] Abbreviation safe := (safe R valid (M:=M) (B:=B) (Node:=Node) (PrivateKeyT:=PrivateKeyT)).
Implicit Types h : Handler.

(** A new block a peer sends has a header of the network. *)
Definition msg_valid (msg : Msg) : Prop := forall p, decode_NewBlock msg = Ok p -> valid (block_header (nb_Block p)).

Lemma NotifyResponse_name listens (ep : Peer M) r a es ep' : NotifyResponse listens ep r = Ret (a, es, ep') -> keeps_name ep ep'.
Proof.
  unfold NotifyResponse, deliver. destruct (recv _) as [[[ch|] q]| |]; go_simpl; [|by intros [= <- <- <-]|done..].
  destruct (listens ch); [|done]. by intros [= <- <- <-].
Qed.

Lemma NotifyResponse66_name listens (ep : Peer M) id r a es ep' : NotifyResponse66 listens ep id r = Ret (a, es, ep') -> keeps_name ep ep'.
Proof.
  unfold NotifyResponse66, deliver. destruct (cm_pop _ _) as [[[ch|]|] q]; go_simpl; [|by intros [= <- <- <-]..].
  destruct (listens ch); [|done]. by intros [= <- <- <-].
Qed.

Lemma safe_notify66 listens p id r : safe (notify66 listens p id r).
Proof.
  unfold notify66. sapply safe_on_peer. intros ep [a e] es ep'.
  destruct (NotifyResponse66 listens ep id r) as [[[[x y] es'] ep1]| |] eqn:Hn; go_simpl; [|done..].
  intros [= <- <- <- <-]. by eapply NotifyResponse66_name.
Qed.
#[local] Hint Resolve NotifyResponse_name safe_notify66 : backend.

Ltac flags_name := intros [= <-]; done.

Lemma safe_answerGetBlockHeaders q p : safe (answerGetBlockHeaders q p).
Proof. unfold answerGetBlockHeaders, backend_GetHeaders. repeat safe_step. flags_name. Qed.
Lemma safe_answerGetBlockBodies q : safe (answerGetBlockBodies q).
Proof. unfold answerGetBlockBodies, backend_GetBodies. repeat safe_step. Qed.
#[local] Hint Resolve safe_answerGetBlockHeaders safe_answerGetBlockBodies : backend.

Lemma safe_updatePeerHeadFromHeaders hds p : safe (updatePeerHeadFromHeaders hds p).
Proof. unfold updatePeerHeadFromHeaders. repeat safe_step. Qed.
Lemma safe_updatePeerHeadFromNewHashes bs p : safe (updatePeerHeadFromNewHashes bs p).
Proof. unfold updatePeerHeadFromNewHashes. repeat safe_step. Qed.
#[local] Hint Resolve safe_updatePeerHeadFromHeaders safe_updatePeerHeadFromNewHashes : backend.

(** Every handler but that of new blocks is safe on every message. *)
Lemma safe_new_block now msg p : msg_valid msg -> safe (handleNewBlock p2p_Send rand_Uint64 now msg p).
Proof.
  intros Hv. unfold handleNewBlock, decoded. destruct (decode_NewBlock msg) as [b|] eqn:Hd; [|sapply safe_ret].
  safe_step; [repeat safe_step|]. sapply safe_Handle. by apply Hv.
Qed.

Ltac handler_safe := unfold decoded; repeat safe_step; sapply safe_Handle; done.

Definition table_safe (l : list (Z * msgHandler)) : Prop :=
  Forall (fun x => forall msg p, msg_valid msg -> safe (x.2 msg p)) l.

Lemma eth65_safe now listens : table_safe (eth65 p2p_Send rand_Uint64 now listens).
Proof.
  unfold table_safe, eth65. repeat (apply Forall_cons; split); try apply Forall_nil_2; cbn; intros msg p Hv;
    try by sapply safe_new_block.
  all: unfold handleGetBlockHeaders, handleBlockHeaders, handleGetBlockBodies, handleBlockBodies, handleUnimplemented,
    handleNewBlockHashes, handleTransactions, handleNewPooledTransactionHashes, handlePooledTransactions; handler_safe.
Qed.

Lemma eth66_safe now listens : table_safe (eth66 p2p_Send rand_Uint64 now listens).
Proof.
  unfold table_safe, eth66. repeat (apply Forall_cons; split); try apply Forall_nil_2; cbn; intros msg p Hv;
    try by sapply safe_new_block.
  all: unfold handleGetBlockHeaders66, handleBlockHeaders66, handleGetBlockBodies66, handleBlockBodies66, handleUnimplemented,
    handleNewBlockHashes, handleTransactions, handleNewPooledTransactionHashes, handlePooledTransactions66; handler_safe.
Qed.

Lemma find_handler_safe (l : list (Z * msgHandler)) code handler : table_safe l -> find_handler l code = Some handler ->
  forall msg p, msg_valid msg -> safe (handler msg p).
Proof.
  intros Hl. induction Hl as [|[c f] l Hf Hl IH]; simpl; [done|]. case_decide; [|done]. by intros [= <-].
Qed.

Lemma safe_handleMessage now listens read p : (forall msg, read = Ok msg -> msg_valid msg) ->
  safe (handleMessage p2p_Send rand_Uint64 now listens read p).
Proof.
  intros Hv. unfold handleMessage. destruct read as [msg|]; [|sapply safe_ret]. specialize (Hv msg eq_refl).
  safe_step; [safe_step|]. destruct (find_handler _ _) as [handler|] eqn:Hf; [|sapply safe_ret].
  eapply find_handler_safe; [|exact Hf|done]. case_decide; [apply eth66_safe|apply eth65_safe].
Qed.

Lemma safe_forward_request p o a s v : safe (forward_request p2p_Send rand_Uint64 p o a s v).
Proof. unfold forward_request. repeat safe_step. Qed.
Lemma safe_forward_response p id r : safe (forward_response p2p_Send p id r).
Proof. unfold forward_response. repeat safe_step. Qed.

(** *** Steps *)

(** Peers keep their name. *)
Lemma loop_step_name (ep : Peer M) es ep' : loop_step p2p_Send ep es ep' -> keeps_name ep ep'.
Proof.
  destruct 1 as [ep x heads es ep' _ Hx|ep x blocks es ep' _ Hx].
  - unfold on_new_head in Hx. case_decide; [by injection Hx as <- <-|].
    destruct (find_breakpoint _ _ _ _) as [bp rel]. destruct rel; [|by injection Hx as <- <-].
    unfold sendTopBlock in Hx. destruct (queuedBlocks _) as [|b q]; [done|].
    destruct (sendNewBlock _ _ _). by injection Hx as <- <-.
  - unfold on_new_block in Hx. case_decide; [by injection Hx as <- <-|].
    destruct (_ || _); [|by injection Hx as <- <-]. destruct (sendNewBlock _ _ _). by injection Hx as <- <-.
Qed.

Lemma peer_step_name (ep : Peer M) es ep' : peer_step p2p_Send ep es ep' -> keeps_name ep ep'.
Proof.
  destruct 1; try done.
  - by eapply loop_step_name.
  - by eapply UpdateHead_name.
  - by eapply QueueNewBlock_name.
  - by eapply RequestBlock_name.
  - by eapply RequestBlock66_name.
  - by eapply RequestBlockHeaderRaw_name.
  - match goal with Ht : confirmation_tick _ _ _ _ = _ |- _ => unfold confirmation_tick in Ht; revert Ht end.
    case_decide; [by intros [= <- <- <-]|]. unfold RequestBlockHeader.
    destruct (RequestBlockHeaderRaw _ _ _ _ _ _ _ _) as [[[err es'] ep1]| |] eqn:Hreq; go_simpl; [|done..].
    apply RequestBlockHeaderRaw_name in Hreq. destruct err; by intros [= <- <- <-].
  - by eapply NotifyResponse_name.
  - by eapply NotifyResponse66_name.
Qed.

(** What may happen: a peer sends a message, the goroutine of a block request ends, an ancient header
    request is forwarded or answered, a peer connects, is registered and leaves, the goroutines of a peer
    take a step, and the chain is cleaned. *)
Inductive sys_step : Handler -> Handler -> Prop :=
  | sys_message now listens p read h err es h' :
      (forall msg, read = Ok msg -> msg_valid msg) ->
      handleMessage p2p_Send rand_Uint64 now listens read p h = Ret (err, es, h') -> sys_step h h'
  | sys_status now p st h err es h' :
      Handle p2p_Send rand_Uint64 now p (StatusPkt st) h = Ret (err, es, h') -> sys_step h h'
  | sys_blocks now p fetched h es h' :
      (forall hds bodies, fetched = Ok (hds, bodies) -> Forall valid hds) ->
      awaitBlockResponse now p fetched h = Ret (tt, es, h') -> sys_step h h'
  | sys_forward p o a s v h ch es h' :
      forward_request p2p_Send rand_Uint64 p o a s v h = Ret (ch, es, h') -> sys_step h h'
  | sys_forwarded p id r h es h' : forward_response p2p_Send p id r h = Ret (tt, es, h') -> sys_step h h'
  | sys_connect p ep h : objects h !! p = None -> sys_step h (with_objects h (<[p := ep]> (objects h)))
  | sys_register p h err es h' : RunPeer_start p h = Ret (err, es, h') -> sys_step h h'
  | sys_leave p h es h' : RunPeer_end p h = Ret (tt, es, h') -> sys_step h h'
  | sys_peer p ep es ep' h :
      objects h !! p = Some ep -> peer_step p2p_Send ep es ep' ->
      sys_step h (with_objects h (<[p := ep']> (objects h)))
  | sys_clean h c lo hi n : Chain_clean (h_chain h) defaultMaxSize = Ret (c, lo, hi, n) -> sys_step h (with_chain h c).

(** What else the code can do: a round of the loop over the bridge, which the program never starts, and
    what the gateway does on the other side of the bridge. *)
Inductive bridge_step : Handler -> Handler -> Prop :=
  | sys_bdn m h es h' :
      bdn_valid valid m -> handleBDNBridge p2p_Send rand_Uint64 m h = Ret (tt, es, h') -> bridge_step h h'
  | sys_gateway h b : bridge_step h (with_bridge h b).

(** Registered peers are objects that carry their name. *)
Definition peers_ok h : Prop :=
  forall id p, h_peers h !! id = Some p -> exists ep, objects h !! p = Some ep /\ peer_id ep = id.
Definition handler_ok h : Prop := chain_ok valid (h_chain h) /\ peers_ok h.

Hypothesis valid_not_nil : forall hd, valid hd -> header_hash hd <> nil_header_hash /\ header_parent hd <> nil_header_hash.

Lemma evolves_ok h h' : handler_ok h -> evolves R valid h h' -> handler_ok h'.
Proof.
  intros [Hc Hp] (Hsteps & Hpeers & Hnames & _). split.
  - induction Hsteps as [|c1 c2 c3 Hstep _ IH]; [done|]. apply IH. by eapply chain_step_ok.
  - intros id p Hid. rewrite Hpeers in Hid. destruct (Hp id p Hid) as (ep & Hep & Hn).
    destruct (Hnames p ep Hep) as (ep' & Hep' & Hn' & _). exists ep'. split; [done|congruence].
Qed.

Lemma objects_update_ok h p ep' :
  handler_ok h -> (forall ep, objects h !! p = Some ep -> peer_id ep' = peer_id ep) ->
  handler_ok (with_objects h (<[p := ep']> (objects h))).
Proof.
  intros [Hc Hp] Hn. split; [done|]. intros id q Hid. destruct (Hp id q Hid) as (epq & Hepq & Hname). cbn [objects with_objects].
  destruct (decide (p = q)) as [<-|Hne].
  - exists ep'. rewrite lookup_insert_eq. split; [done|]. by rewrite (Hn epq Hepq).
  - exists epq. rewrite lookup_insert_ne by done. done.
Qed.

Lemma RunPeer_start_ok h p err es h' : handler_ok h -> RunPeer_start p h = Ret (err, es, h') -> handler_ok h'.
Proof.
  intros [Hc Hp]. unfold RunPeer_start, peer_at, mbind, HM_bind. destruct (objects h !! p) as [ep|] eqn:Hep; [|done].
  unfold on_peers, register. destruct (h_peers h !! peer_id ep) as [q|]; intros [= <- <- <-]; [done|].
  split; [done|]. intros id q. cbn [h_peers with_peers objects]. rewrite lookup_insert. case_decide as Hid; [|by apply Hp].
  intros [= <-]. by exists ep.
Qed.

Lemma leave_ok h p es h' : handler_ok h -> RunPeer_end p h = Ret (tt, es, h') -> handler_ok h'.
Proof.
  intros [Hc Hp]. unfold RunPeer_end, peer_at, mbind, HM_bind. destruct (objects h !! p) as [ep|]; [|done].
  unfold on_peers, unregister. destruct (h_peers h !! peer_id ep) as [q|]; intros [= <- <-]; [|done].
  split; [done|]. intros id r. cbn [h_peers with_peers objects]. rewrite lookup_delete_Some. intros [_ Hid]. by apply Hp.
Qed.

(** A step keeps the handler in order, and does to the bridge what its operations do. *)
Lemma sys_step_ok h h' : handler_ok h -> sys_step h h' -> handler_ok h' /\ R (h_bridge h) (h_bridge h').
Proof.
  intros Hok Hstep. assert (forall h1 h2, handler_ok h1 -> evolves R valid h1 h2 -> handler_ok h2 /\ R (h_bridge h1) (h_bridge h2)) as Hev.
  { intros h1 h2 Hok1 He. split; [by eapply evolves_ok|]. apply He. }
  destruct Hstep as [now p read h err es h' Hv Hr|now p st h err es h' Hr|now p f h es h' Hv Hr
    |p o a s v h ch es h' Hr|p id r h es h' Hr|p ep h Hp|p h err es h' Hr|p h es h' Hr
    |p ep es ep' h Hp Hr|h c lo hi n Hr].
  - apply Hev; [done|]. by eapply safe_handleMessage.
  - apply Hev; [done|]. eapply (safe_Handle R _ _ valid now p (StatusPkt st)); [done|exact Hr].
  - apply Hev; [done|]. by eapply safe_awaitBlockResponse.
  - apply Hev; [done|]. by eapply safe_forward_request.
  - apply Hev; [done|]. by eapply safe_forward_response.
  - split; [|done]. apply objects_update_ok; [done|]. intros ep' Hep'. congruence.
  - split; [by eapply RunPeer_start_ok|]. unfold RunPeer_start, peer_at, on_peers, mbind, HM_bind in Hr.
    destruct (objects h !! p); [|done]. destruct (register _ _ _). by injection Hr as _ _ <-.
  - split; [by eapply leave_ok|]. unfold RunPeer_end, peer_at, on_peers, mbind, HM_bind in Hr.
    destruct (objects h !! p); [|done]. destruct (unregister _ _). by injection Hr as _ <-.
  - split; [|done]. apply objects_update_ok; [done|]. intros ep0 Hep0. assert (ep0 = ep) as -> by congruence.
    by eapply peer_step_name.
  - apply Hev; [done|]. split_and!; [|done|by intros q eq Hq; exists eq|done]. apply rtc_once. cbn.
    eapply (step_chain_clean _ _ defaultMaxSize); [unfold defaultMaxSize; lia|exact Hr].
Qed.

Lemma bridge_step_ok h h' : handler_ok h -> bridge_step h h' -> handler_ok h'.
Proof.
  intros Hok. destruct 1 as [m h es h' Hv Hr|h b]; [|done]. eapply evolves_ok; [done|]. by eapply safe_handleBDNBridge.
Qed.
End Handlers.

(** *** Reachable states *)
#[export] Instance any_rel {B} `{BridgeOps B} : BridgeRel (B:=B) (fun _ _ => True).
Proof. split; [by split|done..]. Qed.

Section Reachable.
Context `{EthLaws} {M : Type -> Type} `{ConcurrentMapLaws M} `{!ConverterOps} {B : Type} `{!BridgeOps B} `{MapRange}.
Context (p2p_Send : eth_msg -> option go_error) (rand_Uint64 : Z -> Z) {Node PrivateKeyT : Type}.
Context {Msg : Type} `{!Decoder Msg}.
Variable valid : Header -> Prop.
Hypothesis valid_not_nil : forall hd, valid hd -> header_hash hd <> nil_header_hash /\ header_parent hd <> nil_header_hash.
#[local] Abbreviation Handler := (Handler M B Node PrivateKeyT).
Implicit Types h : Handler.

Definition backend_step h h' : Prop := sys_step p2p_Send rand_Uint64 valid (Msg:=Msg) h h' \/ bridge_step p2p_Send rand_Uint64 valid h h'.

Lemma NewHandler_ok bridge config : handler_ok valid (M:=M) (B:=B) (Node:=Node) (PrivateKeyT:=PrivateKeyT) (NewHandler bridge config).
Proof. split; [apply newChain_ok|]. intros id p. cbn [h_peers NewHandler]. unfold newPeerSet. by rewrite lookup_empty. Qed.

(** C4: The Ethereum side of the gateway keeps its state in order. Whatever messages peers send (as long as
      their blocks have headers of the network), whatever the gateway sends, however peers come, go
      and work, and whenever the chain is cleaned: the chain stays consistent, and every peer the
      backend broadcasts to exists, is the one registered under its ID and is listed once. *)
Theorem system_reachable_ok `{!MapRangeLaws} bridge config h :
  rtc backend_step (NewHandler bridge config) h ->
  chain_ok valid (h_chain h) /\ NoDup (getAll (h_peers h)) /\
  forall p, p ∈ getAll (h_peers h) ->
    exists ep, objects h !! p = Some ep /\ peerSet_get (h_peers h) (peer_id ep) = Some p.
Proof.
  intros Hr. assert (handler_ok valid h) as [Hc Hp].
  { pose proof (NewHandler_ok bridge config) as Hok. revert Hok. generalize (NewHandler (M:=M) bridge config), Hr.
    clear Hr. intros h0 Hr. induction Hr as [|h1 h2 h3 Hstep _ IH]; [done|]. intros Hok. apply IH.
    destruct Hstep as [Hs|Hs]; [by eapply (sys_step_ok (fun _ _ => True))|by eapply (bridge_step_ok (fun _ _ => True))]. }
  split; [done|]. split.
  - rewrite getAll_perm. apply NoDup_fmap_2_strong; [|apply NoDup_map_to_list].
    intros [id1 p1] [id2 p2] Hin1%elem_of_map_to_list Hin2%elem_of_map_to_list. cbn. intros <-.
    destruct (Hp _ _ Hin1) as (ep1 & Hep1 & <-), (Hp _ _ Hin2) as (ep2 & Hep2 & <-). congruence.
  - intros p [id Hid]%getAll_elem. destruct (Hp id p Hid) as (ep & Hep & Hn). exists ep. split; [done|].
    unfold peerSet_get. by rewrite Hn.
Qed.
End Reachable.

(** ** Witness: a peer connects, is registered and sends a new block *)
#[local] Instance ex_decoder : Decoder (Z * NewBlockPacket) := {
  msg_code m := m.1;
  decode_GetBlockHeaders m := Fail decode_error;
  decode_GetBlockHeaders66 m := Fail decode_error;
  decode_GetBlockBodies m := Fail decode_error;
  decode_GetBlockBodies66 m := Fail decode_error;
  decode_NewBlock m := Ok m.2;
  decode_Transactions m := Fail decode_error;
  decode_PooledTransactions m := Fail decode_error;
  decode_PooledTransactions66 m := Fail decode_error;
  decode_NewPooledTransactionHashes m := Fail decode_error;
  decode_NewBlockHashes m := Fail decode_error;
  decode_BlockHeaders m := Fail decode_error;
  decode_BlockHeaders66 m := Fail decode_error;
  decode_BlockBodies m := Fail decode_error;
  decode_BlockBodies66 m := Fail decode_error
}.

#[local] Abbreviation ExHandler := (Handler (gmap string) (TurboBridge (EthConfig string unit)) string unit).
Definition ex_start : ExHandler := NewHandler NewTurboBridge unknownConfig.
Definition ex_connected : ExHandler := with_objects ex_start (<[1 := ex_ready]> (objects ex_start)).
Definition ex_registered : ExHandler := with_peers ex_connected (<["node"%string := 1]> (h_peers ex_connected)).
Definition ex_handle : outcome (option go_error * list handler_effect * ExHandler) :=
  handleMessage ex_send (fun n => n) 0 (fun _ => true) (Ok (NewBlockCode, ex_packet 101 100 11)) 1 ex_registered.

Lemma ex_handle_returns : is_ret ex_handle = true.
Proof. vm_cast_no_check (@eq_refl bool true). Qed.

Example system_reachable_ok_witness :
  exists err es h, ex_handle = Ret (err, es, h) /\ chain_ok toy_valid (h_chain h) /\ NoDup (getAll (h_peers h)).
Proof.
  pose proof ex_handle_returns as Hret. destruct ex_handle as [[[err es] h]| |] eqn:Heq; [|discriminate..].
  exists err, es, h. split; [reflexivity|].
  assert (rtc (backend_step (Msg:=Z * NewBlockPacket) ex_send (fun n => n) toy_valid) ex_start h) as Hr.
  { eapply rtc_l; [left; apply (sys_connect _ _ _ 1 ex_ready); reflexivity|].
    eapply rtc_l; [left; apply (sys_register _ _ _ 1 ex_connected None []); reflexivity|].
    eapply rtc_l; [|apply rtc_refl]. left. eapply (sys_message _ _ _ 0 (fun _ => true) 1 (Ok (NewBlockCode, ex_packet 101 100 11))); [|exact Heq].
    intros msg [= <-] p [= <-]. split; vm_compute; congruence. }
  destruct (system_reachable_ok ex_send (fun n => n) toy_valid toy_valid_not_nil _ _ h Hr) as (Hc & Hn & _).
  split; [exact Hc|exact Hn].
Defined.
