(* ===== verification/NodeConfig.v ===== *)
(** Node types (utils/nodetype.go) and the configuration of a node from the command line (package
    config). Strings are ASCII. Log levels belong to logrus: a parameter. *)
From S2P Require Import Prelude Types NetworkConfig.

(** ** utils/nodetype.go *)
Definition NodeType : Type := Z.
Definition Gateway : NodeType := Z.shiftl 1 0.
Definition RelayTransaction : NodeType := Z.shiftl 1 1.
Definition RelayBlock : NodeType := Z.shiftl 1 2.
Definition Blockchain : NodeType := Z.shiftl 1 3.
Definition Relay : NodeType := Z.lor RelayTransaction RelayBlock.

Definition nodeTypeNames : list (NodeType * string) :=
  [ (Gateway, "GATEWAY"); (RelayTransaction, "RELAY_TRANSACTION"); (RelayBlock, "RELAY_BLOCK");
    (Blockchain, "BLOCKCHAIN"); (Relay, "RELAY") ]%string.
Definition nodeNameTypes : list (string * NodeType) :=
  [ ("GATEWAY", Gateway); ("RELAY_TRANSACTION", RelayTransaction); ("RELAY_BLOCK", RelayBlock);
    ("BLOCKCHAIN", Blockchain); ("RELAY", Relay) ]%string.

Fixpoint name_of (names : list (NodeType * string)) (n : NodeType) : option string :=
  match names with
  | [] => None
  | (n', s) :: names => if decide (n = n') then Some s else name_of names n
  end.

Definition NodeType_String (n : NodeType) : string := default "UNKNOWN"%string (name_of nodeTypeNames n).

(** [strings.Replace(s, "-", "", -1)] *)
Fixpoint remove_char (c : ascii) (s : string) : string :=
  match s with
  | EmptyString => EmptyString
  | String c' s => if decide (c' = c) then remove_char c s else String c' (remove_char c s)
  end.

(** [strings.ToUpper] on ASCII *)
Definition upper_ascii (c : ascii) : ascii :=
  let n := N_of_ascii c in
  if decide (97 <= Z.of_N n <= 122) then ascii_of_N (n - 32) else c.
Fixpoint ToUpper (s : string) : string :=
  match s with EmptyString => EmptyString | String c s => String (upper_ascii c) (ToUpper s) end.

Definition FromStringToNodeType (s : string) : result NodeType :=
  let cs := ToUpper (remove_char "-"%char s) in
  match map_lookup nodeNameTypes cs with
  | Some nt => Ok nt
  | None => Fail (Errorf "could not deserialize unknown node value")
  end.

(** ** config *)
Record Env := mkEnv { DataDir : string; Environment : string }.
Definition MainnetEnv : Env := mkEnv "datadir" "mainnet".
Definition Mainnet : string := "mainnet".

Definition NewEnv (env : string) : result Env :=
  if decide (env = Mainnet) then Ok MainnetEnv else Fail (Errorf "could not parse unrecognized env").

Section Config.
(** [cli.Context] with typed flags, and [logrus.ParseLevel] *)
Context (ctx_String : string -> string) (ctx_Int : string -> Z) (ctx_Bool : string -> bool) (app_Name : string).
Context (ParseLevel : string -> result Z).

Record LogConfig := mkLogConfig {
  AppName : string;
  FileName : string;
  FileLevel : Z;
  ConsoleLevel : Z;
  MaxSize : Z;
  MaxBackups : Z;
  MaxAge : Z
}.

Record TxTraceLog := mkTxTraceLog { tt_Enabled : bool; MaxFileSize : Z; MaxBackupFiles : Z }.

Definition NewEnvFromCLI (env : string) : result Env := NewEnv env.

Definition NewLogFromCLI : result (LogConfig * TxTraceLog) :=
  consoleLevel ← ParseLevel (ctx_String "log-level");
  fileLevel ← ParseLevel (ctx_String "log-file-level");
  let logConfig := mkLogConfig app_Name
    ("logs/" +:+ app_Name +:+ "-" +:+ format_int (ctx_Int "port") +:+ ".log")%string fileLevel consoleLevel
    (ctx_Int "log-max-size") (ctx_Int "log-max-backups") (ctx_Int "log-max-age") in
  let txTraceConfig := mkTxTraceLog (ctx_Bool "txtrace") (ctx_Int "txtrace-max-file-size")
    (ctx_Int "txtrace-max-backup-files") in
  mret (logConfig, txTraceConfig).

Record TurboConfig := mkTurboConfig {
  tc_NodeType : NodeType;
  tc_Env : Env;
  tc_Log : LogConfig;
  tc_TxTraceLog : TxTraceLog
}.

Definition NewTurboConfigFromCLI : result TurboConfig :=
  env ← NewEnvFromCLI (ctx_String "env");
  '(log, txTraceLog) ← NewLogFromCLI;
  nodeType ← FromStringToNodeType (ctx_String "node-type");
  mret (mkTurboConfig nodeType env log txTraceLog).
End Config.

(** ** Lemmas *)

(** Names read back, in either case. *)
Lemma node_type_names n s : (n, s) ∈ nodeTypeNames ->
  NodeType_String n = s /\ FromStringToNodeType s = Ok n.
Proof.
  intros Hin. unfold nodeTypeNames in Hin. repeat (apply elem_of_cons in Hin as [[= -> ->]|Hin]; [by vm_compute|]).
  by apply elem_of_nil in Hin.
Qed.

(** Hyphens are dropped, not replaced, so the spelling with a hyphen is unknown. *)
Example relay_transaction_hyphen : FromStringToNodeType "relay-transaction" = Fail (Errorf "could not deserialize unknown node value").
Proof. by vm_compute. Qed.
