(* ===== verification/Keys.v ===== *)
(** The private keys of a node: the TLS certificate files of the connections to relays (utils/ssl.go) and the
    key file of the Ethereum server (blockchain/eth/util.go, the choice of the key in blockchain/eth/server.go).
    The cryptography (crypto/ecdsa, crypto/x509, crypto/tls, encoding/pem and go-ethereum's crypto) is a
    parameter; the file system is a map with permissions. *)
From S2P Require Import Prelude Bytes.

(** ** Files *)
Record FileSystem := mkFileSystem {
  fs_files : gmap string (list byte);
  fs_readable : string -> bool;
  fs_writable : string -> bool
}.

(** Why a file could not be read. *)
Inductive file_error :=
  | NotExist
  | OtherFileError.

Definition ReadFile (fs : FileSystem) (name : string) : list byte + file_error :=
  match fs_files fs !! name with
  | None => inr NotExist
  | Some content => if fs_readable fs name then inl content else inr OtherFileError
  end.

(** [ioutil.WriteFile]: creates or truncates the file. *)
Definition WriteFile (fs : FileSystem) (name : string) (content : list byte) : option FileSystem :=
  if fs_writable fs name
  then Some (mkFileSystem (<[name := content]> (fs_files fs)) (fs_readable fs) (fs_writable fs))
  else None.

(** The content of a file, as [ReadFile] with the error dropped: a nil slice when it fails. *)
Definition read_block (fs : FileSystem) (name : string) : option (list byte) :=
  match ReadFile fs name with inl content => Some content | inr _ => None end.

(** ** The TLS certificates *)
Section SSL.
(** package ecdsa's private keys, x509 certificates and TLS key pairs; pem and x509 codecs *)
Context {PrivateKey X509Certificate Certificate : Type}.
Context (pem_Decode : list byte -> option (list byte)) (pem_EncodeToMemory : list byte -> list byte).
Context (ParseECPrivateKey : list byte -> result PrivateKey) (MarshalECPrivateKey : PrivateKey -> result (list byte)).
Context (ParseCertificate : list byte -> result X509Certificate) (X509KeyPair : list byte -> list byte -> result Certificate).

Record SSLCerts := mkSSLCerts {
  privateCertFile : string;
  privateKeyFile : string;
  privateCert : option X509Certificate;
  privateKey : PrivateKey;
  privateKeyPair : option Certificate
}.

(** A block that is no PEM at all decodes to nil, which the parsers dereference. *)
Definition parsePEMPrivateKey (block : list byte) : outcome (result PrivateKey) :=
  keyBytes ← deref (pem_Decode block); mret (ParseECPrivateKey keyBytes).

Definition parsePEMCert (block : list byte) : outcome (result X509Certificate) :=
  certBytes ← deref (pem_Decode block); mret (ParseCertificate certBytes).

(** [if err != nil { panic(fmt.Errorf(msg)) }] *)
Definition must {A} (msg : string) (r : result A) : outcome A :=
  match r with Ok a => mret a | Fail _ => Panics (Explicit msg) end.

(** [generated] is what [ecdsa.GenerateKey] gives. *)
Definition NewSSLCertsFromFiles (generated : result PrivateKey) (fs : FileSystem) (certFile keyFile : string)
    : outcome (FileSystem * SSLCerts) :=
  let privateCertBlock := read_block fs certFile in
  let privateKeyBlock := read_block fs keyFile in
  match privateKeyBlock, privateCertBlock with
  | None, None =>
      key ← must "could not generate private key" generated;
      bytes ← must "could not marshal generated private key" (MarshalECPrivateKey key);
      let privateKeyBlock := pem_EncodeToMemory bytes in
      match WriteFile fs keyFile (default [] privateCertBlock) with
      | None => Panics (Explicit "could not write new private key to file")
      | Some fs => mret (fs, mkSSLCerts certFile keyFile None key None)
      end
  | Some keyBlock, Some certBlock =>
      key ← parsePEMPrivateKey keyBlock;
      key ← must "could not parse private key from file" key;
      cert ← parsePEMCert certBlock;
      cert ← must "could not parse private cert from file" cert;
      keyPair ← must "could not load private key pair" (X509KeyPair certBlock keyBlock);
      mret (fs, mkSSLCerts certFile keyFile (Some cert) key (Some keyPair))
  | Some keyBlock, None =>
      key ← parsePEMPrivateKey keyBlock;
      key ← must "could not parse private key from file" key;
      mret (fs, mkSSLCerts certFile keyFile None key None)
  | None, Some _ => Panics (Explicit "found a certificate with no matching private key")
  end.

(** The configuration, by the certificates in it; the check of the peer's certificate is switched off. *)
Record TLSConfig := mkTLSConfig { Certificates : list Certificate; InsecureSkipVerify : bool }.

Definition LoadPrivateConfig (s : SSLCerts) : result TLSConfig :=
  match privateKeyPair s with
  | None => Fail (Errorf "private key pair has not been loaded")
  | Some keyPair => Ok (mkTLSConfig [keyPair] true)
  end.
End SSL.
Arguments SSLCerts : clear implicits.
Arguments TLSConfig : clear implicits.

(** ** The key of the Ethereum server *)
Section EthKey.
(** go-ethereum's keys and their file format: what [LoadECDSA] makes of a file's content and what
    [SaveECDSA] writes. *)
Context {PrivateKey : Type} (decode_key : list byte -> option PrivateKey) (encode_key : PrivateKey -> list byte).

Definition LoadECDSA (fs : FileSystem) (file : string) : PrivateKey + file_error :=
  match ReadFile fs file with
  | inr err => inr err
  | inl content => match decode_key content with Some key => inl key | None => inr OtherFileError end
  end.

(** The encoding of a nil key is the empty string. *)
Definition SaveECDSA (fs : FileSystem) (file : string) (key : option PrivateKey) : option FileSystem :=
  WriteFile fs file (from_option encode_key [] key).

(** The errors of [LoadOrGeneratePrivateKey]. *)
Inductive key_error :=
  | GenerateError
  | keyWriteError.

(** [generatedKey] is what [crypto.GenerateKey] gives; the results are the key, whether it was generated and
    the error. *)
Definition LoadOrGeneratePrivateKey (generatedKey : option PrivateKey) (fs : FileSystem) (keyPath : string)
    : FileSystem * option PrivateKey * bool * option key_error :=
  match LoadECDSA fs keyPath with
  | inl key => (fs, Some key, false, None)
  | inr err =>
      let save privateKey :=
        match SaveECDSA fs keyPath privateKey with
        | None => (fs, privateKey, false, Some keyWriteError)
        | Some fs => (fs, privateKey, true, None)
        end in
      match err with
      | NotExist =>
          match generatedKey with
          | None => (fs, None, false, Some GenerateError)
          | Some key => save (Some key)
          end
      | OtherFileError => save None
      end
  end.

(** The key [NewServer] hands to the p2p server: [Fail] when it returns the error. *)
Definition NewServer_key (configKey generatedKey : option PrivateKey) (fs : FileSystem) (keyPath : string)
    : FileSystem * result (option PrivateKey) :=
  match configKey with
  | Some key => (fs, Ok (Some key))
  | None =>
      let '(fs, privateKeyFromFile, generated, err) := LoadOrGeneratePrivateKey generatedKey fs keyPath in
      match err with
      | Some GenerateError => (fs, Fail (Errorf "could not generate private key"))
      | Some keyWriteError | None => (fs, Ok privateKeyFromFile)
      end
  end.
End EthKey.

(** * Properties *)
Section SSLProps.
Context {PrivateKey X509Certificate Certificate : Type}.
Context (pem_Decode : list byte -> option (list byte)) (pem_EncodeToMemory : list byte -> list byte).
Context (ParseECPrivateKey : list byte -> result PrivateKey) (MarshalECPrivateKey : PrivateKey -> result (list byte)).
Context (ParseCertificate : list byte -> result X509Certificate) (X509KeyPair : list byte -> list byte -> result Certificate).
Abbreviation NewSSLCertsFromFiles :=
  (NewSSLCertsFromFiles pem_Decode pem_EncodeToMemory ParseECPrivateKey MarshalECPrivateKey ParseCertificate X509KeyPair).

(** The parts that must be there for a usable configuration. *)
Definition usable (fs : FileSystem) (certFile keyFile : string) (pair : Certificate) : Prop :=
  exists certBlock keyBlock certBytes keyBytes cert key,
    read_block fs certFile = Some certBlock /\ read_block fs keyFile = Some keyBlock /\
    pem_Decode certBlock = Some certBytes /\ pem_Decode keyBlock = Some keyBytes /\
    ParseCertificate certBytes = Ok cert /\ ParseECPrivateKey keyBytes = Ok key /\
    X509KeyPair certBlock keyBlock = Ok pair.

(** What a successful call found. *)
Lemma NewSSLCerts_ret generated fs certFile keyFile fs' certs :
  NewSSLCertsFromFiles generated fs certFile keyFile = Ret (fs', certs) ->
  (read_block fs certFile <> None /\ fs' = fs /\ exists pair, usable fs certFile keyFile pair /\ privateKeyPair certs = Some pair) \/
  (read_block fs certFile = None /\ privateKeyPair certs = None /\
   (read_block fs keyFile = None -> WriteFile fs keyFile [] = Some fs') /\ (read_block fs keyFile <> None -> fs' = fs)).
Proof.
  unfold Keys.NewSSLCertsFromFiles, parsePEMPrivateKey, parsePEMCert.
  destruct (read_block fs keyFile) as [keyBlock|] eqn:Hkey, (read_block fs certFile) as [certBlock|] eqn:Hcert; intros Hrun.
  - left. destruct (pem_Decode keyBlock) as [keyBytes|] eqn:HK; [|done]. cbn in Hrun.
    destruct (ParseECPrivateKey keyBytes) as [key|] eqn:HP; [|done]. cbn in Hrun.
    destruct (pem_Decode certBlock) as [certBytes|] eqn:HC; [|done]. cbn in Hrun.
    destruct (ParseCertificate certBytes) as [cert|] eqn:HX; [|done]. cbn in Hrun.
    destruct (X509KeyPair certBlock keyBlock) as [kp|] eqn:HT; [|done]. injection Hrun as <- <-.
    split_and!; [done..|]. exists kp. split; [|done]. by exists certBlock, keyBlock, certBytes, keyBytes, cert, key.
  - right. destruct (pem_Decode keyBlock) as [keyBytes|]; [|done]. cbn in Hrun.
    destruct (ParseECPrivateKey keyBytes) as [key|]; [|done]. by injection Hrun as <- <-.
  - done.
  - right. destruct generated as [key|]; [|done]. cbn in Hrun.
    destruct (MarshalECPrivateKey key); [|done]. cbn in Hrun.
    destruct (WriteFile fs keyFile []) as [fs1|]; [|done]. by injection Hrun as <- <-.
Qed.

(** Without the two files, the generated key is lost: an empty file is written in its place. *)
Lemma first_start key bytes fs certFile keyFile :
  read_block fs certFile = None -> read_block fs keyFile = None ->
  MarshalECPrivateKey key = Ok bytes -> fs_writable fs keyFile = true ->
  NewSSLCertsFromFiles (Ok key) fs certFile keyFile
    = Ret (mkFileSystem (<[keyFile := []]> (fs_files fs)) (fs_readable fs) (fs_writable fs), mkSSLCerts certFile keyFile None key None).
Proof.
  intros Hc Hk Hm Hw. unfold Keys.NewSSLCertsFromFiles. rewrite Hk, Hc. cbn. rewrite Hm. cbn. unfold WriteFile. by rewrite Hw.
Qed.

Lemma empty_key_crashes generated fs certFile keyFile :
  pem_Decode [] = None -> read_block fs keyFile = Some [] -> NewSSLCertsFromFiles generated fs certFile keyFile = Panics NilDereference.
Proof.
  intros Hempty Hread. unfold Keys.NewSSLCertsFromFiles, parsePEMPrivateKey. rewrite Hread, Hempty. by destruct (read_block fs certFile).
Qed.

(** When a node gets a TLS configuration. It does exactly when both files are there, are PEM, parse and
    belong together. When neither is there, the first start writes an empty key file instead of the key it
    generated and leaves the node without a configuration, so that no TLS connection can be opened; every
    start after it, with whatever certificate issued in between, crashes on the empty file. *)
Theorem NewSSLCertsFromFiles_spec certFile keyFile
    (Hnames : certFile <> keyFile) (Hempty : pem_Decode [] = None) :
  (forall generated fs config, (exists fs' certs, NewSSLCertsFromFiles generated fs certFile keyFile = Ret (fs', certs) /\
                                  LoadPrivateConfig certs = Ok config) <->
     exists pair, usable fs certFile keyFile pair /\ config = mkTLSConfig [pair] true) /\
  (forall key bytes fs, read_block fs certFile = None -> read_block fs keyFile = None ->
     MarshalECPrivateKey key = Ok bytes -> fs_writable fs keyFile = true ->
     exists fs' certs, NewSSLCertsFromFiles (Ok key) fs certFile keyFile = Ret (fs', certs) /\
       fs_files fs' = <[keyFile := []]> (fs_files fs) /\
       is_ok (LoadPrivateConfig certs) = false /\
       forall generated issued, fs_readable fs keyFile = true ->
         NewSSLCertsFromFiles generated
           (mkFileSystem (match issued with Some content => <[certFile := content]> (fs_files fs') | None => fs_files fs' end)
              (fs_readable fs') (fs_writable fs')) certFile keyFile = Panics NilDereference).
Proof.
  split.
  - intros generated fs config. split.
    + intros (fs' & certs & Hrun & Hload). unfold LoadPrivateConfig in Hload.
      destruct (NewSSLCerts_ret _ _ _ _ _ _ Hrun) as [(_ & _ & kp & Hus & Hkp)|(_ & Hkp & _)]; rewrite Hkp in Hload; [|done].
      exists kp. split; [done|congruence].
    + intros (kp & (certBlock & keyBlock & certBytes & keyBytes & cert & key & Hc & Hk & Hdc & Hdk & Hpc & Hpk & Hpair) & ->).
      unfold Keys.NewSSLCertsFromFiles, parsePEMPrivateKey, parsePEMCert.
      rewrite Hk, Hc, Hdk. cbn. rewrite Hpk. cbn. rewrite Hdc. cbn. rewrite Hpc. cbn. rewrite Hpair. cbn.
      eexists _, _. split; [done|]. done.
  - intros key bytes fs Hc Hk Hm Hw. eexists _, _. split_and!; [by apply first_start with bytes|done..|].
    intros generated issued Hr. apply empty_key_crashes; [done|]. unfold read_block, ReadFile. cbn.
    destruct issued; rewrite ?lookup_insert_ne by done; rewrite lookup_insert_eq; by rewrite Hr.
Qed.
End SSLProps.

Section EthKeyProps.
Context {PrivateKey : Type} (decode_key : list byte -> option PrivateKey) (encode_key : PrivateKey -> list byte).
Abbreviation LoadOrGenerate := (LoadOrGeneratePrivateKey decode_key encode_key).

Lemma ReadFile_written fs file content :
  fs_readable fs file = true ->
  ReadFile (mkFileSystem (<[file := content]> (fs_files fs)) (fs_readable fs) (fs_writable fs)) file = inl content.
Proof. intros Hr. unfold ReadFile. cbn. by rewrite lookup_insert_eq, Hr. Qed.

(** The file of a key that cannot be loaded, after one more start. *)
Definition spoiled (fs : FileSystem) (file : string) : FileSystem :=
  mkFileSystem (<[file := []]> (fs_files fs)) (fs_readable fs) (fs_writable fs).

Lemma spoil_key fs file generatedKey :
  LoadECDSA decode_key fs file = inr OtherFileError -> fs_writable fs file = true ->
  LoadOrGenerate generatedKey fs file = (spoiled fs file, None, true, None).
Proof. intros Hload Hw. unfold LoadOrGeneratePrivateKey, SaveECDSA, WriteFile. by rewrite Hload, Hw. Qed.

Lemma spoiled_stays fs file : decode_key [] = None -> LoadECDSA decode_key (spoiled fs file) file = inr OtherFileError.
Proof.
  intros Hempty. unfold LoadECDSA, ReadFile, spoiled. cbn. rewrite lookup_insert_eq.
  destruct (fs_readable fs file); [by rewrite Hempty|done].
Qed.

Lemma spoiled_twice fs file : spoiled (spoiled fs file) file = spoiled fs file.
Proof. unfold spoiled. cbn. by rewrite insert_insert_eq. Qed.

(** The key of the Ethereum server. A key that can be loaded is used; without a file, a generated key is
    written and every later start loads it back, and if it cannot be written it is used all the same. But a
    file that is there and cannot be read or decoded is overwritten with an empty one: the start reports a
    generated key and no error, hands the server a nil key, and so does every start after it. *)
Theorem LoadOrGeneratePrivateKey_spec
    (Hround : forall key, decode_key (encode_key key) = Some key) (Hempty : decode_key [] = None) fs keyPath generatedKey :
  match LoadECDSA decode_key fs keyPath with
  | inl key => LoadOrGenerate generatedKey fs keyPath = (fs, Some key, false, None)
  | inr NotExist =>
      match generatedKey with
      | None => LoadOrGenerate generatedKey fs keyPath = (fs, None, false, Some GenerateError)
      | Some key =>
          if fs_writable fs keyPath
          then exists fs', LoadOrGenerate generatedKey fs keyPath = (fs', Some key, true, None) /\
                 (fs_readable fs keyPath = true -> forall other, LoadOrGenerate other fs' keyPath = (fs', Some key, false, None))
          else LoadOrGenerate generatedKey fs keyPath = (fs, Some key, false, Some keyWriteError)
      end
  | inr OtherFileError =>
      NewServer_key decode_key encode_key None generatedKey fs keyPath
        = ((if fs_writable fs keyPath then spoiled fs keyPath else fs), Ok None) /\
      (fs_writable fs keyPath = true -> forall other,
         LoadOrGenerate generatedKey fs keyPath = (spoiled fs keyPath, None, true, None) /\
         LoadOrGenerate other (spoiled fs keyPath) keyPath = (spoiled fs keyPath, None, true, None))
  end.
Proof.
  destruct (LoadECDSA decode_key fs keyPath) as [key|[|]] eqn:Hload.
  - unfold LoadOrGeneratePrivateKey. by rewrite Hload.
  - unfold LoadOrGeneratePrivateKey, SaveECDSA. rewrite Hload. destruct generatedKey as [key|]; [|done].
    unfold WriteFile. destruct (fs_writable fs keyPath); [|done]. eexists. split; [done|]. intros Hr other.
    unfold LoadECDSA. rewrite ReadFile_written by done. cbn. by rewrite Hround.
  - split.
    + unfold NewServer_key, LoadOrGeneratePrivateKey, SaveECDSA, WriteFile. rewrite Hload. by destruct (fs_writable fs keyPath).
    + intros Hw other. split; [by apply spoil_key|].
      rewrite spoil_key; [by rewrite spoiled_twice|by apply spoiled_stays|done].
Qed.
End EthKeyProps.

(** ** A toy codec: a key is one byte, its PEM form has a leading marker *)
Definition ex_Decode (block : list byte) : option (list byte) := match block with [x01; b] => Some [b] | _ => None end.
Definition ex_Encode (bytes : list byte) : list byte := x01 :: bytes.
Definition ex_Parse (bytes : list byte) : result byte := match bytes with [b] => Ok b | _ => Fail (Errorf "malformed") end.
Definition ex_Pair (cert key : list byte) : result (list byte) := if decide (cert = key) then Ok cert else Fail (Errorf "no match").
Definition ex_disk (files : gmap string (list byte)) : FileSystem := mkFileSystem files (fun _ => true) (fun _ => true).

Lemma NewSSLCertsFromFiles_spec_witness :
  (exists fs' certs,
     NewSSLCertsFromFiles ex_Decode ex_Encode ex_Parse (fun key => Ok [key]) ex_Parse ex_Pair (Ok x07) (ex_disk ∅) "cert" "key"
       = Ret (fs', certs) /\
     fs_files fs' = <["key" := []]> ∅ /\ is_ok (LoadPrivateConfig certs) = false) /\
  (exists fs' certs,
     NewSSLCertsFromFiles ex_Decode ex_Encode ex_Parse (fun key => Ok [key]) ex_Parse ex_Pair (Ok x07)
       (ex_disk (<["cert" := [x01; x07]]> {["key" := [x01; x07]]})) "cert" "key" = Ret (fs', certs) /\
     LoadPrivateConfig certs = Ok (mkTLSConfig [[x01; x07]] true)).
Proof.
  destruct (NewSSLCertsFromFiles_spec ex_Decode ex_Encode ex_Parse (fun key => Ok [key]) ex_Parse ex_Pair "cert" "key"
    ltac:(done) eq_refl) as [Hconfig Hfirst].
  split.
  - destruct (Hfirst x07 [x07] (ex_disk ∅) ltac:(by vm_compute) ltac:(by vm_compute) eq_refl eq_refl) as (fs' & certs & Hrun & Hfiles & Hno & _).
    exists fs', certs. by split_and!.
  - apply Hconfig. exists [x01; x07]. split; [|done]. exists [x01; x07], [x01; x07], [x07], [x07], x07, x07.
    split_and!; by vm_compute.
Defined.

Definition ex_decode_key (content : list byte) : option byte := match content with [b] => Some b | _ => None end.

Lemma LoadOrGeneratePrivateKey_spec_witness :
  (exists fs', LoadOrGeneratePrivateKey ex_decode_key (fun b => [b]) (Some x07) (ex_disk ∅) "key" = (fs', Some x07, true, None) /\
     forall other, LoadOrGeneratePrivateKey ex_decode_key (fun b => [b]) other fs' "key" = (fs', Some x07, false, None)) /\
  LoadOrGeneratePrivateKey ex_decode_key (fun b => [b]) (Some x07) (ex_disk {["key" := [x01; x02]]}) "key"
    = (spoiled (ex_disk {["key" := [x01; x02]]}) "key", None, true, None).
Proof.
  split.
  - destruct (LoadOrGeneratePrivateKey_spec ex_decode_key (fun b => [b]) (fun _ => eq_refl) eq_refl (ex_disk ∅) "key" (Some x07))
      as (fs' & Hrun & Hagain).
    exists fs'. split; [done|]. by apply Hagain.
  - exact (proj1 (proj2 (LoadOrGeneratePrivateKey_spec ex_decode_key (fun b => [b]) (fun _ => eq_refl) eq_refl
      (ex_disk {["key" := [x01; x02]]}) "key" (Some x07)) eq_refl None)).
Defined.
