(* ===== verification/Flags.v ===== *)
(** The command line of the gateway: the flags (utils/flags.go, utils/eth_flags.go), the list of them that
    [main] registers (cmd/gateway/main.go), and what [urfave/cli] makes of a command line, as laws. Also
    package path, as the program uses it. *)
From S2P Require Import Prelude Bytes EthTypes ChainExamples NetworkConfig NodeConfig.

(** ** Flags *)
Inductive flag_value :=
  | IntFlag (value : Z)
  | StringFlag (value : string)
  | BoolFlag (value : bool).

(** A flag with its default; the text of its help is left out. *)
Record Flag := mkFlag { flag_Name : string; flag_Aliases : list string; flag_Value : flag_value }.

Definition PortFlag : Flag := mkFlag "port" ["p"%string] (IntFlag 1809).
Definition EnvFlag : Flag := mkFlag "env" [] (StringFlag "mainnet").
Definition BlockchainNetworkFlag : Flag := mkFlag "blockchain-network" [] (StringFlag "ethereum-mainnet").
Definition DisableProfilingFlag : Flag := mkFlag "disable-profiling" [] (BoolFlag false).
Definition DataDirFlag : Flag := mkFlag "data-dir" [] (StringFlag "datadir").
Definition LogLevelFlag : Flag := mkFlag "log-level" ["l"%string] (StringFlag "info").
Definition LogFileLevelFlag : Flag := mkFlag "log-file-level" [] (StringFlag "info").
Definition LogMaxSizeFlag : Flag := mkFlag "log-max-size" [] (IntFlag 100).
Definition LogMaxAgeFlag : Flag := mkFlag "log-max-age" [] (IntFlag 10).
Definition LogMaxBackupsFlag : Flag := mkFlag "log-max-backups" [] (IntFlag 10).
Definition TxTraceEnabledFlag : Flag := mkFlag "txtrace" [] (BoolFlag false).
Definition TxTraceMaxFileSizeFlag : Flag := mkFlag "txtrace-max-file-size" [] (IntFlag 100).
Definition TxTraceMaxBackupFilesFlag : Flag := mkFlag "txtrace-max-backup-files" [] (IntFlag 3).
Definition NodeTypeFlag : Flag := mkFlag "node-type" [] (StringFlag "gateway").

Definition EnodesFlag : Flag := mkFlag "enodes" [] (StringFlag "").
Definition PrivateKeyFlag : Flag := mkFlag "private-key" [] (StringFlag "").
Definition EthWsUriFlag : Flag := mkFlag "eth-ws-uri" [] (StringFlag "").
Definition MultiNode : Flag := mkFlag "multi-node" [] (StringFlag "").

(** [main] *)
Definition app_Name : string := "gateway".
Definition app_Flags : list Flag :=
  [ PortFlag; EnvFlag; LogLevelFlag; LogFileLevelFlag; LogMaxSizeFlag; LogMaxAgeFlag; LogMaxBackupsFlag;
    TxTraceEnabledFlag; TxTraceMaxFileSizeFlag; TxTraceMaxBackupFilesFlag; NodeTypeFlag; BlockchainNetworkFlag;
    EnodesFlag; MultiNode; PrivateKeyFlag; DisableProfilingFlag ].

(** version/version.go *)
Definition BuildVersion : string := "0.1.0".

(** ** The context of a command *)
Record Context := mkContext { ctx_cli :> cli_Context; cli_Int : string -> Z; cli_Bool : string -> bool }.

(** A name none of the flags goes by. *)
Definition unknown_flag (flags : list Flag) (name : string) : Prop :=
  forall f, f ∈ flags -> name <> flag_Name f /\ name ∉ flag_Aliases f.

Definition has_value (c : Context) (name : string) (v : flag_value) : Prop :=
  match v with
  | IntFlag z => cli_Int c name = z
  | StringFlag s => cli_String c name = s
  | BoolFlag b => cli_Bool c name = b
  end.

(** What [urfave/cli] documents: a flag that was not registered is not set and has the zero value of its
    type, and a registered one that was not set has its default. *)
Record cli_laws (flags : list Flag) (c : Context) : Prop := {
  cl_unknown name : unknown_flag flags name ->
    cli_IsSet c name = false /\ cli_String c name = ""%string /\ cli_Int c name = 0 /\ cli_Bool c name = false;
  cl_default f : f ∈ flags -> cli_IsSet c (flag_Name f) = false -> has_value c (flag_Name f) (flag_Value f)
}.

(** ** package path *)

(** A component of a path, on the reversed list of those kept. *)
Definition clean_component (rooted : bool) (out : list string) (comp : string) : list string :=
  if decide (comp = "" \/ comp = ".")%string then out else
  if decide (comp = ".."%string) then
    match out with
    | [] => if rooted then [] else [".."%string]
    | last :: out' => if decide (last = ".."%string) then comp :: out else out'
    end
  else comp :: out.

Definition path_Clean (p : string) : string :=
  if decide (p = ""%string) then "."%string else
  let rooted := HasPrefix p "/" in
  let out := reverse (foldl (clean_component rooted) [] (split_on "/"%char p)) in
  let body := String.concat "/" out in
  if rooted then ("/" +:+ body)%string else if decide (out = []) then "."%string else body.

Definition path_Join (elems : list string) : string :=
  let buf := foldl (fun buf e => if decide (buf = ""%string) then e else (buf +:+ "/" +:+ e)%string) ""%string elems in
  if decide (buf = ""%string) then ""%string else path_Clean buf.

Example path_Join_examples :
  path_Join [""; ".gatewaykey"] = ".gatewaykey"%string /\ path_Join ["datadir"; "gateway"; "private"] = "datadir/gateway/private"%string /\
  path_Join ["/a/"; "../b/./c"; ""] = "/b/c"%string /\ path_Join ["a"; "../../b"] = "../b"%string /\ path_Join ["a"; ".."] = "."%string.
Proof. by vm_compute. Qed.

(** ** Properties *)
Section Defaults.
Context `{EthTypes} {Node PrivateKeyT : Type} (enode_Parse : string -> result Node) (HexToECDSA : string -> result PrivateKeyT).
Context (ParseLevel : string -> result Z).
Implicit Types c : Context.

#[local] Abbreviation NewTurboConfigFromCLI c := (NewTurboConfigFromCLI (cli_String c) (cli_Int c) (cli_Bool c) app_Name ParseLevel).
#[local] Abbreviation NewPresetEthConfigFromCLI c := (NewPresetEthConfigFromCLI enode_Parse HexToECDSA c).

Lemma default_of c f : cli_laws app_Flags c -> f ∈ app_Flags -> cli_IsSet c (flag_Name f) = false -> has_value c (flag_Name f) (flag_Value f).
Proof. intros Hl. apply Hl. Qed.

Lemma unregistered c name : cli_laws app_Flags c -> bool_decide (Forall (fun f => name <> flag_Name f /\ name ∉ flag_Aliases f) app_Flags) = true ->
  cli_IsSet c name = false /\ cli_String c name = ""%string /\ cli_Int c name = 0 /\ cli_Bool c name = false.
Proof. intros Hl Hn%bool_decide_eq_true. apply Hl. intros f Hf. by eapply Forall_forall in Hn. Qed.

(** What every command line has in common: the data directory is never given to the Ethereum server. *)
Lemma data_dir_empty c : cli_laws app_Flags c -> cli_String c (flag_Name DataDirFlag) = ""%string.
Proof. intros Hl. by apply unregistered; [|vm_compute]. Qed.

Lemma ws_uri_unset c : cli_laws app_Flags c -> cli_IsSet c (flag_Name EthWsUriFlag) = false.
Proof. intros Hl. by apply unregistered; [|vm_compute]. Qed.

Lemma default_configuration c info : cli_laws app_Flags c -> ParseLevel "info" = Ok info ->
  (forall f, f ∈ app_Flags -> cli_IsSet c (flag_Name f) = false) ->
  NewTurboConfigFromCLI c = Ok (mkTurboConfig Gateway MainnetEnv
    (mkLogConfig "gateway" "logs/gateway-1809.log" info info 100 10 10) (mkTxTraceLog false 100 3)) /\
  NewPresetEthConfigFromCLI c = Ok newEthereumMainnetConfig.
Proof.
  intros Hl Hinfo Hunset.
  assert (forall f, f ∈ app_Flags -> has_value c (flag_Name f) (flag_Value f)) as Hdef by (intros f Hf; by apply default_of, Hunset).
  apply Forall_forall in Hdef, Hunset. unfold app_Flags in Hdef, Hunset. rewrite !Forall_cons in Hdef, Hunset. cbn in Hdef, Hunset.
  destruct Hdef as (Hport & Henv & Hll & Hlf & Hms & Hma & Hmb & Htt & Htf & Htb & Hnt & Hbn & _).
  destruct Hunset as (_ & _ & _ & _ & _ & _ & _ & _ & _ & _ & _ & _ & Hen & Hmn & Hpk & _).
  unfold NodeConfig.NewTurboConfigFromCLI, NewLogFromCLI, NetworkConfig.NewPresetEthConfigFromCLI, peers_from_cli.
  rewrite Hport, Henv, Hll, Hlf, Hms, Hma, Hmb, Htt, Htf, Htb, Hnt, Hbn, Hen, Hmn, Hpk, Hinfo. split; reflexivity.
Qed.

(** The configurations command lines give. Without any flag: a gateway of the main network, logging at
    level "info" to logs/gateway-1809.log, with no Ethereum peers. With whatever flags: an environment other
    than "mainnet", or a network other than "ethereum-mainnet", is an error; [--multi-node] and [--enodes]
    exclude each other; a peer given by [--enodes] never has a websocket address, because the flag that
    would carry it is not registered; a private key must have 64 digits. *)
Theorem command_line_spec c info : cli_laws app_Flags c -> ParseLevel "info" = Ok info ->
  ((forall f, f ∈ app_Flags -> cli_IsSet c (flag_Name f) = false) ->
     NewTurboConfigFromCLI c = Ok (mkTurboConfig Gateway MainnetEnv
       (mkLogConfig "gateway" "logs/gateway-1809.log" info info 100 10 10) (mkTxTraceLog false 100 3)) /\
     NewPresetEthConfigFromCLI c = Ok newEthereumMainnetConfig) /\
  (cli_String c "env" <> "mainnet"%string -> is_ok (NewTurboConfigFromCLI c) = false) /\
  (cli_String c "blockchain-network" <> "ethereum-mainnet"%string -> is_ok (NewPresetEthConfigFromCLI c) = false) /\
  (cli_IsSet c "multi-node" = true -> cli_IsSet c "enodes" = true -> is_ok (NewPresetEthConfigFromCLI c) = false) /\
  (cli_IsSet c "private-key" = true -> String.length (cli_String c "private-key") <> 64%nat ->
     is_ok (NewPresetEthConfigFromCLI c) = false) /\
  (forall config, NewPresetEthConfigFromCLI c = Ok config -> cli_IsSet c "multi-node" = false ->
     StaticPeers config = [] \/
     cli_IsSet c "enodes" = true /\ exists node, enode_Parse (cli_String c "enodes") = Ok node /\ StaticPeers config = [mkPeerInfo node ""]).
Proof.
  intros Hl Hinfo. pose proof (ws_uri_unset c Hl) as Hws. split_and!.
  - by apply default_configuration.
  - intros Henv. unfold NodeConfig.NewTurboConfigFromCLI, NewEnvFromCLI, NewEnv. by rewrite decide_False.
  - intros Hnet. unfold NetworkConfig.NewPresetEthConfigFromCLI, NewEthereumPreset, networkMapping. cbn [map_lookup].
    by rewrite decide_False.
  - intros Hm He. unfold NetworkConfig.NewPresetEthConfigFromCLI, peers_from_cli. rewrite Hm, He.
    by destruct (NewEthereumPreset _) as [? [?|]].
  - intros Hk Hlen. unfold NetworkConfig.NewPresetEthConfigFromCLI. destruct (NewEthereumPreset _) as [? [?|]]; [done|].
    destruct (peers_from_cli _ _) as [peers|]; go_simpl; [|done]. rewrite Hk.
    rewrite decide_True; [done|]. unfold privateKeyLen. lia.
  - intros config. unfold NetworkConfig.NewPresetEthConfigFromCLI, peers_from_cli. cbn in Hws. rewrite Hws.
    destruct (NewEthereumPreset _) as [preset [?|]]; [done|]. intros Hc Hm. rewrite Hm in Hc.
    destruct (cli_IsSet c "enodes") eqn:He.
    + destruct (enode_Parse _) as [node|]; go_simpl; [|done]. right. split; [done|]. exists node. split; [done|].
      destruct (cli_IsSet c "private-key"); [case_decide; [done|]; destruct (HexToECDSA _); go_simpl; [|done]|]; by injection Hc as <-.
    + go_simpl. left. destruct (cli_IsSet c "private-key"); [case_decide; [done|]; destruct (HexToECDSA _); go_simpl; [|done]|]; by injection Hc as <-.
Qed.
End Defaults.

(** ** A command line as a list of settings *)
Fixpoint find_flag (flags : list Flag) (name : string) : option Flag :=
  match flags with
  | [] => None
  | f :: flags => if decide (name = flag_Name f \/ name ∈ flag_Aliases f) then Some f else find_flag flags name
  end.

(** The flags that were set, by name, with their values. *)
Definition parsed (flags : list Flag) (args : list (string * flag_value)) (name : string) : flag_value :=
  match find_flag flags name with
  | None => StringFlag ""
  | Some f => default (flag_Value f) (map_lookup args (flag_Name f))
  end.
Definition command_line (flags : list Flag) (args : list (string * flag_value)) : Context :=
  mkContext
    (mkcli_Context (fun name => bool_decide (is_Some (find_flag flags name ≫= fun f => map_lookup args (flag_Name f))))
       (fun name => if parsed flags args name is StringFlag s then s else ""%string))
    (fun name => if parsed flags args name is IntFlag z then z else 0)
    (fun name => if parsed flags args name is BoolFlag b then b else false).

Lemma find_unknown flags name : unknown_flag flags name -> find_flag flags name = None.
Proof.
  induction flags as [|f flags IH]; intros Hu; [done|]. simpl. destruct (Hu f ltac:(by left)) as [Hn Ha].
  rewrite decide_False by tauto. apply IH. intros f' Hf'. apply Hu. by right.
Qed.

Lemma app_flags_found f : f ∈ app_Flags -> find_flag app_Flags (flag_Name f) = Some f.
Proof. intros Hf. revert f Hf. apply Forall_forall. repeat constructor. Qed.

Lemma command_line_laws flags args : (forall f, f ∈ flags -> find_flag flags (flag_Name f) = Some f) -> cli_laws flags (command_line flags args).
Proof.
  intros Hfound. split.
  - intros name Hu%find_unknown. unfold command_line, parsed. cbn. rewrite Hu. split_and!; [|done..].
    apply bool_decide_eq_false. by intros [? ?].
  - intros f Hf. unfold command_line, parsed, has_value. cbn. rewrite (Hfound f Hf). cbn.
    intros Hset%bool_decide_eq_false. destruct (map_lookup args (flag_Name f)); [by destruct Hset|]. cbn.
    by destruct (flag_Value f).
Qed.

Definition ex_level (s : string) : result Z := if decide (s = "info"%string) then Ok 4 else Fail (Errorf "not a valid logrus Level").
Definition ex_line : Context := command_line app_Flags [("enodes", StringFlag "node1"); ("eth-ws-uri", StringFlag "ws://node1")]%string.

Lemma command_line_spec_witness :
  exists config, NetworkConfig.NewPresetEthConfigFromCLI (PrivateKeyT:=unit) (fun s => Ok s) (fun _ => Ok tt) ex_line = Ok config /\
    StaticPeers config = [mkPeerInfo "node1"%string ""].
Proof.
  assert (exists config, NetworkConfig.NewPresetEthConfigFromCLI (PrivateKeyT:=unit) (fun s => Ok s) (fun _ => Ok tt) ex_line = Ok config)
    as [config Hc] by (eexists; reflexivity).
  exists config. split; [exact Hc|].
  destruct (command_line_spec (Node:=string) (PrivateKeyT:=unit) (fun s => Ok s) (fun _ => Ok tt) ex_level ex_line 4
    (command_line_laws app_Flags _ app_flags_found) eq_refl) as (_ & _ & _ & _ & _ & Hpeers).
  destruct (Hpeers config Hc eq_refl) as [Hnil|(_ & node & [= <-] & Heq)]; [|exact Heq].
  revert Hnil. injection Hc as <-. discriminate.
Defined.
