(* ===== verification/Logger.v ===== *)
(** The logger (logger/nonblocking.go, logger/log.go): the split of the console by level, and the logger that
    hands lines to a goroutine over a channel. Writing a line belongs to logrus; here it is the list of what
    was written. A call reads the flag that avoids the channel and then selects, and another goroutine can
    run in between: the two are separate events. What lines of severe
    levels do to the process is in [LoggerCalls]. *)
From S2P Require Import Prelude Channel NodeConfig.

(** ** logger/exported.go, logger/log.go *)
Definition PanicLevel : Z := 0.
Definition FatalLevel : Z := 1.
Definition ErrorLevel : Z := 2.
Definition WarnLevel : Z := 3.
Definition InfoLevel : Z := 4.
Definition DebugLevel : Z := 5.
Definition TraceLevel : Z := 6.

(** [logrus.AllLevels], of length and capacity 7, and a slice of it *)
Definition AllLevels : list Z := [PanicLevel; FatalLevel; ErrorLevel; WarnLevel; InfoLevel; DebugLevel; TraceLevel].
Definition slice_levels (lo hi : Z) : outcome (list Z) :=
  if decide (0 <= lo <= hi /\ hi <= 7) then mret (take (Z.to_nat (hi - lo)) (drop (Z.to_nat lo) AllLevels))
  else Panics SliceOutOfRange.

(** The levels of the hook for the standard output and of the one for the standard error. *)
Definition stdoutWriter (level : Z) : outcome (list Z) :=
  if decide (InfoLevel <= level) then slice_levels InfoLevel (uint32 (level + 1)) else mret [].
Definition stderrWriter (level : Z) : outcome (list Z) :=
  let level := if decide (InfoLevel <= level) then WarnLevel else level in
  slice_levels 0 (level + 1).

(** [Init]: [NewHook] opens the log file, by its name, the limits of its rotation and its level; the levels
    of the two hooks of the console. *)
Definition Init (NewHook : string -> Z -> Z -> Z -> Z -> option go_error) (logConfig : LogConfig)
    : outcome (option go_error * list (list Z)) :=
  match NewHook (FileName logConfig) (MaxSize logConfig) (MaxBackups logConfig) (MaxAge logConfig) (FileLevel logConfig) with
  | Some err => mret (Some err, [])
  | None =>
      out ← stdoutWriter (ConsoleLevel logConfig);
      err ← stderrWriter (ConsoleLevel logConfig);
      mret (None, [out; err])
  end.

(** ** logger/nonblocking.go *)
Section NonBlocking.
Context {Fields : Type}.

Definition backLog : Z := 100000.

Record line := mkline { l_data : option Fields; l_msg : string; l_level : Z; l_time : Z }.

(** The logger with the goroutine that serves its channel, and the calls between their two steps. *)
Record nonBlocking := mknonBlocking {
  nb_lines : chan line;
  avoidChannel : bool;
  nb_cancelled : bool;               (* the context *)
  nb_running : bool;                 (* the goroutine *)
  nb_pending : list line             (* calls that have read the flag *)
}.

Definition newNonBlockingLogger : nonBlocking := mknonBlocking (make_chan backLog) false false true [].

Definition AvoidChannel (l : nonBlocking) : nonBlocking :=
  mknonBlocking (nb_lines l) true (nb_cancelled l) (nb_running l) (nb_pending l).
Definition cancel (l : nonBlocking) : nonBlocking :=
  mknonBlocking (nb_lines l) (avoidChannel l) true (nb_running l) (nb_pending l).

(** The line written when the channel is full. *)
Definition unable (now : Z) : line := mkline None "Unable to use FastLogger properly" ErrorLevel now.

(** [Logf] and [Log] up to the check of the flag: what is written at once, and the logger after it. *)
Definition Logf (enabledLevel : Z) (oneLine : line) (l : nonBlocking) : list line * nonBlocking :=
  if negb (bool_decide (l_level oneLine <= enabledLevel)) then ([], l) else
  if avoidChannel l then ([oneLine], l)
  else ([], mknonBlocking (nb_lines l) (avoidChannel l) (nb_cancelled l) (nb_running l) (nb_pending l ++ [oneLine])).

(** The [select] of the [i]-th of the calls that have read the flag: the line that was accepted, what is
    written at once, and the logger after it. *)
Definition select_line (now : Z) (i : nat) (l : nonBlocking) : list line * list line * nonBlocking :=
  match nb_pending l !! i with
  | None => ([], [], l)
  | Some oneLine =>
      let pending := take i (nb_pending l) ++ drop (S i) (nb_pending l) in
      let '(err, lines) := try_send (nb_lines l) oneLine in
      let l := mknonBlocking lines (avoidChannel l) (nb_cancelled l) (nb_running l) pending in
      match err with None => ([oneLine], [], l) | Some _ => ([], [unable now], l) end
  end.

(** A turn of the goroutine: it writes the next line; without one it waits, or returns if the context is
    cancelled. *)
Definition worker (l : nonBlocking) : list line * nonBlocking :=
  if negb (nb_running l) then ([], l) else
  match recv (nb_lines l) with
  | Ret (oneLine, lines) => ([oneLine], mknonBlocking lines (avoidChannel l) (nb_cancelled l) true (nb_pending l))
  | _ =>
      if nb_cancelled l then ([], mknonBlocking (nb_lines l) (avoidChannel l) true false (nb_pending l)) else ([], l)
  end.

(** What happens, in any order; [Exit] is [EvAvoid], [EvCancel] and waiting until the goroutine has returned. *)
Inductive log_event :=
  | EvLog (oneLine : line)
  | EvSelect (now : Z) (i : nat)
  | EvWorker
  | EvAvoid
  | EvCancel.

(** The lines the channel accepted, those the goroutine wrote and those written at once, with the logger. *)
Fixpoint log_run (enabledLevel : Z) (events : list log_event) (l : nonBlocking)
    : list line * list line * list line * nonBlocking :=
  match events with
  | [] => ([], [], [], l)
  | ev :: events =>
      let '(accepted, written, direct, l) :=
        match ev with
        | EvLog oneLine => let '(direct, l) := Logf enabledLevel oneLine l in ([], [], direct, l)
        | EvSelect now i => let '(accepted, direct, l) := select_line now i l in (accepted, [], direct, l)
        | EvWorker => let '(written, l) := worker l in ([], written, [], l)
        | EvAvoid => ([], [], [], AvoidChannel l)
        | EvCancel => ([], [], [], cancel l)
        end in
      let '(accepted', written', direct', l) := log_run enabledLevel events l in
      (accepted ++ accepted', written ++ written', direct ++ direct', l)
  end.
End NonBlocking.
Arguments line : clear implicits.
Arguments nonBlocking : clear implicits.

(** * Properties *)

Ltac compute_writers :=
  match goal with |- exists out err, ?a = Ret out /\ ?b = Ret err /\ _ =>
    let x := eval vm_compute in a in let y := eval vm_compute in b in
    match x with Ret ?o => match y with Ret ?e => exists o, e end end
  end.

(** Every line of an enabled level appears once on the console: from [InfoLevel] on, on the standard output,
    below it on the standard error; the others appear nowhere. A level logrus does not know crashes. *)
Theorem console_split level l :
  0 <= level < 2 ^ 32 -> 0 <= l <= TraceLevel ->
  (level <= TraceLevel -> exists out err, stdoutWriter level = Ret out /\ stderrWriter level = Ret err /\
     (l ∈ out <-> InfoLevel <= l <= level) /\ (l ∈ err <-> l <= level /\ l < InfoLevel)) /\
  (TraceLevel < level < 2 ^ 32 - 1 -> stdoutWriter level = Panics SliceOutOfRange).
Proof.
  unfold TraceLevel. intros Hlevel Hl. split.
  - intros Hle. assert (level ∈ AllLevels) as Hin by (unfold AllLevels, PanicLevel, FatalLevel, ErrorLevel, WarnLevel, InfoLevel, DebugLevel, TraceLevel; set_solver by lia).
    unfold AllLevels in Hin. repeat (apply elem_of_cons in Hin as [->|Hin]); [..|by apply not_elem_of_nil in Hin]; compute_writers;
      (split; [by vm_compute|split; [by vm_compute|split]]); unfold PanicLevel, FatalLevel, ErrorLevel, WarnLevel, InfoLevel, DebugLevel, TraceLevel in *;
      rewrite ?elem_of_cons, ?elem_of_nil; lia.
  - intros Hgt. unfold stdoutWriter, InfoLevel, slice_levels, uint32. rewrite decide_True by lia.
    rewrite Z.mod_small by lia. by rewrite decide_False by lia.
Qed.

Section Lines.
Context {Fields : Type} (enabledLevel : Z).
Implicit Types (l : nonBlocking Fields) (events : list (log_event (Fields:=Fields))).
Abbreviation queue l := (ch_buf (nb_lines l)).
Abbreviation written_by run := (run.1.1.2).

(** One event, as [log_run] treats it. *)
Definition log_do (ev : log_event (Fields:=Fields)) l : list (line Fields) * list (line Fields) * list (line Fields) * nonBlocking Fields :=
  log_run enabledLevel [ev] l.

Lemma log_run_cons ev events l :
  log_run enabledLevel (ev :: events) l =
    let '(a, w, d, l1) := log_do ev l in
    let '(a', w', d', l2) := log_run enabledLevel events l1 in (a ++ a', w ++ w', d ++ d', l2).
Proof.
  unfold log_do. cbn [log_run].
  destruct ev; repeat case_match; simplify_eq/=; by rewrite ?app_nil_r.
Qed.

(** The queue over one event: bounded, and first in, first out. *)
Lemma log_do_queue ev l a w d l' :
  log_do ev l = (a, w, d, l') -> Z.of_nat (length (queue l)) <= ch_cap (nb_lines l) ->
  queue l ++ a = w ++ queue l' /\ ch_cap (nb_lines l') = ch_cap (nb_lines l) /\
  Z.of_nat (length (queue l')) <= ch_cap (nb_lines l').
Proof.
  unfold log_do. cbn [log_run]. intros Hdo Hlen. destruct ev as [oneLine|now i| | |].
  - unfold Logf in Hdo. destruct (negb _), (avoidChannel l); simplify_eq/=; by rewrite ?app_nil_r.
  - unfold select_line, try_send in Hdo. destruct (nb_pending l !! i) as [oneLine|]; [|by simplify_eq/=; rewrite app_nil_r].
    destruct (decide (chan_full (nb_lines l))) as [Hf|Hf]; simplify_eq/=; [by rewrite app_nil_r|].
    unfold chan_full in Hf. split_and!; [done|done|]. rewrite length_app. simpl. lia.
  - unfold worker, recv in Hdo. destruct (nb_running l); cbn in Hdo; [|by simplify_eq/=; rewrite app_nil_r].
    destruct (queue l) as [|x q] eqn:Hq.
    + destruct (nb_cancelled l); simplify_eq/=; by rewrite Hq.
    + cbn in Hdo. simplify_eq/=. rewrite app_nil_r. split_and!; [done|done|lia].
  - by simplify_eq/=; rewrite app_nil_r.
  - by simplify_eq/=; rewrite app_nil_r.
Qed.

Lemma log_run_queue events l a w d l' :
  log_run enabledLevel events l = (a, w, d, l') -> Z.of_nat (length (queue l)) <= ch_cap (nb_lines l) ->
  queue l ++ a = w ++ queue l' /\ ch_cap (nb_lines l') = ch_cap (nb_lines l) /\
  Z.of_nat (length (queue l')) <= ch_cap (nb_lines l').
Proof.
  revert l a w d. induction events as [|ev events IH]; intros l a w d Hrun Hlen.
  { injection Hrun as <- <- <- <-. by rewrite app_nil_r. }
  rewrite log_run_cons in Hrun. destruct (log_do ev l) as [[[a1 w1] d1] l1] eqn:Hdo.
  destruct (log_run enabledLevel events l1) as [[[a2 w2] d2] l2] eqn:Hrest. simplify_eq/=.
  destruct (log_do_queue _ _ _ _ _ _ Hdo Hlen) as (Hq & Hcap & Hlen1).
  destruct (IH _ _ _ _ Hrest Hlen1) as (Hq2 & Hcap2 & Hlen2).
  split_and!; [|congruence|done]. by rewrite app_assoc, Hq, <- !app_assoc, Hq2.
Qed.

(** A goroutine that has returned writes nothing any more. *)
Lemma log_run_stopped events l : nb_running l = false -> written_by (log_run enabledLevel events l) = [].
Proof.
  revert l. induction events as [|ev events IH]; intros l Hr; [done|].
  rewrite log_run_cons. destruct (log_do ev l) as [[[a1 w1] d1] l1] eqn:Hdo.
  assert (w1 = [] /\ nb_running l1 = false) as [-> Hr1].
  { unfold log_do in Hdo. cbn [log_run] in Hdo. unfold Logf, select_line, worker in Hdo. rewrite Hr in Hdo. cbn [negb] in Hdo.
    destruct ev; repeat case_match; simplify_eq/=; done. }
  specialize (IH l1 Hr1). destruct (log_run enabledLevel events l1) as [[[a2 w2] d2] l2]. exact IH.
Qed.

(** After the flag is set nothing joins the calls in between, and the goroutine returns on an empty queue. *)
Definition flushing l : Prop :=
  avoidChannel l = true /\ nb_pending l = [] /\ (nb_running l = false -> queue l = []).

Lemma log_run_flushing events l a w d l' :
  log_run enabledLevel events l = (a, w, d, l') -> flushing l -> flushing l'.
Proof.
  revert l a w d. induction events as [|ev events IH]; intros l a w d Hrun Hok; [by simplify_eq/=|].
  rewrite log_run_cons in Hrun. destruct (log_do ev l) as [[[a1 w1] d1] l1] eqn:Hdo.
  destruct (log_run enabledLevel events l1) as [[[a2 w2] d2] l2] eqn:Hrest. simplify_eq/=.
  eapply IH; [exact Hrest|]. destruct Hok as (Ha & Hp & Hq). unfold log_do in Hdo. cbn [log_run] in Hdo.
  destruct ev as [oneLine|now i| | |].
  - unfold Logf in Hdo. rewrite Ha in Hdo. destruct (negb _); simplify_eq/=; by split_and!.
  - unfold select_line in Hdo. rewrite Hp, lookup_nil in Hdo. simplify_eq/=. by split_and!.
  - unfold worker, recv in Hdo. destruct (nb_running l); cbn in Hdo; [|simplify_eq/=; by split_and!; auto].
    destruct (queue l) eqn:Hempty, (nb_cancelled l); simplify_eq/=; by split_and!.
  - simplify_eq/=. by split_and!.
  - simplify_eq/=. by split_and!.
Qed.

(** The logger writes in order. Whatever is logged and however the steps of the callers and of the
    goroutine interleave, the lines the goroutine wrote followed by those in the channel are the lines the
    channel accepted, in order, and at most 100000 wait. If [Exit] sets the flag when the goroutine still
    runs and no call has read it without having sent its line, then once the goroutine has returned every
    accepted line has been written. Without that condition this fails: nothing in the channel is ever
    written after the goroutine has returned. *)
Theorem nonblocking_in_order events :
  let '(accepted, written, _, l) := log_run enabledLevel events newNonBlockingLogger in
  accepted = written ++ queue l /\ Z.of_nat (length (queue l)) <= backLog /\
  (nb_running l = true -> nb_pending l = [] -> forall more,
     let '(accepted', written', _, l') := log_run enabledLevel (EvAvoid :: more) l in
     nb_running l' = false -> accepted ++ accepted' = written ++ written') /\
  (nb_running l = false -> forall more, written_by (log_run enabledLevel more l) = []).
Proof.
  destruct (log_run enabledLevel events newNonBlockingLogger) as [[[accepted written] direct] l] eqn:Hrun.
  destruct (log_run_queue _ _ _ _ _ _ Hrun) as (Hq & Hcap & Hlen); [by vm_compute|]. rewrite Hcap in Hlen.
  split_and!; [exact Hq|exact Hlen| |intros Hr more; by apply log_run_stopped].
  intros Hr Hp more. destruct (log_run enabledLevel (EvAvoid :: more) l) as [[[accepted' written'] direct'] l'] eqn:Hmore.
  destruct (log_run_queue _ _ _ _ _ _ Hmore) as (Hq' & _); [by rewrite Hcap|].
  intros Hstop. rewrite log_run_cons in Hmore. cbn in Hmore.
  destruct (log_run enabledLevel more (AvoidChannel l)) as [[[a w] d] l2] eqn:Hrest. simplify_eq/=.
  destruct (log_run_flushing _ _ _ _ _ _ Hrest) as (_ & _ & Hempty); [by split_and!; [done|done|cbn; congruence]|].
  rewrite (Hempty Hstop), app_nil_r in Hq'. by rewrite <- app_assoc, Hq'.
Qed.
End Lines.

(** ** A line that is lost: the call reads the flag before [Exit] sets it and sends after the goroutine returned *)
Definition ex_line : line unit := mkline None "last words" InfoLevel 0.
Definition ex_late : list (log_event (Fields:=unit)) := [EvLog ex_line; EvAvoid; EvCancel; EvWorker; EvSelect 0 0].

Lemma nonblocking_in_order_witness :
  let '(accepted, written, direct, l) := log_run TraceLevel ex_late newNonBlockingLogger in
  accepted = [ex_line] /\ written = [] /\ direct = [] /\ forall more, (log_run TraceLevel more l).1.1.2 = [].
Proof.
  pose proof (nonblocking_in_order TraceLevel ex_late) as Hok.
  destruct (log_run TraceLevel ex_late newNonBlockingLogger) as [[[accepted written] direct] l] eqn:Hrun.
  destruct Hok as (_ & _ & _ & Hstop). vm_compute in Hrun. injection Hrun as <- <- <- <-.
  split_and!; [done..|]. apply Hstop. done.
Defined.
