(* ===== verification/LoggerCalls.v ===== *)
(** The functions the rest of the program logs with (logger/exported.go) and the entries that carry fields
    (logger/entry.go), over the non-blocking logger ([Logger]); what severe lines do to the process, and
    what [Exit] flushes. Formatting gives a message and belongs to fmt. *)
From S2P Require Import Prelude Channel Logger.

(** ** Definitions *)
Section Calls.
Context {Value : Type}.
#[local] Abbreviation Fields := (gmap string Value).
#[local] Abbreviation line := (line Fields).
#[local] Abbreviation nonBlocking := (nonBlocking Fields).

(** logrus: the levels of which a line, once written, makes the goroutine that logs it panic. *)
Context (log_panics : Z -> bool).

(** The level of logrus's standard logger, and the non-blocking logger. *)
Record logging := mklogging { std_level : Z; NonBlocking : nonBlocking }.

(** What becomes of the process. *)
Inductive ending := GoesOn (l : logging) | Crashes | Exits (rc : Z).

Definition GetLevel (l : logging) : Z := std_level l.
Definition SetLevel (level : Z) (l : logging) : logging := mklogging level (NonBlocking l).
Definition IsLevelEnabled (level : Z) (l : logging) : bool := bool_decide (level <= std_level l).

(** [logOneLine] on lines that were written: it panics on the first of a panicking level. *)
Fixpoint log_lines (lines : list line) (l : logging) : list line * ending :=
  match lines with
  | [] => ([], GoesOn l)
  | oneLine :: lines =>
      if log_panics (l_level oneLine) then ([oneLine], Crashes)
      else let '(written, e) := log_lines lines l in (oneLine :: written, e)
  end.

(** [NonBlocking.Logf] and [Log], up to the check of the flag: the lines written at once, and the process. *)
Definition NonBlocking_Logf (level : Z) (fields : option Fields) (msg : string) (now : Z) (l : logging) : list line * ending :=
  let '(direct, nb) := Logf (std_level l) (mkline fields msg level now) (NonBlocking l) in
  log_lines direct (mklogging (std_level l) nb).

Definition Tracef := NonBlocking_Logf TraceLevel None.
Definition Debugf := NonBlocking_Logf DebugLevel None.
Definition Infof := NonBlocking_Logf InfoLevel None.
Definition Warnf := NonBlocking_Logf WarnLevel None.
Definition Warningf := NonBlocking_Logf WarnLevel None.
Definition Errorf_log := NonBlocking_Logf ErrorLevel None.
Definition Panicf := NonBlocking_Logf PanicLevel None.
Definition Fatalf := NonBlocking_Logf FatalLevel None.
Definition Trace := NonBlocking_Logf TraceLevel None.
Definition Debug_log := NonBlocking_Logf DebugLevel None.
Definition Info_log := NonBlocking_Logf InfoLevel None.
Definition Warn := NonBlocking_Logf WarnLevel None.
Definition Error_log := NonBlocking_Logf ErrorLevel None.

(** A turn of the goroutine of the logger. *)
Definition serve (l : logging) : list line * ending :=
  let '(written, nb) := worker (NonBlocking l) in log_lines written (mklogging (std_level l) nb).

(** [wg.Wait()]: the goroutine runs until it returns. Without fuel the call still waits. *)
Fixpoint wait (turns : nat) (l : logging) : list line * option ending :=
  if negb (nb_running (NonBlocking l)) then ([], Some (GoesOn l)) else
  match turns with
  | O => ([], None)
  | S turns =>
      let '(written, e) := serve l in
      match e with
      | GoesOn l => let '(written', e') := wait turns l in (written ++ written', e')
      | _ => (written, Some e)
      end
  end.

(** One turn per line that waits, and one to return. *)
Definition NonBlocking_Exit (l : logging) : list line * option ending :=
  wait (S (length (ch_buf (nb_lines (NonBlocking l))))) (mklogging (std_level l) (cancel (AvoidChannel (NonBlocking l)))).

(** What follows the flush: the process, if it got there. *)
Definition then_end (last : list line) (e : ending) (r : list line * option ending) : list line * option ending :=
  match r with
  | (written, Some (GoesOn _)) => (written ++ last, Some e)
  | _ => r
  end.

Definition Exit (rc : Z) (l : logging) : list line * option ending := then_end [] (Exits rc) (NonBlocking_Exit l).

(** [logrus.Fatal] and [logrus.Panic] write if the level is enabled; the one exits, the other panics. *)
Definition last_line (level : Z) (msg : string) (now : Z) (l : logging) : list line :=
  if IsLevelEnabled level l then [mkline None msg level now] else [].
Definition Fatal (msg : string) (now : Z) (l : logging) : list line * option ending :=
  then_end (last_line FatalLevel msg now l) (Exits 1) (NonBlocking_Exit l).
Definition Panic (msg : string) (now : Z) (l : logging) : list line * option ending :=
  then_end (last_line PanicLevel msg now l) Crashes (NonBlocking_Exit l).

(** *** logger/entry.go *)
Record Entry := mkEntry { e_Data : Fields }.

Definition WithFields (fields : Fields) : Entry := mkEntry fields.
Definition WithField (key : string) (value : Value) : Entry := mkEntry {[key := value]}.
Definition Entry_WithField (entry : Entry) (key : string) (value : Value) : Entry := mkEntry (<[key := value]> (e_Data entry)).

Definition Entry_Logf (entry : Entry) (level : Z) (msg : string) (now : Z) (l : logging) : list line * ending :=
  if negb (IsLevelEnabled level l) then ([], GoesOn l) else NonBlocking_Logf level (Some (e_Data entry)) msg now l.
Definition Entry_Log (entry : Entry) (level : Z) (msg : string) (now : Z) (l : logging) : list line * ending :=
  if negb (IsLevelEnabled level l) then ([], GoesOn l) else NonBlocking_Logf level (Some (e_Data entry)) msg now l.
Definition Entry_Tracef (entry : Entry) := Entry_Logf entry TraceLevel.
Definition Entry_Debugf (entry : Entry) := Entry_Logf entry DebugLevel.
Definition Entry_Infof (entry : Entry) := Entry_Logf entry InfoLevel.
Definition Entry_Warnf (entry : Entry) := Entry_Logf entry WarnLevel.
Definition Entry_Warningf (entry : Entry) := Entry_Warnf entry.
Definition Entry_Errorf (entry : Entry) := Entry_Logf entry ErrorLevel.
Definition Entry_Panicf (entry : Entry) := Entry_Logf entry PanicLevel.
Definition Entry_Trace (entry : Entry) := Entry_Log entry TraceLevel.
Definition Entry_Debug (entry : Entry) := Entry_Log entry DebugLevel.
Definition Entry_Error (entry : Entry) := Entry_Log entry ErrorLevel.
End Calls.
Arguments logging : clear implicits.
Arguments ending : clear implicits.
Arguments Entry : clear implicits.

(** ** Lemmas *)
Section Facts.
Context {Value : Type} (log_panics : Z -> bool).
#[local] Abbreviation Fields := (gmap string Value).
Implicit Types (l : logging Value) (lines q : list (line Fields)) (nb : nonBlocking Fields).
#[local] Abbreviation queue l := (ch_buf (nb_lines (NonBlocking l))).
#[local] Abbreviation wait := (wait log_panics).
#[local] Abbreviation quiet := (Forall (fun ln : line Fields => log_panics (l_level ln) = false)).

(** The goroutine has been told to stop and its channel holds [q]. *)
Definition stopping l q : Prop :=
  nb_running (NonBlocking l) = true /\ nb_cancelled (NonBlocking l) = true /\ queue l = q.

Lemma serve_line l x q : stopping l (x :: q) -> exists l1, stopping l1 q /\ std_level l1 = std_level l /\
  serve log_panics l = if log_panics (l_level x) then ([x], Crashes) else ([x], GoesOn l1).
Proof.
  destruct l as [level [[cap buf] avoid cancelled running pending]]. intros (Hr & Hc & Hq). cbn in *. subst.
  eexists (mklogging level (mknonBlocking (mkchan cap q) avoid true true pending)). split; [done|]. split; [done|].
  unfold serve, worker, recv. cbn. by destruct (log_panics (l_level x)).
Qed.

Lemma serve_stops l : stopping l [] -> exists l1, nb_running (NonBlocking l1) = false /\ serve log_panics l = ([], GoesOn l1).
Proof.
  destruct l as [level [[cap buf] avoid cancelled running pending]]. intros (Hr & Hc & Hq). cbn in *. subst.
  by exists (mklogging level (mknonBlocking (mkchan cap []) avoid true false pending)).
Qed.

Lemma wait_serve n l w l1 : nb_running (NonBlocking l) = true -> serve log_panics l = (w, GoesOn l1) ->
  wait (S n) l = (w ++ (wait n l1).1, (wait n l1).2).
Proof. intros Hr Hs. cbn [LoggerCalls.wait]. rewrite Hr, Hs. cbn. by destruct (LoggerCalls.wait _ _ _). Qed.

(** Waiting writes the lines up to the first of a panicking level; without one it ends. *)
Lemma wait_flushes q l : stopping l q -> quiet q -> exists l1, wait (S (length q)) l = (q, Some (GoesOn l1)).
Proof.
  intros Hl Hq. revert l Hl. induction Hq as [|x q Hx _ IH]; intros l Hl.
  - destruct (serve_stops l Hl) as (l1 & Hr & Hs). exists l1. rewrite (wait_serve _ _ _ _ (proj1 Hl) Hs). cbn. by rewrite Hr.
  - destruct (serve_line l x q Hl) as (l1 & Hl1 & _ & Hs). rewrite Hx in Hs. destruct (IH l1 Hl1) as (l2 & Hw).
    exists l2. cbn [length]. by rewrite (wait_serve _ _ _ _ (proj1 Hl) Hs), Hw.
Qed.

Lemma wait_crashes q1 x q2 l turns : stopping l (q1 ++ x :: q2) -> quiet q1 -> log_panics (l_level x) = true ->
  (length q1 < turns)%nat -> wait turns l = (q1 ++ [x], Some Crashes).
Proof.
  intros Hl Hq Hx. revert l turns Hl. induction Hq as [|y q1 Hy _ IH]; intros l [|turns] Hl Hlt; try (cbn in Hlt; lia).
  - destruct (serve_line l x q2 Hl) as (l1 & _ & _ & Hs). rewrite Hx in Hs. destruct Hl as (Hrun & _). cbn. by rewrite Hrun, Hs.
  - destruct (serve_line l y (q1 ++ x :: q2) Hl) as (l1 & Hl1 & _ & Hs). rewrite Hy in Hs.
    rewrite (wait_serve _ _ _ _ (proj1 Hl) Hs), (IH l1 turns Hl1); [done|cbn in Hlt; lia].
Qed.

Lemma exit_stopping l : nb_running (NonBlocking l) = true ->
  stopping (mklogging (std_level l) (cancel (AvoidChannel (NonBlocking l)))) (queue l).
Proof. by destruct l as [level [? ? ? ? ?]]. Qed.

Lemma log_lines_one (oneLine : line Fields) l :
  log_lines log_panics [oneLine] l = ([oneLine], if log_panics (l_level oneLine) then Crashes else GoesOn l).
Proof. cbn. by destruct (log_panics _). Qed.

(** ** Properties *)

(** What ends the process. [Exit], [Fatal] and [Panic] first let the goroutine write every line that
    waits, in order, and then exit or panic - unless a line of a panicking level waits: the process then crashes
    on writing it, and the lines behind it are lost. The waiting ends. A line [Panicf] queued does not stop
    its caller: the process crashes when the goroutine writes it. [Fatalf] ends nothing, whatever its name
    and comment say, if logrus does not panic at its level: neither the call nor the turn that writes its line. *)
Theorem what_ends_the_process l : nb_running (NonBlocking l) = true ->
  (quiet (queue l) -> forall rc msg now,
     Exit log_panics rc l = (queue l, Some (Exits rc)) /\
     Fatal log_panics msg now l = (queue l ++ last_line FatalLevel msg now l, Some (Exits 1)) /\
     Panic log_panics msg now l = (queue l ++ last_line PanicLevel msg now l, Some Crashes)) /\
  (forall q1 x q2, queue l = q1 ++ x :: q2 -> quiet q1 -> log_panics (l_level x) = true -> forall rc msg now,
     Exit log_panics rc l = (q1 ++ [x], Some Crashes) /\ Fatal log_panics msg now l = (q1 ++ [x], Some Crashes) /\
     Panic log_panics msg now l = (q1 ++ [x], Some Crashes)) /\
  (avoidChannel (NonBlocking l) = false -> forall msg now, exists l1, Panicf log_panics msg now l = ([], GoesOn l1)) /\
  (log_panics PanicLevel = true -> forall x q, queue l = x :: q -> l_level x = PanicLevel -> serve log_panics l = ([x], Crashes)) /\
  (log_panics FatalLevel = false ->
     (forall msg now, exists written l1, Fatalf log_panics msg now l = (written, GoesOn l1)) /\
     forall x q, queue l = x :: q -> l_level x = FatalLevel -> exists l1, serve log_panics l = ([x], GoesOn l1)).
Proof.
  intros Hrun. pose proof (exit_stopping l Hrun) as Hst.
  assert (forall x q, queue l = x :: q -> serve log_panics l = ([x], if log_panics (l_level x) then Crashes else
    GoesOn (mklogging (std_level l) (mknonBlocking (mkchan (ch_cap (nb_lines (NonBlocking l))) q) (avoidChannel (NonBlocking l))
      (nb_cancelled (NonBlocking l)) true (nb_pending (NonBlocking l)))))) as Hserve.
  { intros x q Hq. unfold serve, worker, recv. rewrite Hrun, Hq. cbn. by destruct (log_panics _). }
  split_and!.
  - intros Hq rc msg now. unfold Exit, Fatal, Panic, NonBlocking_Exit. destruct (wait_flushes _ _ Hst Hq) as (l1 & Hw).
    rewrite Hw. cbn. by rewrite app_nil_r.
  - intros q1 x q2 Hq Hq1 Hx rc msg now. unfold Exit, Fatal, Panic, NonBlocking_Exit. rewrite Hq in Hst |- *.
    rewrite (wait_crashes q1 x q2 _ _ Hst Hq1 Hx); [done|]. rewrite length_app. cbn. lia.
  - intros Ha msg now. unfold Panicf, NonBlocking_Logf, Logf. destruct (negb _); [by eexists|]. rewrite Ha. by eexists.
  - intros Hp x q Hq Hx. by rewrite (Hserve x q Hq), Hx, Hp.
  - intros Hf. split.
    + intros msg now. unfold Fatalf, NonBlocking_Logf, Logf. destruct (negb _); [by eexists _, _|].
      destruct (avoidChannel (NonBlocking l)); [|by eexists _, _]. rewrite log_lines_one. cbn. rewrite Hf. by eexists _, _.
    + intros x q Hq Hx. rewrite (Hserve x q Hq), Hx, Hf. by eexists.
Qed.

(** An entry checks the level a second time, to no effect, and a derived entry overrides fields. *)
Lemma Entry_Logf_direct entry level msg now l :
  Entry_Logf log_panics entry level msg now l = NonBlocking_Logf log_panics level (Some (e_Data entry)) msg now l.
Proof.
  unfold Entry_Logf, NonBlocking_Logf, Logf, IsLevelEnabled. cbn [l_level].
  destruct (bool_decide (level <= std_level l)); [done|]. by destruct l.
Qed.

Lemma WithField_lookup (entry : Entry Value) key value k :
  e_Data (Entry_WithField entry key value) !! k = if decide (key = k) then Some value else e_Data entry !! k.
Proof. cbn. apply lookup_insert. Qed.
End Facts.

(** ** Witness: a panic in the queue between two lines *)
Definition ex_panics (level : Z) : bool := bool_decide (level = PanicLevel).
Definition ex_queued (lines : list (line (gmap string Z))) : logging Z :=
  mklogging TraceLevel (mknonBlocking (mkchan backLog lines) false false true []).
Definition ex_at (level now : Z) : line (gmap string Z) := mkline None "line" level now.

Lemma what_ends_the_process_witness :
  Exit ex_panics 0 (ex_queued [ex_at InfoLevel 1; ex_at FatalLevel 2]) = ([ex_at InfoLevel 1; ex_at FatalLevel 2], Some (Exits 0)) /\
  Exit ex_panics 0 (ex_queued [ex_at InfoLevel 1; ex_at PanicLevel 2; ex_at InfoLevel 3])
    = ([ex_at InfoLevel 1; ex_at PanicLevel 2], Some Crashes).
Proof.
  destruct (what_ends_the_process ex_panics (ex_queued [ex_at InfoLevel 1; ex_at FatalLevel 2]) eq_refl) as (Hq & _).
  destruct (what_ends_the_process ex_panics (ex_queued [ex_at InfoLevel 1; ex_at PanicLevel 2; ex_at InfoLevel 3]) eq_refl) as (_ & Hc & _).
  split.
  - apply Hq; [repeat constructor|exact "x"%string|exact 0].
  - apply (Hc [ex_at InfoLevel 1] (ex_at PanicLevel 2) [ex_at InfoLevel 3] eq_refl ltac:(by repeat constructor) eq_refl 0 "x"%string 0).
Defined.
