(* ===== verification/Conn.v ===== *)
(** Connections between nodes: the SSL connection with its send queue (connections/sslconn.go), the
    information about a connection (connections/info.go) and the placeholder for blockchain nodes
    (connections/blockchain.go). Sockets and TLS are parameters. *)
From S2P Require Import Prelude Bytes TbMessage Framing Channel Types NodeConfig.

(** ** Definitions *)
Definition RemoteInitiatedPort : Z := 0.
Definition LocalInitiatedPort : Z := 0.

(** connections/info.go; [NodeID] is a string *)
Record Info := mkInfo {
  ci_NodeID : string;
  ci_PeerIP : string;
  ci_PeerPort : Z;
  ci_PeerEnode : string;
  ci_LocalPort : Z;
  ci_ConnectionType : NodeType;
  ci_NetworkNum : Z;
  ci_FromMe : bool;
  ci_ConnectedAt : Z
}.

Definition IsGateway (ci : Info) : bool := bool_decide (Z.land (ci_ConnectionType ci) Gateway <> 0).
Definition IsRelay (ci : Info) : bool :=
  bool_decide (Z.land (ci_ConnectionType ci) RelayTransaction <> 0) ||
  bool_decide (Z.land (ci_ConnectionType ci) RelayBlock <> 0).

(** [tbmessage.Message], with the messages the program sends. A nil [*Broadcast] is a message whose
    methods crash. *)
Inductive Message :=
  | MsgTx (tx : Tx)
  | MsgBroadcast (b : option Broadcast).

Definition Message_Pack (m : Message) : outcome (list byte) :=
  match m with
  | MsgTx tx => Tx_Pack tx
  | MsgBroadcast None => Panics NilDereference
  | MsgBroadcast (Some b) => '(_, buf) ← Broadcast_Pack b; mret buf
  end.

(** A value of the interface type [Socket]: nil, a nil [*TLS], as [NewTLS] leaves it when it fails, or
    an open socket, named by a number. *)
Inductive socket :=
  | NilInterface
  | NilTLS
  | TLSConn (n : Z).
#[export] Instance socket_eq_dec : EqDecision socket.
Proof. solve_decision. Defined.

Section SSLConn.
(** [connect] opens a socket; [accepts] tells whether [bufio.Writer.Write] or [Flush] succeeds when
    these bytes have been written so far; [close_err] is the result of closing a socket. *)
Context (connect : socket * option go_error) (accepts : list byte -> bool) (close_err : socket -> option go_error).

Record SSLConn := mkSSLConn {
  Socket : socket;
  conn_written : list byte;              (* what went into the writer *)
  conn_buf : list byte;                  (* buf *)
  conn_ip : string;
  conn_port : Z;
  connectionOpen : bool;
  disabled : bool;
  sendLoopRunning : bool;                (* until [done] is called *)
  sendMessages : chan Message;
  sendChannelSize : Z;
  extNodeID : string;                    (* extensions.NodeID *)
  connectedAt : Z
}.

(** Before [Connect], [sendMessages] is nil: it accepts nothing. *)
Definition NewSSLConnection (ip : string) (port sendChannelSize : Z) : SSLConn :=
  mkSSLConn NilInterface [] [] ip port false false false (make_chan 0) sendChannelSize "" 0.

Definition with_open (s : SSLConn) (open disabled running : bool) : SSLConn :=
  mkSSLConn (Socket s) (conn_written s) (conn_buf s) (conn_ip s) (conn_port s) open disabled running
    (sendMessages s) (sendChannelSize s) (extNodeID s) (connectedAt s).
Definition with_sending (s : SSLConn) (written : list byte) (messages : chan Message) : SSLConn :=
  mkSSLConn (Socket s) written (conn_buf s) (conn_ip s) (conn_port s) (connectionOpen s) (disabled s)
    (sendLoopRunning s) messages (sendChannelSize s) (extNodeID s) (connectedAt s).
Definition with_buf (s : SSLConn) (buf : list byte) : SSLConn :=
  mkSSLConn (Socket s) (conn_written s) buf (conn_ip s) (conn_port s) (connectionOpen s) (disabled s)
    (sendLoopRunning s) (sendMessages s) (sendChannelSize s) (extNodeID s) (connectedAt s).

Definition isInitiator (s : SSLConn) : bool := bool_decide (conn_port s <> RemoteInitiatedPort).

Definition SSLConn_Info (s : SSLConn) : Info :=
  mkInfo (extNodeID s) (conn_ip s) (conn_port s) "" LocalInitiatedPort Relay 0 (isInitiator s) (connectedAt s).

Definition SSLConn_Connect (now : Z) (s : SSLConn) : option go_error * SSLConn :=
  match connect with
  | (sock, Some err) =>
      (Some err, mkSSLConn sock (conn_written s) (conn_buf s) (conn_ip s) (conn_port s) false (disabled s)
                   (sendLoopRunning s) (sendMessages s) (sendChannelSize s) (extNodeID s) (connectedAt s))
  | (sock, None) =>
      (None, mkSSLConn sock [] (conn_buf s) (conn_ip s) (conn_port s) true (disabled s)
               true (make_chan (sendChannelSize s)) (sendChannelSize s) (extNodeID s) now)
  end.

Definition SSLConn_Close (s : SSLConn) : option go_error * SSLConn :=
  if negb (connectionOpen s) then (None, s) else
  let s := with_open s false false false in
  match Socket s with
  | NilInterface => (None, s)
  | sock => (close_err sock, s)
  end.

Definition SSLConn_Disable (s : SSLConn) : SSLConn := with_open s (connectionOpen s) true (sendLoopRunning s).

Definition queueToMessageChan (msg : Message) (s : SSLConn) : SSLConn :=
  match try_send (sendMessages s) msg with
  | (None, messages) => with_sending s (conn_written s) messages
  | (Some _, _) => snd (SSLConn_Close s)
  end.

Definition SSLConn_Send (msg : Message) (s : SSLConn) : option go_error * SSLConn :=
  match Socket s with
  | NilInterface => (Some (Errorf "trying to send a message to connection before it's connected"), s)
  | _ =>
      if negb (connectionOpen s) then (Some (Errorf "trying to send a message while it is closed"), s)
      else (None, queueToMessageChan msg s)
  end.

(** [SendWithDelay]: with a delay, the message is sent by a goroutine, later. *)
Definition SendWithDelay (msg : Message) (delay : Z) (s : SSLConn) : option go_error * bool * SSLConn :=
  if decide (delay = 0) then let '(err, s) := SSLConn_Send msg s in (err, false, s) else (None, true, s).

(** [Pack] of the messages returns no error; it may crash. The writer is a [bufio.Writer]: what it holds
    back in its buffer and what it has passed to the socket are not told apart. [conn_written] is what
    was handed to it, and [accepts] says whether it reports an error. *)
Definition packAndWrite (msg : Message) (s : SSLConn) : outcome SSLConn :=
  if negb (connectionOpen s) then mret s else
  buf ← Message_Pack msg;
  let s := with_sending s (conn_written s ++ buf) (sendMessages s) in
  if accepts (conn_written s) then mret s else mret (snd (SSLConn_Close s)).

(** The loop behind the first message of a round: it takes messages as long as there are any. *)
Fixpoint drain (fuel : nat) (s : SSLConn) : outcome SSLConn :=
  match fuel with
  | O => mret s
  | S fuel =>
      match recv (sendMessages s) with
      | Ret (msg, messages) =>
          s ← packAndWrite msg (with_sending s (conn_written s) messages); drain fuel s
      | _ => mret s
      end
  end.

(** A round of [sendLoop]: it waits for a message, takes all there are, and flushes; it stops when the
    connection is done or flushing fails. The flush is only this success or failure: bytes that a failed
    one loses stay in [conn_written], and the connection stays open, as in the code. *)
Definition sendLoop_round (s : SSLConn) : outcome SSLConn :=
  if negb (sendLoopRunning s) then mret s else
  match recv (sendMessages s) with
  | Ret _ =>
      s ← drain (length (ch_buf (sendMessages s))) s;
      if accepts (conn_written s) then mret s
      else mret (with_open s (connectionOpen s) (disabled s) false)
  | _ => Blocks
  end.

(** [ReadMessages] after the socket returned [read]: the result and the messages for the callback. *)
Definition SSLConn_ReadMessages (read : result (list byte)) (s : SSLConn)
    : outcome (option go_error * list (list byte) * SSLConn) :=
  let read := if connectionOpen s then read else Fail (Errorf "connection is closing, read from socket disabled") in
  match read with
  | Fail err => mret (Some err, [], snd (SSLConn_Close s))
  | Ok packet =>
      '(msgs, rest) ← read_chunk_messages (conn_buf s) packet;
      mret (None, msgs, with_buf s rest)
  end.
End SSLConn.

(** ** Histories of an open connection *)
Section History.
Context (accepts : list byte -> bool) (close_err : socket -> option go_error).

Inductive conn_event :=
  | EvSend (m : Message)
  | EvRound
  | EvClose
  | EvDisable.

(** [Send] put the message into the queue. *)
Definition taken (s : SSLConn) : bool :=
  negb (bool_decide (Socket s = NilInterface)) && connectionOpen s && negb (bool_decide (chan_full (sendMessages s))).

(** The messages taken, and the connection at the end; a round that has to wait is skipped. *)
Fixpoint conn_run (events : list conn_event) (s : SSLConn) : outcome (list Message * SSLConn) :=
  match events with
  | [] => mret ([], s)
  | EvSend m :: events =>
      '(acc, s') ← conn_run events (snd (SSLConn_Send close_err m s));
      mret ((if taken s then m :: acc else acc), s')
  | EvRound :: events =>
      match sendLoop_round accepts close_err s with
      | Ret s => conn_run events s
      | Blocks => conn_run events s
      | Panics p => Panics p
      end
  | EvClose :: events => conn_run events (snd (SSLConn_Close close_err s))
  | EvDisable :: events => conn_run events (SSLConn_Disable s)
  end.

(** What was taken is [acc]: a prefix of it was packed and written in order; the rest waits in the
    queue, as long as the connection is open. *)
Definition in_order (acc : list Message) (s : SSLConn) : Prop :=
  exists sent bufs rest, acc = sent ++ rest /\ Forall2 (fun m b => Message_Pack m = Ret b) sent bufs /\
    conn_written s = concat bufs /\ (connectionOpen s = true -> rest = ch_buf (sendMessages s)) /\
    Z.of_nat (length (ch_buf (sendMessages s))) <= ch_cap (sendMessages s).

Lemma in_order_same acc s s' :
  conn_written s' = conn_written s -> sendMessages s' = sendMessages s ->
  (connectionOpen s' = true -> connectionOpen s = true) -> in_order acc s -> in_order acc s'.
Proof.
  intros Hw Hm Ho (sent & bufs & rest & Hacc & Hf & Hwr & Hrest & Hcap). exists sent, bufs, rest.
  rewrite Hw, Hm. split_and!; auto.
Qed.

Lemma Close_same s : conn_written (snd (SSLConn_Close close_err s)) = conn_written s /\
  sendMessages (snd (SSLConn_Close close_err s)) = sendMessages s /\
  connectionOpen (snd (SSLConn_Close close_err s)) = false.
Proof. unfold SSLConn_Close. destruct (connectionOpen s) eqn:Ho; [|done]. simpl. by destruct (Socket s). Qed.

Lemma Close_in_order acc s : in_order acc s -> in_order acc (snd (SSLConn_Close close_err s)).
Proof. destruct (Close_same s) as (Hw & Hm & Ho). apply in_order_same; [done|done|]. by rewrite Ho. Qed.

Lemma Send_in_order acc m s : in_order acc s ->
  in_order (if taken s then acc ++ [m] else acc) (snd (SSLConn_Send close_err m s)).
Proof.
  intros Hin. unfold SSLConn_Send, taken. destruct (decide (Socket s = NilInterface)) as [Hn|Hn].
  { rewrite Hn. by rewrite bool_decide_true. }
  rewrite bool_decide_false by done. cbn [negb andb].
  assert (forall x y : option go_error * SSLConn, match Socket s with NilInterface => x | _ => y end = y) as Hsock
    by (intros; by destruct (Socket s)).
  rewrite Hsock. destruct (connectionOpen s) eqn:Ho; [|done]. cbn [negb andb snd]. unfold queueToMessageChan, try_send.
  destruct (decide (chan_full (sendMessages s))) as [Hf|Hf].
  - rewrite bool_decide_true by done. cbn [negb]. by apply Close_in_order.
  - rewrite bool_decide_false by done. cbn [negb]. destruct Hin as (sent & bufs & rest & -> & Hp & Hw & Hrest & Hcap).
    exists sent, bufs, (rest ++ [m]). rewrite app_assoc. split_and!; try done.
    + intros _. cbn. by rewrite Hrest.
    + cbn. unfold chan_full in Hf. rewrite length_app. simpl. lia.
Qed.

Lemma packAndWrite_in_order acc m q s s' :
  ch_buf (sendMessages s) = m :: q -> in_order acc s ->
  packAndWrite accepts close_err m (with_sending s (conn_written s) (mkchan (ch_cap (sendMessages s)) q)) = Ret s' ->
  in_order acc s'.
Proof.
  intros Hq (sent & bufs & rest & Hacc & Hp & Hw & Hrest & Hcap). rewrite Hq in Hrest, Hcap. simpl in Hcap.
  unfold packAndWrite. cbn [connectionOpen with_sending]. destruct (connectionOpen s) eqn:Ho; cbn [negb].
  - destruct (Message_Pack m) as [buf| |] eqn:Hb; go_simpl; [|done..].
    set (s1 := with_sending _ _ _). intros Hs'.
    assert (in_order acc s1) as H1.
    { exists (sent ++ [m]), (bufs ++ [buf]), q. rewrite Hacc, Hrest by done. split_and!.
      - by rewrite <- app_assoc.
      - apply Forall2_app; [done|]. by repeat constructor.
      - cbn. rewrite Hw, concat_app. simpl. by rewrite app_nil_r.
      - done.
      - cbn. lia. }
    destruct (accepts _); injection Hs' as <-; [done|by apply Close_in_order].
  - intros [= <-]. exists sent, bufs, rest. cbn. split_and!; try done; [by rewrite Ho|lia].
Qed.

Lemma drain_in_order fuel acc s s' : in_order acc s -> drain accepts close_err fuel s = Ret s' -> in_order acc s'.
Proof.
  revert s. induction fuel as [|fuel IH]; intros s Hin; simpl; [by intros [= <-]|].
  unfold recv. destruct (ch_buf (sendMessages s)) as [|m q] eqn:Hq; [by intros [= <-]|]. cbn [mret outcome_ret].
  destruct (packAndWrite _ _ _ _) as [s1| |] eqn:Hp; go_simpl; [|done..]. apply IH. by eapply packAndWrite_in_order.
Qed.

Lemma round_in_order acc s s' : in_order acc s -> sendLoop_round accepts close_err s = Ret s' -> in_order acc s'.
Proof.
  intros Hin. unfold sendLoop_round. destruct (negb _); [by intros [= <-]|]. destruct (recv _); [|done..].
  destruct (drain _ _ _ _) as [s1| |] eqn:Hd; go_simpl; [|done..]. apply (drain_in_order _ acc) in Hd; [|done].
  destruct (accepts _); intros [= <-]; [done|]. by eapply in_order_same.
Qed.

Lemma conn_run_in_order events acc0 s acc s' :
  in_order acc0 s -> conn_run events s = Ret (acc, s') -> in_order (acc0 ++ acc) s'.
Proof.
  revert acc0 s acc. induction events as [|[m| | |] events IH]; intros acc0 s acc Hin; simpl.
  - intros [= <- <-]. by rewrite app_nil_r.
  - destruct (conn_run events _) as [[acc1 s1]| |] eqn:Hr; go_simpl; [|done..]. intros [= <- <-].
    apply (IH (if taken s then acc0 ++ [m] else acc0)) in Hr; [|by apply Send_in_order].
    destruct (taken s); [by rewrite <- app_assoc in Hr|done].
  - destruct (sendLoop_round accepts close_err s) as [s1| |] eqn:Hr; [|done|by apply IH].
    apply IH. by eapply round_in_order.
  - apply IH. by apply Close_in_order.
  - apply IH. by eapply in_order_same.
Qed.

(** C21: A connection delivers in order. After a successful [Connect], over any sequence of sends, rounds of
      the send loop, disabling and closing: what was written is the concatenation of the packed
      messages of a prefix of those [Send] took, in the order it took them; while the connection is
      open the other messages taken are exactly those in the queue, so none is lost. The queue never
      holds more than its size. *)
Theorem send_in_order connect now s0 s1 events acc s :
  0 <= sendChannelSize s0 -> SSLConn_Connect connect now s0 = (None, s1) -> conn_run events s1 = Ret (acc, s) ->
  in_order acc s.
Proof.
  intros Hsize Hconn Hrun. unfold SSLConn_Connect in Hconn. destruct connect as [sock [e|]]; [done|].
  injection Hconn as <-. apply (conn_run_in_order _ []) in Hrun; [done|].
  exists [], [], []. by split_and!.
Qed.
End History.

Definition ex_conn : SSLConn := snd (SSLConn_Connect (TLSConn 1, None) 0 (NewSSLConnection "127.0.0.1" 443 100000)).

Example send_in_order_witness :
  exists acc s, conn_run (fun _ => true) (fun _ => None)
    [EvSend (MsgBroadcast (Some ex_broadcast)); EvRound; EvSend (MsgTx ex_tx)] ex_conn = Ret (acc, s) /\
    in_order acc s /\ acc = [MsgBroadcast (Some ex_broadcast); MsgTx ex_tx] /\ len (conn_written s) = 101.
Proof.
  eexists _, _. split; [vm_compute; reflexivity|]. split; [|split; vm_compute; reflexivity].
  apply (send_in_order (fun _ => true) (fun _ => None) (TLSConn 1, None) 0 (NewSSLConnection "127.0.0.1" 443 100000) ex_conn
    [EvSend (MsgBroadcast (Some ex_broadcast)); EvRound; EvSend (MsgTx ex_tx)]).
  - vm_compute. congruence.
  - reflexivity.
  - vm_compute. reflexivity.
Defined.

(** ** Reading after a reconnection *)
Section Reconnection.
Context (close_err : socket -> option go_error).

Lemma Close_keeps_buf s : conn_buf (snd (SSLConn_Close close_err s)) = conn_buf s.
Proof. unfold SSLConn_Close. destruct (connectionOpen s); cbn; [|done]. by destruct (Socket s). Qed.

(** Every message cut from a buffer that starts with an incomplete one is longer than it. *)
Lemma partial_is_prefix buf m rest packet :
  drained buf -> framed m -> buf ++ packet = m ++ rest -> buf `prefix_of` m.
Proof.
  intros Hd Hm Heq. destruct (prefix_weak_total buf m (m ++ rest)) as [?|[k Hk]]; [by rewrite <- Heq; eexists|by eexists|done|].
  exfalso. pose proof (framed_payload m k Hm) as Hp. rewrite <- Hk in Hp. destruct Hm as [Hl _].
  pose proof (len_app m k) as Hlen. rewrite <- Hk in Hlen. pose proof (len_nonneg k).
  destruct Hd as [Hd|Hd]; lia.
Qed.

(** A reconnection does not forget what was left unread of the previous connection. Reading an open
    connection never fails and loses no byte; but [Connect] after [Close] keeps the buffer, so that if the
    previous connection ended inside a message, the first message the new one delivers starts with the old
    bytes: half of a message of one connection and half of one of the other. *)
Theorem reconnect_mixes_messages connect now s s1 packet :
  SSLConn_Connect connect now (snd (SSLConn_Close close_err s)) = (None, s1) -> drained (conn_buf s) ->
  exists msgs s2, SSLConn_ReadMessages close_err (Ok packet) s1 = Ret (None, msgs, s2) /\
    conn_buf s ++ packet = concat msgs ++ conn_buf s2 /\ Forall framed msgs /\ drained (conn_buf s2) /\
    (forall first later, msgs = first :: later -> conn_buf s `prefix_of` first).
Proof.
  intros Hconn Hd. unfold SSLConn_Connect in Hconn. destruct connect as [sock [e|]]; [done|]. injection Hconn as <-.
  rewrite Close_keeps_buf. unfold SSLConn_ReadMessages. cbn [connectionOpen conn_buf].
  unfold read_chunk_messages. destruct (extract_total (conn_buf s ++ packet)) as (msgs & rest & Hrun & Hbytes & Hf & Hr).
  rewrite Hrun. go_simpl.
  assert (forall first later, msgs = first :: later -> conn_buf s `prefix_of` first) as Hfirst.
  { intros first later ->. apply Forall_cons in Hf as [Hf _]. cbn [concat] in Hbytes. rewrite <- app_assoc in Hbytes.
    by eapply partial_is_prefix. }
  exists msgs. eexists. by split_and!.
Qed.
End Reconnection.

(** A connection that was cut inside a message, and a whole message after it. *)
Lemma reconnect_mixes_messages_witness :
  let s := with_buf ex_conn (take 40 ex_packed) in
  exists s1 msgs s2,
    SSLConn_Connect (TLSConn 2, None) 5 (snd (SSLConn_Close (fun _ => None) s)) = (None, s1) /\
    SSLConn_ReadMessages (fun _ => None) (Ok (ex_packed ++ ex_packed)) s1 = Ret (None, msgs, s2) /\
    head msgs = Some (take 40 ex_packed ++ take (length ex_packed - 40) ex_packed) /\ head msgs <> Some ex_packed.
Proof.
  intros s. assert (drained (conn_buf s)) as Hd by (right; vm_compute; split; congruence).
  destruct (SSLConn_Connect (TLSConn 2, None) 5 (snd (SSLConn_Close (fun _ => None) s))) as [err s1] eqn:Hconn.
  assert (err = None) as -> by (vm_compute in Hconn; congruence). exists s1.
  destruct (reconnect_mixes_messages (fun _ => None) _ _ _ _ (ex_packed ++ ex_packed) Hconn Hd) as (msgs & s2 & Hrun & _).
  exists msgs, s2. split_and!; [done|done|..]; vm_compute in Hconn; injection Hconn as <-; vm_compute in Hrun; injection Hrun as <- <-;
    vm_compute; congruence.
Defined.

(** ** connections/blockchain.go *)
Record BlockchainConn := mkBlockchainConn { bcn_endpoint : NodeEndpoint }.
Definition NewBlockchainConn (ipEndpoint : NodeEndpoint) : BlockchainConn := mkBlockchainConn ipEndpoint.
Definition BlockchainConn_Info (b : BlockchainConn) : Info :=
  mkInfo "" (ne_IP (bcn_endpoint b)) (int64 (ne_Port (bcn_endpoint b))) (ne_PublicKey (bcn_endpoint b))
    0 Blockchain AllNetworkNum false 0.
Definition BlockchainConn_IsOpen (b : BlockchainConn) : bool := false.
Definition BlockchainConn_Send (msg : Message) (b : BlockchainConn) : option go_error := None.
Definition BlockchainConn_IsDisabled (b : BlockchainConn) : bool := false.
Definition BlockchainConn_Connect (b : BlockchainConn) : option go_error := None.
Definition BlockchainConn_ReadMessages (b : BlockchainConn) : Z * option go_error := (0, None).
Definition BlockchainConn_SendWithDelay (msg : Message) (delay : Z) (b : BlockchainConn) : option go_error := None.
Definition BlockchainConn_Close (b : BlockchainConn) : option go_error := None.
Definition BlockchainConn_Disable (b : BlockchainConn) : BlockchainConn := b.
Definition BlockchainConn_String (b : BlockchainConn) : string := "Blockchain " +:+ NodeEndpoint_String (bcn_endpoint b).
