(* ===== verification/Gateway.v ===== *)
(** The gateway node (nodes/gateway.go with nodes/base.go), its connections to relays
    (connections/handler/tbconn.go and relay.go) and the channel of messages handled in the background
    (services/async_handler.go). Connections are objects, named by addresses. *)
From S2P Require Import Prelude Bytes CMap TbMessage HashHistory Types TxStore BlockProcessor Channel Framing Bridge NodeConfig Conn.

(** ** Definitions *)
Definition timeToAvoidReEntry : Z := 6 * 3600 * second_ns.
Definition connTimeout : Z := 5 * second_ns.
Definition AsyncMsgChannelSize : Z := 500.

Record BroadcastResults := mkBroadcastResults {
  RelevantPeers : Z;
  NotOpenPeers : Z;
  ErrorPeers : Z;
  SentPeers : Z;
  SentGatewayPeers : Z
}.

(** The connection a message comes from; what [ID] returns for it. *)
Inductive source :=
  | FromConn (p : Z)
  | FromBlockchain (b : BlockchainConn).
Inductive conn_id :=
  | SocketID (s : socket)
  | PlaceholderID.
#[export] Instance conn_id_eq_dec : EqDecision conn_id.
Proof. solve_decision. Defined.

(** connections/handler/tbconn.go; [Handler] is always a [Relay]. *)
Record TbConn := mkTbConn { tb_conn : SSLConn; connectionEstablished : bool; closed : bool }.

(** services/async_handler.go *)
Record MsgInfo := mkMsgInfo { mi_Msg : Message; mi_Source : source }.

Section Gateway.
Context {M : Type -> Type} `{!ConcurrentMap M} {EthConfig : Type}.
(** [rlp.EncodeToBytes] for blocks, and the sockets of connection [p] *)
Context (rlp_EncodeToBytes : bxBlockRLP -> result (list byte)).
Context (connect : Z -> socket * option go_error) (accepts : Z -> list byte -> bool) (close_err : socket -> option go_error).

Record gateway := mkGateway {
  Connections : list Z;
  conn_objects : gmap Z TbConn;
  g_bridge : TurboBridge EthConfig;
  g_TxStore : TbTxStore M unit;
  blockProcessor : rlpBlockProcessor M;
  asyncMsgChannel : chan MsgInfo
}.

Definition minute_ns : Z := 60 * second_ns.

Definition NewGateway (bridge : TurboBridge EthConfig) : gateway :=
  mkGateway [] ∅ bridge
    (NewTbTxStore (3 * 24 * 60 * minute_ns) (10 * minute_ns) tt newHashHistory timeToAvoidReEntry)
    NewRLPBlockProcessor (make_chan AsyncMsgChannelSize).

Definition with_conns (g : gateway) (cs : list Z) (os : gmap Z TbConn) : gateway :=
  mkGateway cs os (g_bridge g) (g_TxStore g) (blockProcessor g) (asyncMsgChannel g).
Definition with_g_bridge (g : gateway) (b : TurboBridge EthConfig) : gateway :=
  mkGateway (Connections g) (conn_objects g) b (g_TxStore g) (blockProcessor g) (asyncMsgChannel g).
Definition with_store (g : gateway) (t : TbTxStore M unit) : gateway :=
  mkGateway (Connections g) (conn_objects g) (g_bridge g) t (blockProcessor g) (asyncMsgChannel g).
Definition with_processor (g : gateway) (bp : rlpBlockProcessor M) : gateway :=
  mkGateway (Connections g) (conn_objects g) (g_bridge g) (g_TxStore g) bp (asyncMsgChannel g).
Definition with_async (g : gateway) (c : chan MsgInfo) : gateway :=
  mkGateway (Connections g) (conn_objects g) (g_bridge g) (g_TxStore g) (blockProcessor g) c.

Definition with_conn (c : TbConn) (s : SSLConn) : TbConn := mkTbConn s (connectionEstablished c) (closed c).
Definition set_conn (g : gateway) (p : Z) (s : SSLConn) : gateway :=
  match conn_objects g !! p with
  | Some c => with_conns g (Connections g) (<[p := with_conn c s]> (conn_objects g))
  | None => g
  end.

(** [conn.ID()] and [conn.Info()] *)
Definition conn_ID (c : TbConn) : conn_id := SocketID (Socket (tb_conn c)).
Definition source_ID (g : gateway) (src : source) : outcome conn_id :=
  match src with
  | FromConn p => c ← deref (conn_objects g !! p); mret (conn_ID c)
  | FromBlockchain _ => mret PlaceholderID
  end.
Definition source_Info (g : gateway) (src : source) : outcome Info :=
  match src with
  | FromConn p => c ← deref (conn_objects g !! p); mret (SSLConn_Info (tb_conn c))
  | FromBlockchain b => mret (BlockchainConn_Info b)
  end.

(** *** nodes/base.go *)
Definition OnConnEstablished (p : Z) (g : gateway) : gateway := with_conns g (Connections g ++ [p]) (conn_objects g).

(** The loop of [OnConnClosed]: the list without the first connection whose ID is [id]. *)
Fixpoint remove_by_ID (os : gmap Z TbConn) (id : conn_id) (cs : list Z) : option (list Z) :=
  match cs with
  | [] => None
  | p :: cs =>
      if decide (conn_ID <$> os !! p = Some id) then Some cs
      else cs' ← remove_by_ID os id cs; Some (p :: cs')
  end.

Definition OnConnClosed (p : Z) (g : gateway) : outcome (option go_error * gateway) :=
  c ← deref (conn_objects g !! p);
  match remove_by_ID (conn_objects g) (conn_ID c) (Connections g) with
  | Some cs => mret (None, with_conns g cs (conn_objects g))
  | None => mret (Some (Errorf "connection can't be removed from connection list - not found"), g)
  end.

(** The connections [DisconnectConn] closes, each in a goroutine. *)
Definition DisconnectConn (id : string) (g : gateway) : list Z :=
  filter (fun p => (ci_NodeID ∘ SSLConn_Info ∘ tb_conn <$> conn_objects g !! p) = Some id) (Connections g).

Definition Base_HandleMsg (msg : Message) (src : source) : option go_error := None.

(** *** nodes/gateway.go: sending *)
Definition count_result (r : BroadcastResults) (notOpen error sent gateway : Z) : BroadcastResults :=
  mkBroadcastResults (RelevantPeers r + 1) (NotOpenPeers r + notOpen) (ErrorPeers r + error) (SentPeers r + sent)
    (SentGatewayPeers r + gateway).

(** One round of the loop of [broadcast]. *)
Definition broadcast_to (msg : Message) (src_id : conn_id) (to : NodeType) (p : Z) (g : gateway) (results : BroadcastResults)
    : outcome (gateway * BroadcastResults) :=
  c ← deref (conn_objects g !! p);
  let conn := tb_conn c in
  if decide (Z.land (ci_ConnectionType (SSLConn_Info conn)) to = 0) then mret (g, results) else
  if decide (connectionOpen conn = false \/ conn_ID c = src_id) then mret (g, count_result results 1 0 0 0) else
  let '(err, conn') := SSLConn_Send close_err msg conn in
  let g := set_conn g p conn' in
  match err with
  | Some _ => mret (g, count_result results 0 1 0 0)
  | None => mret (g, count_result results 0 0 1 (if IsGateway (SSLConn_Info conn') then 1 else 0))
  end.

Fixpoint broadcast_loop (msg : Message) (src_id : conn_id) (to : NodeType) (cs : list Z) (g : gateway)
    (results : BroadcastResults) : outcome (gateway * BroadcastResults) :=
  match cs with
  | [] => mret (g, results)
  | p :: cs => '(g, results) ← broadcast_to msg src_id to p g results; broadcast_loop msg src_id to cs g results
  end.

Definition broadcast (msg : Message) (src : source) (to : NodeType) (g : gateway) : outcome (gateway * BroadcastResults) :=
  id ← source_ID g src;
  broadcast_loop msg id to (Connections g) g (mkBroadcastResults 0 0 0 0 0).

(** [now] is the time of both clock readings. The bridge gets the store's transaction by reference; its
    value at this moment is recorded. *)
Definition processTransaction (now : Z) (tx : Tx) (src : source) (g : gateway) : outcome gateway :=
  let bh := tx_header tx in
  '(txResult, store) ← TbTxStore_Add now (g_TxStore g) (bh_hash bh) (tx_content tx) (tx_txID tx) (bh_networkNum bh) now;
  let g := with_store g store in
  if negb (tr_NewContent txResult || tr_Reprocess txResult) then mret g else
  info ← source_Info g src;
  g ← (if IsRelay info then mret g
       else
         let tx := SetTimestamp (SetSender tx (tr_Sender txResult)) now in
         '(g, _) ← broadcast (MsgTx tx) src RelayTransaction g; mret g);
  if decide (ci_ConnectionType info <> Blockchain) then
    transaction ← deref (tr_Transaction txResult);
    mret (with_g_bridge g (snd (SendTransactionsFromBDN (g_bridge g) [transaction])))
  else mret g.

Definition processBlockFromBlockchain (now : Z) (tbBlock : TbBlock) (src : BlockchainConn) (g : gateway) : outcome gateway :=
  let '((broadcastMessage, _, _), bp) := BxBlockToBroadcast rlp_EncodeToBytes now (blockProcessor g) tbBlock 0 in
  '(g, _) ← broadcast (MsgBroadcast broadcastMessage) (FromBlockchain src) RelayBlock (with_processor g bp);
  mret g.

Definition HandleMsg (now : Z) (msg : Message) (src : source) (background : bool) (g : gateway)
    : outcome (option go_error * gateway) :=
  if background then
    c ← send (asyncMsgChannel g) (mkMsgInfo msg src); mret (None, with_async g c)
  else
    match msg with
    | MsgTx tx => g ← processTransaction now tx src g; mret (None, g)
    | MsgBroadcast _ => mret (Base_HandleMsg msg src, g)
    end.

(** A round of [HandleMsgAsync]. *)
Definition HandleMsgAsync (now : Z) (g : gateway) : outcome gateway :=
  '(info, c) ← recv (asyncMsgChannel g);
  '(_, g) ← HandleMsg now (mi_Msg info) (mi_Source info) false (with_async g c);
  mret g.

(** *** nodes/gateway.go: messages of the bridge *)
Fixpoint process_transactions (now : Z) (txs : list TbTransaction) (src : source) (g : gateway) : outcome gateway :=
  match txs with
  | [] => mret g
  | blockchainTx :: txs =>
      let tx := NewTx now (tx_hash blockchainTx) (tx_bytes blockchainTx) 1 in
      g ← processTransaction now tx src g; process_transactions now txs src g
  end.

(** The two cases of the [select] of [handleBridgeMessages]. *)
Definition on_node_transactions (now : Z) (g : gateway) : outcome gateway :=
  '(txsFromNode, b) ← ReceiveNodeTransactions (g_bridge g);
  process_transactions now (tn_Transactions txsFromNode)
    (FromBlockchain (NewBlockchainConn (tn_PeerEndpoint txsFromNode))) (with_g_bridge g b).
Definition on_node_block (now : Z) (g : gateway) : outcome gateway :=
  '(blockFromNode, b) ← ReceiveBlockFromNode (g_bridge g);
  processBlockFromBlockchain now (bn_Block blockFromNode) (NewBlockchainConn (bn_PeerEndpoint blockFromNode)) (with_g_bridge g b).

(** *** connections/handler *)
(** [NewOutboundRelay] at the fresh address [p]; [NewTbConn] registers the connection at once. *)
Definition NewRelay (p : Z) (ip : string) (port : Z) (g : gateway) : gateway :=
  OnConnEstablished p (with_conns g (Connections g)
    (<[p := mkTbConn (NewSSLConnection ip port 100000) true false]> (conn_objects g))).

Definition Relay_ProcessMessage (now : Z) (msg : list byte) (p : Z) (g : gateway) : outcome gateway :=
  msgType ← TbType msg;
  if decide (msgType = TxType) then
    '(tx, _) ← Tx_Unpack now empty_tx msg;
    '(_, g) ← HandleMsg now (MsgTx tx) (FromConn p) false g;
    mret g
  else mret g.

Definition closeWithRetry (p : Z) (g : gateway) : outcome gateway :=
  c ← deref (conn_objects g !! p);
  let g := with_conns g (Connections g) (<[p := mkTbConn (tb_conn c) false (closed c)]> (conn_objects g)) in
  '(_, g) ← OnConnClosed p g;
  mret (set_conn g p (snd (SSLConn_Close close_err (tb_conn c)))).

(** What [readLoop] does next. *)
Inductive loop_control :=
  | Reading          (* connected: read until the connection closes *)
  | Reconnecting     (* sleep, then connect again *)
  | Stopped.

Definition readLoop_connect (now : Z) (isInitiator : bool) (p : Z) (g : gateway) : outcome (loop_control * gateway) :=
  c ← deref (conn_objects g !! p);
  let '(err, conn) := SSLConn_Connect (connect p) now (tb_conn c) in
  let g := set_conn g p conn in
  match err with
  | None => mret (Reading, g)
  | Some _ =>
      if isInitiator then g ← closeWithRetry p g; mret (Reconnecting, g)
      else mret (Stopped, set_conn g p (snd (SSLConn_Close close_err conn)))
  end.

Fixpoint process_messages (now : Z) (msgs : list (list byte)) (p : Z) (g : gateway) : outcome gateway :=
  match msgs with
  | [] => mret g
  | msg :: msgs => g ← Relay_ProcessMessage now msg p g; process_messages now msgs p g
  end.

(** The end of the inner loop. *)
Definition readLoop_closed (isInitiator : bool) (p : Z) (g : gateway) : outcome (loop_control * gateway) :=
  c ← deref (conn_objects g !! p);
  if isInitiator then
    g ← closeWithRetry p g;
    mret (if closed c then Stopped else Reconnecting, g)
  else mret (Stopped, set_conn g p (snd (SSLConn_Close close_err (tb_conn c)))).

(** One round of the inner loop, when the socket returns [read]. *)
Definition readLoop_read (now : Z) (isInitiator : bool) (read : result (list byte)) (p : Z) (g : gateway)
    : outcome (loop_control * gateway) :=
  c ← deref (conn_objects g !! p);
  if negb (connectionOpen (tb_conn c)) then readLoop_closed isInitiator p g else
  '(err, msgs, conn) ← SSLConn_ReadMessages close_err read (tb_conn c);
  g ← process_messages now msgs p (set_conn g p conn);
  match err with
  | Some _ => readLoop_closed isInitiator p g
  | None => mret (Reading, g)
  end.
End Gateway.
Arguments gateway M EthConfig : clear implicits.
