(* ===== verification/GatewayProps.v ===== *)
(** The properties of the gateway: what becomes of a transaction, whoever sends it, and two inputs that
    crash the process. *)
From S2P Require Import Prelude Bytes CMap TbMessage HashHistory Types TxStore TxStoreFacts BlockProcessor Channel Bridge NodeConfig Conn Gateway.

(** ** Broadcasting *)
Section Facts.
Context {M : Type -> Type} `{ConcurrentMapLaws M} {EthConfig : Type}.
Context (close_err : socket -> option go_error).
Implicit Types g : gateway M EthConfig.

(** The store is consistent, and the list of connections names existing ones, each once. *)
Definition gateway_ok g : Prop :=
  store_ok (g_TxStore g) /\ NoDup (Connections g) /\ forall p, p ∈ Connections g -> is_Some (conn_objects g !! p).

Lemma TbType_length msg t : TbType msg = Ret t -> 16 <= len msg.
Proof.
  unfold TbType, slice. destruct (decide _) as [Hd|Hd]; go_simpl; [|done]. intros _.
  unfold TypeOffset, TypeLength in Hd. lia.
Qed.

(** What a broadcast does to one connection. *)
Definition sent_conn (msg : Message) (src_id : conn_id) (c : TbConn) : TbConn :=
  if decide (connectionOpen (tb_conn c) = false \/ conn_ID c = src_id) then c
  else with_conn c (snd (SSLConn_Send close_err msg (tb_conn c))).

Lemma with_conns_id g : with_conns g (Connections g) (conn_objects g) = g.
Proof. by destruct g. Qed.

Lemma with_conn_id c : with_conn c (tb_conn c) = c.
Proof. by destruct c. Qed.

Lemma broadcast_to_spec msg id to p g r c :
  Z.land Relay to <> 0 -> conn_objects g !! p = Some c ->
  exists r', broadcast_to close_err msg id to p g r
    = Ret (with_conns g (Connections g) (<[p := sent_conn msg id c]> (conn_objects g)), r').
Proof.
  intros Hto Hp. unfold broadcast_to, sent_conn. rewrite Hp. go_simpl.
  rewrite decide_False by (cbn [SSLConn_Info ci_ConnectionType]; done).
  destruct (decide (connectionOpen (tb_conn c) = false \/ conn_ID c = id)) as [Hskip|Hsend].
  - rewrite insert_id, with_conns_id by done. by eexists.
  - destruct (SSLConn_Send close_err msg (tb_conn c)) as [err s] eqn:Hs. cbn [snd].
    unfold set_conn. rewrite Hp. by destruct err; eexists.
Qed.

Lemma broadcast_loop_spec msg id to cs g r :
  Z.land Relay to <> 0 -> NoDup cs -> (forall p, p ∈ cs -> is_Some (conn_objects g !! p)) ->
  exists os r', broadcast_loop close_err msg id to cs g r = Ret (with_conns g (Connections g) os, r') /\
    forall p, os !! p = if decide (p ∈ cs) then sent_conn msg id <$> conn_objects g !! p else conn_objects g !! p.
Proof.
  intros Hto. revert g r. induction cs as [|q cs IH]; intros g r Hnd Hex; cbn [broadcast_loop].
  - exists (conn_objects g), r. rewrite with_conns_id. split; [done|]. intros p. rewrite decide_False; [done|]. set_solver.
  - apply NoDup_cons in Hnd as [Hq Hnd]. destruct (Hex q) as [c Hc]; [set_solver|].
    destruct (broadcast_to_spec msg id to q g r c Hto Hc) as [r1 ->]. go_simpl.
    set (g1 := with_conns g _ _). destruct (IH g1 r1 Hnd) as (os & r' & Hrun & Hos).
    { intros p Hp. cbn. rewrite lookup_insert_is_Some'. right. apply Hex. set_solver. }
    exists os, r'. rewrite Hrun. split; [done|]. intros p. rewrite Hos. cbn [g1 with_conns conn_objects].
    destruct (decide (p = q)) as [->|Hne].
    + rewrite decide_False, decide_True, lookup_insert_eq, Hc by set_solver. done.
    + rewrite lookup_insert_ne by done. destruct (decide (p ∈ cs)); [rewrite decide_True|rewrite decide_False]; set_solver.
Qed.

Lemma sent_conns_ok g os (f : TbConn -> TbConn) :
  gateway_ok g ->
  (forall p, os !! p = if decide (p ∈ Connections g) then f <$> conn_objects g !! p else conn_objects g !! p) ->
  gateway_ok (with_conns g (Connections g) os).
Proof.
  intros (Hs & Hnd & Hex) Hos. split_and!; [done|done|]. cbn. intros p Hp. rewrite Hos, decide_True by done.
  destruct (Hex p Hp) as [c ->]. by eexists.
Qed.

(** ** The store in the gateway *)
Lemma Add_stored_defaults (t : TbTxStore M unit) newTx k tx content txID :
  let r := fst (Add_stored t newTx k tx content txID) in tr_Reprocess r = false /\ tr_Sender r = zeros 20.
Proof.
  cbn zeta. unfold Add_stored. destruct (if decide _ then _ else _) as [[? ?] ?].
  by destruct (AddTxID tx _) as [? t1], (SetContent _ content) as [? ?].
Qed.

Lemma Add_result_defaults now t hash content txID n ts r (t' : TbTxStore M unit) :
  TbTxStore_Add now t hash content txID n ts = Ret (r, t') -> tr_Reprocess r = false /\ tr_Sender r = zeros 20.
Proof.
  unfold TbTxStore_Add. destruct (decide (txID = TxIDEmpty /\ len content = 0)); [done|].
  destruct (decide (ts_maxTxAge t < time_sub now ts)); [by intros [= <- _]|].
  destruct (refreshSeenTx now t hash) as [seen t1]. destruct (decide (seen = true /\ txID = TxIDEmpty)); [by intros [= <- _]|].
  destruct (cm_set_if_absent _ _ _) as [newTx contents].
  assert (forall t0 newTx k tx, Ret (Add_stored t0 newTx k tx content txID) = Ret (r, t') ->
    tr_Reprocess r = false /\ tr_Sender r = zeros 20) as Hst.
  { intros t0 new k tx [= Heq]. pose proof (Add_stored_defaults t0 new k tx content txID) as Hd. by rewrite Heq in Hd. }
  destruct newTx; [apply Hst|]. destruct (cm_get _ _) as [tx|]; [apply Hst|]. by intros [= <- _].
Qed.

Lemma Add_stored_config (t : TbTxStore M unit) newTx k tx content txID :
  ts_maxTxAge (snd (Add_stored t newTx k tx content txID)) = ts_maxTxAge t.
Proof.
  unfold Add_stored. destruct (if decide _ then _ else _) as [[? ?] ?].
  by destruct (AddTxID tx _) as [? t1], (SetContent _ content) as [? ?].
Qed.

Lemma Add_config now t hash content txID n ts r (t' : TbTxStore M unit) :
  TbTxStore_Add now t hash content txID n ts = Ret (r, t') -> ts_maxTxAge t' = ts_maxTxAge t.
Proof.
  unfold TbTxStore_Add. destruct (decide (txID = TxIDEmpty /\ len content = 0)); [done|].
  destruct (decide (ts_maxTxAge t < time_sub now ts)); [by intros [= _ <-]|].
  assert (ts_maxTxAge (snd (refreshSeenTx now t hash)) = ts_maxTxAge t) as Hage by (unfold refreshSeenTx; by case_match).
  destruct (refreshSeenTx now t hash) as [seen t1]. cbn [snd] in Hage.
  destruct (decide (seen = true /\ txID = TxIDEmpty)); [by intros [= _ <-]|].
  destruct (cm_set_if_absent _ _ _) as [newTx contents].
  assert (forall t0 newTx k tx, ts_maxTxAge t0 = ts_maxTxAge t -> Ret (Add_stored t0 newTx k tx content txID) = Ret (r, t') ->
    ts_maxTxAge t' = ts_maxTxAge t) as Hst.
  { intros t0 new k tx Ht0 [= Heq]. pose proof (Add_stored_config t0 new k tx content txID) as Hd. rewrite Heq in Hd.
    cbn [snd] in Hd. congruence. }
  destruct newTx; [apply Hst; by destruct seen|].
  destruct (cm_get _ _) as [tx|]; [apply Hst; by destruct seen|]. intros [= _ <-]. by destruct seen.
Qed.

(** The transaction is in the list of removed ones, and the message has no short ID to revive it. *)
Definition deleted now tx g : Prop :=
  seen (g_TxStore g) now (bh_hash (tx_header tx)) = true /\ tx_txID tx = TxIDEmpty.
Definition stored_tx tx g : option TbTransaction := contents (g_TxStore g) !! hash_key (bh_hash (tx_header tx)).
(** The message brings content the store does not have. *)
Definition brings_content now tx g : Prop :=
  ~ deleted now tx g /\ tx_content tx <> [] /\ forall t, stored_tx tx g = Some t -> tx_bytes t = [].
#[export] Instance brings_content_dec now tx g : Decision (brings_content now tx g).
Proof.
  unfold brings_content, deleted. apply and_dec; [apply _|]. apply and_dec; [apply _|].
  destruct (stored_tx tx g) as [t|]; [|by left].
  destruct (decide (tx_bytes t = [])); [left|right]; naive_solver.
Defined.
Definition merged_tx now tx g : TbTransaction :=
  merged (stored_tx tx g) (bh_hash (tx_header tx)) (tx_content tx) (tx_txID tx) (bh_networkNum (tx_header tx)) now.

(** The store's part of [processTransaction]. *)
Lemma gateway_Add now tx g :
  store_ok (g_TxStore g) -> is_uint32 (tx_txID tx) -> 0 <= ts_maxTxAge (g_TxStore g) ->
  ~ (tx_txID tx = TxIDEmpty /\ tx_content tx = []) ->
  exists r store, TbTxStore_Add now (g_TxStore g) (bh_hash (tx_header tx)) (tx_content tx) (tx_txID tx)
      (bh_networkNum (tx_header tx)) now = Ret (r, store) /\ store_ok store /\
    ts_maxTxAge store = ts_maxTxAge (g_TxStore g) /\ tr_Reprocess r = false /\ tr_Sender r = zeros 20 /\
    (tr_NewContent r = true <-> brings_content now tx g) /\
    (~ deleted now tx g -> tr_Transaction r = Some (merged_tx now tx g) /\
       contents store = <[hash_key (bh_hash (tx_header tx)) := merged_tx now tx g]> (contents (g_TxStore g))) /\
    (deleted now tx g -> contents store = contents (g_TxStore g)).
Proof.
  intros Hok Hid Hage Hmiss.
  assert (~ too_old (g_TxStore g) now now) as Hold by (unfold too_old, time_sub; lia).
  assert (0 <= fst (Next (ts_assigner (g_TxStore g)))) as Hnext by (change (0 <= 0); lia).
  destruct (decide (seen (g_TxStore g) now (bh_hash (tx_header tx)) = true /\ tx_txID tx = TxIDEmpty)) as [Hd|Hd].
  - assert (tx_content tx <> []) as Hc by (destruct Hd; tauto). destruct Hd as [Hs Hid0].
    destruct (Add_seen _ now _ _ (bh_networkNum (tx_header tx)) now Hc Hold Hs) as (r & store & Hadd & Hr & Hct & Hmt & _).
    rewrite Hid0. exists r, store. destruct (Add_result_defaults _ _ _ _ _ _ _ _ _ Hadd).
    destruct Hr as (_ & Hnc & _). split_and!; try done; [|by eapply Add_config|..].
    + destruct Hok as [Hk Hi Hl]. by split; rewrite ?Hct, ?Hmt.
    + rewrite Hnc. split; [done|]. intros [Hb _]. by destruct Hb.
    + intros Hb. by destruct Hb.
  - destruct (Add_accepted _ now (bh_hash (tx_header tx)) (tx_content tx) (tx_txID tx) (bh_networkNum (tx_header tx)) now
      Hok (proj1 Hid) Hnext Hmiss Hold Hd) as (r & store & Hadd & Hok' & Hacc).
    exists r, store. destruct (Add_result_defaults _ _ _ _ _ _ _ _ _ Hadd).
    destruct Hacc as (Hct & Htr & _ & _ & Hnc & _).
    assert (forall b, effective_txID (g_TxStore g) b (tx_txID tx) = tx_txID tx) as Heff.
    { intros b. unfold effective_txID. case_decide as He; [|done]. by destruct He as [_ ->]. }
    rewrite Heff in Hct, Htr. split_and!; try done; [by eapply Add_config|].
    rewrite Hnc, bool_decide_eq_true. unfold brings_content, stored_tx, deleted.
    destruct (contents (g_TxStore g) !! _) as [t|]; naive_solver.
Qed.
End Facts.

(** ** Properties *)
Section Properties.
Context {M : Type -> Type} `{ConcurrentMapLaws M} {EthConfig : Type}.
Context (rlp_EncodeToBytes : bxBlockRLP -> result (list byte)).
Context (accepts : list byte -> bool) (close_err : socket -> option go_error).
Implicit Types g : gateway M EthConfig.

(** The message a broadcast puts on every open connection to a relay. *)
Definition forwarded now tx : Message := MsgTx (SetTimestamp (SetSender tx (zeros 20)) now).

(** The outcome of [processTransaction] when the transaction's content is new. *)
Definition news_sent now tx src g g' : Prop :=
  match src with
  | FromBlockchain _ =>
      g_bridge g' = g_bridge g /\
      forall p, conn_objects g' !! p
        = if decide (p ∈ Connections g) then sent_conn close_err (forwarded now tx) PlaceholderID <$> conn_objects g !! p
          else conn_objects g !! p
  | FromConn _ =>
      g_bridge g' = snd (SendTransactionsFromBDN (g_bridge g) [merged_tx now tx g]) /\
      conn_objects g' = conn_objects g
  end.

Lemma with_store_ok g store : gateway_ok g -> store_ok store -> gateway_ok (with_store g store).
Proof. intros (_ & Hnd & Hex) Hs. by split_and!. Qed.

Lemma news_sent_step now tx src g store r :
  gateway_ok g -> store_ok store -> (forall p, src = FromConn p -> is_Some (conn_objects g !! p)) ->
  tr_Sender r = zeros 20 -> tr_Transaction r = Some (merged_tx now tx g) ->
  exists g', (info ← source_Info (with_store g store) src;
    g' ← (if IsRelay info then mret (with_store g store)
          else '(g', _) ← broadcast close_err (MsgTx (SetTimestamp (SetSender tx (tr_Sender r)) now)) src RelayTransaction
                 (with_store g store); mret g');
    if decide (ci_ConnectionType info <> Blockchain) then
      transaction ← deref (tr_Transaction r);
      mret (with_g_bridge g' (snd (SendTransactionsFromBDN (g_bridge g') [transaction])))
    else mret g') = Ret g' /\
    gateway_ok g' /\ g_TxStore g' = store /\ Connections g' = Connections g /\
    asyncMsgChannel g' = asyncMsgChannel g /\ news_sent now tx src g g'.
Proof.
  intros Hok Hs Hsrc Hsd Htr. pose proof (with_store_ok g store Hok Hs) as Hok1. rewrite Hsd, Htr.
  destruct src as [p|b]; unfold source_Info, broadcast, source_ID.
  - destruct (Hsrc p eq_refl) as [c Hc]. cbn [with_store conn_objects]. rewrite Hc. go_simpl.
    assert (IsRelay (SSLConn_Info (tb_conn c)) = true) as -> by done.
    go_simpl. rewrite decide_True by done. eexists. split; [done|]. by split_and!.
  - go_simpl. assert (IsRelay (BlockchainConn_Info b) = false) as -> by done.
    go_simpl. destruct Hok1 as (Hst & Hnd & Hex).
    destruct (broadcast_loop_spec close_err (forwarded now tx) PlaceholderID RelayTransaction
      (Connections (with_store g store)) (with_store g store) (mkBroadcastResults 0 0 0 0 0) ltac:(done) Hnd Hex)
      as (os & r' & Hrun & Hos).
    unfold forwarded in Hrun. rewrite Hrun. go_simpl. rewrite decide_False by (intros Hn; by apply Hn).
    eexists. split; [done|]. split_and!; try done.
    by apply (sent_conns_ok (with_store g store) os (sent_conn close_err (forwarded now tx) PlaceholderID)).
Qed.

(** The source of a message: a connection that exists, or a blockchain node. *)
Definition source_ok src g : Prop := forall p, src = FromConn p -> is_Some (conn_objects g !! p).

Lemma processTransaction_effect now tx src g :
  gateway_ok g -> source_ok src g -> is_uint32 (tx_txID tx) -> 0 <= ts_maxTxAge (g_TxStore g) ->
  ~ (tx_txID tx = TxIDEmpty /\ tx_content tx = []) ->
  exists g', processTransaction close_err now tx src g = Ret g' /\ gateway_ok g' /\ Connections g' = Connections g /\
    asyncMsgChannel g' = asyncMsgChannel g /\ ts_maxTxAge (g_TxStore g') = ts_maxTxAge (g_TxStore g) /\
    contents (g_TxStore g')
    = (if decide (seen (g_TxStore g) now (bh_hash (tx_header tx)) = true /\ tx_txID tx = TxIDEmpty)
       then contents (g_TxStore g)
       else <[hash_key (bh_hash (tx_header tx)) := merged_tx now tx g]> (contents (g_TxStore g))) /\
    (~ brings_content now tx g -> g' = with_store g (g_TxStore g')) /\
    (brings_content now tx g -> news_sent now tx src g g').
Proof.
  intros Hok Hsrc Hid Hage Hmiss. destruct (gateway_Add now tx g (proj1 Hok) Hid Hage Hmiss)
    as (r & store & Hadd & Hst & Hmax & Hrp & Hsd & Hnc & Hin & Hdel).
  unfold processTransaction. rewrite Hadd. go_simpl. rewrite Hrp, orb_false_r.
  assert (contents store = (if decide (seen (g_TxStore g) now (bh_hash (tx_header tx)) = true /\ tx_txID tx = TxIDEmpty)
    then contents (g_TxStore g)
    else <[hash_key (bh_hash (tx_header tx)) := merged_tx now tx g]> (contents (g_TxStore g)))) as Hct.
  { case_decide as Hd; [by apply Hdel|by apply Hin]. }
  destruct (tr_NewContent r) eqn:Hnew; cbn [negb].
  - assert (brings_content now tx g) as Hb by (by apply Hnc).
    destruct (news_sent_step now tx src g store r Hok Hst Hsrc Hsd) as (g' & Hrun & Hok' & Hst' & Hcs & Hac & Hsent).
    { apply Hin. by destruct Hb. }
    exists g'. split; [exact Hrun|]. rewrite Hst'. split_and!; try done.
  - exists (with_store g store). split; [done|]. split_and!; try done; [by apply with_store_ok|].
    intros Hb. apply Hnc in Hb. done.
Qed.

(** C14: What the gateway does with a transaction, from whatever source. A message with neither content nor
    short ID crashes the process. One that brings no content the store lacks (there is none, it is on file
    already, or it was removed and the message has no short ID) changes the store only. Any other is filed,
    merged with what is on file; if it comes from the blockchain node it goes, with the time and a
    blank sender, to every open connection to a relay and not to the node's bridge; if it comes from a
    relay, the filed transaction goes to the bridge and to no connection. *)
Theorem processTransaction_spec now tx src g :
  gateway_ok g -> source_ok src g -> is_uint32 (tx_txID tx) -> 0 <= ts_maxTxAge (g_TxStore g) ->
  let missing := tx_txID tx = TxIDEmpty /\ tx_content tx = [] in
  let result := processTransaction close_err now tx src g in
  (missing -> result = Panics (Explicit "content and txID can't be both missing")) /\
  (~ missing -> exists g', result = Ret g' /\ gateway_ok g' /\ Connections g' = Connections g /\
     contents (g_TxStore g')
     = (if decide (seen (g_TxStore g) now (bh_hash (tx_header tx)) = true /\ tx_txID tx = TxIDEmpty)
        then contents (g_TxStore g)
        else <[hash_key (bh_hash (tx_header tx)) := merged_tx now tx g]> (contents (g_TxStore g))) /\
     (~ brings_content now tx g -> g' = with_store g (g_TxStore g')) /\
     (brings_content now tx g -> news_sent now tx src g g')).
Proof.
  intros Hok Hsrc Hid Hage. cbn zeta. split.
  { intros [Hid0 Hc0]. unfold processTransaction, TbTxStore_Add. by rewrite Hid0, Hc0. }
  intros Hmiss. destruct (processTransaction_effect now tx src g Hok Hsrc Hid Hage Hmiss)
    as (g' & Hrun & Hok' & Hcs & _ & _ & Hct & Hno & Hyes).
  by exists g'.
Qed.

(** A transaction message too short for its fields crashes the gateway. Every message of a connection
    with type "tx" and fewer than 101 bytes (the relay may send any) makes [ProcessMessage] panic: up to 72
    bytes because the error of [Unpack] is ignored and the store refuses the empty message, from there on
    inside [Unpack]. *)
Theorem short_tx_crashes now msg p g :
  TbType msg = Ret TxType -> len msg < 101 ->
  exists e, Relay_ProcessMessage close_err now msg p g = Panics e /\
    (len msg < 73 -> e = Explicit "content and txID can't be both missing").
Proof.
  intros Hty Hlen. unfold Relay_ProcessMessage. rewrite Hty. go_simpl. rewrite decide_True by done.
  pose proof (TbType_length msg TxType Hty) as Hmin.
  destruct (Tx_Unpack_any now empty_tx msg ltac:(lia)) as [(e & Hl & ->)|[(_ & m' & e & -> & _ & Hc & Hid)|(Hl & _)]]; [| |lia].
  - exists e. split; [done|]. lia.
  - go_simpl. unfold HandleMsg, processTransaction, TbTxStore_Add. rewrite Hc, Hid. by eexists.
Qed.

(** C36: A block the block processor refuses, because it was processed less than ten minutes ago or
    because it cannot be encoded, crashes the gateway: its error is ignored, a nil message is put on
    every open connection to a relay whose queue has room, and the send loop of such a connection
    panics when it is the message's turn. *)
Theorem duplicate_block_crashes now block b g p c :
  gateway_ok g -> p ∈ Connections g -> conn_objects g !! p = Some c ->
  let bp := processedBlocks (blockProcessor g) in
  let conn := tb_conn c in
  HashHistory_Exists now bp (block_key (tb_hash block)) = true \/
    (exists e, rlp_EncodeToBytes (block_rlp block) = Fail e) ->
  connectionOpen conn = true -> Socket conn <> NilInterface -> sendLoopRunning conn = true ->
  ~ chan_full (sendMessages conn) ->
  exists g' c', processBlockFromBlockchain rlp_EncodeToBytes close_err now block b g = Ret g' /\
    conn_objects g' !! p = Some c' /\
    ch_buf (sendMessages (tb_conn c')) = ch_buf (sendMessages conn) ++ [MsgBroadcast None] /\
    (ch_buf (sendMessages conn) = [] -> sendLoop_round accepts close_err (tb_conn c') = Panics NilDereference).
Proof.
  intros (Hs & Hnd & Hex) Hp Hc. cbn zeta. intros Hrefused Hopen Hsock Hrun Hfull.
  unfold processBlockFromBlockchain.
  assert (BxBlockToBroadcast rlp_EncodeToBytes now (blockProcessor g) block 0
          = ((None, [], (BxBlockToBroadcast rlp_EncodeToBytes now (blockProcessor g) block 0).1.2), blockProcessor g)) as Hbp.
  { unfold BxBlockToBroadcast, ShouldProcess. destruct (HashHistory_Exists now _ _) eqn:He; [done|].
    destruct Hrefused as [Hr|[e Hr]]; [congruence|]. by rewrite Hr. }
  rewrite Hbp. clear Hbp. unfold broadcast. go_simpl. cbn [source_ID]. go_simpl.
  destruct (broadcast_loop_spec close_err (MsgBroadcast None) PlaceholderID RelayBlock
    (Connections (with_processor g (blockProcessor g))) (with_processor g (blockProcessor g))
    (mkBroadcastResults 0 0 0 0 0) ltac:(done) Hnd Hex) as (os & r' & Hloop & Hos).
  rewrite Hloop. go_simpl. eexists _, (sent_conn close_err (MsgBroadcast None) PlaceholderID c).
  assert (sent_conn close_err (MsgBroadcast None) PlaceholderID c
    = with_conn c (with_sending (tb_conn c) (conn_written (tb_conn c)) (chan_push (sendMessages (tb_conn c)) (MsgBroadcast None)))) as Hsent.
  { unfold sent_conn. rewrite decide_False by (rewrite Hopen; by intros [|]). f_equal.
    unfold SSLConn_Send, queueToMessageChan, try_send. rewrite Hopen, decide_False by done.
    by destruct (Socket (tb_conn c)). }
  split; [done|]. split_and!.
  - cbn. rewrite Hos. cbn. by rewrite decide_True, Hc by done.
  - by rewrite Hsent.
  - intros Hempty. rewrite Hsent. unfold sendLoop_round, chan_push. cbn. rewrite Hrun, Hempty. cbn.
    unfold packAndWrite. cbn. by rewrite Hopen.
Qed.
End Properties.

(** ** Witnesses: a gateway with one connection to a relay *)
Definition ex_gateway : gateway (gmap string) unit :=
  let g := NewGateway NewTurboBridge in with_conns g [1] {[1 := mkTbConn ex_conn true false]}.
Definition ex_source : source := FromBlockchain (NewBlockchainConn (mkNodeEndpoint "127.0.0.1" 30303 "")).

Lemma ex_gateway_ok : gateway_ok ex_gateway.
Proof.
  split_and!.
  - split; intros k ?; unfold contents, ids_map; simpl; by rewrite lookup_empty.
  - apply NoDup_singleton.
  - intros p ->%list_elem_of_singleton. by eexists.
Qed.

Example processTransaction_spec_witness :
  exists g' c, processTransaction (fun _ => None) 5 ex_tx ex_source ex_gateway = Ret g' /\
    conn_objects g' !! 1 = Some c /\ ch_buf (sendMessages (tb_conn c)) = [forwarded 5 ex_tx] /\ g_bridge g' = g_bridge ex_gateway.
Proof.
  destruct (processTransaction_spec (fun _ => None) 5 ex_tx ex_source ex_gateway ex_gateway_ok) as [_ Hrun].
  - done.
  - by vm_compute.
  - by vm_compute.
  - destruct Hrun as (g' & Hg & _ & _ & _ & _ & Hsent); [by intros []|].
    destruct Hsent as [Hb Hos]; [split; [by intros []|split; [done|by intros t]]|].
    exists g', (sent_conn (fun _ => None) (forwarded 5 ex_tx) PlaceholderID (mkTbConn ex_conn true false)).
    split; [exact Hg|]. split; [|split; [|exact Hb]].
    + rewrite Hos. reflexivity.
    + vm_compute. reflexivity.
Defined.

(** A message of 72 bytes and type "tx". *)
Definition ex_short_msg : list byte := zeros 4 ++ of_string TxType ++ zeros 66.

Example short_tx_crashes_witness :
  exists e, Relay_ProcessMessage (fun _ => None) 0 ex_short_msg 1 ex_gateway = Panics e /\
    e = Explicit "content and txID can't be both missing".
Proof.
  destruct (short_tx_crashes (fun _ => None) 0 ex_short_msg 1 ex_gateway) as (e & Hp & He).
  - vm_compute. reflexivity.
  - vm_compute. reflexivity.
  - exists e. split; [exact Hp|]. apply He. vm_compute. reflexivity.
Defined.

Definition failing_encoder : bxBlockRLP -> result (list byte) := fun _ => Fail (Errorf "rlp").

Example duplicate_block_crashes_witness :
  exists g' c', processBlockFromBlockchain failing_encoder (fun _ => None) 0 ex_block
      (NewBlockchainConn (mkNodeEndpoint "127.0.0.1" 30303 "")) ex_gateway = Ret g' /\
    conn_objects g' !! 1 = Some c' /\ sendLoop_round (fun _ => true) (fun _ => None) (tb_conn c') = Panics NilDereference.
Proof.
  destruct (duplicate_block_crashes failing_encoder (fun _ => true) (fun _ => None) 0 ex_block
    (NewBlockchainConn (mkNodeEndpoint "127.0.0.1" 30303 "")) ex_gateway 1 (mkTbConn ex_conn true false) ex_gateway_ok)
    as (g' & c' & Hg & Hc & _ & Hround).
  - by left.
  - reflexivity.
  - right. by eexists.
  - reflexivity.
  - done.
  - reflexivity.
  - by intros Hf; vm_compute in Hf.
  - exists g', c'. split; [exact Hg|]. split; [exact Hc|]. by apply Hround.
Defined.
