(* ===== verification/GatewaySystem.v ===== *)
(** The gateway over its whole life: the steps of its goroutines and of its surroundings, in any order, and
    what every state they reach satisfies. *)
From S2P Require Import Prelude Bytes CMap TbMessage Framing HashHistory Types TxStore TxStoreFacts TxStoreSpec.
From S2P Require Import BlockProcessor Channel Bridge NodeConfig Conn Gateway GatewayProps.

(** ** Connections *)
Section Connections.
Context (accepts : list byte -> bool) (close_err : socket -> option go_error).

(** What sending and closing leave alone: only [Connect] opens a connection or changes its socket. *)
Definition conn_same (s s' : SSLConn) : Prop :=
  sendChannelSize s' = sendChannelSize s /\ Socket s' = Socket s /\ (connectionOpen s' = true -> connectionOpen s = true).

#[export] Instance conn_same_preorder : PreOrder conn_same.
Proof. split; [by intros s|]. intros s1 s2 s3 (? & ? & ?) (? & ? & ?). split_and!; [congruence..|auto]. Qed.

Lemma close_same s : conn_same s (snd (SSLConn_Close close_err s)).
Proof.
  unfold SSLConn_Close. destruct (connectionOpen s) eqn:Ho; cbn [negb]; [|done].
  cbn [with_open Socket]. by destruct (Socket s) eqn:Hs; split_and!.
Qed.

Lemma send_same m s : conn_same s (snd (SSLConn_Send close_err m s)).
Proof.
  unfold SSLConn_Send, queueToMessageChan. destruct (Socket s); [done|..];
    (destruct (negb (connectionOpen s)); [done|]; destruct (try_send _ _) as [[] ?]; [apply close_same|done]).
Qed.

Lemma packAndWrite_same m s s' : packAndWrite accepts close_err m s = Ret s' -> conn_same s s'.
Proof.
  unfold packAndWrite. destruct (negb _); [by intros [= <-]|]. destruct (Message_Pack m) as [buf| |]; go_simpl; [|done..].
  destruct (accepts _); intros [= <-]; [done|].
  transitivity (with_sending s (conn_written s ++ buf) (sendMessages s)); [done|apply close_same].
Qed.

Lemma drain_same fuel s s' : drain accepts close_err fuel s = Ret s' -> conn_same s s'.
Proof.
  revert s. induction fuel as [|fuel IH]; intros s; simpl; [by intros [= <-]|].
  destruct (recv _) as [[m q]| |]; [|by intros [= <-]..].
  destruct (packAndWrite _ _ _ _) as [s1| |] eqn:Hp; go_simpl; [|done..]. intros Hd.
  transitivity (with_sending s (conn_written s) q); [done|].
  transitivity s1; [by eapply packAndWrite_same|by apply IH].
Qed.

Lemma round_same s s' : sendLoop_round accepts close_err s = Ret s' -> conn_same s s'.
Proof.
  unfold sendLoop_round. destruct (negb _); [by intros [= <-]|]. destruct (recv _); [|done..].
  destruct (drain _ _ _ _) as [s1| |] eqn:Hd; go_simpl; [|done..]. apply drain_same in Hd.
  destruct (accepts _); intros [= <-]; [done|]. etransitivity; [done|]. by split_and!.
Qed.

(** What was written since the connection was made are whole messages, in the order they were sent, the
    queue is within its size, and an open connection has a socket. *)
Definition conn_ok (s : SSLConn) : Prop :=
  (exists acc, in_order acc s) /\ 0 <= sendChannelSize s /\ (connectionOpen s = true -> Socket s <> NilInterface).

Lemma conn_ok_step s s' : conn_same s s' -> (exists acc, in_order acc s') -> conn_ok s -> conn_ok s'.
Proof. intros (Hc & Hs & Ho) Hin (_ & Hsize & Hsock). rewrite <- Hc in Hsize. split_and!; [done..|]. rewrite Hs. auto. Qed.

Lemma conn_ok_close s : conn_ok s -> conn_ok (snd (SSLConn_Close close_err s)).
Proof.
  intros Hok. pose proof Hok as [[acc Hin] _]. eapply conn_ok_step; [apply close_same| |done].
  eexists. by apply Close_in_order.
Qed.

Lemma conn_ok_send m s : conn_ok s -> conn_ok (snd (SSLConn_Send close_err m s)).
Proof.
  intros Hok. pose proof Hok as [[acc Hin] _]. eapply conn_ok_step; [apply send_same| |done].
  eexists. by apply Send_in_order.
Qed.

Lemma conn_ok_round s s' : sendLoop_round accepts close_err s = Ret s' -> conn_ok s -> conn_ok s'.
Proof.
  intros Hr Hok. pose proof Hok as [[acc Hin] _]. eapply conn_ok_step; [by eapply round_same| |done].
  eexists. by eapply round_in_order.
Qed.

Lemma conn_ok_buf s buf : conn_ok s -> conn_ok (with_buf s buf).
Proof.
  intros Hok. pose proof Hok as [[acc Hin] _]. apply (conn_ok_step s); [done| |done].
  exists acc. by eapply in_order_same; [..|done].
Qed.

Lemma conn_ok_read read s err msgs s' :
  SSLConn_ReadMessages close_err read s = Ret (err, msgs, s') -> conn_ok s -> conn_ok s'.
Proof.
  intros Hr Hok. unfold SSLConn_ReadMessages in Hr.
  destruct (if connectionOpen s then read else _) as [packet|e].
  - destruct (read_chunk_messages _ _) as [[ms rest]| |]; go_simpl; [|done..].
    injection Hr as <- <- <-. by apply (conn_ok_buf s rest).
  - injection Hr as <- <- <-. by apply conn_ok_close.
Qed.

Lemma conn_ok_new ip port : conn_ok (NewSSLConnection ip port 100000).
Proof. split_and!; [|done|done]. exists [], [], [], []. by split_and!. Qed.

Lemma conn_ok_connect connect now s err s' :
  (snd connect = None -> fst connect <> NilInterface) ->
  SSLConn_Connect connect now s = (err, s') -> conn_ok s -> conn_ok s'.
Proof.
  intros Hconn Hc Hok. pose proof Hok as [[acc Hin] [Hsize Hsock]]. unfold SSLConn_Connect in Hc.
  destruct connect as [sock [e|]]; injection Hc as <- <-.
  - split_and!; [|done|done]. exists acc. eapply in_order_same; [..|done]; done.
  - split_and!; [|done|]; [|intros _; by apply Hconn]. exists [], [], [], []. by split_and!.
Qed.
End Connections.

(** ** The steps of the gateway *)
Section System.
Context {M : Type -> Type} `{ConcurrentMapLaws M} {EthConfig : Type}.
Context (rlp_EncodeToBytes : bxBlockRLP -> result (list byte)).
(** [connects p r]: connecting the connection at [p] may, at some time, have the result [r]. *)
Context (connects : Z -> socket * option go_error -> Prop) (close_err : socket -> option go_error).
Implicit Types g : gateway M EthConfig.

Definition message_ok (m : Message) : Prop := match m with MsgTx tx => is_uint32 (tx_txID tx) | MsgBroadcast _ => True end.

(** A step of one of the gateway's goroutines. *)
Inductive gw_step : gateway M EthConfig -> gateway M EthConfig -> Prop :=
  | gw_new_relay g p ip port : conn_objects g !! p = None -> gw_step g (NewRelay p ip port g)
  | gw_connect g r now init p ctl g' :
      connects p r -> readLoop_connect (fun _ => r) close_err now init p g = Ret (ctl, g') -> gw_step g g'
  | gw_read g now init read p ctl g' : readLoop_read close_err now init read p g = Ret (ctl, g') -> gw_step g g'
  | gw_send_round g p c accepts s :
      conn_objects g !! p = Some c -> sendLoop_round accepts close_err (tb_conn c) = Ret s -> gw_step g (set_conn g p s)
  | gw_close g p c :
      conn_objects g !! p = Some c -> gw_step g (set_conn g p (snd (SSLConn_Close close_err (tb_conn c))))
  | gw_node_transactions g now g' : on_node_transactions close_err now g = Ret g' -> gw_step g g'
  | gw_node_block g now g' : on_node_block rlp_EncodeToBytes close_err now g = Ret g' -> gw_step g g'
  | gw_message g now msg src background err g' :
      message_ok msg -> source_ok src g -> HandleMsg close_err now msg src background g = Ret (err, g') -> gw_step g g'
  | gw_async g now g' : HandleMsgAsync close_err now g = Ret g' -> gw_step g g'
  | gw_clean g now store n ids : TbTxStore_clean now (g_TxStore g) = Ret (store, n, ids) -> gw_step g (with_store g store).

(** Such a step, or whatever the backend does on the other side of the bridge. *)
Definition gateway_step g g' : Prop := gw_step g g' \/ exists b, g' = with_g_bridge g b.

(** A connection made without an error has a socket. *)
Definition socket_given : Prop := forall p sock, connects p (sock, None) -> sock <> NilInterface.

(** ** The invariant *)
Definition maxTxAge_ns : Z := 3 * 24 * 60 * minute_ns.

Definition info_ok g (info : MsgInfo) : Prop := message_ok (mi_Msg info) /\ source_ok (mi_Source info) g.

Record gw_ok g : Prop := {
  gw_gateway : gateway_ok g;
  gw_conns p c : conn_objects g !! p = Some c -> conn_ok (tb_conn c);
  gw_messages : Forall (info_ok g) (ch_buf (asyncMsgChannel g));
  gw_age : ts_maxTxAge (g_TxStore g) = maxTxAge_ns
}.

(** Connections are never forgotten: the objects stay, whoever refers to them. *)
Definition conns_grow g g' : Prop := forall p, is_Some (conn_objects g !! p) -> is_Some (conn_objects g' !! p).

Lemma info_ok_grow g g' info : conns_grow g g' -> info_ok g info -> info_ok g' info.
Proof. intros Hg [Hm Hs]. split; [done|]. intros p Hp. by apply Hg, Hs. Qed.

Lemma gw_ok_with g g' :
  gw_ok g -> gateway_ok g' -> conns_grow g g' -> asyncMsgChannel g' = asyncMsgChannel g ->
  ts_maxTxAge (g_TxStore g') = ts_maxTxAge (g_TxStore g) ->
  (forall p c, conn_objects g' !! p = Some c -> conn_ok (tb_conn c)) -> gw_ok g'.
Proof.
  intros [Hg Hc Hm Ha] Hg' Hgrow Hch Hage Hc'. split; [done|done| |congruence]. rewrite Hch.
  eapply Forall_impl; [done|]. intros info. by apply info_ok_grow.
Qed.

(** Replacing the connection behind an address. *)
Lemma set_conn_ok g p s : gw_ok g -> conn_ok s -> gw_ok (set_conn g p s).
Proof.
  intros Hok Hs. unfold set_conn. destruct (conn_objects g !! p) as [c|] eqn:Hp; [|done].
  destruct Hok as [(Hst & Hnd & Hex) Hc Hm Ha].
  assert (conns_grow g (with_conns g (Connections g) (<[p := with_conn c s]> (conn_objects g)))) as Hgrow.
  { intros q Hq. cbn. rewrite lookup_insert_is_Some'. by right. }
  eapply (gw_ok_with g); [by split| |done|done|done|].
  - split_and!; [done|done|]. intros q Hq. by apply Hgrow, Hex.
  - cbn. intros q c' Hq. apply lookup_insert_Some in Hq as [[<- <-]|[_ Hq]]; [done|by eapply Hc].
Qed.

Lemma set_conn_lookup g p s : is_Some (conn_objects g !! p) -> exists c, conn_objects (set_conn g p s) !! p = Some c /\ tb_conn c = s.
Proof. intros [c Hc]. unfold set_conn. rewrite Hc. eexists. cbn. by rewrite lookup_insert_eq. Qed.

Lemma set_conn_grow g p s : conns_grow g (set_conn g p s).
Proof.
  intros q Hq. unfold set_conn. destruct (conn_objects g !! p); [|done]. cbn.
  rewrite lookup_insert_is_Some'. by right.
Qed.

Lemma remove_by_ID_sublist os id cs cs' : remove_by_ID os id cs = Some cs' -> cs' `sublist_of` cs.
Proof.
  revert cs'. induction cs as [|p cs IH]; intros cs'; simpl; [done|].
  destruct (decide _); [intros [= <-]; by apply sublist_cons|].
  destruct (remove_by_ID os id cs) as [cs1|]; simpl; [|done]. intros [= <-]. apply sublist_skip. by apply IH.
Qed.

Lemma OnConnClosed_ok p g err g' : gw_ok g -> OnConnClosed p g = Ret (err, g') -> gw_ok g' /\ conn_objects g' = conn_objects g.
Proof.
  intros Hok. unfold OnConnClosed. destruct (conn_objects g !! p) as [c|]; go_simpl; [|done].
  destruct (remove_by_ID _ _ _) as [cs|] eqn:Hr; intros [= _ <-]; [|done]. split; [|done].
  apply remove_by_ID_sublist in Hr. destruct Hok as [(Hst & Hnd & Hex) Hc Hm Ha].
  eapply (gw_ok_with g); [by split| |by intros q|done|done|done].
  split_and!; [done|by eapply sublist_NoDup|]. cbn. intros q Hq. apply Hex. by eapply elem_of_sublist.
Qed.

Lemma closeWithRetry_ok p g g' : gw_ok g -> closeWithRetry close_err p g = Ret g' -> gw_ok g' /\ conns_grow g g'.
Proof.
  intros Hok. unfold closeWithRetry. destruct (conn_objects g !! p) as [c|] eqn:Hp; go_simpl; [|done].
  set (g1 := with_conns g _ _).
  assert (gw_ok g1 /\ conns_grow g g1) as [Hok1 Hgrow1].
  { assert (conns_grow g g1) as Hgrow by (intros q Hq; cbn; rewrite lookup_insert_is_Some'; by right).
    split; [|done]. destruct Hok as [(Hst & Hnd & Hex) Hc Hm Ha]. eapply (gw_ok_with g); [by split| |done|done|done|].
    - split_and!; [done|done|]. intros q Hq. by apply Hgrow, Hex.
    - cbn. intros q c' Hq. apply lookup_insert_Some in Hq as [[<- <-]|[_ Hq]]; [|by eapply Hc]. cbn. by eapply Hc. }
  destruct (OnConnClosed p g1) as [[err g2]| |] eqn:Hcl; go_simpl; [|done..]. intros [= <-].
  destruct (OnConnClosed_ok _ _ _ _ Hok1 Hcl) as [Hok2 Hobj]. split.
  - apply set_conn_ok; [done|]. apply conn_ok_close. by eapply (gw_conns g Hok).
  - intros q Hq. apply set_conn_grow. rewrite Hobj. by apply Hgrow1.
Qed.

(** ** Messages *)
Lemma sent_conn_ok msg id c : conn_ok (tb_conn c) -> conn_ok (tb_conn (sent_conn close_err msg id c)).
Proof. intros Hc. unfold sent_conn. destruct (decide _); [done|]. by apply conn_ok_send. Qed.

Lemma broadcast_ok msg src to g g' r :
  Z.land Relay to <> 0 -> gw_ok g -> source_ok src g -> broadcast close_err msg src to g = Ret (g', r) ->
  gw_ok g' /\ conns_grow g g'.
Proof.
  intros Hto Hok Hsrc. unfold broadcast.
  destruct (source_ID g src) as [id| |]; go_simpl; [|done..]. intros Hb.
  destruct Hok as [(Hst & Hnd & Hex) Hc Hm Ha].
  destruct (broadcast_loop_spec close_err msg id to (Connections g) g (mkBroadcastResults 0 0 0 0 0) Hto Hnd Hex)
    as (os & r' & Hrun & Hos).
  assert (g' = with_conns g (Connections g) os) as -> by congruence.
  assert (conns_grow g (with_conns g (Connections g) os)) as Hgrow.
  { intros p Hp. cbn. rewrite Hos. destruct (decide _); [|done]. by rewrite fmap_is_Some. }
  split; [|done]. eapply (gw_ok_with g); [by split| |done|done|done|].
  - by apply (sent_conns_ok g os (sent_conn close_err msg id)).
  - cbn. intros p c. rewrite Hos. destruct (decide _); [|apply Hc]. intros (c0 & Hc0 & ->)%fmap_Some.
    by apply sent_conn_ok, (Hc p).
Qed.

Lemma processTransaction_ok now tx src g g' :
  gw_ok g -> source_ok src g -> is_uint32 (tx_txID tx) -> processTransaction close_err now tx src g = Ret g' ->
  gw_ok g' /\ conns_grow g g'.
Proof.
  intros Hok Hsrc Hid Hp.
  destruct (decide (tx_txID tx = TxIDEmpty /\ tx_content tx = [])) as [[Hi Hc]|Hmiss].
  { unfold processTransaction, TbTxStore_Add in Hp. by rewrite Hi, Hc in Hp. }
  assert (0 <= ts_maxTxAge (g_TxStore g)) as Hage by (by rewrite (gw_age g Hok)).
  destruct (processTransaction_effect close_err now tx src g (gw_gateway g Hok) Hsrc Hid Hage Hmiss)
    as (g1 & Hrun & Hok1 & Hcs & Hac & Hmax & _ & Hno & Hyes).
  assert (g1 = g') as -> by congruence.
  destruct (decide (brings_content now tx g)) as [Hb|Hb].
  - specialize (Hyes Hb). destruct src as [p|b]; cbn [news_sent] in Hyes; destruct Hyes as [_ Hobj].
    + assert (conns_grow g g') as Hgrow by (intros q; by rewrite Hobj). split; [|done].
      eapply (gw_ok_with g); try done. rewrite Hobj. apply (gw_conns g Hok).
    + assert (conns_grow g g') as Hgrow.
      { intros q Hq. rewrite Hobj. destruct (decide _); [|done]. by rewrite fmap_is_Some. }
      split; [|done]. eapply (gw_ok_with g); try done. intros q c. rewrite Hobj.
      destruct (decide _); [|apply (gw_conns g Hok)]. intros (c0 & Hc0 & ->)%fmap_Some.
      by apply sent_conn_ok, (gw_conns g Hok q).
  - rewrite (Hno Hb). split; [|by intros q]. rewrite (Hno Hb) in Hok1.
    eapply (gw_ok_with g); try done; [by intros q|apply (gw_conns g Hok)].
Qed.

Lemma HandleMsg_ok now msg src background g err g' :
  gw_ok g -> source_ok src g -> message_ok msg -> HandleMsg close_err now msg src background g = Ret (err, g') ->
  gw_ok g' /\ conns_grow g g'.
Proof.
  intros Hok Hsrc Hmsg. unfold HandleMsg. destruct background.
  - unfold send. destruct (decide _); go_simpl; [done|]. intros [= _ <-]. split; [|by intros p].
    destruct Hok as [Hg Hc Hm Ha]. split; [done|done| |done]. cbn. apply Forall_app. split; [done|].
    by apply Forall_singleton.
  - destruct msg as [tx|b]; [|intros [= _ <-]; split; [done|by intros q]].
    destruct (processTransaction _ _ _ _ _) as [g1| |] eqn:Hp; go_simpl; [|done..]. intros [= _ <-].
    by eapply processTransaction_ok.
Qed.

Lemma source_ok_grow g g' src : conns_grow g g' -> source_ok src g -> source_ok src g'.
Proof. intros Hg Hs p Hp. by apply Hg, Hs. Qed.

Lemma process_transactions_ok now txs src g g' :
  gw_ok g -> source_ok src g -> process_transactions close_err now txs src g = Ret g' -> gw_ok g'.
Proof.
  revert g. induction txs as [|tx txs IH]; intros g Hok Hsrc; simpl; [by intros [= <-]|].
  destruct (processTransaction _ _ _ _ _) as [g1| |] eqn:Hp; go_simpl; [|done..].
  apply processTransaction_ok in Hp as [Hok1 Hgrow]; [|done|done|by cbn]. apply IH; [done|]. by eapply source_ok_grow.
Qed.

(** The short ID of an unpacked message is 32 bits wide. *)
Lemma unpacked_message_ok now m buf m' e :
  is_uint32 (tx_txID m) -> Tx_Unpack now m buf = Ret (m', e) -> message_ok (MsgTx m').
Proof.
  intros Hm. unfold Tx_Unpack. destruct (BroadcastHeader_Unpack _ _) as [[bh [err|]]| |]; go_simpl; [|  |done..].
  { by intros [= <- _]. }
  destruct (get_le 4 buf BroadcastHeaderLen) as [id| |] eqn:Hid; go_simpl; [|done..].
  destruct (get_le 4 buf (BroadcastHeaderLen + TxIDLen)) as [ts| |]; go_simpl; [|done..].
  destruct (slice _ _ _) as [content| |]; go_simpl; [|done..].
  destruct (slice_from _ _) as [rest| |]; go_simpl; [|done..]. intros [= <- _]. cbn.
  by eapply get_le_4.
Qed.

Lemma Relay_ProcessMessage_ok now msg p g g' :
  gw_ok g -> is_Some (conn_objects g !! p) -> Relay_ProcessMessage close_err now msg p g = Ret g' ->
  gw_ok g' /\ conns_grow g g'.
Proof.
  intros Hok Hp. unfold Relay_ProcessMessage. destruct (TbType msg) as [ty| |]; go_simpl; [|done..].
  destruct (decide (ty = TxType)); [|intros [= <-]; split; [done|by intros q]].
  destruct (Tx_Unpack now empty_tx msg) as [[tx ue]| |] eqn:Hu; go_simpl; [|done..].
  apply unpacked_message_ok in Hu; [|by cbn].
  destruct (HandleMsg _ _ _ _ _ _) as [[err g1]| |] eqn:Hh; go_simpl; [|done..]. intros [= <-].
  eapply HandleMsg_ok; [done| |exact Hu|exact Hh]. by intros q [= <-].
Qed.

Lemma process_messages_ok now msgs p g g' :
  gw_ok g -> is_Some (conn_objects g !! p) -> process_messages close_err now msgs p g = Ret g' -> gw_ok g' /\ conns_grow g g'.
Proof.
  revert g. induction msgs as [|msg msgs IH]; intros g Hok Hp; simpl; [intros [= <-]; split; [done|by intros q]|].
  destruct (Relay_ProcessMessage _ _ _ _ _) as [g1| |] eqn:Hr; go_simpl; [|done..]. intros Hrest.
  destruct (Relay_ProcessMessage_ok _ _ _ _ _ Hok Hp Hr) as [Hok1 Hgrow].
  destruct (IH g1 Hok1 (Hgrow p Hp) Hrest) as [Hok2 Hgrow2]. split; [done|]. intros q Hq. by apply Hgrow2, Hgrow.
Qed.

(** ** The loops *)
Lemma readLoop_closed_ok init p g ctl g' : gw_ok g -> readLoop_closed close_err init p g = Ret (ctl, g') -> gw_ok g'.
Proof.
  intros Hok. unfold readLoop_closed. destruct (conn_objects g !! p) as [c|] eqn:Hp; go_simpl; [|done].
  destruct init.
  - destruct (closeWithRetry _ _ _) as [g1| |] eqn:Hc; go_simpl; [|done..]. intros [= _ <-].
    by apply closeWithRetry_ok in Hc as [? _].
  - intros [= _ <-]. apply set_conn_ok; [done|]. by apply conn_ok_close, (gw_conns g Hok p).
Qed.

Lemma readLoop_connect_ok r now init p g ctl g' :
  (snd r = None -> fst r <> NilInterface) ->
  gw_ok g -> readLoop_connect (fun _ => r) close_err now init p g = Ret (ctl, g') -> gw_ok g'.
Proof.
  intros Hconn Hok. unfold readLoop_connect. destruct (conn_objects g !! p) as [c|] eqn:Hp; go_simpl; [|done].
  destruct (SSLConn_Connect r now (tb_conn c)) as [err conn] eqn:Hc.
  assert (conn_ok conn) as Hco by (eapply conn_ok_connect; [exact Hconn|exact Hc|by apply (gw_conns g Hok p)]).
  assert (gw_ok (set_conn g p conn)) as Hok1 by by apply set_conn_ok.
  destruct err; [|by intros [= _ <-]]. destruct init.
  - destruct (closeWithRetry _ _ _) as [g1| |] eqn:Hcl; go_simpl; [|done..]. intros [= _ <-].
    by apply closeWithRetry_ok in Hcl as [? _].
  - intros [= _ <-]. apply set_conn_ok; [done|]. by apply conn_ok_close.
Qed.

Lemma readLoop_read_ok now init read p g ctl g' : gw_ok g -> readLoop_read close_err now init read p g = Ret (ctl, g') -> gw_ok g'.
Proof.
  intros Hok. unfold readLoop_read. destruct (conn_objects g !! p) as [c|] eqn:Hp; go_simpl; [|done].
  destruct (negb _); [by apply readLoop_closed_ok|].
  destruct (SSLConn_ReadMessages close_err read (tb_conn c)) as [[[err msgs] conn]| |] eqn:Hr; go_simpl; [|done..].
  assert (gw_ok (set_conn g p conn)) as Hok1.
  { apply set_conn_ok; [done|]. eapply conn_ok_read; [exact Hr|]. by apply (gw_conns g Hok p). }
  destruct (process_messages _ _ _ _ _) as [g1| |] eqn:Hpm; go_simpl; [|done..].
  destruct (process_messages_ok _ _ _ _ _ Hok1 (set_conn_grow g p conn p (mk_is_Some _ _ Hp)) Hpm) as [Hok2 _].
  destruct err; [by apply readLoop_closed_ok|by intros [= _ <-]].
Qed.

Lemma NewRelay_ok p ip port g : conn_objects g !! p = None -> gw_ok g -> gw_ok (NewRelay p ip port g).
Proof.
  intros Hp Hok. destruct Hok as [(Hst & Hnd & Hex) Hc Hm Ha].
  assert (conns_grow g (NewRelay p ip port g)) as Hgrow by (intros q Hq; cbn; rewrite lookup_insert_is_Some'; by right).
  eapply (gw_ok_with g); [by split| |done|done|done|].
  - split_and!; [done| |].
    + cbn. apply NoDup_app. split_and!; [done| |apply NoDup_singleton].
      intros q Hq ->%list_elem_of_singleton. destruct (Hex p Hq) as [c Hc']. congruence.
    + cbn. intros q [Hq|Hq%list_elem_of_singleton]%elem_of_app; rewrite lookup_insert_is_Some'; [right; by apply Hex|by left].
  - cbn. intros q c Hq. apply lookup_insert_Some in Hq as [[<- <-]|[_ Hq]]; [apply conn_ok_new|by eapply Hc].
Qed.

Lemma on_node_block_ok now g g' : gw_ok g -> on_node_block rlp_EncodeToBytes close_err now g = Ret g' -> gw_ok g'.
Proof.
  intros Hok. unfold on_node_block, processBlockFromBlockchain.
  destruct (ReceiveBlockFromNode (g_bridge g)) as [[bn b]| |]; go_simpl; [|done..].
  destruct (BxBlockToBroadcast _ _ _ _ _) as [[[msg ids] err] bp].
  destruct (broadcast _ _ _ _ _) as [[g1 r]| |] eqn:Hb; go_simpl; [|done..]. intros [= <-].
  eapply broadcast_ok in Hb as [Hok1 _]; [done|done| |by intros p]. destruct Hok as [Hg Hc Hm Ha]. by split.
Qed.

Lemma on_node_transactions_ok now g g' : gw_ok g -> on_node_transactions close_err now g = Ret g' -> gw_ok g'.
Proof.
  intros Hok. unfold on_node_transactions. destruct (ReceiveNodeTransactions (g_bridge g)) as [[t b]| |]; go_simpl; [|done..].
  apply process_transactions_ok; [|by intros p]. destruct Hok as [Hg Hc Hm Ha]. by split.
Qed.

Lemma HandleMsgAsync_ok now g g' : gw_ok g -> HandleMsgAsync close_err now g = Ret g' -> gw_ok g'.
Proof.
  intros Hok. unfold HandleMsgAsync, recv. destruct (asyncMsgChannel g) as [cap [|info buf]] eqn:Hch; go_simpl; [done|].
  cbn [ch_buf]. go_simpl. destruct (HandleMsg _ _ _ _ _ _) as [[err g1]| |] eqn:Hh; go_simpl; [|done..]. intros [= <-].
  destruct Hok as [Hg Hc Hm Ha]. rewrite Hch in Hm. cbn in Hm. apply Forall_cons in Hm as [[Hmsg Hsrc] Hm].
  eapply HandleMsg_ok in Hh as [Hok1 _]; [done| |done|done]. by split.
Qed.

Lemma clean_items_age now items (st st' : TbTxStore M unit * gmap Z networkData * gmap Z (list Z)) :
  clean_items now st items = Ret st' -> ts_maxTxAge st'.1.1 = ts_maxTxAge st.1.1.
Proof.
  revert st. induction items as [|item items IH]; intros [[t nets] ids]; simpl; [by intros [= <-]|].
  assert (ts_maxTxAge (remove now t item.1 FullReEntryProtection) = ts_maxTxAge t) as Hrm by apply remove_config.
  repeat (case_match; go_simpl; try done); intros Hrun; apply IH in Hrun; rewrite Hrun; done.
Qed.

Lemma clean_age now t t' n ids : TbTxStore_clean now t = Ret (t', n, ids) -> ts_maxTxAge t' = ts_maxTxAge (t : TbTxStore M unit).
Proof.
  unfold TbTxStore_clean. destruct (clean_items _ _ _) as [[[t1 nets] ids1]| |] eqn:Hc; go_simpl; [|done..].
  intros [= <- _ _]. by apply clean_items_age in Hc.
Qed.

Lemma gw_step_ok g g' :
  socket_given -> gw_ok g -> gw_step g g' -> gw_ok g'.
Proof.
  intros Hconn Hok. destruct 1 as [g p ip port Hp|g r now init p ctl g' Hc Hr|g now init read p ctl g' Hr|g p c acc s Hp Hr|g p c Hp
    |g now g' Hr|g now g' Hr|g now msg src bg err g' Hm Hs Hr|g now g' Hr|g now store n ids Hr].
  - by apply NewRelay_ok.
  - eapply readLoop_connect_ok; [|done|exact Hr]. destruct r as [sock e]. cbn. intros ->. by eapply Hconn.
  - by eapply readLoop_read_ok.
  - apply set_conn_ok; [done|]. eapply conn_ok_round; [exact Hr|]. by apply (gw_conns g Hok p).
  - apply set_conn_ok; [done|]. apply conn_ok_close. by apply (gw_conns g Hok p).
  - by eapply on_node_transactions_ok.
  - by eapply on_node_block_ok.
  - by eapply HandleMsg_ok.
  - by eapply HandleMsgAsync_ok.
  - destruct Hok as [(Hst & Hnd & Hex) Hc Hm Ha]. destruct (clean_returns now (g_TxStore g)) as (t' & ids' & Hcl).
    destruct (Hcl Hst) as (Hst' & _ & Heq). assert (store = t') as -> by congruence.
    eapply (gw_ok_with g); [by split|by split_and!|by intros p|done| |done]. by eapply clean_age.
Qed.
End System.

(** ** Properties *)
Lemma with_g_bridge_ok {M : Type -> Type} `{ConcurrentMapLaws M} {C} (g : gateway M C) b : gw_ok g -> gw_ok (with_g_bridge g b).
Proof. intros [Hg Hc Hm Ha]. by split. Qed.

Section Properties.
Context {M : Type -> Type} `{ConcurrentMapLaws M} {EthConfig : Type}.
Context (rlp_EncodeToBytes : bxBlockRLP -> result (list byte)).
Context (connects : Z -> socket * option go_error -> Prop) (close_err : socket -> option go_error).
Implicit Types g : gateway M EthConfig.

Lemma NewGateway_ok bridge : gw_ok (M:=M) (EthConfig:=EthConfig) (NewGateway bridge).
Proof.
  split; [|done|by constructor|done]. split_and!; [|by constructor|by intros p ?%not_elem_of_nil].
  split; intros k ?; unfold contents, ids_map; simpl; by rewrite cm_view_new, lookup_empty.
Qed.

(** C5: The gateway keeps its state in order. Whatever the backend puts on the bridge, whatever messages
    relays send, however connections open, fail, fill up and close, and whenever the store is cleaned: the
    store stays consistent; the list of connections names existing connections, each once; what was
    written on a connection since it was made are whole messages, in the order they were queued; its queue
    is within its size, and it is open only with a socket. A broadcast never crashes in such a state. *)
Theorem gateway_reachable_ok bridge g :
  socket_given connects ->
  rtc (gateway_step rlp_EncodeToBytes connects close_err) (NewGateway bridge) g ->
  store_ok (g_TxStore g) /\ NoDup (Connections g) /\ (forall p, p ∈ Connections g -> is_Some (conn_objects g !! p)) /\
  (forall p c, conn_objects g !! p = Some c ->
     let s := tb_conn c in
     (exists sent bufs, Forall2 (fun m b => Message_Pack m = Ret b) sent bufs /\ conn_written s = concat bufs) /\
     Z.of_nat (length (ch_buf (sendMessages s))) <= ch_cap (sendMessages s) /\
     (connectionOpen s = true -> Socket s <> NilInterface)) /\
  (forall msg src to, source_ok src g -> Z.land Relay to <> 0 -> is_ret (broadcast close_err msg src to g) = true).
Proof.
  intros Hconn Hr. assert (gw_ok g) as [(Hst & Hnd & Hex) Hc Hm Ha].
  { generalize (NewGateway_ok bridge). induction Hr as [|x y z Hxy _ IH]; [done|]. intros Hx. apply IH.
    destruct Hxy as [Hxy|[b ->]]; [by eapply gw_step_ok|by apply with_g_bridge_ok]. }
  split_and!; try done.
  - intros p c Hp. destruct (Hc p c Hp) as [(acc & sent & bufs & rest & _ & Hpk & Hw & _ & Hq) [_ Hs]].
    split_and!; [by exists sent, bufs|done|done].
  - intros msg src to Hsrc Hto. unfold broadcast.
    destruct (source_ID g src) as [id|e|] eqn:Hid.
    + go_simpl. destruct (broadcast_loop_spec close_err msg id to (Connections g) g (mkBroadcastResults 0 0 0 0 0) Hto Hnd Hex)
        as (os & r' & Hrun & _). by rewrite Hrun.
    + exfalso. destruct src as [p|b]; cbn in Hid; [|done]. destruct (Hsrc p eq_refl) as [c Hp]. by rewrite Hp in Hid.
    + exfalso. destruct src as [p|b]; cbn in Hid; [|done]. destruct (Hsrc p eq_refl) as [c Hp]. by rewrite Hp in Hid.
Qed.
End Properties.

(** ** Witness: a connection is made and opened, and a transaction of the node is sent *)
Definition ex_connect (p : Z) : socket * option go_error := (TLSConn p, None).
Definition ex_connects (p : Z) (r : socket * option go_error) : Prop := r = ex_connect p.
Definition ex_step0 : gateway (gmap string) unit := NewGateway NewTurboBridge.
Definition ex_step1 : gateway (gmap string) unit := NewRelay 7 "127.0.0.1" 443 ex_step0.
Definition ex_step2 : gateway (gmap string) unit :=
  match readLoop_connect ex_connect (fun _ => None) 0 true 7 ex_step1 with Ret (_, g) => g | _ => ex_step1 end.
Definition ex_step3 : gateway (gmap string) unit :=
  match HandleMsg (fun _ => None) 5 (MsgTx ex_tx) ex_source false ex_step2 with Ret (_, g) => g | _ => ex_step2 end.

Example gateway_reachable_ok_witness :
  store_ok (g_TxStore ex_step3) /\ NoDup (Connections ex_step3) /\
  exists c, conn_objects ex_step3 !! 7 = Some c /\ connectionOpen (tb_conn c) = true /\ length (ch_buf (sendMessages (tb_conn c))) = 1%nat.
Proof.
  destruct (gateway_reachable_ok (M:=gmap string) ex_encode ex_connects (fun _ => None) NewTurboBridge ex_step3)
    as (Hs & Hnd & _).
  - by intros p sock [= ->].
  - apply (rtc_l _ _ ex_step1); [left; by apply gw_new_relay|].
    apply (rtc_l _ _ ex_step2); [left; by eapply (gw_connect _ _ _ ex_step1 (ex_connect 7) 0 true 7 Reading)|].
    apply rtc_once. left. by eapply (gw_message _ _ _ ex_step2 5 (MsgTx ex_tx) ex_source false None).
  - split; [exact Hs|]. split; [exact Hnd|]. eexists. split; [reflexivity|]. split; vm_compute; reflexivity.
Defined.
