(* ===== verification/GatewayRel.v ===== *)
(** Relations between the states of the gateway that its elementary updates preserve: the updates of its
    fields, the calls on the bridge, and what happens to a connection. Every step of the gateway is made of
    these, so that it satisfies every such relation. *)
From S2P Require Import Prelude Bytes CMap TbMessage Framing Types TxStore BlockProcessor Channel Bridge NodeConfig Conn Gateway GatewaySystem.

Section Rel.
Context {M : Type -> Type} `{!ConcurrentMap M} {EthConfig : Type}.
Context (rlp_EncodeToBytes : bxBlockRLP -> result (list byte)).
Context (connects : Z -> socket * option go_error -> Prop) (close_err : socket -> option go_error).
Implicit Types g : gateway M EthConfig.

(** What may happen to the connection at [p]. *)
Inductive conn_change (p : Z) (s : SSLConn) : SSLConn -> Prop :=
  | change_connect r now : connects p r -> conn_change p s (snd (SSLConn_Connect r now s))
  | change_send m : conn_change p s (snd (SSLConn_Send close_err m s))
  | change_close : conn_change p s (snd (SSLConn_Close close_err s))
  | change_round accepts s' : sendLoop_round accepts close_err s = Ret s' -> conn_change p s s'
  | change_read read err msgs s' : SSLConn_ReadMessages close_err read s = Ret (err, msgs, s') -> conn_change p s s'.

Class GatewayRel (R : relation (gateway M EthConfig)) : Prop := {
  gateway_rel_preorder :: PreOrder R;
  rel_same g g' : Connections g' = Connections g -> conn_objects g' = conn_objects g -> g_bridge g' = g_bridge g -> R g g';
  rel_SendTransactionsFromBDN g txs : R g (with_g_bridge g (snd (SendTransactionsFromBDN (g_bridge g) txs)));
  rel_ReceiveNodeTransactions g t b : ReceiveNodeTransactions (g_bridge g) = Ret (t, b) -> R g (with_g_bridge g b);
  rel_ReceiveBlockFromNode g t b : ReceiveBlockFromNode (g_bridge g) = Ret (t, b) -> R g (with_g_bridge g b);
  rel_conn g p c s : conn_objects g !! p = Some c -> conn_change p (tb_conn c) s -> R g (set_conn g p s);
  rel_established g p c : conn_objects g !! p = Some c ->
    R g (with_conns g (Connections g) (<[p := mkTbConn (tb_conn c) false (closed c)]> (conn_objects g)));
  rel_removed g id cs : remove_by_ID (conn_objects g) id (Connections g) = Some cs -> R g (with_conns g cs (conn_objects g));
  rel_NewRelay g p ip port : conn_objects g !! p = None -> R g (NewRelay p ip port g)
}.

(** ** Computations *)
Section Computations.
Context (R : relation (gateway M EthConfig)) `{!GatewayRel R}.

(** A computation with a gateway in its result, all of whose results are related to the gateway it began
    with. *)
Definition moves {A} (proj : A -> gateway M EthConfig) (m : outcome A) g : Prop := post m (fun a => R g (proj a)).

Lemma moves_bind {A A'} (proj : A -> gateway M EthConfig) (proj' : A' -> gateway M EthConfig) (m : outcome A) (f : A -> outcome A') g :
  moves proj m g -> (forall a, moves proj' (f a) (proj a)) -> moves proj' (x ← m; f x) g.
Proof. intros Hm Hf. eapply post_bind; [exact Hm|]. intros a Ha a' Ha'. transitivity (proj a); [done|by apply Hf]. Qed.

(** The same when there is no gateway in the first computation. *)
Lemma moves_skip {A A'} (proj' : A' -> gateway M EthConfig) (m : outcome A) (f : A -> outcome A') g :
  (forall a, m = Ret a -> moves proj' (f a) g) -> moves proj' (x ← m; f x) g.
Proof. intros Hf. destruct m as [a| |]; [by apply Hf|done..]. Qed.

Lemma moves_ret {A} (proj : A -> gateway M EthConfig) a g : R g (proj a) -> moves proj (mret a) g.
Proof. by intros Ha ? [= <-]. Qed.

Lemma moves_from {A} (proj : A -> gateway M EthConfig) (m : outcome A) g g1 : R g g1 -> moves proj m g1 -> moves proj m g.
Proof. intros Hg Hm a Ha. transitivity g1; [done|by apply Hm]. Qed.

Lemma moves_same {A} (proj : A -> gateway M EthConfig) (m : outcome A) g g1 :
  Connections g1 = Connections g -> conn_objects g1 = conn_objects g -> g_bridge g1 = g_bridge g -> moves proj m g1 -> moves proj m g.
Proof. intros. eapply moves_from; [|done]. by apply rel_same. Qed.

Lemma set_conn_bridge g p s : g_bridge (set_conn g p s) = g_bridge g.
Proof. unfold set_conn. by destruct (conn_objects g !! p). Qed.

Lemma deref_some {A} (o : option A) a : deref o = Ret a -> o = Some a.
Proof. destruct o; [by intros [= ->]|done]. Qed.

Lemma broadcast_to_moves msg id to p g r : moves fst (broadcast_to close_err msg id to p g r) g.
Proof.
  apply moves_skip. intros c Hc%deref_some. cbn zeta. case_decide; [by apply moves_ret|]. case_decide; [by apply moves_ret|].
  pose proof (rel_conn g p c _ Hc (change_send p (tb_conn c) msg)) as Hr. destruct (SSLConn_Send _ _ _) as [[e|] conn]; by apply moves_ret.
Qed.

Lemma broadcast_moves msg src to g : moves fst (broadcast close_err msg src to g) g.
Proof.
  apply moves_skip. intros id _. generalize (Connections g) as cs, (mkBroadcastResults 0 0 0 0 0) as r.
  intros cs. revert g. induction cs as [|p cs IH]; intros g r; simpl; [by apply moves_ret|].
  eapply (moves_bind fst); [apply broadcast_to_moves|]. intros [g1 r1]. apply IH.
Qed.

Lemma processTransaction_moves now tx src g : moves id (processTransaction close_err now tx src g) g.
Proof.
  apply moves_skip. intros [r store] _. cbn zeta. apply (moves_same _ _ _ (with_store g store)); [done..|].
  destruct (negb _); [by apply moves_ret|]. apply moves_skip. intros info _.
  eapply (moves_bind id).
  - destruct (IsRelay info); [by apply moves_ret|].
    eapply (moves_bind fst); [apply broadcast_moves|]. intros [g1 r1]. by apply moves_ret.
  - intros g1. unfold id. case_decide; [|by apply moves_ret]. apply moves_skip. intros t _.
    apply moves_ret, rel_SendTransactionsFromBDN.
Qed.

Lemma process_transactions_moves now txs src g : moves id (process_transactions close_err now txs src g) g.
Proof.
  revert g. induction txs as [|tx txs IH]; intros g; simpl; [by apply moves_ret|].
  eapply (moves_bind id); [apply processTransaction_moves|]. intros g1. apply IH.
Qed.

Lemma HandleMsg_moves now msg src background g : moves snd (HandleMsg close_err now msg src background g) g.
Proof.
  unfold HandleMsg. destruct background; [apply moves_skip; intros c _; by apply moves_ret, rel_same|].
  destruct msg as [tx|b]; [|by apply moves_ret].
  eapply (moves_bind id); [apply processTransaction_moves|]. intros g1. by apply moves_ret.
Qed.

Lemma HandleMsgAsync_moves now g : moves id (HandleMsgAsync close_err now g) g.
Proof.
  apply moves_skip. intros [info c] _. apply (moves_same _ _ _ (with_async g c)); [done..|].
  eapply (moves_bind snd); [apply HandleMsg_moves|]. intros [e g1]. by apply moves_ret.
Qed.

Lemma on_node_transactions_moves now g : moves id (on_node_transactions close_err now g) g.
Proof.
  apply moves_skip. intros [t b] Hr. apply (moves_from _ _ _ (with_g_bridge g b)); [by eapply rel_ReceiveNodeTransactions|].
  apply process_transactions_moves.
Qed.

Lemma on_node_block_moves now g : moves id (on_node_block rlp_EncodeToBytes close_err now g) g.
Proof.
  apply moves_skip. intros [t b] Hr. apply (moves_from _ _ _ (with_g_bridge g b)); [by eapply rel_ReceiveBlockFromNode|].
  unfold processBlockFromBlockchain. destruct (BxBlockToBroadcast _ _ _ _ _) as [[[msg ids] e] bp].
  apply (moves_same _ _ _ (with_processor (with_g_bridge g b) bp)); [done..|].
  eapply (moves_bind fst); [apply broadcast_moves|]. intros [g1 r]. by apply moves_ret.
Qed.

Lemma Relay_ProcessMessage_moves now msg p g : moves id (Relay_ProcessMessage close_err now msg p g) g.
Proof.
  apply moves_skip. intros ty _. case_decide; [|by apply moves_ret]. apply moves_skip. intros [tx e] _.
  eapply (moves_bind snd); [apply HandleMsg_moves|]. intros [e' g1]. by apply moves_ret.
Qed.

Lemma process_messages_moves now msgs p g : moves id (process_messages close_err now msgs p g) g.
Proof.
  revert g. induction msgs as [|msg msgs IH]; intros g; simpl; [by apply moves_ret|].
  eapply (moves_bind id); [apply Relay_ProcessMessage_moves|]. intros g1. apply IH.
Qed.

(** [OnConnClosed] leaves the connections themselves alone. *)
Lemma OnConnClosed_moves p g : moves snd (OnConnClosed p g) g.
Proof.
  apply moves_skip. intros c _. destruct (remove_by_ID _ _ _) eqn:Hr; apply moves_ret; [by eapply rel_removed|done].
Qed.

Lemma OnConnClosed_objects p g e g' : OnConnClosed p g = Ret (e, g') -> conn_objects g' = conn_objects g.
Proof.
  unfold OnConnClosed. destruct (deref _); go_simpl; [|done..]. by destruct (remove_by_ID _ _ _); intros [= <- <-].
Qed.

Lemma closeWithRetry_moves p g : moves id (closeWithRetry close_err p g) g.
Proof.
  apply moves_skip. intros c Hc%deref_some. cbn zeta. set (g0 := with_conns _ _ _).
  apply (moves_from _ _ _ g0); [by apply rel_established|].
  destruct (OnConnClosed p g0) as [[e g1]| |] eqn:Ho; [|by intros ?..]. go_simpl. apply moves_ret.
  transitivity g1; [by eapply (OnConnClosed_moves p g0 _ Ho)|]. apply OnConnClosed_objects in Ho.
  eapply (rel_conn g1 p (mkTbConn (tb_conn c) false (closed c))); [|apply change_close].
  rewrite Ho. apply lookup_insert_eq.
Qed.

Lemma readLoop_closed_moves init p g : moves snd (readLoop_closed close_err init p g) g.
Proof.
  apply moves_skip. intros c Hc%deref_some. destruct init; [|by eapply moves_ret, rel_conn, change_close].
  eapply (moves_bind id); [apply closeWithRetry_moves|]. intros g1. by apply moves_ret.
Qed.

Lemma readLoop_connect_moves r now init p g : connects p r -> moves snd (readLoop_connect (fun _ => r) close_err now init p g) g.
Proof.
  intros Hr. apply moves_skip. intros c Hc%deref_some. pose proof (change_connect p (tb_conn c) r now Hr) as Hchange.
  destruct (SSLConn_Connect _ _ _) as [e conn]. cbn in Hchange. cbn zeta.
  apply (moves_from _ _ _ (set_conn g p conn)); [by eapply rel_conn|]. destruct e as [e|]; [|by apply moves_ret].
  destruct init.
  - eapply (moves_bind id); [apply closeWithRetry_moves|]. intros g1. by apply moves_ret.
  - apply moves_ret. eapply (rel_conn _ p (with_conn c conn)); [|apply change_close].
    unfold set_conn. rewrite Hc. apply lookup_insert_eq.
Qed.

Lemma readLoop_read_moves now init read p g : moves snd (readLoop_read close_err now init read p g) g.
Proof.
  apply moves_skip. intros c Hc%deref_some. destruct (negb _); [apply readLoop_closed_moves|].
  apply moves_skip. intros [[e msgs] conn] Hread.
  apply (moves_from _ _ _ (set_conn g p conn)); [by eapply rel_conn, change_read|].
  eapply (moves_bind id); [apply process_messages_moves|].
  intros g1. destruct e; [apply readLoop_closed_moves|by apply moves_ret].
Qed.

(** A step of the gateway satisfies the relation. *)
Lemma gw_step_moves g g' : gw_step rlp_EncodeToBytes connects close_err g g' -> R g g'.
Proof.
  destruct 1 as [g p ip port Hp|g r now init p ctl g' Hc Hr|g now init read p ctl g' Hr|g p c acc s Hp Hr|g p c Hp
    |g now g' Hr|g now g' Hr|g now msg src bg err g' Hm Hs Hr|g now g' Hr|g now store n ids Hr].
  - by apply rel_NewRelay.
  - by apply (readLoop_connect_moves r now init p g Hc) in Hr.
  - by apply (readLoop_read_moves now init read p g) in Hr.
  - by eapply rel_conn, change_round.
  - by eapply rel_conn, change_close.
  - by apply (on_node_transactions_moves now g) in Hr.
  - by apply (on_node_block_moves now g) in Hr.
  - by apply (HandleMsg_moves now msg src bg g) in Hr.
  - by apply (HandleMsgAsync_moves now g) in Hr.
  - by apply rel_same.
Qed.
End Computations.
End Rel.
