(* ===== verification/Pipeline.v ===== *)
(** From the backend to the relay: the blocks that wait in the bridge pass the gateway, its block processor,
    the queue of a connection and the wire, and reach the relay's receive loop. *)
From S2P Require Import Prelude Bytes CMap TbMessage Framing HashHistory Types TxStore TxStoreFacts BlockProcessor.
From S2P Require Import Channel Bridge NodeConfig Conn Gateway GatewayProps.

(** ** The send loop makes progress *)
Section Rounds.
Context (accepts : list byte -> bool) (close_err : socket -> option go_error).
Hypothesis all_accepted : forall written, accepts written = true.

(** The connection after all its queue was written. *)
Definition written_out (s : SSLConn) (bufs : list (list byte)) : SSLConn :=
  with_sending s (conn_written s ++ concat bufs) (mkchan (ch_cap (sendMessages s)) []).

Lemma drain_writes q bufs s :
  connectionOpen s = true -> ch_buf (sendMessages s) = q -> Forall2 (fun m b => Message_Pack m = Ret b) q bufs ->
  drain accepts close_err (length q) s = Ret (written_out s bufs).
Proof.
  intros Ho Hq Hp. revert s Ho Hq. induction Hp as [|m buf q bufs Hm Hp IH]; intros s Ho Hq.
  - simpl. unfold written_out. rewrite app_nil_r. by destruct s as [? ? ? ? ? ? ? ? [cap b] ? ? ?]; simpl in *; subst.
  - simpl. unfold recv. rewrite Hq. go_simpl. unfold packAndWrite at 1. cbn [connectionOpen with_sending].
    rewrite Ho. cbn [negb]. rewrite Hm. go_simpl. rewrite all_accepted. go_simpl. rewrite IH by done.
    unfold written_out. cbn. by rewrite <- app_assoc.
Qed.

Lemma round_writes bufs s :
  connectionOpen s = true -> sendLoopRunning s = true -> ch_buf (sendMessages s) <> [] ->
  Forall2 (fun m b => Message_Pack m = Ret b) (ch_buf (sendMessages s)) bufs ->
  sendLoop_round accepts close_err s = Ret (written_out s bufs).
Proof.
  intros Ho Hrun Hne Hp. unfold sendLoop_round. rewrite Hrun. cbn [negb]. unfold recv.
  destruct (ch_buf (sendMessages s)) as [|m q] eqn:Hq; [done|]. cbn [mret outcome_ret]. rewrite <- Hq in Hp |- *.
  rewrite (drain_writes (ch_buf (sendMessages s)) bufs) by done. go_simpl. by rewrite all_accepted.
Qed.
End Rounds.

(** ** Blocks through the gateway *)
Section Blocks.
Context {M : Type -> Type} `{ConcurrentMapLaws M} {EthConfig : Type}.
Context (rlp_EncodeToBytes : bxBlockRLP -> result (list byte)).
Context (accepts : list byte -> bool) (close_err : socket -> option go_error).
Hypothesis all_accepted : forall written, accepts written = true.
Implicit Types g : gateway M EthConfig.

(** The message for a block with encoding [enc]. *)
Definition block_message (block : TbBlock) (enc : list byte) : Broadcast := NewBlockBroadcast (tb_hash block) enc [] 0.

(** A connection the gateway can send on: open, with a socket and a running send loop. *)
Definition ready (s : SSLConn) : Prop :=
  connectionOpen s = true /\ Socket s <> NilInterface /\ sendLoopRunning s = true.

Definition queued (c : TbConn) (ms : list Message) : TbConn :=
  with_conn c (with_sending (tb_conn c) (conn_written (tb_conn c))
    (mkchan (ch_cap (sendMessages (tb_conn c))) (ch_buf (sendMessages (tb_conn c)) ++ ms))).

Lemma queued_nil c : queued c [] = c.
Proof. destruct c as [[? ? ? ? ? ? ? ? [cap b] ? ? ?] ? ?]. unfold queued. cbn. by rewrite app_nil_r. Qed.

Lemma queued_queued c ms1 ms2 : queued (queued c ms1) ms2 = queued c (ms1 ++ ms2).
Proof. unfold queued. cbn. by rewrite app_assoc. Qed.

Lemma sent_conn_ready msg c :
  ready (tb_conn c) -> ~ chan_full (sendMessages (tb_conn c)) ->
  sent_conn close_err msg PlaceholderID c = queued c [msg].
Proof.
  intros (Ho & Hs & Hr) Hf. unfold sent_conn. rewrite decide_False by (rewrite Ho; by intros [|]).
  unfold queued. f_equal. unfold SSLConn_Send, queueToMessageChan, try_send. rewrite Ho, decide_False by done.
  by destruct (Socket (tb_conn c)).
Qed.

(** One block: it leaves the bridge, counts as processed, and its message joins the queue. *)
Lemma on_node_block_queues now g p c bn rest enc :
  gateway_ok g -> p ∈ Connections g -> conn_objects g !! p = Some c -> ready (tb_conn c) ->
  ~ chan_full (sendMessages (tb_conn c)) -> ch_buf (blocksFromNode (g_bridge g)) = bn :: rest ->
  ShouldProcess now (blockProcessor g) (tb_hash (bn_Block bn)) = true ->
  rlp_EncodeToBytes (block_rlp (bn_Block bn)) = Ok enc ->
  exists g', on_node_block rlp_EncodeToBytes close_err now g = Ret g' /\ gateway_ok g' /\
    Connections g' = Connections g /\ ch_buf (blocksFromNode (g_bridge g')) = rest /\
    blockProcessor g' = markProcessed now (blockProcessor g) (tb_hash (bn_Block bn)) /\
    conn_objects g' !! p = Some (queued c [MsgBroadcast (Some (block_message (bn_Block bn) enc))]).
Proof.
  intros Hok Hp Hc Hr Hf Hbuf Hproc Henc. pose proof Hok as (Hst & Hnd & Hex).
  unfold on_node_block, ReceiveBlockFromNode, recv. rewrite Hbuf. go_simpl.
  unfold processBlockFromBlockchain, BxBlockToBroadcast. cbn [blockProcessor with_g_bridge]. rewrite Hproc, Henc. cbn [negb].
  set (g0 := with_processor _ _). unfold broadcast. cbn [source_ID]. go_simpl.
  destruct (broadcast_loop_spec close_err (MsgBroadcast (Some (block_message (bn_Block bn) enc))) PlaceholderID RelayBlock
    (Connections g0) g0 (mkBroadcastResults 0 0 0 0 0) ltac:(done) Hnd Hex) as (os & r' & Hloop & Hos).
  unfold block_message in Hloop. rewrite Hloop. go_simpl.
  eexists. split; [done|]. split_and!; try done.
  - apply (sent_conns_ok g0 os (sent_conn close_err (MsgBroadcast (Some (block_message (bn_Block bn) enc))) PlaceholderID)); done.
  - cbn. rewrite Hos. cbn. rewrite decide_True, Hc by done. cbn. by rewrite sent_conn_ready.
Qed.

(** One round of [handleBridgeMessages] per time, each taking a block. *)
Fixpoint forward_blocks (times : list Z) g : outcome (gateway M EthConfig) :=
  match times with
  | [] => mret g
  | now :: times => g ← on_node_block rlp_EncodeToBytes close_err now g; forward_blocks times g
  end.

(** A block from a node with its encoding: small enough for a message. *)
Definition encoded (bn : BlockFromNode) (enc : list byte) : Prop :=
  rlp_EncodeToBytes (block_rlp (bn_Block bn)) = Ok enc /\ wf_hash (tb_hash (bn_Block bn)) /\ 90 + len enc < 2 ^ 32.

Definition messages_of (bns : list BlockFromNode) (encs : list (list byte)) : list Broadcast :=
  zip_with (fun bn enc => block_message (bn_Block bn) enc) bns encs.

Lemma forward_blocks_queue times g p c bns encs rest :
  gateway_ok g -> p ∈ Connections g -> conn_objects g !! p = Some c -> ready (tb_conn c) ->
  Z.of_nat (length (ch_buf (sendMessages (tb_conn c)))) + Z.of_nat (length bns) <= ch_cap (sendMessages (tb_conn c)) ->
  ch_buf (blocksFromNode (g_bridge g)) = bns ++ rest -> Forall2 encoded bns encs ->
  NoDup ((fun bn => tb_hash (bn_Block bn)) <$> bns) ->
  (forall bn now, bn ∈ bns -> ShouldProcess now (blockProcessor g) (tb_hash (bn_Block bn)) = true) ->
  length times = length bns ->
  exists g', forward_blocks times g = Ret g' /\ gateway_ok g' /\ ch_buf (blocksFromNode (g_bridge g')) = rest /\
    conn_objects g' !! p = Some (queued c ((fun b => MsgBroadcast (Some b)) <$> messages_of bns encs)).
Proof.
  intros Hok Hp Hc Hr Hroom Hbuf Henc. revert times g c Hok Hp Hc Hr Hroom Hbuf.
  induction Henc as [|bn enc bns encs [He _] Henc IH]; intros times g c Hok Hp Hc Hr Hroom Hbuf Hnd Hproc Hlen.
  - destruct times; [|done]. exists g. simpl. by rewrite queued_nil.
  - destruct times as [|now times]; [done|]. simpl in Hnd, Hroom, Hlen. apply NoDup_cons in Hnd as [Hfresh Hnd].
    destruct (on_node_block_queues now g p c bn (bns ++ rest) enc Hok Hp Hc Hr) as (g1 & Hstep & Hok1 & Hcs1 & Hbuf1 & Hbp1 & Hc1);
      [unfold chan_full; lia|done|apply Hproc; by left|done|].
    cbn [forward_blocks]. rewrite Hstep. go_simpl.
    destruct (IH times g1 (queued c [MsgBroadcast (Some (block_message (bn_Block bn) enc))])) as (g' & Hrun & Hok' & Hbuf' & Hc');
      [done|by rewrite Hcs1|done|done| |done|done| |lia|].
    + cbn. rewrite length_app. simpl. lia.
    + intros bn' t Hbn'. rewrite Hbp1, ShouldProcess_mark, decide_False; [apply Hproc; by right|].
      intros Heq. apply Hfresh. rewrite Heq. apply list_elem_of_fmap. by exists bn'.
    + exists g'. split; [done|]. split; [done|]. split; [done|]. by rewrite Hc', queued_queued.
Qed.
End Blocks.

(** ** The relay's side *)
Section Delivery.
Context {M : Type -> Type} `{ConcurrentMapLaws M} {EthConfig : Type}.
Context (rlp_EncodeToBytes : bxBlockRLP -> result (list byte)).
Context (accepts : list byte -> bool) (close_err : socket -> option go_error).
Implicit Types g : gateway M EthConfig.

Lemma block_message_wf bn enc :
  encoded rlp_EncodeToBytes bn enc ->
  wf_broadcast (block_message (bn_Block bn) enc) /\ broadcast_length (block_message (bn_Block bn) enc) < 2 ^ 32.
Proof.
  intros (_ & Hh & Hl). unfold wf_broadcast, wf_bh, broadcast_length, is_uint32. cbn.
  split_and!; try done; try lia.
Qed.

(** What the relay makes of a message: it reports the block's hash, and the message holds the block. *)
Definition relayed (now : Z) (bn : BlockFromNode) (enc msg : list byte) : Prop :=
  relay_processMsg now msg = Ret (Some (tb_hash (bn_Block bn))) /\
  exists b, Broadcast_Unpack ex_receiver msg = Ret (b, None) /\
    bc_block b = enc /\ bh_hash (bc_header b) = tb_hash (bn_Block bn) /\ bc_txIDs b = [].

Lemma message_relayed now bn enc :
  encoded rlp_EncodeToBytes bn enc -> relayed now bn enc (concat (broadcast_chunks (block_message (bn_Block bn) enc))).
Proof.
  intros He. destruct (block_message_wf bn enc He) as [Hwf Hlt]. split.
  - unfold relay_processMsg. rewrite TbType_broadcast. go_simpl. rewrite decide_False, decide_True by done.
    change (mkBroadcast empty_broadcast_header (zeros 4) false [] []) with ex_receiver.
    by rewrite Broadcast_Unpack_chunks by (done || apply ex_receiver_wf).
  - eexists. rewrite Broadcast_Unpack_chunks by (done || apply ex_receiver_wf). by split_and!.
Qed.

Definition wire (bns : list BlockFromNode) (encs : list (list byte)) : list (list byte) :=
  (fun b => concat (broadcast_chunks b)) <$> messages_of bns encs.

Lemma messages_packed bns encs :
  Forall2 (encoded rlp_EncodeToBytes) bns encs ->
  Forall (fun b => wf_broadcast b /\ broadcast_length b < 2 ^ 32) (messages_of bns encs) /\
  Forall2 (fun b buf => exists b', Broadcast_Pack b = Ret (b', buf)) (messages_of bns encs) (wire bns encs).
Proof.
  intros Henc. induction Henc as [|bn enc bns encs He _ [IHw IHp]]; [by split|].
  destruct (block_message_wf bn enc He) as [Hwf Hlt]. split; constructor; try done.
  rewrite Broadcast_Pack_chunks by done. by eexists.
Qed.

Lemma messages_pack bns encs :
  Forall2 (encoded rlp_EncodeToBytes) bns encs ->
  Forall2 (fun m b => Message_Pack m = Ret b) ((fun b => MsgBroadcast (Some b)) <$> messages_of bns encs) (wire bns encs).
Proof.
  intros [_ Hp]%messages_packed. induction Hp as [|b buf bs bufs [b' Hb] _ IH]; [constructor|].
  constructor; [|done]. cbn. rewrite Hb. done.
Qed.

Lemma wire_relayed now bns encs i bn enc msg :
  Forall2 (encoded rlp_EncodeToBytes) bns encs ->
  bns !! i = Some bn -> encs !! i = Some enc -> wire bns encs !! i = Some msg -> relayed now bn enc msg.
Proof.
  intros Henc. revert i. induction Henc as [|bn' enc' bns encs He _ IH]; intros [|i]; simpl; try done; [|apply IH].
  intros [= <-] [= <-] [= <-]. by apply message_relayed.
Qed.

(** Blocks get through. However many distinct, encodable blocks the backend has put on the bridge, as
    long as the block processor has not seen them and the queue of an open connection has room: taking them
    one per round, [handleBridgeMessages] always returns and empties the bridge of them, the next round of
    the connection's send loop returns and writes the whole queue, and whatever packets the relay's socket
    cuts the bytes into, its receive loop delivers exactly one message per block, in the order of the
    bridge, reports the block's hash for it and finds the block's complete encoding in it. *)
Theorem blocks_reach_relay times g p c bns encs rest :
  (forall written, accepts written = true) ->
  gateway_ok g -> p ∈ Connections g -> conn_objects g !! p = Some c -> ready (tb_conn c) ->
  ch_buf (sendMessages (tb_conn c)) = [] -> conn_written (tb_conn c) = [] ->
  bns <> [] -> Z.of_nat (length bns) <= ch_cap (sendMessages (tb_conn c)) ->
  ch_buf (blocksFromNode (g_bridge g)) = bns ++ rest -> Forall2 (encoded rlp_EncodeToBytes) bns encs ->
  NoDup ((fun bn => tb_hash (bn_Block bn)) <$> bns) ->
  (forall bn now, bn ∈ bns -> ShouldProcess now (blockProcessor g) (tb_hash (bn_Block bn)) = true) ->
  length times = length bns ->
  exists g' c' s', forward_blocks rlp_EncodeToBytes close_err times g = Ret g' /\
    gateway_ok g' /\ ch_buf (blocksFromNode (g_bridge g')) = rest /\
    conn_objects g' !! p = Some c' /\ sendLoop_round accepts close_err (tb_conn c') = Ret s' /\
    forall packets, concat packets = conn_written s' ->
      exists msgs, relay_stream [] packets = Ret (msgs, []) /\ length msgs = length bns /\
        forall i bn enc msg now, bns !! i = Some bn -> encs !! i = Some enc -> msgs !! i = Some msg ->
          relayed now bn enc msg.
Proof.
  intros Hacc Hok Hp Hc Hr Hq Hw Hne Hroom Hbuf Henc Hnd Hproc Hlen.
  destruct (forward_blocks_queue rlp_EncodeToBytes close_err times g p c bns encs rest) as (g' & Hrun & Hok' & Hbuf' & Hc');
    try done; [by rewrite Hq|].
  set (c' := queued c _) in Hc'. pose proof Hr as (Ho & Hs & Hl).
  assert (ch_buf (sendMessages (tb_conn c')) = (fun b => MsgBroadcast (Some b)) <$> messages_of bns encs) as Hq'
    by (cbn; by rewrite Hq).
  exists g', c', (written_out (tb_conn c') (wire bns encs)).
  split; [done|]. split; [done|]. split; [done|]. split; [done|]. split.
  - apply round_writes; [done|done|done| |].
    + rewrite Hq'. destruct Henc; [done|]. done.
    + rewrite Hq'. by apply messages_pack.
  - intros packets Hpk. exists (wire bns encs). destruct (messages_packed bns encs Henc) as [Hwf Hpack].
    split; [|split].
    + apply (packed_stream (messages_of bns encs)); [done|done|]. rewrite Hpk. cbn. by rewrite Hw.
    + unfold wire, messages_of. rewrite length_fmap, length_zip_with. apply Forall2_length in Henc. lia.
    + intros i bn enc msg now. by apply wire_relayed.
Qed.
End Delivery.

(** ** Witness: two blocks, one connection *)
Definition ex_block2 : TbBlock := mkTbBlock (replicate 32 x06) [x03; x04; x05] [] [] None None 0 0.
Definition ex_endpoint : NodeEndpoint := mkNodeEndpoint "127.0.0.1" 30303 "".
Definition ex_bridge : TurboBridge unit :=
  snd (SendBlockToBDN (snd (SendBlockToBDN NewTurboBridge ex_block ex_endpoint)) ex_block2 ex_endpoint).
Definition ex_waiting : gateway (gmap string) unit := with_g_bridge ex_gateway ex_bridge.

Lemma ex_waiting_ok : gateway_ok ex_waiting.
Proof. destruct ex_gateway_ok as (Hs & Hnd & Hex). by split_and!. Qed.

Example blocks_reach_relay_witness :
  exists g' c' s', forward_blocks ex_encode (fun _ => None) [1; 2] ex_waiting = Ret g' /\
    conn_objects g' !! 1 = Some c' /\ sendLoop_round (fun _ => true) (fun _ => None) (tb_conn c') = Ret s' /\
    exists msgs, relay_stream [] [take 10 (conn_written s'); drop 10 (conn_written s')] = Ret (msgs, []) /\ length msgs = 2%nat.
Proof.
  destruct (blocks_reach_relay ex_encode (fun _ => true) (fun _ => None) [1; 2] ex_waiting 1 (mkTbConn ex_conn true false)
    [mkBlockFromNode ex_block ex_endpoint; mkBlockFromNode ex_block2 ex_endpoint] [[x01; x02]; [x03; x04; x05]] [])
    as (g' & c' & s' & Hrun & _ & _ & Hc & Hround & Hmsgs).
  - reflexivity.
  - apply ex_waiting_ok.
  - by left.
  - reflexivity.
  - split; [reflexivity|split; [discriminate|reflexivity]].
  - reflexivity.
  - reflexivity.
  - discriminate.
  - vm_compute. congruence.
  - reflexivity.
  - repeat constructor; vm_compute; intuition congruence.
  - apply NoDup_cons. split; [|apply NoDup_singleton]. intros Hin%list_elem_of_singleton. discriminate.
  - intros bn now _. reflexivity.
  - reflexivity.
  - exists g', c', s'. split; [exact Hrun|]. split; [exact Hc|]. split; [exact Hround|].
    destruct (Hmsgs [take 10 (conn_written s'); drop 10 (conn_written s')]) as (msgs & Hm & Hl & _).
    { cbn [concat]. rewrite app_nil_r. apply take_drop. }
    exists msgs. split; [exact Hm|exact Hl].
Defined.
