(* ===== verification/EndToEnd.v ===== *)
(** From the node to the relay: blocks a node sends pass the backend, the bridge, the gateway, the queue of a
    connection and the wire, and reach the relay's receive loop. *)
From S2P Require Import Prelude Bytes CMap TbMessage Framing HashHistory Types TxStore TxStoreFacts BlockProcessor EthTypes Chain ChainFacts.
From S2P Require Import ChainSpec ChainCanonical ChainProps ChainExamples Channel Bridge Peer PeerSet Converter NetworkConfig Backend.
From S2P Require Import BackendFacts NodeBlocks NodeConfig Conn Gateway GatewayProps Pipeline.

Section EndToEnd.
Context `{EthRlpLaws} `{!EthLaws} {M : Type -> Type} `{ConcurrentMapLaws M} `{MapRangeLaws}.
Context (p2p_Send : eth_msg -> option go_error) (rand_Uint64 : Z -> Z) {Node PrivateKeyT : Type}.
#[local] Abbreviation Config := (EthConfig Node PrivateKeyT).
#[local] Abbreviation Handler := (Handler M (TurboBridge Config) Node PrivateKeyT).
Context (rlp_EncodeToBytes : bxBlockRLP -> result (list byte)).
Context (accepts : list byte -> bool) (close_err : socket -> option go_error).
Variable valid : Header -> Prop.
Hypothesis valid_not_nil : forall hd, valid hd -> header_hash hd <> nil_header_hash /\ header_parent hd <> nil_header_hash.
Implicit Types h : Handler.
Implicit Types g : gateway M Config.

(** The block as the relay gets it: the encoding of a network block that has the block's hash and converts
    back to its header, its transactions and its uncles. *)
Definition arrived (b : Block) (msg : list byte) : Prop :=
  (forall now, relay_processMsg now msg = Ret (Some (hash_Bytes (block_hash b)))) /\
  exists tb enc br td, rlp_EncodeToBytes (block_rlp tb) = Ok enc /\
    Broadcast_Unpack ex_receiver msg = Ret (br, None) /\ bc_block br = enc /\ bh_hash (bc_header br) = hash_Bytes (block_hash b) /\
    BlockBDNtoBlockchain tb = Ok (IfaceBlockInfo (mkBlockInfo
      (block_with (block_header b) (Transactions (block_body b)) (Uncles (block_body b))) td)).

Lemma converted_block now b tb : converted now b tb ->
  tb_hash tb = hash_Bytes (block_hash b) /\
  exists td, BlockBDNtoBlockchain tb = Ok (IfaceBlockInfo (mkBlockInfo
    (block_with (block_header b) (Transactions (block_body b)) (Uncles (block_body b))) td)).
Proof.
  intros [td Hc]. apply BlockBlockchainToBDN_ok in Hc as (Hh & _ & _ & _ & Hback). cbn [bi_Block NewBlockInfo BlockInfo_SetTotalDifficulty] in *.
  rewrite block_with_header, !block_with_body in Hback. cbn [Transactions Uncles] in Hback.
  rewrite Hh, !block_hash_header, block_with_header. split; [done|]. by eexists.
Qed.

Lemma hash_Bytes_inj x y : hash_Bytes x = hash_Bytes y -> x = y.
Proof. intros Heq. by rewrite <- (BytesToHash_Bytes x), Heq, BytesToHash_Bytes. Qed.

(** What the encoder makes of the blocks fits into messages. *)
Definition encodable (now : Z) (b : Block) : Prop :=
  forall tb, converted now b tb -> exists enc, rlp_EncodeToBytes (block_rlp tb) = Ok enc /\ 90 + len enc < 2 ^ 32.

Lemma encodings (l : list (Z * NewBlockPacket)) tbs e :
  Forall2 (fun x tb => converted x.1 (nb_Block x.2) tb) l tbs -> Forall (fun x => encodable x.1 (nb_Block x.2)) l ->
  exists encs, Forall2 (encoded rlp_EncodeToBytes) ((fun tb => mkBlockFromNode tb e) <$> tbs) encs.
Proof.
  intros Hc. induction Hc as [|x tb l tbs Hx _ IH]; intros Henc; [exists []; constructor|].
  apply Forall_cons in Henc as [He Henc]. destruct (IH Henc) as [encs Hencs], (He tb Hx) as (enc & Hrlp & Hlen).
  exists (enc :: encs). constructor; [|done]. split; [done|]. split; [|done].
  destruct (converted_block _ _ _ Hx) as [Hh _]. unfold wf_hash. cbn. rewrite Hh. apply hash_Bytes_length.
Qed.

Lemma converted_hashes (l : list (Z * NewBlockPacket)) tbs :
  Forall2 (fun x tb => converted x.1 (nb_Block x.2) tb) l tbs ->
  tb_hash <$> tbs = hash_Bytes <$> ((fun x => block_hash (nb_Block x.2)) <$> l).
Proof.
  induction 1 as [|x tb l tbs Hx _ IH]; [done|]. cbn. f_equal; [|exact IH].
  by destruct (converted_block _ _ _ Hx) as [-> _].
Qed.

Lemma relayed_arrived now b tb e enc msg :
  converted now b tb -> encoded rlp_EncodeToBytes (mkBlockFromNode tb e) enc ->
  (forall t, relayed t (mkBlockFromNode tb e) enc msg) -> arrived b msg.
Proof.
  intros Hc (Hrlp & _) Hr. destruct (converted_block _ _ _ Hc) as [Hh [td Hback]]. split.
  - intros t. destruct (Hr t) as [Hm _]. rewrite Hm. cbn. by rewrite Hh.
  - destruct (Hr 0) as [_ (br & Hun & Hblk & Hhash & _)]. exists tb, enc, br, td. cbn in Hrlp, Hhash. rewrite <- Hh. done.
Qed.

(** The blocks [l] of peer [p] pass from the backend to the relay behind connection [pc]: every handler returns,
    each block is marked and queued for the other peers, the gateway empties the bridge, and the relay gets
    one message per block, in order, however the stream is cut. *)
Definition delivered h p (l : list (Z * NewBlockPacket)) (times : list Z) g (pc : Z) : Prop :=
  exists h' g' c' s',
    take_blocks p2p_Send rand_Uint64 p l h = Ret (tt, [], h') /\
    (forall x, x ∈ l -> HasSentToBDN (h_chain h') (block_hash (nb_Block x.2)) = true) /\
    (forall q ep, objects h !! q = Some ep -> exists ep', objects h' !! q = Some ep' /\
       ch_buf (newBlockCh ep') = ch_buf (newBlockCh ep) ++
         (if decide (q ∈ getAll (h_peers h) /\ q <> p)
          then (fun x => mkNewBlockPacket (nb_Block x.2) (Some (default 0 (nb_TD x.2)))) <$> l else [])) /\
    forward_blocks rlp_EncodeToBytes close_err times (with_g_bridge g (h_bridge h')) = Ret g' /\
    ch_buf (blocksFromNode (g_bridge g')) = [] /\ conn_objects g' !! pc = Some c' /\
    sendLoop_round accepts close_err (tb_conn c') = Ret s' /\
    forall packets, concat packets = conn_written s' ->
      exists msgs, relay_stream [] packets = Ret (msgs, []) /\ Forall2 (fun x msg => arrived (nb_Block x.2) msg) l msgs.

Lemma blocks_delivered h p e l head rest times g pc c :
  (forall written, accepts written = true) ->
  takes_blocks valid h p e (Z.of_nat (length l)) -> chainState (h_chain h) = head :: rest -> follows head (snd <$> l) ->
  NoDup ((fun x => block_hash (nb_Block x.2)) <$> l) -> ch_buf (blocksFromNode (h_bridge h)) = [] -> l <> [] ->
  Forall (fun x => sendable valid (IgnoreBlockTimeout (h_config h)) x.1 (nb_Block x.2) /\ unsent (h_chain h) (nb_Block x.2)) l ->
  Forall (fun x => encodable x.1 (nb_Block x.2)) l ->
  gateway_ok g -> pc ∈ Connections g -> conn_objects g !! pc = Some c -> ready (tb_conn c) ->
  ch_buf (sendMessages (tb_conn c)) = [] -> conn_written (tb_conn c) = [] ->
  Z.of_nat (length l) <= ch_cap (sendMessages (tb_conn c)) ->
  (forall x now, x ∈ l -> ShouldProcess now (blockProcessor g) (hash_Bytes (block_hash (nb_Block x.2))) = true) ->
  length times = length l ->
  delivered h p l times g pc.
Proof.
  intros Hacc Htk Hst Hf Hnd Hempty Hne Hall Henc Hg Hpc Hc Hr Hq Hw Hroom Hproc Hlen.
  destruct (blocks_taken p2p_Send rand_Uint64 valid valid_not_nil h p e l head rest Htk Hst Hf Hnd Hall)
    as (tbs & h' & Hrun & Hconv & _ & Hbuf & Hsent & _ & Hpeers).
  rewrite Hempty in Hbuf. cbn [app] in Hbuf. destruct (encodings l tbs e Hconv Henc) as [encs Hencs].
  pose proof (converted_hashes l tbs Hconv) as Hhashes. pose proof (Forall2_length _ _ _ Hconv) as Hlt.
  set (bns := (fun tb => mkBlockFromNode tb e) <$> tbs) in *.
  assert (length bns = length l) as Hlb by (unfold bns; by rewrite length_fmap).
  assert ((fun bn => tb_hash (bn_Block bn)) <$> bns = hash_Bytes <$> ((fun x => block_hash (nb_Block x.2)) <$> l)) as Hbh.
  { unfold bns. rewrite <- Hhashes, <- list_fmap_compose. done. }
  destruct (blocks_reach_relay rlp_EncodeToBytes accepts close_err times (with_g_bridge g (h_bridge h')) pc c bns encs [])
    as (g' & c' & s' & Hfw & _ & Hbuf' & Hc' & Hround & Hmsgs); try done.
  - intros ->. apply Hne. by destruct l.
  - by rewrite Hlb.
  - cbn. by rewrite app_nil_r.
  - rewrite Hbh. apply NoDup_fmap_2_strong; [|done]. intros x y _ _. apply hash_Bytes_inj.
  - intros bn now Hbn. cbn. assert (tb_hash (bn_Block bn) ∈ (fun bn => tb_hash (bn_Block bn)) <$> bns) as Hin
      by (apply list_elem_of_fmap; by exists bn).
    rewrite Hbh in Hin. apply list_elem_of_fmap in Hin as (z & -> & Hin). apply list_elem_of_fmap in Hin as (x & -> & Hx).
    by apply Hproc.
  - by rewrite Hlb.
  - exists h', g', c', s'. do 7 (split; [done|]). intros packets Hpk. destruct (Hmsgs packets Hpk) as (msgs & Hrel & Hml & Hrd).
    exists msgs. split; [done|]. apply Forall2_same_length_lookup. split; [lia|]. intros i x msg Hx Hm.
    pose proof (lookup_lt_Some _ _ _ Hx) as Hi.
    destruct (lookup_lt_is_Some_2 tbs i ltac:(lia)) as [tb Htb].
    assert (bns !! i = Some (mkBlockFromNode tb e)) as Hbn by (unfold bns; by rewrite list_lookup_fmap, Htb).
    destruct (Forall2_lookup_l _ _ _ _ _ Hencs Hbn) as (enc & He & Hencoded).
    eapply relayed_arrived; [by eapply (Forall2_lookup_lr _ _ _ _ _ _ Hconv)|exact Hencoded|].
    intros t. by eapply Hrd.
Qed.

(** C1: End to end, from the node to the relay. A peer announces a chain of new blocks that extends the
    head; they are blocks of the network, recent, of heights an int64 holds, none was sent to the BDN, and
    they can be converted and encoded. If the other peers' loops, the bridge and the queue of an open
    connection have room, then: handling the messages always returns, marks every block as sent and queues
    it, in order, for every other registered peer and not for the sender; the gateway takes the blocks off
    the bridge one per round; the next round of the connection's send loop writes its whole queue; and
    whatever packets the relay's socket cuts the bytes into, its receive loop delivers exactly one message
    per block, in the order in which the node sent them, reports the block's hash for it and finds in it
    an encoding that converts back to the block's header, transactions and uncles. *)
Theorem node_blocks_reach_relay h p e l head rest times g pc c :
  (forall written, accepts written = true) ->
  takes_blocks valid h p e (Z.of_nat (length l)) -> chainState (h_chain h) = head :: rest -> follows head (snd <$> l) ->
  NoDup ((fun x => block_hash (nb_Block x.2)) <$> l) -> ch_buf (blocksFromNode (h_bridge h)) = [] -> l <> [] ->
  Forall (fun x => sendable valid (IgnoreBlockTimeout (h_config h)) x.1 (nb_Block x.2) /\ unsent (h_chain h) (nb_Block x.2)) l ->
  Forall (fun x => encodable x.1 (nb_Block x.2)) l ->
  gateway_ok g -> pc ∈ Connections g -> conn_objects g !! pc = Some c -> ready (tb_conn c) ->
  ch_buf (sendMessages (tb_conn c)) = [] -> conn_written (tb_conn c) = [] ->
  Z.of_nat (length l) <= ch_cap (sendMessages (tb_conn c)) ->
  (forall x now, x ∈ l -> ShouldProcess now (blockProcessor g) (hash_Bytes (block_hash (nb_Block x.2))) = true) ->
  length times = length l ->
  exists h' g' c' s',
    take_blocks p2p_Send rand_Uint64 p l h = Ret (tt, [], h') /\
    (forall x, x ∈ l -> HasSentToBDN (h_chain h') (block_hash (nb_Block x.2)) = true) /\
    (forall q ep, objects h !! q = Some ep -> exists ep', objects h' !! q = Some ep' /\
       ch_buf (newBlockCh ep') = ch_buf (newBlockCh ep) ++
         (if decide (q ∈ getAll (h_peers h) /\ q <> p)
          then (fun x => mkNewBlockPacket (nb_Block x.2) (Some (default 0 (nb_TD x.2)))) <$> l else [])) /\
    forward_blocks rlp_EncodeToBytes close_err times (with_g_bridge g (h_bridge h')) = Ret g' /\
    ch_buf (blocksFromNode (g_bridge g')) = [] /\ conn_objects g' !! pc = Some c' /\
    sendLoop_round accepts close_err (tb_conn c') = Ret s' /\
    forall packets, concat packets = conn_written s' ->
      exists msgs, relay_stream [] packets = Ret (msgs, []) /\ Forall2 (fun x msg => arrived (nb_Block x.2) msg) l msgs.
Proof. apply blocks_delivered. Qed.
End EndToEnd.

(** ** Witness: two blocks of peer 1, while peer 2 listens *)
#[local] Abbreviation ExHandler := (Handler (gmap string) (TurboBridge (EthConfig string unit)) string unit).
Definition ex_peer_at (id : string) : Peer (gmap string) := newPeer id 66 (mkNodeEndpoint "1.2.3.4" 30303 "enode").
Definition ex_two_peers : ExHandler :=
  mkHandler NewTurboBridge {["a"%string := 1; "b"%string := 2]} {[1 := ex_peer_at "a"; 2 := ex_peer_at "b"]} unknownConfig ex_chain 0.
Definition ex_new_blocks : list (Z * NewBlockPacket) :=
  [(0, mkNewBlockPacket (toy 103 102 13 : Block) (Some 7)); (0, mkNewBlockPacket (toy 104 103 14 : Block) (Some 8))].

Lemma ex_two_peers_take : takes_blocks toy_valid ex_two_peers 1 (mkNodeEndpoint "1.2.3.4" 30303 "enode") 2.
Proof.
  split.
  - apply ex_chain_ok.
  - reflexivity.
  - unfold below_head. cbn [h_chain ex_two_peers]. rewrite ex_chain_state. repeat constructor; vm_compute; congruence.
  - vm_compute. congruence.
  - exists (ex_peer_at "a"). split; reflexivity.
  - vm_compute. congruence.
  - apply (bool_decide_unpack _). by vm_compute.
  - intros q Hq Hne. assert (q = 2) as ->.
    { change (q ∈ [1; 2]) in Hq. set_solver. }
    exists (ex_peer_at "b"). split; [reflexivity|vm_compute; congruence].
Qed.

Lemma ex_sendable a b n : toy_valid (mkToyHeader a b n) -> (n < 1000)%N ->
  sendable toy_valid (IgnoreBlockTimeout (h_config ex_two_peers)) 0 (toy a b n : Block).
Proof.
  intros Hv Hn. split; [done|]. split_and!.
  - cbn. rewrite int64_small by (unfold is_int64; lia). transitivity 0; [|lia]. vm_compute. congruence.
  - unfold maxFutureBlockNumber, block_number. cbn. rewrite uint64_small by (unfold is_uint64; lia). lia.
  - intros td. eexists. reflexivity.
Qed.

Lemma ex_encodable now a b n : 90 + len (enc (mkToyHeader a b n)) < 2 ^ 32 -> encodable ex_encode now (toy a b n : Block).
Proof.
  intros Hl tb [td (_ & _ & Hhd & _)%BlockBlockchainToBDN_ok]. exists (tb_Header tb). split; [done|].
  cbn in Hhd. by injection Hhd as <-.
Qed.

Lemma ex_unsent b : b = toy 103 102 13 \/ b = toy 104 103 14 -> unsent (h_chain ex_two_peers) (b : Block).
Proof.
  intros [-> | ->]; (split; [vm_cast_no_check (@eq_refl bool false)|right];
    split; [vm_cast_no_check (@eq_refl bool false)|vm_cast_no_check (@eq_refl (option (option Header)) None)]).
Qed.

Definition ex_gateway' : gateway (gmap string) (EthConfig string unit) :=
  let g := NewGateway NewTurboBridge in with_conns g [1] {[1 := mkTbConn ex_conn true false]}.

Lemma ex_gateway_ok' : gateway_ok ex_gateway'.
Proof.
  split_and!; [split; intros k ?; unfold contents, ids_map; simpl; by rewrite lookup_empty|apply NoDup_singleton|].
  intros p ->%list_elem_of_singleton. by eexists.
Qed.

Example node_blocks_reach_relay_witness :
  exists h' g' c' s', take_blocks (fun _ => None) (fun n => n) 1 ex_new_blocks ex_two_peers = Ret (tt, [], h') /\
    forward_blocks ex_encode (fun _ => None) [1; 2] (with_g_bridge ex_gateway' (h_bridge h')) = Ret g' /\
    conn_objects g' !! 1 = Some c' /\ sendLoop_round (fun _ => true) (fun _ => None) (tb_conn c') = Ret s' /\
    exists msgs, relay_stream [] [conn_written s'] = Ret (msgs, []) /\
      Forall2 (fun x msg => arrived ex_encode (nb_Block x.2) msg) ex_new_blocks msgs.
Proof.
  destruct (node_blocks_reach_relay (fun _ => None) (fun n => n) ex_encode (fun _ => true) (fun _ => None) toy_valid
    toy_valid_not_nil ex_two_peers 1 (mkNodeEndpoint "1.2.3.4" 30303 "enode") ex_new_blocks (toy_ref 12 102)
    [toy_ref 11 101; toy_ref 10 100] [1; 2] ex_gateway' 1 (mkTbConn ex_conn true false))
    as (h' & g' & c' & s' & Hrun & _ & _ & Hfw & _ & Hc & Hround & Hmsgs).
  - reflexivity.
  - apply ex_two_peers_take.
  - apply ex_chain_state.
  - repeat split; reflexivity.
  - apply NoDup_cons. split; [|apply NoDup_singleton]. intros Hin%list_elem_of_singleton. discriminate.
  - reflexivity.
  - discriminate.
  - repeat (apply Forall_cons; split); [split; [by apply ex_sendable|apply ex_unsent; auto]..|constructor].
  - repeat (apply Forall_cons; split); [apply ex_encodable; by vm_compute..|constructor].
  - apply ex_gateway_ok'.
  - by left.
  - reflexivity.
  - split; [reflexivity|split; [discriminate|reflexivity]].
  - reflexivity.
  - reflexivity.
  - vm_compute. congruence.
  - intros x now _. reflexivity.
  - reflexivity.
  - exists h', g', c', s'. split; [exact Hrun|]. split; [exact Hfw|]. split; [exact Hc|]. split; [exact Hround|].
    apply Hmsgs. cbn [concat]. apply app_nil_r.
Defined.
