(* ===== verification/TxToNodes.v ===== *)
(** From a relay to the nodes: a transaction message passes the gateway, its store, the bridge and the backend,
    and is sent to the peers. *)
From S2P Require Import Prelude Bytes CMap TbMessage WireTypes HashHistory Types TxStore TxStoreFacts BlockProcessor EthTypes Chain ChainFacts.
From S2P Require Import ChainExamples Channel Bridge Peer PeerSet Converter NetworkConfig Backend BackendFacts NodeConfig Conn Gateway GatewayProps EndToEnd.

(** ** Broadcasting to the peers *)
Section Peers.
Context `{EthRlp} {M : Type -> Type} `{ConcurrentMapLaws M} `{MapRangeLaws}.
Context (p2p_Send : eth_msg -> option go_error) (rand_Uint64 : Z -> Z) {Config Node PrivateKeyT : Type}.
#[local] Abbreviation Handler := (Handler M (TurboBridge Config) Node PrivateKeyT).
#[local] Abbreviation HM := (HM (M:=M) (B:=TurboBridge Config) (Node:=Node) (PrivateKeyT:=PrivateKeyT)).
Implicit Types h : Handler.

(** The message peer [q] gets if it is connected. *)
Definition sent_one (h : Handler) (txs : list EthTransaction) (q : Z) : list handler_effect :=
  match objects h !! q with
  | Some ep => if disconnected ep then [] else [OnPeer q (Sent (TransactionsMsg txs))]
  | None => []
  end.
Definition sent_to (h : Handler) (txs : list EthTransaction) (ps : list Z) : list handler_effect := concat (sent_one h txs <$> ps).

Lemma send_one h txs q : is_Some (objects h !! q) ->
  (_ ← send_on_peer q (fun ep => SendTransactions p2p_Send ep txs); mret tt : HM unit) h = Ret (tt, sent_one h txs q, h).
Proof.
  intros [ep Hq]. rewrite <- (app_nil_r (sent_one h txs q)).
  eapply (bind_run _ _ h (if disconnected ep then None else p2p_Send (TransactionsMsg txs)) _ h); [|done].
  unfold send_on_peer, on_peer, SendTransactions, peer_send, sent_one. rewrite Hq.
  assert (with_objects h (<[q := ep]> (objects h)) = h) as Hsame by (rewrite insert_id by done; by destruct h).
  by destruct (disconnected ep); rewrite Hsame.
Qed.

Lemma broadcastTransactions_sends h txs :
  (forall q, q ∈ getAll (h_peers h) -> is_Some (objects h !! q)) ->
  broadcastTransactions p2p_Send txs h = Ret (tt, sent_to h txs (getAll (h_peers h)), h).
Proof.
  intros Hex. unfold broadcastTransactions. eapply (bind_run (gets h_peers) _ h _ [] h _ _); [done|].
  induction (getAll (h_peers h)) as [|q l IH]; [done|]. cbn [for_each]. unfold sent_to. rewrite fmap_cons. cbn [concat].
  eapply bind_run; [|apply IH; intros x Hx; apply Hex; by right]. apply send_one, Hex. by left.
Qed.

(** What decodes of a content. *)
Definition decoded_txs (content : list byte) : list EthTransaction :=
  match rlp_decode_tx content with (tx, None) => [tx] | _ => [] end.

Lemma handle_bdn_transaction h t :
  (forall q, q ∈ getAll (h_peers h) -> is_Some (objects h !! q)) ->
  handleBDNBridge p2p_Send rand_Uint64 (BDNTransactions [t]) h
  = Ret (tt, sent_to h (decoded_txs (tx_bytes t)) (getAll (h_peers h)), h).
Proof.
  intros Hex. cbn [handleBDNBridge]. unfold processBDNTransactions.
  assert (transactions_from_bdn [t] = decoded_txs (tx_bytes t)) as ->.
  { unfold decoded_txs. cbn. unfold TransactionBDNToBlockchain. by destruct (rlp_decode_tx (tx_bytes t)) as [tx [e|]]. }
  by apply broadcastTransactions_sends.
Qed.
End Peers.

(** ** The gateway's side *)
Section Relay.
Context {M : Type -> Type} `{ConcurrentMapLaws M} {Config : Type}.
Context (close_err : socket -> option go_error).
Implicit Types g : gateway M Config.

(** The clock matters for the timestamp alone. *)
Lemma Tx_Unpack_now now now' m buf tx e :
  Tx_Unpack now m buf = Ret (tx, e) ->
  exists tx', Tx_Unpack now' m buf = Ret (tx', e) /\
    tx_header tx' = tx_header tx /\ tx_txID tx' = tx_txID tx /\ tx_content tx' = tx_content tx.
Proof.
  unfold Tx_Unpack. destruct (BroadcastHeader_Unpack (tx_header m) buf) as [[bh [err|]]| |]; go_simpl; [|..|done|done].
  - intros [= <- <-]. by eexists.
  - destruct (get_le 4 buf BroadcastHeaderLen) as [id| |]; go_simpl; [|done..].
    destruct (get_le 4 buf _) as [ts| |]; go_simpl; [|done..].
    destruct (slice buf _ _) as [content| |]; go_simpl; [|done..].
    destruct (slice_from buf _) as [src| |]; go_simpl; [|done..]. intros [= <- <-]. by eexists.
Qed.

Lemma Tx_Unpack_id now buf tx e : Tx_Unpack now empty_tx buf = Ret (tx, e) -> is_uint32 (tx_txID tx).
Proof.
  intros Hu. assert (wf_tx tx /\ is_int64 (tx_timestamp tx)) as [(_ & Hid & _) _]; [|done].
  refine (Tx_Unpack_wf now empty_tx buf _ _ (tx, e) Hu); [unfold wf_tx, wf_bh, is_uint32; concrete|vm_compute; intuition congruence].
Qed.

Lemma merged_content now tx g : brings_content now tx g -> tx_bytes (merged_tx now tx g) = tx_content tx.
Proof.
  intros (_ & _ & Hold). unfold merged_tx, merged. cbn [tx_bytes]. destruct (stored_tx tx g) as [t|]; cbn [default]; [|done]. unfold id.
  by rewrite (Hold t eq_refl), decide_True by done.
Qed.

(** A relay's message with news: the filed transaction goes to the bridge. *)
Lemma relay_news now msg p g tx e :
  gateway_ok g -> is_Some (conn_objects g !! p) -> 0 <= ts_maxTxAge (g_TxStore g) ->
  TbType msg = Ret TxType -> Tx_Unpack now empty_tx msg = Ret (tx, e) -> brings_content now tx g ->
  exists g', Relay_ProcessMessage close_err now msg p g = Ret g' /\ gateway_ok g' /\
    ts_maxTxAge (g_TxStore g') = ts_maxTxAge (g_TxStore g) /\ conn_objects g' = conn_objects g /\
    g_bridge g' = snd (SendTransactionsFromBDN (g_bridge g) [merged_tx now tx g]) /\
    stored_tx tx g' = Some (merged_tx now tx g).
Proof.
  intros Hok Hp Hage Hty Hun Hb. unfold Relay_ProcessMessage. rewrite Hty. go_simpl. rewrite decide_True, Hun by done. go_simpl.
  destruct (processTransaction_effect close_err now tx (FromConn p) g Hok) as (g' & Hrun & Hok' & _ & _ & Hmax & Hct & _ & Hnews).
  - by intros q [= <-].
  - by eapply Tx_Unpack_id.
  - done.
  - destruct Hb as (_ & Hc & _). tauto.
  - destruct (Hnews Hb) as [Hbr Hcs]. exists g'. unfold HandleMsg. rewrite Hrun. go_simpl. split_and!; try done.
    unfold stored_tx. rewrite Hct, decide_False by apply Hb. apply lookup_insert_eq.
Qed.

(** A message without news: nothing leaves the gateway. *)
Lemma relay_no_news now msg p g tx e :
  gateway_ok g -> is_Some (conn_objects g !! p) -> 0 <= ts_maxTxAge (g_TxStore g) ->
  TbType msg = Ret TxType -> Tx_Unpack now empty_tx msg = Ret (tx, e) -> tx_content tx <> [] -> ~ brings_content now tx g ->
  exists g', Relay_ProcessMessage close_err now msg p g = Ret g' /\ g_bridge g' = g_bridge g /\ conn_objects g' = conn_objects g.
Proof.
  intros Hok Hp Hage Hty Hun Hc Hb. unfold Relay_ProcessMessage. rewrite Hty. go_simpl. rewrite decide_True, Hun by done. go_simpl.
  destruct (processTransaction_effect close_err now tx (FromConn p) g Hok) as (g' & Hrun & _ & _ & _ & _ & _ & Hno & _).
  - by intros q [= <-].
  - by eapply Tx_Unpack_id.
  - done.
  - tauto.
  - exists g'. unfold HandleMsg. rewrite Hrun. go_simpl. rewrite (Hno Hb). done.
Qed.

Lemma bridge_hands_over (b : TurboBridge Config) t :
  ch_buf (transactionsFromBDN b) = [] -> 0 < ch_cap (transactionsFromBDN b) ->
  exists b', ReceiveBDNTransactions (snd (SendTransactionsFromBDN b [t])) = Ret ([t], b') /\
    transactionsFromBDN b' = transactionsFromBDN b.
Proof.
  intros Hbuf Hcap. unfold SendTransactionsFromBDN, try_send. rewrite decide_False by (unfold chan_full; rewrite Hbuf; cbn; lia).
  unfold ReceiveBDNTransactions, recv. cbn. rewrite Hbuf. cbn. eexists. split; [done|].
  cbn. destruct (transactionsFromBDN b) as [cap buf]. cbn in *. by subst.
Qed.

Lemma TbType_tx m : TbType (concat (tx_chunks m)) = Ret TxType.
Proof.
  unfold TbType, tx_chunks, header_chunks. list_cbn.
  cbn [concat]. rewrite (app_assoc (of_string TxType)).
  match goal with |- context [slice (?x ++ ?y ++ ?z) _ _] =>
    change (slice (x ++ y ++ z) TypeOffset (TypeOffset + TypeLength))
      with (slice (x ++ y ++ z) (len x) (len x + len y)) end.
  by rewrite slice_app.
Qed.
End Relay.

(** ** From the relay to the peers *)
Section EndToEnd.
Context `{EthRlp} {M : Type -> Type} `{ConcurrentMapLaws M} `{MapRangeLaws}.
Context (p2p_Send : eth_msg -> option go_error) (rand_Uint64 : Z -> Z) {Node PrivateKeyT : Type}.
#[local] Abbreviation Config := (EthConfig Node PrivateKeyT).
#[local] Abbreviation Handler := (Handler M (TurboBridge Config) Node PrivateKeyT).
Context (close_err : socket -> option go_error).
Implicit Types h : Handler.
Implicit Types g : gateway M Config.

(** A gateway that serves connection [p] and whose bridge is empty towards the nodes. *)
Definition serves g (p : Z) : Prop :=
  gateway_ok g /\ is_Some (conn_objects g !! p) /\ 0 <= ts_maxTxAge (g_TxStore g) /\
  ch_buf (transactionsFromBDN (g_bridge g)) = [] /\ 0 < ch_cap (transactionsFromBDN (g_bridge g)).
(** Every peer in the set exists. *)
Definition peers_exist h : Prop := forall q, q ∈ getAll (h_peers h) -> is_Some (objects h !! q).

Lemma news_to_peers now msg p g h tx e :
  serves g p -> peers_exist h -> TbType msg = Ret TxType -> Tx_Unpack now empty_tx msg = Ret (tx, e) -> brings_content now tx g ->
  let t := merged_tx now tx g in
  exists g' b, Relay_ProcessMessage close_err now msg p g = Ret g' /\ conn_objects g' = conn_objects g /\
    stored_tx tx g' = Some t /\ ReceiveBDNTransactions (g_bridge g') = Ret ([t], b) /\
    handleBDNBridge p2p_Send rand_Uint64 (BDNTransactions [t]) h
      = Ret (tt, sent_to h (decoded_txs (tx_content tx)) (getAll (h_peers h)), h) /\
    forall now', exists g'', Relay_ProcessMessage close_err now' msg p (with_g_bridge g' b) = Ret g'' /\
      g_bridge g'' = b /\ conn_objects g'' = conn_objects g.
Proof.
  intros (Hok & Hp & Hage & Hbuf & Hcap) Hex Hty Hun Hb. cbn zeta.
  destruct (relay_news close_err now msg p g tx e Hok Hp Hage Hty Hun Hb) as (g' & Hrun & Hok' & Hage' & Hcs & Hbr & Hst).
  destruct (bridge_hands_over (g_bridge g) (merged_tx now tx g) Hbuf Hcap) as (b & Hrecv & _).
  exists g', b. split; [done|]. split; [done|]. split; [done|]. split; [by rewrite Hbr|]. split.
  { rewrite handle_bdn_transaction by done. by rewrite merged_content. }
  intros now'. destruct (Tx_Unpack_now now now' empty_tx msg tx e Hun) as (tx' & Hun' & Hhd & _ & Hct).
  assert (tx_content tx <> []) as Hne by apply Hb.
  destruct (relay_no_news close_err now' msg p (with_g_bridge g' b) tx' e) as (g'' & Hrun' & Hbr' & Hcs'); try done.
  - by cbn; rewrite Hcs.
  - by cbn; rewrite Hage'.
  - by rewrite Hct.
  - intros (_ & _ & Hold). unfold stored_tx in *. cbn [g_TxStore with_g_bridge] in Hold. rewrite Hhd in Hold.
    specialize (Hold _ Hst). by rewrite merged_content in Hold.
  - exists g''. split; [done|]. split; [done|]. by rewrite Hcs'.
Qed.

(** C9: A relay's transaction reaches the nodes, once. A message of type "tx" of at least 101 bytes from a
    relay, whose content the store does not have, is always processed; nothing is sent to relays; the
    filed transaction waits on the bridge, and a round of the loop [handleBDNBridge] that handles it sends
    every connected peer of the set exactly one message, with the transaction its content decodes to (or an
    empty list, if it decodes to none). (The program never starts that loop: see [Process].) The same bytes again, at whatever time, put nothing on the bridge. *)
Theorem relay_tx_reaches_nodes now msg p g h :
  serves g p -> peers_exist h -> TbType msg = Ret TxType -> 101 <= len msg < 2 ^ 63 ->
  exists tx, Tx_Unpack now empty_tx msg = Ret (tx, None) /\
    (brings_content now tx g ->
     exists g' t b, Relay_ProcessMessage close_err now msg p g = Ret g' /\ conn_objects g' = conn_objects g /\
       ReceiveBDNTransactions (g_bridge g') = Ret ([t], b) /\
       handleBDNBridge p2p_Send rand_Uint64 (BDNTransactions [t]) h
         = Ret (tt, sent_to h (decoded_txs (tx_content tx)) (getAll (h_peers h)), h) /\
       forall now', exists g'', Relay_ProcessMessage close_err now' msg p (with_g_bridge g' b) = Ret g'' /\
         g_bridge g'' = b /\ conn_objects g'' = conn_objects g).
Proof.
  intros Hs Hex Hty Hlen. destruct (Tx_Unpack_any now empty_tx msg ltac:(lia)) as [(? & Hl & _)|[(Hl & _)|(_ & tx & Hun)]]; [lia|lia|].
  exists tx. split; [done|]. intros Hb.
  destruct (news_to_peers now msg p g h tx None Hs Hex Hty Hun Hb) as (g' & b & Hrun & Hcs & _ & Hrest). by exists g', (merged_tx now tx g), b.
Qed.

(** C29: A transaction the program packs itself never reaches a node. [Tx.Pack] loses the last eight bytes of
    the content, so what a gateway unpacks is a truncated encoding. With go-ethereum's decoder, which
    refuses truncated input, the gateway files the transaction all the same, under its hash and with the
    content that lacks the last eight bytes; it announces this very transaction on the bridge, and a round
    of the loop [handleBDNBridge] sends every connected peer an empty list of transactions in place of it. *)
Theorem packed_tx_not_delivered now m etx p g h :
  (forall tx bs n, rlp_encode_tx tx = Ok bs -> (n < length bs)%nat -> is_Some (snd (rlp_decode_tx (take n bs)))) ->
  serves g p -> peers_exist h -> wf_tx m -> rlp_encode_tx etx = Ok (tx_content m) ->
  8 < len (tx_content m) -> 93 + len (tx_content m) < 2 ^ 32 ->
  stored_tx m g = None -> seen (g_TxStore g) now (bh_hash (tx_header m)) = false ->
  exists buf g' t b, Tx_Pack m = Ret buf /\ Relay_ProcessMessage close_err now buf p g = Ret g' /\
    tx_hash t = bh_hash (tx_header m) /\ tx_bytes t = take (length (tx_content m) - 8) (tx_content m) /\
    contents (g_TxStore g') !! hash_key (bh_hash (tx_header m)) = Some t /\
    ReceiveBDNTransactions (g_bridge g') = Ret ([t], b) /\
    handleBDNBridge p2p_Send rand_Uint64 (BDNTransactions [t]) h = Ret (tt, sent_to h [] (getAll (h_peers h)), h).
Proof.
  intros Htrunc Hs Hex Hwf Henc Hmin Hmax Hnone Hseen.
  assert (wf_tx empty_tx) as Hwf0 by (unfold wf_tx, wf_bh, is_uint32; concrete).
  pose proof (Tx_Unpack_chunks now empty_tx m Hwf0 Hwf ltac:(lia) Hmax) as Hun.
  set (tx := mkTx _ _ _ _ _) in Hun. set (content := take (length (tx_content m) - 8) (tx_content m)) in *.
  assert (content <> []) as Hne.
  { intros Hnil. apply (f_equal length) in Hnil. unfold content in Hnil. rewrite length_take in Hnil. unfold len in *. simpl in Hnil. lia. }
  assert (bh_hash (tx_header tx) = bh_hash (tx_header m)) as Hhash by done.
  assert (stored_tx tx g = None) as Hnone' by (unfold stored_tx in *; by rewrite Hhash).
  assert (brings_content now tx g) as Hb.
  { split; [|split; [done|by rewrite Hnone']]. intros [Hs' _]. rewrite Hhash in Hs'. congruence. }
  destruct (news_to_peers now (concat (tx_chunks m)) p g h tx None Hs Hex (TbType_tx m) Hun Hb) as (g' & b & Hrun & _ & Hst & Hrecv & Hh & _).
  pose proof (merged_content now tx g Hb) as Hct. change (tx_content tx) with content in Hct, Hh.
  exists (concat (tx_chunks m)), g', (merged_tx now tx g), b. split; [by apply Tx_Pack_chunks; [|lia|]|]. split; [done|].
  split; [unfold merged_tx; by rewrite Hnone'|]. split; [done|]. split; [by rewrite <- Hhash|]. split; [done|].
  rewrite Hh. unfold decoded_txs.
  destruct (Htrunc etx (tx_content m) (length (tx_content m) - 8)%nat Henc) as [e He]; [unfold len in *; lia|].
  fold content in He. destruct (rlp_decode_tx content) as [v [e'|]]; [done|]. by cbn in He.
Qed.
End EndToEnd.

(** ** Witnesses: one connected peer and one that disconnected *)
#[local] Abbreviation ExHandler := (Handler (gmap string) (TurboBridge (EthConfig string unit)) string unit).
Definition ex_one_peer : ExHandler :=
  mkHandler NewTurboBridge {["a"%string := 1; "b"%string := 2]} {[1 := ex_peer_at "a"; 2 := Disconnect (ex_peer_at "b")]}
    unknownConfig NewChain 0.

Lemma ex_peers_exist : peers_exist ex_one_peer.
Proof.
  intros q Hq. change (q ∈ [1; 2]) in Hq. apply elem_of_cons in Hq as [->|Hq%list_elem_of_singleton]; [|subst q]; by eexists.
Qed.

Lemma ex_serves : serves ex_gateway' 1.
Proof. split; [apply ex_gateway_ok'|]. split_and!; [by eexists|vm_compute; congruence|reflexivity|reflexivity]. Qed.

Example relay_tx_reaches_nodes_witness :
  exists tx g' t b, Tx_Unpack 5 empty_tx (concat (tx_chunks ex_tx)) = Ret (tx, None) /\
    Relay_ProcessMessage (fun _ => None) 5 (concat (tx_chunks ex_tx)) 1 ex_gateway' = Ret g' /\
    ReceiveBDNTransactions (g_bridge g') = Ret ([t], b) /\
    handleBDNBridge (fun _ => None) (fun n => n) (BDNTransactions [t]) ex_one_peer
      = Ret (tt, [OnPeer 1 (Sent (TransactionsMsg (decoded_txs (tx_content tx))))], ex_one_peer).
Proof.
  destruct (relay_tx_reaches_nodes (fun _ => None) (fun n => n) (fun _ => None) 5 (concat (tx_chunks ex_tx)) 1 ex_gateway' ex_one_peer)
    as (tx & Hun & Hnews).
  - apply ex_serves.
  - apply ex_peers_exist.
  - vm_compute. reflexivity.
  - vm_compute. split; congruence.
  - destruct Hnews as (g' & t & b & Hrun & _ & Hrecv & Hh & _).
    + vm_compute in Hun. injection Hun as <-. apply (bool_decide_unpack _). vm_compute. reflexivity.
    + exists tx, g', t, b. split; [exact Hun|]. split; [exact Hrun|]. split; [exact Hrecv|exact Hh].
Defined.

(** An encoding whose first byte is the number of bytes that follow. *)
#[local] Instance framed_EthRlp : EthRlp := {
  rlp_encode_tx tx := let bs := enc (tx : N) in if decide (len bs < 256) then Ok (byte_of_Z (len bs) :: bs) else Fail (Errorf "rlp");
  rlp_encode_header := rlp_encode_header;
  rlp_encode_uncles := rlp_encode_uncles;
  rlp_encode_block := rlp_encode_block;
  rlp_decode_tx bs :=
    match bs with
    | n :: bs => if decide (Z_of_byte n = len bs) then rlp_decode_tx bs else (0%N, Some (Errorf "rlp"))
    | [] => (0%N, Some (Errorf "rlp"))
    end;
  rlp_decode_block := rlp_decode_block
}.

Lemma framed_truncated tx bs n :
  rlp_encode_tx (EthRlp:=framed_EthRlp) tx = Ok bs -> (n < length bs)%nat -> is_Some (snd (rlp_decode_tx (EthRlp:=framed_EthRlp) (take n bs))).
Proof.
  cbn. case_decide as Hl; [|done]. intros [= <-] Hn. destruct n as [|n]; [by eexists|]. cbn in Hn |- *.
  rewrite decide_False; [by eexists|]. rewrite Z_of_byte_of_Z, Z.mod_small by (unfold len in *; lia). unfold len. rewrite length_take. lia.
Qed.

Definition ex_eth_tx : Tx := NewTx 5 (replicate 32 x07) (byte_of_Z (len (enc 1000%N)) :: enc 1000%N) 1.

Example packed_tx_not_delivered_witness :
  exists buf g' t b, Tx_Pack ex_eth_tx = Ret buf /\ Relay_ProcessMessage (fun _ => None) 5 buf 1 ex_gateway' = Ret g' /\
    tx_bytes t = take (length (tx_content ex_eth_tx) - 8) (tx_content ex_eth_tx) /\
    contents (g_TxStore g') !! hash_key (replicate 32 x07) = Some t /\
    ReceiveBDNTransactions (g_bridge g') = Ret ([t], b) /\
    handleBDNBridge (fun _ => None) (fun n => n) (BDNTransactions [t]) ex_one_peer
      = Ret (tt, [OnPeer 1 (Sent (TransactionsMsg []))], ex_one_peer).
Proof.
  destruct (packed_tx_not_delivered (fun _ => None) (fun n => n) (fun _ => None) 5 ex_eth_tx (1000%N : @EthTransaction toy_EthTypes) 1
    ex_gateway' ex_one_peer) as (buf & g' & t & b & Hpack & Hrun & _ & Hct & Hst & Hrecv & Hh).
  - apply framed_truncated.
  - apply ex_serves.
  - apply ex_peers_exist.
  - unfold wf_tx, wf_bh, is_uint32. concrete.
  - vm_compute. reflexivity.
  - vm_compute. reflexivity.
  - vm_compute. reflexivity.
  - vm_compute. reflexivity.
  - vm_compute. reflexivity.
  - exists buf, g', t, b. split; [exact Hpack|]. split; [exact Hrun|]. split; [exact Hct|]. split; [exact Hst|]. split; [exact Hrecv|exact Hh].
Defined.
