(* ===== verification/BridgeCalls.v ===== *)
(** Who calls what on the bridge: the backend's computations and the gateway's goroutines make only the calls
    of their side, and the bridge after them is the bridge with those calls made on it. *)
From S2P Require Import Prelude Bytes CMap TbMessage Framing Types TxStore BlockProcessor Channel Bridge EthTypes Peer PeerSet Converter NetworkConfig Backend BackendFacts Conn Gateway GatewaySystem GatewayRel.

(** ** Sequences of calls *)
Section Calls.
Context {EthConfig : Type}.
#[local] Abbreviation bridge_op := (bridge_op (EthConfig:=EthConfig)).
Implicit Types b : TurboBridge EthConfig.

(** The calls of the backend, those of the loop [handleBDNBridge] excepted. *)
Definition backend_call (op : bridge_op) : Prop :=
  match op with
  | OpSendTransactionsToBDN _ _ | OpAnnounceHashes _ _ | OpSendBlockToBDN _ _ | OpSendConfirmedBlock _ _
  | OpStatusResponse _ | OpAlert => True
  | _ => False
  end.

(** The calls of the gateway. *)
Definition gateway_call (op : bridge_op) : Prop :=
  match op with OpReceiveNodeTransactions | OpReceiveBlockFromNode | OpSendTransactionsFromBDN _ => True | _ => False end.

(** [b'] is [b] after calls that satisfy [P]. *)
Definition after (P : bridge_op -> Prop) b b' : Prop := exists ops, Forall P ops /\ b' = foldl bridge_do b ops.

#[export] Instance after_preorder P : PreOrder (after P).
Proof.
  split.
  - intros b. by exists [].
  - intros b1 b2 b3 (ops1 & H1 & ->) (ops2 & H2 & ->). exists (ops1 ++ ops2). rewrite foldl_app. by rewrite Forall_app.
Qed.

Lemma after_one P op b b' : P op -> b' = bridge_do b op -> after P b b'.
Proof. intros Hop ->. exists [op]. by split; [apply Forall_singleton|]. Qed.

Lemma after_mono (P Q : bridge_op -> Prop) b b' : (forall op, P op -> Q op) -> after P b b' -> after Q b b'.
Proof. intros HPQ (ops & Hops & ->). exists ops. split; [|done]. by eapply Forall_impl. Qed.

(** The backend's computations make the backend's calls. *)
#[export] Instance backend_calls_rel : BridgeRel (after backend_call).
Proof.
  split; [apply _|..]; intros b.
  - intros txs ep. by apply (after_one _ (OpSendTransactionsToBDN txs ep)).
  - intros id hs. by apply (after_one _ (OpAnnounceHashes id hs)).
  - intros block ep. by apply (after_one _ (OpSendBlockToBDN block ep)).
  - intros block ep. by apply (after_one _ (OpSendConfirmedBlock block ep)).
  - intros eps. by apply (after_one _ (OpStatusResponse eps)).
  - by apply (after_one _ OpAlert).
Qed.

(** The calls of both, as the program runs: what waits in the channel of the relays' transactions keeps
    waiting there. *)
Definition process_call (op : bridge_op) : Prop := backend_call op \/ gateway_call op.

Lemma process_call_grows op b : process_call op -> chan_grows (transactionsFromBDN b) (transactionsFromBDN (bridge_do b op)).
Proof.
  assert (forall b' : TurboBridge EthConfig, transactionsFromBDN b' = transactionsFromBDN b -> chan_grows (transactionsFromBDN b) (transactionsFromBDN b'))
    as Hsame by by intros b' ->.
  intros [Hop|Hop]; destruct op as [| | | | | | | |txs| | | | | | | | | | | | |]; try done; cbn [bridge_do].
  all: try (unfold SendBlockToBDN, SendTransactionsToBDN, SendConfirmedBlockToGateway, AnnounceTransactionHashes,
    SendNoActiveBlockchainPeersAlert, SendBlockchainStatusResponse; destruct (try_send _ _); by apply Hsame).
  all: try (unfold received, ReceiveBlockFromNode, ReceiveNodeTransactions; destruct (recv _) as [[v c]| |]; by apply Hsame).
  pose proof (try_send_grows (transactionsFromBDN b) txs) as Hg. unfold SendTransactionsFromBDN. by destruct (try_send _ _).
Qed.

Lemma process_calls_grow b b' : after process_call b b' -> chan_grows (transactionsFromBDN b) (transactionsFromBDN b').
Proof.
  intros (ops & Hops & ->). revert b. induction Hops as [|op ops Hop _ IH]; intros b; [done|].
  etransitivity; [by apply process_call_grows|apply IH].
Qed.
End Calls.

(** ** The gateway *)
Section Gateway.
Context {M : Type -> Type} `{!ConcurrentMap M} {EthConfig : Type}.
Context (connects : Z -> socket * option go_error -> Prop) (close_err : socket -> option go_error).
Implicit Types g : gateway M EthConfig.

Definition calls g g' : Prop := after gateway_call (g_bridge g) (g_bridge g').

(** The gateway's goroutines make the gateway's calls, and no others. *)
#[export] Instance calls_rel : GatewayRel connects close_err calls.
Proof.
  assert (forall g g', g_bridge g' = g_bridge g -> calls g g') as Hsame by (unfold calls; by intros g g' ->).
  split.
  - split; [by intros g; unfold calls|]. intros g1 g2 g3. unfold calls. apply transitivity.
  - intros g g' _ _ Hb. by apply Hsame.
  - intros g txs. by apply (after_one _ (OpSendTransactionsFromBDN txs)).
  - intros g t b Hr. apply (after_one _ OpReceiveNodeTransactions); [done|]. cbn. by rewrite Hr.
  - intros g t b Hr. apply (after_one _ OpReceiveBlockFromNode); [done|]. cbn. by rewrite Hr.
  - intros g p c s _ _. apply Hsame, set_conn_bridge.
  - intros g p c _. by apply Hsame.
  - intros g id cs _. by apply Hsame.
  - intros g p ip port _. by apply Hsame.
Qed.
End Gateway.
