(* ===== verification/Process.v ===== *)
(** The process: the Ethereum backend and the gateway as [main] puts them together, with one bridge between
    them, and what every state they reach together satisfies. *)
From S2P Require Import Prelude Bytes CMap HashHistory TbMessage Framing Types TxStore TxStoreFacts BlockProcessor Channel Bridge EthTypes Chain ChainFacts ChainSpec ChainProps ChainExamples.
From S2P Require Import Peer PeerFacts PeerProps PeerSet Converter NetworkConfig Backend BackendFacts BackendProps Handlers SystemProps Conn Gateway GatewayProps GatewaySystem GatewayRel BridgeCalls.

Section Process.
Context `{EthLaws} {M : Type -> Type} `{ConcurrentMapLaws M} `{!ConverterOps} `{MapRange} {Node PrivateKeyT : Type}.
Context (p2p_Send : eth_msg -> option go_error) (rand_Uint64 : Z -> Z) {Msg : Type} `{!Decoder Msg}.
Context (rlp_EncodeToBytes : bxBlockRLP -> result (list byte)).
Context (connects : Z -> socket * option go_error -> Prop) (close_err : socket -> option go_error).
Variable valid : Header -> Prop.
#[local] Abbreviation Config := (EthConfig Node PrivateKeyT).
#[local] Abbreviation Handler := (Handler M (TurboBridge Config) Node PrivateKeyT).
#[local] Abbreviation gateway := (gateway M Config).
#[local] Abbreviation sys_step := (sys_step p2p_Send rand_Uint64 valid (Msg:=Msg) (M:=M) (B:=TurboBridge Config)).
#[local] Abbreviation gw_step := (gw_step rlp_EncodeToBytes connects close_err (M:=M) (EthConfig:=Config)).

(** ** The steps *)

(** The two halves refer to the same bridge; each record holds its state. *)
Record process := mkProcess { p_handler : Handler; p_gateway : gateway }.
Implicit Types s : process.

(** [bridge := blockchain.NewTurboBridge(...)], handed to [NewGateway] and to [NewServer], which makes the
    handler. *)
Definition started (config : Config) : process :=
  mkProcess (NewHandler NewTurboBridge config) (NewGateway NewTurboBridge).

(** A step of either half, whose effect on the bridge the other half sees. The loop [handleBDNBridge] is no
    part of it: nothing in the program starts it. *)
Inductive process_step : process -> process -> Prop :=
  | process_backend h h' g : sys_step h h' -> process_step (mkProcess h g) (mkProcess h' (with_g_bridge g (h_bridge h')))
  | process_gateway h g g' : gw_step g g' -> process_step (mkProcess h g) (mkProcess (with_bridge h (g_bridge g')) g').

(** ** One bridge, and its history *)
Definition one_bridge s : Prop := h_bridge (p_handler s) = g_bridge (p_gateway s).

Hypothesis valid_not_nil : forall hd, valid hd -> header_hash hd <> nil_header_hash /\ header_parent hd <> nil_header_hash.
Hypothesis connect_gives_socket : socket_given connects.

(** What a state the process reaches satisfies. *)
Record process_ok s : Prop := {
  pr_bridge : one_bridge s;
  pr_handler : handler_ok valid (p_handler s);
  pr_gateway : gw_ok (p_gateway s)
}.

Lemma started_ok config : process_ok (started config).
Proof. split; [done|apply NewHandler_ok|apply NewGateway_ok]. Qed.

Lemma process_step_ok s s' : process_ok s -> process_step s s' ->
  process_ok s' /\ after process_call (g_bridge (p_gateway s)) (g_bridge (p_gateway s')).
Proof.
  intros [Hb Hh Hg]. destruct 1 as [h h' g Hs|h g g' Hs]; unfold one_bridge in Hb; cbn [p_handler p_gateway] in *.
  - destruct (sys_step_ok (after backend_call) p2p_Send rand_Uint64 valid valid_not_nil h h' Hh Hs) as [Hh' Hcalls].
    rewrite Hb in Hcalls. split; [split; [done..|by apply with_g_bridge_ok]|]. eapply after_mono; [|exact Hcalls]. by left.
  - assert (gw_ok g') as Hg' by by eapply gw_step_ok. apply (gw_step_moves _ _ _ calls) in Hs.
    split; [by split|]. eapply after_mono; [|exact Hs]. by right.
Qed.

Lemma process_steps_ok s s' : process_ok s -> rtc process_step s s' ->
  process_ok s' /\ after process_call (g_bridge (p_gateway s)) (g_bridge (p_gateway s')).
Proof.
  intros Hok Hr. induction Hr as [|s1 s2 s3 Hs _ IH]; [done|]. destruct (process_step_ok _ _ Hok Hs) as [Hok2 Hc].
  destruct (IH Hok2) as [? ?]. split; [done|]. by etransitivity.
Qed.

(** ** The channel of the relays' transactions *)
Definition waiting s : list (list TbTransaction) := ch_buf (transactionsFromBDN (g_bridge (p_gateway s))).

Lemma process_steps_bridge config s : rtc process_step (started config) s ->
  process_ok s /\ ch_cap (transactionsFromBDN (g_bridge (p_gateway s))) = transactionBacklog /\
  Z.of_nat (length (waiting s)) <= transactionBacklog.
Proof.
  intros Hr. destruct (process_steps_ok _ _ (started_ok config) Hr) as [Hok Hcalls].
  destruct (process_calls_grow _ _ Hcalls) as (_ & Hcap & Hlen). split_and!; [done|done|]. unfold waiting.
  rewrite Hcap in Hlen. by apply Hlen.
Qed.

(** ** The halves alone *)
Definition backend_alone : Handler -> Handler -> Prop := backend_step p2p_Send rand_Uint64 (Msg:=Msg) valid (M:=M) (B:=TurboBridge Config).
Definition gateway_alone : gateway -> gateway -> Prop := gateway_step rlp_EncodeToBytes connects close_err.

Lemma process_step_halves s s' : process_step s s' ->
  backend_alone (p_handler s) (p_handler s') /\ gateway_alone (p_gateway s) (p_gateway s').
Proof.
  destruct 1 as [h h' g Hs|h g g' Hs]; cbn [p_handler p_gateway]; split.
  - by left.
  - right. by eexists.
  - right. apply sys_gateway.
  - by left.
Qed.

Lemma process_halves s s' : rtc process_step s s' ->
  rtc backend_alone (p_handler s) (p_handler s') /\ rtc gateway_alone (p_gateway s) (p_gateway s').
Proof.
  induction 1 as [s|s1 s2 s3 Hs _ [IHh IHg]]; [done|]. apply process_step_halves in Hs as [Hh Hg].
  split; by eapply rtc_l.
Qed.

(** C3: The process keeps its state in order, and each half behaves as it does alone. Whatever peers and
    relays send and in whatever order the goroutines of the two halves take their steps: the backend and
    the gateway see the same bridge; its state is the one after a sequence of calls, the backend's and the
    gateway's own and no others; the blocks the backend handed over are those the gateway took, in the same
    order, followed by those that wait; the chain and the registered peers are in order; so are the
    gateway's store, connections and queues; and what each half went through is a run of that half with
    the other as its surroundings. *)
Theorem process_reachable_ok config s :
  rtc process_step (started config) s ->
  one_bridge s /\
  (exists ops, Forall process_call ops /\ g_bridge (p_gateway s) = foldl bridge_do NewTurboBridge ops /\
    blocks_accepted NewTurboBridge ops = blocks_taken NewTurboBridge ops ++ ch_buf (blocksFromNode (g_bridge (p_gateway s)))) /\
  handler_ok valid (p_handler s) /\ gw_ok (p_gateway s) /\
  rtc backend_alone (NewHandler NewTurboBridge config) (p_handler s) /\
  rtc gateway_alone (NewGateway NewTurboBridge) (p_gateway s).
Proof.
  intros Hr. destruct (process_steps_ok _ _ (started_ok config) Hr) as [[Hb Hh Hg] (ops & Hops & Heq)].
  destruct (process_halves _ _ Hr) as [Hrh Hrg]. split_and!; try done. exists ops. split_and!; [done|done|].
  rewrite Heq. cbn [started p_gateway NewGateway g_bridge]. apply blocks_in_order.
Qed.

(** C8: What relays send to nodes piles up in the bridge. The loop that would take the relays' transactions
    from it is never started, so whatever the process does: the transactions that wait keep waiting, in
    their places; at most 500 lists of them do; and once 500 do, the bridge refuses every later one, for as
    long as the process runs. *)
Theorem relay_transactions_pile_up config s s' :
  rtc process_step (started config) s -> rtc process_step s s' ->
  waiting s `prefix_of` waiting s' /\ Z.of_nat (length (waiting s')) <= transactionBacklog /\
  (Z.of_nat (length (waiting s)) = transactionBacklog ->
   waiting s' = waiting s /\
   forall txs, fst (SendTransactionsFromBDN (g_bridge (p_gateway s')) txs) = Some ErrChannelFull).
Proof.
  intros Hr Hr'. destruct (process_steps_bridge config s Hr) as (Hok & Hcap & _).
  destruct (process_steps_bridge config s' (transitivity Hr Hr')) as (_ & Hcap' & Hlen').
  destruct (process_steps_ok _ _ Hok Hr') as [_ Hcalls]. destruct (process_calls_grow _ _ Hcalls) as (Hpre & _).
  split_and!; [done|done|]. intros Hfull. assert (waiting s' = waiting s) as Heq.
  { destruct Hpre as [more Hmore]. unfold waiting in *. rewrite Hmore in Hlen' |- *. rewrite length_app in Hlen'.
    destruct more; [by rewrite app_nil_r|]. cbn in Hlen'. lia. }
  split; [done|]. intros txs. unfold SendTransactionsFromBDN, try_send. rewrite decide_True; [done|].
  unfold chan_full. rewrite Hcap'. unfold waiting in *. rewrite Heq. lia.
Qed.
End Process.
Arguments process {_} M Node PrivateKeyT.
Arguments mkProcess {_ M Node PrivateKeyT} _ _.

(** ** Witnesses *)
#[local] Abbreviation ExConfig := (EthConfig string unit).
#[local] Abbreviation ex_process := (process (gmap string) string unit).
#[local] Existing Instance ex_decoder.
#[local] Abbreviation ex_process_step := (process_step (M:=gmap string) (Node:=string) (PrivateKeyT:=unit) (Msg:=Z * NewBlockPacket)
  ex_send (fun n => n) ex_encode ex_connects (fun _ => None) toy_valid).

Definition ex_begun : ex_process := started unknownConfig.

(** A relay connects, and sends 500 transactions, all different. *)
Definition ex_gw0 : gateway (gmap string) ExConfig := p_gateway ex_begun.
Definition ex_gw1 : gateway (gmap string) ExConfig := NewRelay 7 "127.0.0.1" 443 ex_gw0.
Definition ex_relay_tx (n : nat) : Tx :=
  NewTx 0 (zeros 30 ++ [byte_of_Z (Z.of_nat n / 256); byte_of_Z (Z.of_nat n)]) (replicate 9 x41) 1.

(** The gateway after the messages, if each is handled. *)
Fixpoint ex_handle_all (txs : list Tx) (g : gateway (gmap string) ExConfig) : option (gateway (gmap string) ExConfig) :=
  match txs with
  | [] => Some g
  | tx :: txs =>
      if decide (is_Some (conn_objects g !! 7) /\ is_uint32 (tx_txID tx)) then
        match HandleMsg (fun _ => None) 5 (MsgTx tx) (FromConn 7) false g with
        | Ret (None, g) => ex_handle_all txs g
        | _ => None
        end
      else None
  end.

Lemma ex_handle_all_steps txs h g g' : ex_handle_all txs g = Some g' -> exists h', rtc ex_process_step (mkProcess h g) (mkProcess h' g').
Proof.
  revert h g. induction txs as [|tx txs IH]; intros h g; cbn [ex_handle_all]; [intros [= ->]; by exists h|].
  destruct (decide _) as [[Hc Hid]|]; [|done]. destruct (HandleMsg _ _ _ _ _ _) as [[[e|] g1]| |] eqn:Hh; [done| |done..].
  intros Hrest. destruct (IH (with_bridge h (g_bridge g1)) g1 Hrest) as [h' Hr]. exists h'. eapply rtc_l; [|exact Hr].
  apply process_gateway. eapply gw_message; [| |exact Hh]; [exact Hid|]. by intros p [= <-].
Qed.

Definition ex_full : option (gateway (gmap string) ExConfig) := ex_handle_all (ex_relay_tx <$> seq 0 500) ex_gw1.
Definition ex_waits (o : option (gateway (gmap string) ExConfig)) : Z :=
  match o with Some g => Z.of_nat (length (ch_buf (transactionsFromBDN (g_bridge g)))) | None => -1 end.

Lemma ex_full_waits : ex_waits ex_full = 500.
Proof. vm_cast_no_check (@eq_refl Z 500). Qed.

(** A peer connects to the backend, and the relay to the gateway. *)
Lemma ex_connected_steps : exists h, rtc ex_process_step ex_begun (mkProcess h ex_gw1) /\ objects h !! 1 = Some ex_ready.
Proof.
  set (h1 := with_objects (p_handler ex_begun) (<[1 := ex_ready]> (objects (p_handler ex_begun)))).
  exists (with_bridge h1 (g_bridge ex_gw1)). split; [|reflexivity].
  eapply rtc_l; [apply (process_backend _ _ _ _ _ _ _ h1); by apply sys_connect|].
  apply rtc_once. apply process_gateway. by apply gw_new_relay.
Qed.

Lemma ex_socket : socket_given ex_connects.
Proof. by intros p sock [= ->]. Qed.

Example process_reachable_ok_witness :
  exists s, rtc ex_process_step ex_begun s /\ one_bridge s /\ gw_ok (p_gateway s) /\ Connections (p_gateway s) = [7] /\
    is_Some (objects (p_handler s) !! 1).
Proof.
  destruct ex_connected_steps as (h & Hr & Hp). exists (mkProcess h ex_gw1). split; [exact Hr|].
  destruct (process_reachable_ok (M:=gmap string) ex_send (fun n => n) ex_encode ex_connects (fun _ => None)
    toy_valid toy_valid_not_nil ex_socket unknownConfig _ Hr) as (Hb & _ & _ & Hg & _).
  split; [exact Hb|]. split; [exact Hg|]. split; [reflexivity|]. by exists ex_ready.
Defined.

Example relay_transactions_pile_up_witness :
  exists s, rtc ex_process_step ex_begun s /\ Z.of_nat (length (waiting s)) = transactionBacklog /\
    forall txs, fst (SendTransactionsFromBDN (g_bridge (p_gateway s)) txs) = Some ErrChannelFull.
Proof.
  destruct ex_connected_steps as (h & Hr & _). pose proof ex_full_waits as Hlen. unfold ex_full in Hlen.
  destruct (ex_handle_all _ ex_gw1) as [g|] eqn:Hg; [|discriminate Hlen].
  destruct (ex_handle_all_steps _ h _ _ Hg) as (h' & Hr'). pose proof (transitivity Hr Hr') as Hrun.
  exists (mkProcess h' g). split; [exact Hrun|]. split; [exact Hlen|].
  destruct (relay_transactions_pile_up (M:=gmap string) ex_send (fun n => n) ex_encode ex_connects (fun _ => None)
    toy_valid toy_valid_not_nil ex_socket unknownConfig _ _ Hrun (reflexivity _)) as (_ & _ & Hfull).
  by destruct (Hfull Hlen) as [_ Href].
Defined.
