(* ===== verification/Relays.v ===== *)
(** How the gateway comes by its connection to a relay: the TLS socket (connections/socket.go), the outbound
    relay (connections/handler/relay.go), the instructions to connect (connections/manager.go) and [Run] of
    the gateway (nodes/gateway.go), with the certificate files (utils/ssl.go). *)
From S2P Require Import Prelude Bytes CMap TbMessage Framing HashHistory Types TxStore TxStoreFacts BlockProcessor Channel Bridge.
From S2P Require Import NetworkConfig NodeConfig Keys Flags Conn Gateway GatewayProps GatewaySystem GatewayRel.

(** ** Files *)

(** [strings.ToLower] on ASCII *)
Definition lower_ascii (c : ascii) : ascii :=
  let n := N_of_ascii c in
  if decide (65 <= Z.of_N n <= 90) then ascii_of_N (n + 32) else c.
Fixpoint ToLower (s : string) : string :=
  match s with EmptyString => EmptyString | String c s => String (lower_ascii c) (ToLower s) end.

(** [os.MkdirAll]: [granted] tells which files under the directory can be written afterwards. *)
Definition MkdirAll (granted : string -> bool) (fs : FileSystem) (dir : string) : FileSystem :=
  mkFileSystem (fs_files fs) (fs_readable fs) (fun name => fs_writable fs name || HasPrefix name (dir +:+ "/")%string && granted name).

Definition privateDir (privateBaseURL certName : string) : string := path_Join [privateBaseURL; certName; "private"%string].

Definition GetCertDir (granted : string -> bool) (fs : FileSystem) (privateBaseURL certName : string) : string * string * FileSystem :=
  let dir := privateDir privateBaseURL certName in
  (path_Join [dir; (certName +:+ "_cert.pem")%string], path_Join [dir; (certName +:+ "_key.pem")%string], MkdirAll granted fs dir).

(** ** Connecting *)
Section Connecting.
Context {PrivateKey X509Certificate Certificate : Type}.
#[local] Abbreviation SSLCerts := (SSLCerts PrivateKey X509Certificate Certificate).

(** [net.DialTimeout] gives a connection, named by a number, and [Handshake] of its TLS client an error or none. *)
Definition NewTLS (dial : string -> result Z) (handshake : Z -> TLSConfig Certificate -> option go_error)
    (ip : string) (port : Z) (certs : SSLCerts) : option Z * option go_error :=
  match LoadPrivateConfig certs with
  | Fail err => (None, Some err)
  | Ok config =>
      match dial (ip +:+ ":" +:+ format_int port)%string with
      | Fail err => (None, Some err)
      | Ok ipConn =>
          match handshake ipConn config with
          | Some err => (None, Some err)
          | None => (Some ipConn, None)
          end
      end
  end.

(** The function [NewOutboundRelay] passes as [connect]: the pointer becomes an interface. *)
Definition outbound_connect (dial : string -> result Z) (handshake : Z -> TLSConfig Certificate -> option go_error)
    (ip : string) (port : Z) (certs : SSLCerts) : socket * option go_error :=
  let '(t, err) := NewTLS dial handshake ip port certs in
  (match t with None => NilTLS | Some n => TLSConn n end, err).

(** What it may return, whatever the network does. *)
Definition tls_connects (certs : SSLCerts) (p : Z) (r : socket * option go_error) : Prop :=
  exists dial handshake ip port, r = outbound_connect dial handshake ip port certs.

Lemma tls_socket_given certs : socket_given (tls_connects certs).
Proof.
  intros p sock (dial & handshake & ip & port & Hr). unfold outbound_connect, NewTLS in Hr.
  destruct (LoadPrivateConfig certs); [|done]. destruct (dial _); [|done]. destruct (handshake _ _); [done|]. congruence.
Qed.

(** Without a key pair every attempt fails. *)
Lemma no_pair_no_socket certs p r : privateKeyPair certs = None -> tls_connects certs p r -> r.1 = NilTLS /\ r.2 <> None.
Proof.
  intros Hc (dial & handshake & ip & port & ->). unfold outbound_connect, NewTLS, LoadPrivateConfig. rewrite Hc. done.
Qed.

(** *** Instructions *)
Inductive ConnInstructionType := Connect | Disconnect.
Record RelayInstruction := mkRelayInstruction { ri_IP : string; ri_Type : ConnInstructionType; ri_Port : Z }.

Context {M : Type -> Type} `{!ConcurrentMap M} {EthConfig : Type}.
Implicit Types g : gateway M EthConfig.

(** [connectRelay]: the relay gets the fresh address [p], and its read loop starts. *)
Definition connectRelay (p : Z) (instruction : RelayInstruction) g : gateway M EthConfig :=
  NewRelay p (ri_IP instruction) (ri_Port instruction) g.

(** A round of [handleRelayConnections]. *)
Definition handleRelayConnection (p : Z) (instruction : RelayInstruction) g : gateway M EthConfig :=
  match ri_Type instruction with Connect => connectRelay p instruction g | Disconnect => g end.

(** ** [Run] *)
Context (pem_Decode : list byte -> option (list byte)) (pem_EncodeToMemory : list byte -> list byte).
Context (ParseECPrivateKey : list byte -> result PrivateKey) (MarshalECPrivateKey : PrivateKey -> result (list byte)).
Context (ParseCertificate : list byte -> result X509Certificate) (X509KeyPair : list byte -> list byte -> result Certificate).

(** The certificate and key files of a gateway. *)
Definition Run_files (granted : string -> bool) (fs : FileSystem) (config : TurboConfig) : string * string * FileSystem :=
  GetCertDir granted fs (path_Join [DataDir (tc_Env config)]) (ToLower (NodeType_String (tc_NodeType config))).

(** [Run] up to the loops it starts and waits for: the files after it, the certificates, and the gateway once
    the one instruction it sends was handled. *)
Definition Run (generated : result PrivateKey) (granted : string -> bool) (fs : FileSystem) (config : TurboConfig) (p : Z) g
    : outcome (FileSystem * SSLCerts * gateway M EthConfig) :=
  let '(privateCertFile, privateKeyFile, fs) := Run_files granted fs config in
  '(fs, sslCerts) ← NewSSLCertsFromFiles pem_Decode pem_EncodeToMemory ParseECPrivateKey MarshalECPrivateKey ParseCertificate
    X509KeyPair generated fs privateCertFile privateKeyFile;
  mret (fs, sslCerts, handleRelayConnection p (mkRelayInstruction "127.0.0.1" Connect 443) g).
End Connecting.

(** ** Connections that never open *)
Section Idle.
Context {M : Type -> Type} `{!ConcurrentMap M} {EthConfig : Type}.
Context (connects : Z -> socket * option go_error -> Prop) (close_err : socket -> option go_error).
Implicit Types g : gateway M EthConfig.

(** Never opened: nothing was written and nothing waits. *)
Definition idle (s : SSLConn) : Prop := connectionOpen s = false /\ conn_written s = [] /\ ch_buf (sendMessages s) = [].
Definition all_idle g : Prop := forall p c, conn_objects g !! p = Some c -> idle (tb_conn c).

Hypothesis never : forall p r, connects p r -> r.2 <> None.

Lemma idle_change p s s' : idle s -> conn_change connects close_err p s s' -> idle s'.
Proof.
  intros (Ho & Hw & Hq). destruct 1 as [r now Hr|m| |accepts s' Hr|read err msgs s' Hr].
  - apply never in Hr. destruct r as [sock [e|]]; done.
  - unfold SSLConn_Send. rewrite Ho. by destruct (Socket s).
  - unfold SSLConn_Close. by rewrite Ho.
  - unfold sendLoop_round, recv in Hr. destruct (negb _); [by injection Hr as <-|]. by rewrite Hq in Hr.
  - unfold SSLConn_ReadMessages, SSLConn_Close in Hr. rewrite Ho in Hr. by injection Hr as <- <- <-.
Qed.

Definition keeps_idle g g' : Prop := all_idle g -> all_idle g'.

#[local] Instance keeps_idle_rel : GatewayRel connects close_err keeps_idle.
Proof.
  assert (forall g g', conn_objects g' = conn_objects g -> keeps_idle g g') as Hsame.
  { intros g g' Heq Hg p c. rewrite Heq. apply Hg. }
  split; try by intros; apply Hsame.
  - split; [by intros g Hg|]. intros g1 g2 g3 H1 H2 Hg. by apply H2, H1.
  - intros g p c s Hc Hch Hg q cq. unfold set_conn. rewrite Hc. cbn. intros [[<- <-]|[_ Hq]]%lookup_insert_Some; [|by apply (Hg q)].
    eapply idle_change; [|exact Hch]. by apply (Hg p).
  - intros g p c Hc Hg q cq. cbn. intros [[<- <-]|[_ Hq]]%lookup_insert_Some; [|by apply (Hg q)]. by apply (Hg p c).
  - intros g p ip port _ Hg q cq. cbn. intros [[<- <-]|[_ Hq]]%lookup_insert_Some; [done|by apply (Hg q)].
Qed.

Lemma stays_idle rlp g g' : all_idle g -> rtc (gateway_step rlp connects close_err) g g' -> all_idle g'.
Proof.
  intros Hg Hr. induction Hr as [|g1 g2 g3 [Hs|[b ->]] _ IH]; [done|apply IH|apply IH, Hg].
  by apply (gw_step_moves _ _ _ keeps_idle) in Hs; apply Hs.
Qed.

Lemma all_idle_new p ip port bridge : all_idle (NewRelay p ip port (NewGateway bridge)).
Proof. intros q c. cbn [conn_objects NewRelay OnConnEstablished with_conns NewGateway]. by intros [[<- <-]|[_ Hq]]%lookup_insert_Some. Qed.

(** A broadcast sends nothing then. *)
Lemma idle_broadcast msg src to g g' r : all_idle g -> broadcast close_err msg src to g = Ret (g', r) -> g' = g /\ SentPeers r = 0.
Proof.
  intros Hg. unfold broadcast. destruct (source_ID g src) as [id| |]; go_simpl; [|done..].
  assert (forall cs r0, SentPeers r0 = 0 -> broadcast_loop close_err msg id to cs g r0 = Ret (g', r) -> g' = g /\ SentPeers r = 0)
    as Hloop; [|by apply Hloop].
  induction cs as [|p cs IH]; intros r0 Hr0; simpl; [by intros [= <- <-]|]. unfold broadcast_to at 1.
  destruct (conn_objects g !! p) as [c|] eqn:Hc; go_simpl; [|done]. destruct (Hg p c Hc) as [Ho _].
  rewrite (decide_True (P := connectionOpen (tb_conn c) = false \/ _)) by (by left).
  case_decide; go_simpl; [by apply IH|]. apply IH. cbn. lia.
Qed.
End Idle.

(** ** Connections that left the list *)
Section Outside.
Context {M : Type -> Type} `{!ConcurrentMap M} {EthConfig : Type}.
Context (connects : Z -> socket * option go_error -> Prop) (close_err : socket -> option go_error).
Implicit Types g : gateway M EthConfig.

Definition outside p g : Prop := is_Some (conn_objects g !! p) /\ p ∉ Connections g.
Definition keeps_outside g g' : Prop := forall p, outside p g -> outside p g'.

#[local] Instance keeps_outside_rel : GatewayRel connects close_err keeps_outside.
Proof.
  assert (forall g cs os, cs `sublist_of` Connections g -> (forall p, is_Some (conn_objects g !! p) -> is_Some (os !! p)) ->
    keeps_outside g (with_conns g cs os)) as Hwith.
  { intros g cs os Hcs Hos p [Hp Hout]. split; [by apply Hos|]. intros Hin. apply Hout. by eapply elem_of_sublist. }
  assert (forall g p c, keeps_outside g (with_conns g (Connections g) (<[p := c]> (conn_objects g)))) as Hins.
  { intros g p c. apply Hwith; [done|]. intros q Hq. rewrite lookup_insert_is_Some'. by right. }
  split; try done.
  - split; [by intros g p Hp|]. intros g1 g2 g3 H1 H2 p Hp. by apply H2, H1.
  - intros g g' Hcs Hos _ p. unfold outside. by rewrite Hcs, Hos.
  - by intros g txs p Hp.
  - by intros g t b _ p Hp.
  - by intros g t b _ p Hp.
  - intros g p c s Hc _. unfold set_conn. rewrite Hc. apply Hins.
  - intros g id cs Hr. apply Hwith; [by eapply remove_by_ID_sublist|done].
  - intros g p ip port Hp q [Hq Hout]. split; cbn.
    + rewrite lookup_insert_is_Some'. by right.
    + intros [Hin|Heq%list_elem_of_singleton]%elem_of_app; [done|]. subst. rewrite Hp in Hq. by destruct Hq.
Qed.

Lemma stays_outside rlp p g g' : outside p g -> rtc (gateway_step rlp connects close_err) g g' -> outside p g'.
Proof.
  intros Hg Hr. induction Hr as [|g1 g2 g3 [Hs|[b ->]] _ IH]; [done|apply IH|apply IH, Hg].
  by apply (gw_step_moves _ _ _ keeps_outside) in Hs; apply Hs.
Qed.
End Outside.

Lemma readLoop_connect_outside {M : Type -> Type} `{!ConcurrentMap M} {EthConfig} close_err r now init p q (g : gateway M EthConfig) ctl g' :
  outside q g -> readLoop_connect (fun _ => r) close_err now init p g = Ret (ctl, g') -> outside q g'.
Proof.
  intros Hq Hr. pose proof (keeps_outside_rel (M:=M) (EthConfig:=EthConfig) (fun _ r' => r' = r) close_err) as Hrel.
  by eapply (readLoop_connect_moves (fun _ r' => r' = r) close_err keeps_outside r now init p g) in Hr; [apply Hr|].
Qed.

Section Attempts.
Context {M : Type -> Type} `{!ConcurrentMap M} {EthConfig : Type} (close_err : socket -> option go_error).
Implicit Types g : gateway M EthConfig.

Lemma broadcast_outside msg src to p g g' r : p ∉ Connections g -> broadcast close_err msg src to g = Ret (g', r) ->
  conn_objects g' !! p = conn_objects g !! p.
Proof.
  intros Hp. unfold broadcast. destruct (source_ID g src) as [id| |]; go_simpl; [|done..].
  generalize (mkBroadcastResults 0 0 0 0 0) as r0. revert Hp. generalize (Connections g) as cs. intros cs. revert g.
  induction cs as [|q cs IH]; intros g Hp r0; simpl; [by intros [= <- <-]|].
  apply not_elem_of_cons in Hp as [Hne Hp]. unfold broadcast_to at 1.
  destruct (conn_objects g !! q) as [c|] eqn:Hc; go_simpl; [|done].
  case_decide; go_simpl; [by apply IH|]. case_decide; go_simpl; [by apply IH|].
  assert (forall s, conn_objects (set_conn g q s) !! p = conn_objects g !! p) as Hset.
  { intros s. unfold set_conn. rewrite Hc. cbn. by apply lookup_insert_ne. }
  destruct (SSLConn_Send _ _ _) as [[e|] conn]; go_simpl; intros Hr; apply IH in Hr; by rewrite ?Hr, ?Hset.
Qed.

Lemma remove_by_ID_one os p c id cs :
  NoDup cs -> os !! p = Some c -> conn_ID c = id ->
  (forall q cq, q ∈ cs -> q <> p -> os !! q = Some cq -> conn_ID cq <> id) -> p ∉ default cs (remove_by_ID os id cs).
Proof.
  intros Hnd Hp Hid. induction Hnd as [|q cs Hq Hnd IH]; intros Hother; [apply not_elem_of_nil|]. simpl.
  case_decide as Hd.
  - destruct (decide (q = p)) as [->|Hne]; [done|]. destruct (os !! q) as [cq|] eqn:Hcq; [|done].
    injection Hd as Hd. by destruct (Hother q cq ltac:(by left) Hne Hcq).
  - assert (q <> p) as Hne by (intros ->; rewrite Hp in Hd; cbn in Hd; congruence).
    assert (p ∉ default cs (remove_by_ID os id cs)) as Hrest by (apply IH; intros q' cq Hin; apply Hother; by right).
    destruct (remove_by_ID os id cs); cbn in *; apply not_elem_of_cons; done.
Qed.

Lemma closeWithRetry_out p c g g1 :
  conn_objects g !! p = Some c -> NoDup (Connections g) ->
  (forall q cq, q ∈ Connections g -> q <> p -> conn_objects g !! q = Some cq -> conn_ID cq <> conn_ID c) ->
  closeWithRetry close_err p g = Ret g1 -> outside p g1.
Proof.
  intros Hc Hnd Hother. unfold closeWithRetry. rewrite Hc. go_simpl. set (c0 := mkTbConn _ _ _). set (os := <[p := c0]> (conn_objects g)).
  assert (os !! p = Some c0) as Hos by apply lookup_insert_eq.
  assert (p ∉ default (Connections g) (remove_by_ID os (conn_ID c0) (Connections g))) as Hout.
  { eapply remove_by_ID_one; [done..|]. intros q cq Hin Hne. unfold os. rewrite lookup_insert_ne by done. by apply Hother. }
  unfold OnConnClosed. cbn [conn_objects with_conns Connections]. rewrite Hos. go_simpl.
  destruct (remove_by_ID os _ _) as [cs|]; go_simpl; intros [= <-]; unfold set_conn; cbn [conn_objects with_conns]; rewrite Hos;
    (split; [|done]); cbn; rewrite lookup_insert_is_Some'; by left.
Qed.

(** A failed attempt of the initiator takes the connection out of the list. *)
Lemma failed_attempt p c r e now g ctl g1 :
  conn_objects g !! p = Some c -> r.2 = Some e -> NoDup (Connections g) ->
  (forall q cq, q ∈ Connections g -> q <> p -> conn_objects g !! q = Some cq -> Socket (tb_conn cq) <> r.1) ->
  readLoop_connect (fun _ => r) close_err now true p g = Ret (ctl, g1) -> ctl = Reconnecting /\ outside p g1.
Proof.
  intros Hc He Hnd Hother. destruct r as [sock err]. cbn in He, Hother. subst err. unfold readLoop_connect. rewrite Hc. go_simpl.
  cbn [SSLConn_Connect]. set (conn := mkSSLConn sock _ _ _ _ _ _ _ _ _ _ _).
  destruct (closeWithRetry _ _ _) as [g2| |] eqn:Hcl; go_simpl; [|done..]. intros [= <- <-]. split; [done|].
  unfold set_conn in Hcl. rewrite Hc in Hcl. eapply closeWithRetry_out; [| | |exact Hcl]; cbn; [apply lookup_insert_eq|done|].
  intros q cq Hin Hne. rewrite lookup_insert_ne by done. intros Hq [= Heq]. by eapply Hother.
Qed.
End Attempts.

(** ** Properties *)
Section Properties.
Context {PrivateKey X509Certificate Certificate : Type}.
Context (pem_Decode : list byte -> option (list byte)) (pem_EncodeToMemory : list byte -> list byte).
Context (ParseECPrivateKey : list byte -> result PrivateKey) (MarshalECPrivateKey : PrivateKey -> result (list byte)).
Context (ParseCertificate : list byte -> result X509Certificate) (X509KeyPair : list byte -> list byte -> result Certificate).
Context {M : Type -> Type} `{ConcurrentMapLaws M} {EthConfig : Type}.
Context (rlp_EncodeToBytes : bxBlockRLP -> result (list byte)) (close_err : socket -> option go_error).
Implicit Types g : gateway M EthConfig.
#[local] Abbreviation Run := (Run pem_Decode pem_EncodeToMemory ParseECPrivateKey MarshalECPrivateKey ParseCertificate X509KeyPair).

(** C19: A gateway that starts without certificate files never talks to a relay, and does not start again.
    [Run] returns its parts; whatever the network does, however often the read loop tries to connect,
    whatever the node sends and in whatever order the goroutines run, no connection is ever open and nothing
    is ever written to one, and every broadcast reaches nobody; and every later start, whether or not a
    certificate was put in place in between, crashes. *)
Theorem first_start_never_connects granted fs config key bytes p bridge :
  let '(certFile, keyFile, made) := Run_files granted fs config in
  read_block made certFile = None -> read_block made keyFile = None -> MarshalECPrivateKey key = Ok bytes ->
  fs_writable made keyFile = true -> pem_Decode [] = None -> certFile <> keyFile ->
  exists fs' certs g, Run (Ok key) granted fs config p (NewGateway bridge) = Ret (fs', certs, g) /\ Connections g = [p] /\
    (forall g', rtc (gateway_step rlp_EncodeToBytes (tls_connects certs) close_err) g g' ->
       (forall q c, conn_objects g' !! q = Some c -> connectionOpen (tb_conn c) = false /\ conn_written (tb_conn c) = []) /\
       (forall msg src to g'' r, broadcast close_err msg src to g' = Ret (g'', r) -> g'' = g' /\ SentPeers r = 0)) /\
    (forall issued generated p' g0, fs_readable made keyFile = true ->
       Run generated granted
         (mkFileSystem (match issued with Some content => <[certFile := content]> (fs_files fs') | None => fs_files fs' end)
            (fs_readable fs') (fs_writable fs')) config p' g0 = Panics NilDereference).
Proof.
  unfold Relays.Run, Run_files. destruct (GetCertDir _ _ _ _) as [[certFile keyFile] made] eqn:Hdir.
  intros Hc Hk Hm Hw Hempty Hne.
  pose proof (first_start pem_Decode pem_EncodeToMemory ParseECPrivateKey MarshalECPrivateKey ParseCertificate X509KeyPair
    key bytes made certFile keyFile Hc Hk Hm Hw) as Hrun.
  rewrite Hrun. go_simpl. eexists _, _, _. split; [done|]. split; [done|]. split.
  - intros g' Hr. assert (all_idle g') as Hidle.
    { eapply stays_idle; [|  |exact Hr]; [by intros q r [_ Hno]%no_pair_no_socket|].
      by apply all_idle_new. }
    split; [|intros ?????; by apply idle_broadcast]. intros q c Hq. by destruct (Hidle q c Hq) as (? & ? & _).
  - intros issued generated p' g0 Hr. unfold GetCertDir in *. injection Hdir as <- <- <-. cbn in Hr.
    rewrite empty_key_crashes; [done|done|]. unfold read_block, ReadFile. cbn.
    destruct issued; rewrite ?lookup_insert_ne by done; rewrite lookup_insert_eq; by rewrite Hr.
Qed.

(** C20: A connection whose first attempt fails is lost to the gateway. The connection joins the list when it
    is built and leaves it when an attempt to connect fails; nothing puts it back. So after a failed attempt,
    whatever happens then: it is not in the list, and when a later attempt succeeds the connection is open,
    the loop reads from it, and still every broadcast passes it by. *)
Theorem failed_connection_lost p c r e now g ctl g1 g' :
  gw_ok g -> conn_objects g !! p = Some c -> r.2 = Some e ->
  (forall q cq, q ∈ Connections g -> q <> p -> conn_objects g !! q = Some cq -> Socket (tb_conn cq) <> r.1) ->
  readLoop_connect (fun _ => r) close_err now true p g = Ret (ctl, g1) ->
  forall connects, rtc (gateway_step rlp_EncodeToBytes connects close_err) g1 g' ->
  ctl = Reconnecting /\ (p ∉ Connections g') /\
  forall n now', exists g2 c2, readLoop_connect (fun _ => (TLSConn n, None)) close_err now' true p g' = Ret (Reading, g2) /\
    conn_objects g2 !! p = Some c2 /\ connectionOpen (tb_conn c2) = true /\
    forall msg src to g3 res, broadcast close_err msg src to g2 = Ret (g3, res) -> conn_objects g3 !! p = Some c2.
Proof.
  intros [(_ & Hnd & _) _ _ _] Hc He Hother Hrun connects Hsteps.
  destruct (failed_attempt close_err p c r e now g ctl g1 Hc He Hnd Hother Hrun) as [-> Hout].
  destruct (stays_outside connects close_err rlp_EncodeToBytes p g1 g' Hout Hsteps) as [[c' Hc'] Hout'].
  split; [done|]. split; [done|]. intros n now'. unfold readLoop_connect. rewrite Hc'. go_simpl.
  destruct (SSLConn_Connect _ _ _) as [e' conn] eqn:Hcon. injection Hcon as <- Hconn. go_simpl.
  eexists _, (with_conn c' conn). split; [done|]. unfold set_conn. rewrite Hc'. cbn.
  split; [apply lookup_insert_eq|]. split; [by rewrite <- Hconn|]. intros msg src to g3 res Hb.
  apply (broadcast_outside _ _ _ _ p) in Hb; [|done]. rewrite Hb. apply lookup_insert_eq.
Qed.
End Properties.

(** ** Witnesses: the gateway's first start, and a relay that is there only after the first attempt *)
Definition ex_config : TurboConfig := mkTurboConfig NodeConfig.Gateway MainnetEnv (mkLogConfig "gateway" "" 4 4 100 10 10) (mkTxTraceLog false 100 3).

Lemma first_start_never_connects_witness :
  exists fs' certs g, Run ex_Decode ex_Encode ex_Parse (fun key => Ok [key]) ex_Parse ex_Pair (Ok x07) (fun _ => true) (ex_disk ∅)
      ex_config 7 (NewGateway (M:=gmap string) (EthConfig:=unit) NewTurboBridge) = Ret (fs', certs, g) /\
    fs_files fs' = <["datadir/gateway/private/gateway_key.pem"%string := []]> ∅ /\
    (forall g', rtc (gateway_step ex_encode (tls_connects certs) (fun _ => None)) g g' ->
       forall msg src to g'' r, broadcast (fun _ => None) msg src to g' = Ret (g'', r) -> SentPeers r = 0).
Proof.
  pose proof (first_start_never_connects ex_Decode ex_Encode ex_Parse (fun key => Ok [key]) ex_Parse ex_Pair (M:=gmap string) (EthConfig:=unit)
    ex_encode (fun _ => None) (fun _ => true) (ex_disk ∅) ex_config x07 [x07] 7 NewTurboBridge) as Hthm.
  destruct Hthm as (fs' & certs & g & Hrun & _ & Hnever & _); [vm_compute; congruence..|].
  exists fs', certs, g. split; [exact Hrun|]. split; [|intros g' Hr msg src to g'' r Hb; by destruct (Hnever g' Hr) as [_ Hs]; apply Hs in Hb as [_ ?]].
  pose proof (f_equal (fun o => if o is Ret (f, _, _) then Some (fs_files f) else None) Hrun) as Hf. cbn beta iota in Hf.
  injection Hf as <-. vm_compute. reflexivity.
Defined.

Definition ex_lone : gateway (gmap string) unit := NewRelay 7 "127.0.0.1" 443 (NewGateway NewTurboBridge).
Definition ex_refused : socket * option go_error := (NilTLS, Some (Errorf "connection refused")).

Lemma failed_connection_lost_witness :
  exists g1 g2, readLoop_connect (fun _ => ex_refused) (fun _ => None) 0 true 7 ex_lone = Ret (Reconnecting, g1) /\
    readLoop_connect (fun _ => (TLSConn 1, None)) (fun _ => None) 5 true 7 g1 = Ret (Reading, g2) /\ (7 ∉ Connections g1).
Proof.
  destruct (readLoop_connect (fun _ => ex_refused) (fun _ => None) 0 true 7 ex_lone) as [[ctl g1]| |] eqn:Hrun; [|discriminate Hrun..].
  destruct (failed_connection_lost (M:=gmap string) ex_encode (fun _ => None) 7 (mkTbConn (NewSSLConnection "127.0.0.1" 443 100000) true false)
    ex_refused (Errorf "connection refused") 0 ex_lone ctl g1 g1) with (connects := ex_connects) as (-> & Hout & Hagain).
  - apply NewRelay_ok; [reflexivity|apply NewGateway_ok].
  - reflexivity.
  - reflexivity.
  - intros q cq Hq%list_elem_of_singleton. done.
  - exact Hrun.
  - reflexivity.
  - destruct (Hagain 1 5) as (g2 & c2 & Hc & _). exists g1, g2. split; [reflexivity|]. split; [exact Hc|exact Hout].
Defined.
