(* ===== verification/Certified.v ===== *)
(** A gateway that starts with its certificate files in place: it connects to the relay at the first attempt,
    and the blocks of its nodes reach the relay over this connection. *)
From S2P Require Import Prelude Bytes CMap TbMessage Framing HashHistory Types TxStore TxStoreFacts BlockProcessor EthTypes Chain ChainFacts.
From S2P Require Import ChainSpec ChainCanonical ChainProps ChainExamples Channel Bridge Peer PeerSet Converter NetworkConfig Backend.
From S2P Require Import BackendFacts NodeBlocks NodeConfig Keys Flags Conn Gateway GatewayProps GatewaySystem GatewayRel Pipeline EndToEnd Relays.

(** ** The certificates *)
Section Files.
Context {PrivateKey X509Certificate Certificate : Type}.
Context (pem_Decode : list byte -> option (list byte)) (pem_EncodeToMemory : list byte -> list byte).
Context (ParseECPrivateKey : list byte -> result PrivateKey) (MarshalECPrivateKey : PrivateKey -> result (list byte)).
Context (ParseCertificate : list byte -> result X509Certificate) (X509KeyPair : list byte -> list byte -> result Certificate).
#[local] Abbreviation usable := (usable pem_Decode ParseECPrivateKey ParseCertificate X509KeyPair).
#[local] Abbreviation NewSSLCertsFromFiles :=
  (NewSSLCertsFromFiles pem_Decode pem_EncodeToMemory ParseECPrivateKey MarshalECPrivateKey ParseCertificate X509KeyPair).

Lemma usable_loads generated fs certFile keyFile pair : usable fs certFile keyFile pair ->
  exists certs, NewSSLCertsFromFiles generated fs certFile keyFile = Ret (fs, certs) /\ privateKeyPair certs = Some pair.
Proof.
  intros (certBlock & keyBlock & certBytes & keyBytes & cert & key & Hc & Hk & Hdc & Hdk & Hpc & Hpk & Hpair).
  unfold Keys.NewSSLCertsFromFiles, parsePEMPrivateKey, parsePEMCert.
  rewrite Hk, Hc, Hdk. cbn. rewrite Hpk. cbn. rewrite Hdc. cbn. rewrite Hpc. cbn. rewrite Hpair. cbn.
  by eexists.
Qed.

(** With the key pair, and a network that lets it, the attempt gives a socket. *)
Lemma pair_connects (certs : SSLCerts PrivateKey X509Certificate Certificate) pair dial handshake ip port n :
  privateKeyPair certs = Some pair -> dial (ip +:+ ":" +:+ format_int port)%string = Ok n ->
  handshake n (mkTLSConfig [pair] true) = None -> outbound_connect dial handshake ip port certs = (TLSConn n, None).
Proof. intros Hp Hd Hh. unfold outbound_connect, NewTLS, LoadPrivateConfig. rewrite Hp, Hd, Hh. done. Qed.
End Files.

(** ** The gateway after its first connection *)
Section Connected.
Context {M : Type -> Type} `{ConcurrentMapLaws M} {EthConfig : Type} (close_err : socket -> option go_error).

(** What a first attempt makes of the new relay. *)
Definition connected_relay (ip : string) (port n now : Z) : TbConn :=
  mkTbConn (snd (SSLConn_Connect (TLSConn n, None) now (NewSSLConnection ip port 100000))) true false.
Definition connected (ip : string) (port n now p : Z) (bridge : TurboBridge EthConfig) : gateway M EthConfig :=
  with_conns (NewGateway bridge) [p] (<[p := connected_relay ip port n now]> ∅).

Lemma first_attempt ip port n now p bridge :
  readLoop_connect (fun _ => (TLSConn n, None)) close_err now true p (NewRelay p ip port (NewGateway (M:=M) (EthConfig:=EthConfig) bridge))
    = Ret (Reading, connected ip port n now p bridge).
Proof.
  unfold readLoop_connect. cbn [conn_objects NewRelay OnConnEstablished with_conns]. rewrite lookup_insert_eq. go_simpl.
  unfold set_conn. cbn [conn_objects NewRelay OnConnEstablished with_conns]. rewrite lookup_insert_eq.
  unfold connected, with_conns. cbn. by rewrite insert_insert_eq.
Qed.

Lemma connected_ok ip port n now p bridge : gateway_ok (connected ip port n now p bridge).
Proof.
  split_and!.
  - split; intros k ?; unfold contents, ids_map; simpl; by rewrite cm_view_new, lookup_empty.
  - apply NoDup_singleton.
  - intros q ->%list_elem_of_singleton. cbn. rewrite lookup_insert_eq. by eexists.
Qed.

Lemma connected_unseen ip port n now p bridge t hash : ShouldProcess t (blockProcessor (connected ip port n now p bridge)) hash = true.
Proof. unfold ShouldProcess. cbn. unfold HashHistory_Exists. cbn. by rewrite cm_get_spec, cm_view_new, lookup_empty. Qed.
End Connected.

(** ** Properties *)
Section Start.
Context {PrivateKey X509Certificate Certificate : Type}.
Context (pem_Decode : list byte -> option (list byte)) (pem_EncodeToMemory : list byte -> list byte).
Context (ParseECPrivateKey : list byte -> result PrivateKey) (MarshalECPrivateKey : PrivateKey -> result (list byte)).
Context (ParseCertificate : list byte -> result X509Certificate) (X509KeyPair : list byte -> list byte -> result Certificate).
Context `{EthRlpLaws} `{!EthLaws} {M : Type -> Type} `{ConcurrentMapLaws M} `{MapRangeLaws}.
Context (p2p_Send : eth_msg -> option go_error) (rand_Uint64 : Z -> Z) {Node PrivateKeyT : Type}.
#[local] Abbreviation Config := (EthConfig Node PrivateKeyT).
#[local] Abbreviation Handler := (Handler M (TurboBridge Config) Node PrivateKeyT).
Context (rlp_EncodeToBytes : bxBlockRLP -> result (list byte)).
Context (accepts : list byte -> bool) (close_err : socket -> option go_error).
Variable valid : Header -> Prop.
Hypothesis valid_not_nil : forall hd, valid hd -> header_hash hd <> nil_header_hash /\ header_parent hd <> nil_header_hash.
Implicit Types h : Handler.
#[local] Abbreviation Run := (Run pem_Decode pem_EncodeToMemory ParseECPrivateKey MarshalECPrivateKey ParseCertificate X509KeyPair
  (M:=M) (EthConfig:=Config)).
#[local] Abbreviation usable := (usable pem_Decode ParseECPrivateKey ParseCertificate X509KeyPair).

(** C2: A gateway with certificates works from its start on. When the certificate and key files are there
    and belong together, the relay can be dialled and the handshake with exactly this key pair succeeds,
    then: [Run] returns its parts without touching the files; the first attempt of the relay's read loop
    connects, and the loop goes on to read; and the next chain of new blocks a peer of the Ethereum side
    announces - under the conditions of that side and of the encoder alone, as the gateway has seen no block
    and its queue is empty - arrives at the relay complete and in order. *)
Theorem certified_gateway_delivers generated granted fs config bridge p pair dial handshake n now h ph e l head rest times :
  (forall written, accepts written = true) ->
  (let '(certFile, keyFile, made) := Run_files granted fs config in usable made certFile keyFile pair) ->
  dial "127.0.0.1:443"%string = Ok n -> handshake n (mkTLSConfig [pair] true) = None ->
  takes_blocks valid h ph e (Z.of_nat (length l)) -> chainState (h_chain h) = head :: rest -> follows head (snd <$> l) ->
  NoDup ((fun x => block_hash (nb_Block x.2)) <$> l) -> ch_buf (blocksFromNode (h_bridge h)) = [] -> l <> [] ->
  Forall (fun x => sendable valid (IgnoreBlockTimeout (h_config h)) x.1 (nb_Block x.2) /\ unsent (h_chain h) (nb_Block x.2)) l ->
  Forall (fun x => encodable rlp_EncodeToBytes x.1 (nb_Block x.2)) l ->
  Z.of_nat (length l) <= 100000 -> length times = length l ->
  exists certs g g1,
    Run generated granted fs config p (NewGateway bridge) = Ret ((Run_files granted fs config).2, certs, g) /\
    readLoop_connect (fun _ => outbound_connect dial handshake "127.0.0.1" 443 certs) close_err now true p g = Ret (Reading, g1) /\
    Connections g1 = [p] /\
    delivered p2p_Send rand_Uint64 rlp_EncodeToBytes accepts close_err h ph l times g1 p.
Proof.
  unfold Relays.Run, Run_files. destruct (GetCertDir _ _ _ _) as [[certFile keyFile] made].
  intros Hacc Hus Hdial Hhand Htk Hst Hf Hnd Hempty Hne Hall Henc Hroom Hlen.
  destruct (usable_loads pem_Decode pem_EncodeToMemory ParseECPrivateKey MarshalECPrivateKey ParseCertificate X509KeyPair generated
    made certFile keyFile pair Hus) as (certs & Hload & Hpair).
  rewrite Hload. go_simpl. exists certs, (NewRelay p "127.0.0.1" 443 (NewGateway bridge)), (connected "127.0.0.1" 443 n now p bridge).
  split; [done|]. rewrite (pair_connects certs pair dial handshake "127.0.0.1" 443 n Hpair Hdial Hhand).
  split; [apply first_attempt|]. split; [done|].
  apply (blocks_delivered p2p_Send rand_Uint64 rlp_EncodeToBytes accepts close_err valid valid_not_nil h ph e l head rest times
    (connected "127.0.0.1" 443 n now p bridge) p (connected_relay "127.0.0.1" 443 n now)); try done.
  - apply connected_ok.
  - by left.
  - cbn. apply lookup_insert_eq.
  - intros x t _. apply connected_unseen.
Qed.
End Start.

(** ** Witness: a disk with a key pair, and the two blocks of peer 1 *)
Definition ex_certified : FileSystem :=
  ex_disk (<["datadir/gateway/private/gateway_cert.pem"%string := [x01; x07]]> {["datadir/gateway/private/gateway_key.pem"%string := [x01; x07]]}).
Definition ex_dial (address : string) : result Z := if decide (address = "127.0.0.1:443"%string) then Ok 5 else Fail (Errorf "no route").
Definition ex_handshake (conn : Z) (config : TLSConfig (list byte)) : option go_error :=
  if decide (Certificates config = [[x01; x07]]) then None else Some (Errorf "bad certificate").

Lemma certified_gateway_delivers_witness : exists certs g g1,
  Run ex_Decode ex_Encode ex_Parse (fun key => Ok [key]) ex_Parse ex_Pair (Ok x07) (fun _ => true) ex_certified ex_config 7
    (NewGateway (M:=gmap string) (EthConfig:=EthConfig string unit) NewTurboBridge)
    = Ret ((Run_files (fun _ => true) ex_certified ex_config).2, certs, g) /\
  readLoop_connect (fun _ => outbound_connect ex_dial ex_handshake "127.0.0.1" 443 certs) (fun _ => None) 3 true 7 g = Ret (Reading, g1) /\
  delivered (fun _ => None) (fun n => n) ex_encode (fun _ => true) (fun _ => None) ex_two_peers 1 ex_new_blocks [1; 2] g1 7.
Proof.
  destruct (certified_gateway_delivers ex_Decode ex_Encode ex_Parse (fun key => Ok [key]) ex_Parse ex_Pair (M:=gmap string)
    (fun _ => None) (fun n => n) ex_encode (fun _ => true) (fun _ => None) toy_valid toy_valid_not_nil
    (Ok x07) (fun _ => true) ex_certified ex_config NewTurboBridge 7 [x01; x07] ex_dial ex_handshake 5 3
    ex_two_peers 1 (mkNodeEndpoint "1.2.3.4" 30303 "enode") ex_new_blocks (toy_ref 12 102) [toy_ref 11 101; toy_ref 10 100] [1; 2])
    as (certs & g & g1 & Hrun & Hconn & _ & Hdel).
  - reflexivity.
  - cbn beta zeta iota delta [Run_files GetCertDir]. exists [x01; x07], [x01; x07], [x07], [x07], x07, x07. split_and!; by vm_compute.
  - reflexivity.
  - reflexivity.
  - apply ex_two_peers_take.
  - apply ex_chain_state.
  - repeat split; reflexivity.
  - apply NoDup_cons. split; [|apply NoDup_singleton]. intros Hin%list_elem_of_singleton. discriminate.
  - reflexivity.
  - discriminate.
  - repeat (apply Forall_cons; split); [split; [by apply ex_sendable|apply ex_unsent; auto]..|constructor].
  - repeat (apply Forall_cons; split); [apply ex_encodable; by vm_compute..|constructor].
  - vm_compute. congruence.
  - reflexivity.
  - exists certs, g, g1. split; [exact Hrun|]. split; [exact Hconn|exact Hdel].
Defined.
