(* ===== verification/Startup.v ===== *)
(** The start of the program: [main] and [runGateway] (cmd/gateway/main.go), and the Ethereum server they make
    (blockchain/eth/server.go, protocol.go). The p2p server, node records and the log file are go-ethereum's
    and lumberjack's: parameters. *)
From S2P Require Import Prelude Bytes CMap TbMessage Framing HashHistory Types TxStore TxStoreFacts BlockProcessor Channel Bridge EthTypes Chain ChainExamples.
From S2P Require Import Peer PeerFacts PeerSet Converter NetworkConfig Backend Handlers NodeConfig Keys Flags Logger Conn Gateway Process Relays.

Section Startup.
Context `{EthTypes} {M : Type -> Type} `{!ConcurrentMap M} `{!ConverterOps} `{MapRange} {Node PrivateKeyT : Type}.
Context (p2p_Send : eth_msg -> option go_error) (rand_Uint64 : Z -> Z) {Msg : Type} `{!Decoder Msg}.
#[local] Abbreviation Config := (EthConfig Node PrivateKeyT).
#[local] Abbreviation Handler := (Handler M (TurboBridge Config) Node PrivateKeyT).
#[local] Abbreviation HM := (HM (M:=M) (B:=TurboBridge Config) (Node:=Node) (PrivateKeyT:=PrivateKeyT)).

(** ** blockchain/eth/protocol.go *)

(** [p2p.Protocol]: [Run] is given the new peer, its status message and the messages read from it. The two
    functions for information about nodes return nil. *)
Record Protocol := mkProtocol {
  pr_Name : string;
  pr_Version : Z;
  pr_Length : Z;
  pr_Run : Z -> Z -> result p2p_Msg -> list (Z * (Z -> bool) * result Msg) -> HM (option go_error)
}.

(** [ProtocolLengths[version]] *)
Fixpoint length_of (lengths : list (Z * Z)) (version : Z) : Z :=
  match lengths with
  | [] => 0
  | (v, l) :: lengths => if decide (version = v) then l else length_of lengths version
  end.

Definition makeProtocol (version versionLength : Z) : Protocol :=
  mkProtocol "eth" version versionLength
    (fun now peer status reads => protocol_Run p2p_Send rand_Uint64 now peer (uint32 version) status reads).

Definition MakeProtocols : list Protocol :=
  (fun version => makeProtocol version (length_of ProtocolLengths version)) <$> SupportedProtocols.

(** ** blockchain/eth/server.go *)

(** [p2p.Config], without the fields that are nil, false or empty here and of types of their own. *)
Record p2p_Config := mkp2p_Config {
  srv_PrivateKey : option PrivateKeyT;
  MaxPeers : Z;
  MaxPendingPeers : Z;
  DialRatio : Z;
  NoDiscovery : bool;
  DiscoveryV5 : bool;
  srv_Name : string;
  StaticNodes : list Node;
  NodeDatabase : string;
  Protocols : list Protocol;
  ListenAddr : string;
  NoDial : bool;
  EnableMsgEvents : bool
}.

(** A [Server], with the handler its protocols serve. *)
Record Server := mkServer { srv_Config : p2p_Config; srv_Handler : Handler; srv_running : bool; srv_cancelled : bool }.

(** go-ethereum's key files and the start of its p2p server *)
Context (decode_key : list byte -> option PrivateKeyT) (encode_key : PrivateKeyT -> list byte).
Context (p2p_Start : p2p_Config -> option go_error).

Definition NewServer (generatedKey : option PrivateKeyT) (fs : FileSystem) (config : Config) (bridge : TurboBridge Config) (dataDir : string)
    : FileSystem * result Server :=
  let '(fs, key) := NewServer_key decode_key encode_key (PrivateKey config) generatedKey fs (path_Join [dataDir; ".gatewaykey"%string]) in
  match key with
  | Fail err => (fs, Fail err)
  | Ok privateKey =>
      let handler := NewHandler bridge config in
      (fs, Ok (mkServer
        (mkp2p_Config privateKey (Z.of_nat (length (StaticPeers config))) 1 1 true false "Turbo Gateway v0.1.0" (StaticEnodes config) ""
           MakeProtocols "" false false) handler false false))
  end.

Definition Server_Start (s : Server) : option go_error * Server :=
  match p2p_Start (srv_Config s) with
  | Some err => (Some err, s)
  | None => (None, mkServer (srv_Config s) (srv_Handler s) true (srv_cancelled s))
  end.

Definition Server_Stop (s : Server) : Server := mkServer (srv_Config s) (srv_Handler s) false true.

(** ** cmd/gateway/main.go *)

(** [enode.Node]'s fields and [crypto.FromECDSAPub], whose result for a nil key is nil *)
Context {PublicKeyT : Type} (Node_Pubkey : Node -> option PublicKeyT) (FromECDSAPub : option PublicKeyT -> list byte).
Context (Node_IP : Node -> string) (Node_TCP : Node -> Z) (Node_String : Node -> string).

Definition peer_endpoint (peer : PeerInfo Node) : outcome NodeEndpoint :=
  let blockchainPeer := Enode peer in
  key ← slice_from (FromECDSAPub (Node_Pubkey blockchainPeer)) 1;
  mret (mkNodeEndpoint (Node_IP blockchainPeer) (Node_TCP blockchainPeer) (hex_encode key)).

Fixpoint peer_endpoints (peers : list (PeerInfo Node)) : outcome (list NodeEndpoint) :=
  match peers with
  | [] => mret []
  | peer :: peers => ep ← peer_endpoint peer; eps ← peer_endpoints peers; mret (ep :: eps)
  end.

(** What [runGateway] starts in goroutines of its own. *)
Inductive part :=
  | ProfilingServer
  | GatewayRun (config : TurboConfig) (g : gateway M Config) (blockchainPeers : list NodeEndpoint) (gatewayPeers : string).

(** How it ends: with an error or without, or it waits for a signal, with the Ethereum server if there is one. *)
Inductive run_end :=
  | Returned (err : option go_error)
  | Waiting (server : option Server).

(** urfave's parsers of node records and keys, logrus' levels and the log file *)
Context (enode_Parse : string -> result Node) (HexToECDSA : string -> result PrivateKeyT) (ParseLevel : string -> result Z).
Context (NewHook : string -> Z -> Z -> Z -> Z -> option go_error).

(** The end of [runGateway], from the check for peers on. *)
Definition start_server (c : Context) (generatedKey : option PrivateKeyT) (fs : FileSystem) (ethConfig : Config)
    (bridge : TurboBridge Config) (blockchainPeers : list NodeEndpoint) : FileSystem * run_end :=
  if decide (blockchainPeers = []) then (fs, Waiting None) else
  match NewServer generatedKey fs ethConfig bridge (cli_String c (flag_Name DataDirFlag)) with
  | (fs, Fail err) => (fs, Returned (Some err))
  | (fs, Ok server) =>
      match Server_Start server with
      | (Some _, _) => (fs, Returned None)
      | (None, server) => (fs, Waiting (Some server))
      end
  end.

Definition runGateway (c : Context) (generatedKey : option PrivateKeyT) (fs : FileSystem) : outcome (FileSystem * list part * run_end) :=
  let profiling := if cli_Bool c (flag_Name DisableProfilingFlag) then [] else [ProfilingServer] in
  match NewTurboConfigFromCLI (cli_String c) (cli_Int c) (cli_Bool c) app_Name ParseLevel with
  | Fail err => mret (fs, profiling, Returned (Some err))
  | Ok turboConfig =>
      match NewPresetEthConfigFromCLI enode_Parse HexToECDSA c with
      | Fail err => mret (fs, profiling, Returned (Some err))
      | Ok ethConfig =>
          blockchainPeers ← peer_endpoints (StaticPeers ethConfig);
          '(err, _) ← Init NewHook (tc_Log turboConfig);
          match err with
          | Some err => mret (fs, profiling, Returned (Some err))
          | None =>
              let bridge := NewTurboBridge in
              let gateway := GatewayRun turboConfig (NewGateway bridge) blockchainPeers (generatePeers Node_String (StaticPeers ethConfig)) in
              let '(fs, e) := start_server c generatedKey fs ethConfig bridge blockchainPeers in
              mret (fs, profiling ++ [gateway], e)
          end
      end
  end.

(** After the signal. *)
Definition shut_down (server : option Server) : option Server := Server_Stop <$> server.
End Startup.

(** ** Properties *)
Section Properties.
Context `{EthTypes} {M : Type -> Type} `{!ConcurrentMap M} `{!ConverterOps} `{MapRange} {Node PrivateKeyT : Type}.
Context (p2p_Send : eth_msg -> option go_error) (rand_Uint64 : Z -> Z) {Msg : Type} `{!Decoder Msg}.
Context (decode_key : list byte -> option PrivateKeyT) (encode_key : PrivateKeyT -> list byte).
#[local] Abbreviation p2p_Config := (p2p_Config (M:=M) (Node:=Node) (PrivateKeyT:=PrivateKeyT) (Msg:=Msg)).
Context (p2p_Start : p2p_Config -> option go_error).
Context {PublicKeyT : Type} (Node_Pubkey : Node -> option PublicKeyT) (FromECDSAPub : option PublicKeyT -> list byte).
Context (Node_IP : Node -> string) (Node_TCP : Node -> Z) (Node_String : Node -> string).
Context (enode_Parse : string -> result Node) (HexToECDSA : string -> result PrivateKeyT) (ParseLevel : string -> result Z).
Context (NewHook : string -> Z -> Z -> Z -> Z -> option go_error).
Implicit Types (c : Context) (fs : FileSystem).

#[local] Abbreviation runGateway := (runGateway (M:=M) (Msg:=Msg) p2p_Send rand_Uint64 decode_key encode_key p2p_Start Node_Pubkey
  FromECDSAPub Node_IP Node_TCP Node_String enode_Parse HexToECDSA ParseLevel NewHook).
#[local] Abbreviation turbo_config c := (NewTurboConfigFromCLI (cli_String c) (cli_Int c) (cli_Bool c) app_Name ParseLevel).
#[local] Abbreviation eth_config c := (NewPresetEthConfigFromCLI enode_Parse HexToECDSA c).
#[local] Abbreviation endpoints := (peer_endpoints Node_Pubkey FromECDSAPub Node_IP Node_TCP).

(** What is started on every successful start: the profiling server, unless it is disabled, and the gateway. *)
Definition parts c turboConfig (ethConfig : EthConfig Node PrivateKeyT) eps : list (part (M:=M)) :=
  (if cli_Bool c "disable-profiling" then [] else [ProfilingServer]) ++
  [GatewayRun turboConfig (p_gateway (started ethConfig)) eps (generatePeers Node_String (StaticPeers ethConfig))].

(** The key file: in the working directory, since the data directory is not a flag of the program. *)
Definition keyFile : string := ".gatewaykey".

Lemma key_path c : cli_laws app_Flags c -> path_Join [cli_String c (flag_Name DataDirFlag); ".gatewaykey"%string] = keyFile.
Proof. intros Hl. rewrite (data_dir_empty c Hl). by vm_compute. Qed.

(** [runGateway] once the configurations are read and the log file is open. *)
Lemma runGateway_configured c generatedKey fs turboConfig ethConfig eps hooks :
  turbo_config c = Ok turboConfig -> eth_config c = Ok ethConfig -> endpoints (StaticPeers ethConfig) = Ret eps ->
  Init NewHook (tc_Log turboConfig) = Ret (None, hooks) ->
  runGateway c generatedKey fs =
    let '(fs, e) := start_server p2p_Send rand_Uint64 decode_key encode_key p2p_Start c generatedKey fs ethConfig NewTurboBridge eps in
    Ret (fs, parts c turboConfig ethConfig eps, e).
Proof. intros Ht He Hp Hi. unfold Startup.runGateway. rewrite Ht, He, Hp. go_simpl. rewrite Hi. go_simpl. done. Qed.

Lemma endpoints_length peers eps : endpoints peers = Ret eps -> length eps = length peers.
Proof.
  revert eps. induction peers as [|peer peers IH]; intros eps; simpl; [by intros [= <-]|].
  destruct (peer_endpoint _ _ _ _ _) as [ep| |]; go_simpl; [|done..].
  destruct (endpoints peers) as [eps'| |]; go_simpl; [|done..]. intros [= <-]. simpl. by rewrite (IH eps').
Qed.

(** C18: What a start gives. With the default command line the gateway and the profiling server are started,
    no file is touched, and there is no Ethereum server. When it ends up waiting with a server, the
    configuration names peers, the server was started with protocols 65 and 66, with exactly these peers and
    no room for others, and with a key; its handler and the gateway are the two halves of the process on one
    bridge, in their first states. Without peers there is never a server. *)
Theorem gateway_started c generatedKey fs :
  cli_laws app_Flags c -> (forall config, srv_PrivateKey config = None -> p2p_Start config <> None) ->
  ((forall f, f ∈ app_Flags -> cli_IsSet c (flag_Name f) = false) -> ParseLevel "info" = Ok InfoLevel ->
     (forall name size backups age level, NewHook name size backups age level = None) ->
     exists turboConfig, turbo_config c = Ok turboConfig /\
       runGateway c generatedKey fs = Ret (fs, parts c turboConfig newEthereumMainnetConfig [], Waiting None)) /\
  (forall fs' ps server, runGateway c generatedKey fs = Ret (fs', ps, Waiting server) ->
     exists turboConfig ethConfig eps, turbo_config c = Ok turboConfig /\ eth_config c = Ok ethConfig /\
       length eps = length (StaticPeers ethConfig) /\ ps = parts c turboConfig ethConfig eps /\
       (server = None <-> StaticPeers ethConfig = []) /\
       forall s, server = Some s ->
         mkProcess (srv_Handler s) (p_gateway (started ethConfig)) = started ethConfig /\ srv_running s = true /\
         is_Some (srv_PrivateKey (srv_Config s)) /\ StaticNodes (srv_Config s) = Enode <$> StaticPeers ethConfig /\
         MaxPeers (srv_Config s) = Z.of_nat (length (StaticNodes (srv_Config s))) /\
         ((fun pr => (pr_Version pr, pr_Length pr)) <$> Protocols (srv_Config s)) = [(65, 17); (66, 17)]).
Proof.
  intros Hl Hp2p. split.
  - intros Hunset Hinfo Hhook. destruct (default_configuration enode_Parse HexToECDSA ParseLevel c InfoLevel Hl Hinfo Hunset) as [Ht He].
    eexists. split; [exact Ht|]. erewrite runGateway_configured; [|exact Ht|exact He|done|by unfold Init; rewrite Hhook].
    unfold start_server. by rewrite decide_True.
  - intros fs' ps server. unfold Startup.runGateway at 1.
    destruct (turbo_config c) as [turboConfig|] eqn:Ht; [|done]. destruct (eth_config c) as [ethConfig|] eqn:He; [|done].
    destruct (endpoints (StaticPeers ethConfig)) as [eps| |] eqn:Hp; go_simpl; [|done..].
    destruct (Init _ _) as [[[err|] hooks]| |]; go_simpl; [done| |done..]. unfold start_server.
    pose proof (endpoints_length _ _ Hp) as Hlen. case_decide as Hnil.
    + intros [= <- <- <-]. exists turboConfig, ethConfig, eps. subst eps. split_and!; try done.
      split; [intros _|done]. by destruct (StaticPeers ethConfig).
    + destruct (NewServer _ _ _ _ _ _ _ _ _) as [fs1 [s|]] eqn:Hs; [|done]. unfold Server_Start.
      destruct (p2p_Start (srv_Config s)) eqn:Hst; [done|]. intros [= <- <- <-]. exists turboConfig, ethConfig, eps.
      split_and!; try done.
      { split; [done|]. intros Hnone. by destruct eps, (StaticPeers ethConfig). }
      intros s' [= <-]. cbn. unfold NewServer in Hs. destruct (NewServer_key _ _ _ _ _ _) as [fs2 [key|]]; [|done].
      injection Hs as <- <-. cbn in *. split_and!; try done.
      * destruct key; [done|]. exfalso. revert Hst. by apply Hp2p.
      * unfold StaticEnodes. by rewrite length_fmap.
Qed.

(** C30: A start that fails without a word. With Ethereum peers, no private key on the command line and a key
    file that cannot be read or decoded, the server is handed a nil key and refuses to start; [runGateway]
    then returns without an error, after the gateway was started, so the process ends as if all were well.
    It leaves an empty key file behind, on which every later start ends the same way. *)
Theorem spoiled_key_ends_silently c generatedKey fs turboConfig ethConfig eps hooks :
  cli_laws app_Flags c -> (forall config, srv_PrivateKey config = None -> p2p_Start config <> None) -> decode_key [] = None ->
  turbo_config c = Ok turboConfig -> eth_config c = Ok ethConfig -> endpoints (StaticPeers ethConfig) = Ret eps -> eps <> [] ->
  Init NewHook (tc_Log turboConfig) = Ret (None, hooks) -> PrivateKey ethConfig = None ->
  LoadECDSA decode_key fs keyFile = inr OtherFileError -> fs_writable fs keyFile = true ->
  runGateway c generatedKey fs = Ret (spoiled fs keyFile, parts c turboConfig ethConfig eps, Returned None) /\
  forall other, runGateway c other (spoiled fs keyFile) = Ret (spoiled fs keyFile, parts c turboConfig ethConfig eps, Returned None).
Proof.
  intros Hl Hp2p Hempty Ht He Hp Hne Hi Hkey Hload Hw.
  assert (forall gk fs0, LoadECDSA decode_key fs0 keyFile = inr OtherFileError -> fs_writable fs0 keyFile = true ->
    runGateway c gk fs0 = Ret (spoiled fs0 keyFile, parts c turboConfig ethConfig eps, Returned None)) as Hrun.
  { intros gk fs0 Hl0 Hw0. rewrite (runGateway_configured c gk fs0 _ _ _ _ Ht He Hp Hi). unfold start_server.
    rewrite decide_False by done. unfold NewServer. rewrite (key_path c Hl). unfold NewServer_key.
    rewrite Hkey, (spoil_key decode_key encode_key fs0 keyFile gk Hl0 Hw0). unfold Server_Start.
    destruct (p2p_Start _) eqn:Hst; [done|]. by apply Hp2p in Hst. }
  split; [by apply Hrun|]. intros other. rewrite Hrun; [by rewrite spoiled_twice|by apply spoiled_stays|done].
Qed.
End Properties.

(** ** Witnesses *)
#[local] Existing Instance SystemProps.ex_decoder.
#[local] Abbreviation ExP2P := (p2p_Config (M:=gmap string) (Node:=string) (PrivateKeyT:=byte) (Msg:=Z * NewBlockPacket)).
(** A p2p server that asks for a key only. *)
Definition ex_p2p_start (config : ExP2P) : option go_error :=
  match srv_PrivateKey config with None => Some (Errorf "Server.PrivateKey must be set to a non-nil key") | Some _ => None end.
Definition ex_peer_line : Context := command_line app_Flags [("enodes", StringFlag "node1")]%string.
#[local] Abbreviation ex_runGateway := (runGateway (M:=gmap string) (Msg:=Z * NewBlockPacket) ex_send (fun n => n) ex_decode_key (fun b => [b])
  ex_p2p_start (fun _ : string => Some tt) (fun _ => [x04; x01; x02]) (fun _ => "10.0.0.1"%string) (fun _ => 30303) (fun s => s)
  (fun s => Ok s) (fun _ => Ok x09) ex_level (fun _ _ _ _ _ => None)).

Lemma ex_p2p_key config : srv_PrivateKey config = None -> ex_p2p_start config <> None.
Proof. unfold ex_p2p_start. by intros ->. Qed.

(** A first start with a peer: a key is generated, and the server runs with it. *)
Lemma gateway_started_witness :
  exists fs ps s, ex_runGateway ex_peer_line (Some x07) (ex_disk ∅) = Ret (fs, ps, Waiting (Some s)) /\
    srv_running s = true /\ StaticNodes (srv_Config s) = ["node1"%string] /\ fs_files fs = {[ keyFile := [x07] ]}.
Proof.
  destruct (ex_runGateway ex_peer_line (Some x07) (ex_disk ∅)) as [[[fs ps] [e|[s|]]]| |] eqn:Hrun; try discriminate Hrun.
  destruct (gateway_started (M:=gmap string) (Msg:=Z * NewBlockPacket) ex_send (fun n => n) ex_decode_key (fun b => [b])
    ex_p2p_start (fun _ : string => Some tt) (fun _ => [x04; x01; x02]) (fun _ => "10.0.0.1"%string) (fun _ => 30303) (fun s => s)
    (fun s => Ok s) (fun _ => Ok x09) ex_level (fun _ _ _ _ _ => None) ex_peer_line (Some x07) (ex_disk ∅)
    (command_line_laws app_Flags _ app_flags_found) ex_p2p_key) as [_ Hstarted].
  destruct (Hstarted fs ps (Some s) Hrun) as (tc & ec & eps & _ & Hec & _ & _ & _ & Hs).
  destruct (Hs s eq_refl) as (_ & Hon & _ & Hnodes & _). exists fs, ps, s. split; [reflexivity|]. split; [exact Hon|].
  split; [rewrite Hnodes; by injection Hec as <-|].
  pose proof (f_equal (fun o => if o is Ret (f, _, _) then Some (fs_files f) else None) Hrun) as Hf. cbn beta iota in Hf.
  injection Hf as <-. vm_compute. reflexivity.
Defined.

(** Starts with a key file of two bytes, which is no key. *)
Lemma spoiled_key_ends_silently_witness :
  exists ps, ex_runGateway ex_peer_line (Some x07) (ex_disk {[ keyFile := [x01; x02] ]})
    = Ret (ex_disk {[ keyFile := [] ]}, ps, Returned None) /\ length ps = 2%nat.
Proof.
  destruct (spoiled_key_ends_silently (M:=gmap string) (Msg:=Z * NewBlockPacket) ex_send (fun n => n) ex_decode_key (fun b => [b])
    ex_p2p_start (fun _ : string => Some tt) (fun _ => [x04; x01; x02]) (fun _ => "10.0.0.1"%string) (fun _ => 30303) (fun s => s)
    (fun s => Ok s) (fun _ => Ok x09) ex_level (fun _ _ _ _ _ => None) ex_peer_line (Some x07) (ex_disk {[ keyFile := [x01; x02] ]})
    (mkTurboConfig NodeConfig.Gateway MainnetEnv (mkLogConfig "gateway" "logs/gateway-1809.log" 4 4 100 10 10) (mkTxTraceLog false 100 3))
    (mkEthConfig [mkPeerInfo "node1"%string ""] None 1 (cfg_TotalDifficulty (newEthereumMainnetConfig (Node:=string) (PrivateKeyT:=byte)))
      (BytesToHash mainnet_genesis) (BytesToHash mainnet_genesis) 0 false (150 * (1000 * 1000 * 1000)))
    [mkNodeEndpoint "10.0.0.1" 30303 "0102"] [[4]; [0; 1; 2; 3]]
    (command_line_laws app_Flags _ app_flags_found) ex_p2p_key) as [Hrun _]; try reflexivity; [discriminate|].
  eexists. split; [exact Hrun|reflexivity].
Defined.
