(* ===== verification/EthTransaction.v ===== *)
(** Ethereum transactions as the gateway presents them to users (types/ethtransaction.go, the interface in
    types/blockchain_transaction.go and the parsing in types/tbtransaction.go): the fields of a transaction,
    the values conditional filters run on, the restriction to chosen fields and the JSON encoding.
    go-ethereum's transactions, addresses, access lists and hex encodings are parameters. *)
From S2P Require Import Prelude Bytes Types.

(** ** Numbers as filters see them *)

(** The value of a [float64]; it comes from an integer. *)
Inductive float64 :=
  | Finite (z : Z)
  | Infinite (negative : bool).

(** Rounding to 53 significant bits, ties to even. *)
Definition round53 (z : Z) : Z :=
  let k := Z.log2 z - 52 in
  if decide (k <= 0) then z else
  let q := z / 2 ^ k in
  let r := z mod 2 ^ k in
  let half := 2 ^ (k - 1) in
  (if decide (half < r \/ (r = half /\ Z.odd q = true)) then q + 1 else q) * 2 ^ k.

(** [new(big.Float).SetInt(z).Float64()] and [float64(z)]. *)
Definition float64_of (z : Z) : float64 :=
  let m := round53 (Z.abs z) in
  if decide (2 ^ 1024 <= m) then Infinite (bool_decide (z < 0)) else Finite (Z.sgn z * m).

(** [strings.ToLower] on ASCII *)
Definition lower_ascii (c : ascii) : ascii :=
  let n := N_of_ascii c in
  if decide (65 <= Z.of_N n <= 90) then ascii_of_N (n + 32) else c.
Fixpoint ToLower (s : string) : string :=
  match s with EmptyString => EmptyString | String c s => String (lower_ascii c) (ToLower s) end.

Definition NilTransactionType : Z := 255.
Definition LegacyTransactionType : Z := 0.
Definition AccessListTransactionType : Z := 1.
Definition DynamicFeeTransactionType : Z := 2.
Definition nilNonceValue : Z := 2 ^ 64 - 1.

(** Values of the map of filters. *)
Inductive filter_value :=
  | FFloat (f : float64)
  | FInt (z : Z)
  | FString (s : string).

(** ** Comparisons of [EthBigInt]: a nil integer crashes them *)
Definition BigInt_LessThan (bi other : option Z) : outcome bool :=
  c ← big_cmp bi other; mret (bool_decide (c = Lt)).
Definition BigInt_GreaterThan (bi other : option Z) : outcome bool :=
  c ← big_cmp bi other; mret (bool_decide (c = Gt)).
Definition BigInt_GreaterThanOrEqualTo (bi other : option Z) : outcome bool :=
  c ← big_cmp bi other; mret (bool_decide (c <> Lt)).

Definition UInt64_LessThan (ui other : Z) : bool := bool_decide (ui < other).
Definition UInt64_GreaterThan (ui other : Z) : bool := bool_decide (other < ui).
Definition UInt8_LessThan (ui other : Z) : bool := bool_decide (ui < other).
Definition UInt8_GreaterThan (ui other : Z) : bool := bool_decide (other < ui).

Section EthTransaction.
(** [common.Address] with [Hex] and [String], [ethtypes.AccessList], and package hexutil *)
Context {Address AccessList : Type} (zero_address : Address) (addr_Hex addr_String : Address -> string).
Context (hexutil_Encode : list byte -> string) (hexutil_EncodeBig hexutil_EncodeUint64 : Z -> string).

(** A non-nil [*common.Address]: a pointer to the package's variable [nullEthAddress], or to another
    address. *)
Inductive address :=
  | NullEthAddress
  | AddressOf (a : Address).
Definition address_value (p : address) : Address := match p with NullEthAddress => zero_address | AddressOf a => a end.

Record EthTransaction := mkEthTransaction {
  et_TxType : Z;
  et_From : option address;
  et_GasPrice : option Z;
  et_GasLimit : Z;
  et_Hash : SHA256Hash;
  et_Input : option (list byte);
  et_Nonce : Z;
  et_Value : option Z;
  et_V : option Z;
  et_R : option Z;
  et_S : option Z;
  et_To : option address;
  et_ChainID : option Z;
  et_AccessList : option AccessList;
  et_GasFeeCap : option Z;
  et_GasTipCap : option Z
}.

(** *** [ethtypes.Transaction] with the sender the signer recovers, and its RLP decoding *)
Class RawTransaction (Raw : Type) := {
  raw_Type : Raw -> Z;
  raw_Gas : Raw -> Z;
  raw_Nonce : Raw -> Z;
  raw_Data : Raw -> option (list byte);
  raw_Value : Raw -> Z;
  raw_ChainId : Raw -> Z;
  raw_GasPrice : Raw -> Z;
  raw_GasFeeCap : Raw -> Z;
  raw_GasTipCap : Raw -> Z;
  raw_To : Raw -> option Address;
  raw_AccessList : Raw -> option AccessList;
  raw_SignatureValues : Raw -> option Z * option Z * option Z;
  raw_Sender : Raw -> result Address;
  raw_Decode : list byte -> result Raw
}.

(** [NewEthTransaction]: the sender is the zero address unless it is extracted. *)
Definition NewEthTransaction `{RawTransaction Raw} (h : SHA256Hash) (rawEthTx : Raw) (extractSender : bool) : result EthTransaction :=
  let '(v, r, s) := raw_SignatureValues rawEthTx in
  match (if extractSender then raw_Sender rawEthTx else Ok zero_address) with
  | Fail _ => Fail (Errorf "could not parse Ethereum transaction sender")
  | Ok sender =>
      Ok (mkEthTransaction (raw_Type rawEthTx) (Some (AddressOf sender)) (Some (raw_GasPrice rawEthTx)) (raw_Gas rawEthTx)
            h (raw_Data rawEthTx) (raw_Nonce rawEthTx) (Some (raw_Value rawEthTx)) v r s (AddressOf <$> raw_To rawEthTx)
            (Some (raw_ChainId rawEthTx)) (raw_AccessList rawEthTx) (Some (raw_GasFeeCap rawEthTx)) (Some (raw_GasTipCap rawEthTx)))
  end.

Definition EthTransactionFromBytes `{RawTransaction Raw} (h : SHA256Hash) (tc : list byte) (extractSender : bool)
    : result EthTransaction :=
  match raw_Decode tc with
  | Fail _ => Fail (Errorf "could not decode Ethereum transaction")
  | Ok rawEthTx => NewEthTransaction h rawEthTx extractSender
  end.

(** types/tbtransaction.go *)
Definition parseTransaction `{RawTransaction Raw} (bt : TbTransaction) (extractSender : bool) : result EthTransaction :=
  EthTransactionFromBytes (tx_hash bt) (tx_bytes bt) extractSender.

Definition EffectiveGasFeeCap (et : EthTransaction) : option Z :=
  if decide (et_TxType et = DynamicFeeTransactionType) then et_GasFeeCap et else et_GasPrice et.
Definition EffectiveGasTipCap (et : EthTransaction) : option Z :=
  if decide (et_TxType et = DynamicFeeTransactionType) then et_GasTipCap et else et_GasPrice et.

(** *** Filters *)
Definition address_filter (a : option address) : filter_value :=
  match a with
  | Some p => FString (ToLower (addr_String (address_value p)))
  | None => FString ""
  end.

Definition method_id (et : EthTransaction) : string :=
  let methodID := ToLower (hexutil_Encode (default [] (et_Input et))) in
  if decide (10 <= Z.of_nat (String.length methodID)) then ("0x" +:+ String.substring 2 8 methodID)%string else methodID.

(** The body of the loop: [None] leaves the map as it is. *)
Definition filter_param (et : EthTransaction) (param : string) : outcome (option filter_value) :=
  if decide (param = "value"%string) then
    match et_Value et with Some z => mret (Some (FFloat (float64_of z))) | None => Panics NilDereference end else
  if decide (param = "gas"%string) then mret (Some (FFloat (float64_of (et_GasLimit et)))) else
  if decide (param = "gas_price"%string) then
    mret (Some (match et_GasPrice et with
                | Some z => if decide (et_TxType et <> DynamicFeeTransactionType) then FFloat (float64_of z) else FInt (-1)
                | None => FInt (-1)
                end)) else
  if decide (param = "to"%string) then mret (Some (address_filter (et_To et))) else
  if decide (param = "from"%string) then mret (Some (address_filter (et_From et))) else
  if decide (param = "method_id"%string) then mret (Some (FString (method_id et))) else
  if decide (param = "type"%string) then mret (Some (FString (format_uint (et_TxType et)))) else
  if decide (param = "chain_id"%string) then mret ((fun z => FInt (int64 z)) <$> et_ChainID et) else
  if decide (param = "max_fee_per_gas"%string) then
    mret (Some (match et_GasFeeCap et with
                | Some z => if decide (et_TxType et = DynamicFeeTransactionType) then FInt (int64 z) else FInt (-1)
                | None => FInt (-1)
                end)) else
  if decide (param = "max_priority_fee_per_gas"%string) then
    mret (Some (match et_GasTipCap et with
                | Some z => if decide (et_TxType et = DynamicFeeTransactionType) then FInt (int64 z) else FInt (-1)
                | None => FInt (-1)
                end)) else
  mret None.

Fixpoint Filters_loop (et : EthTransaction) (filters : list string) (m : gmap string filter_value)
    : outcome (gmap string filter_value) :=
  match filters with
  | [] => mret m
  | param :: filters =>
      v ← filter_param et param;
      Filters_loop et filters (match v with Some v => <[param := v]> m | None => m end)
  end.
Definition Filters (et : EthTransaction) (filters : list string) : outcome (gmap string filter_value) :=
  Filters_loop et filters ∅.

(** *** Chosen fields *)
Definition zero_transaction : EthTransaction :=
  mkEthTransaction 0 None None 0 zero_hash None 0 None None None None None None None None None.

Definition with_TxType (t : EthTransaction) (v : Z) : EthTransaction :=
  mkEthTransaction v (et_From t) (et_GasPrice t) (et_GasLimit t) (et_Hash t) (et_Input t) (et_Nonce t)
    (et_Value t) (et_V t) (et_R t) (et_S t) (et_To t) (et_ChainID t) (et_AccessList t) (et_GasFeeCap t)
    (et_GasTipCap t).
Definition with_From (t : EthTransaction) (v : option address) : EthTransaction :=
  mkEthTransaction (et_TxType t) v (et_GasPrice t) (et_GasLimit t) (et_Hash t) (et_Input t) (et_Nonce t)
    (et_Value t) (et_V t) (et_R t) (et_S t) (et_To t) (et_ChainID t) (et_AccessList t) (et_GasFeeCap t)
    (et_GasTipCap t).
Definition with_GasPrice (t : EthTransaction) (v : option Z) : EthTransaction :=
  mkEthTransaction (et_TxType t) (et_From t) v (et_GasLimit t) (et_Hash t) (et_Input t) (et_Nonce t)
    (et_Value t) (et_V t) (et_R t) (et_S t) (et_To t) (et_ChainID t) (et_AccessList t) (et_GasFeeCap t)
    (et_GasTipCap t).
Definition with_GasLimit (t : EthTransaction) (v : Z) : EthTransaction :=
  mkEthTransaction (et_TxType t) (et_From t) (et_GasPrice t) v (et_Hash t) (et_Input t) (et_Nonce t)
    (et_Value t) (et_V t) (et_R t) (et_S t) (et_To t) (et_ChainID t) (et_AccessList t) (et_GasFeeCap t)
    (et_GasTipCap t).
Definition with_Hash (t : EthTransaction) (v : SHA256Hash) : EthTransaction :=
  mkEthTransaction (et_TxType t) (et_From t) (et_GasPrice t) (et_GasLimit t) v (et_Input t) (et_Nonce t)
    (et_Value t) (et_V t) (et_R t) (et_S t) (et_To t) (et_ChainID t) (et_AccessList t) (et_GasFeeCap t)
    (et_GasTipCap t).
Definition with_Input (t : EthTransaction) (v : option (list byte)) : EthTransaction :=
  mkEthTransaction (et_TxType t) (et_From t) (et_GasPrice t) (et_GasLimit t) (et_Hash t) v (et_Nonce t)
    (et_Value t) (et_V t) (et_R t) (et_S t) (et_To t) (et_ChainID t) (et_AccessList t) (et_GasFeeCap t)
    (et_GasTipCap t).
Definition with_Nonce (t : EthTransaction) (v : Z) : EthTransaction :=
  mkEthTransaction (et_TxType t) (et_From t) (et_GasPrice t) (et_GasLimit t) (et_Hash t) (et_Input t) v
    (et_Value t) (et_V t) (et_R t) (et_S t) (et_To t) (et_ChainID t) (et_AccessList t) (et_GasFeeCap t)
    (et_GasTipCap t).
Definition with_Value (t : EthTransaction) (v : option Z) : EthTransaction :=
  mkEthTransaction (et_TxType t) (et_From t) (et_GasPrice t) (et_GasLimit t) (et_Hash t) (et_Input t)
    (et_Nonce t) v (et_V t) (et_R t) (et_S t) (et_To t) (et_ChainID t) (et_AccessList t) (et_GasFeeCap t)
    (et_GasTipCap t).
Definition with_V (t : EthTransaction) (v : option Z) : EthTransaction :=
  mkEthTransaction (et_TxType t) (et_From t) (et_GasPrice t) (et_GasLimit t) (et_Hash t) (et_Input t)
    (et_Nonce t) (et_Value t) v (et_R t) (et_S t) (et_To t) (et_ChainID t) (et_AccessList t) (et_GasFeeCap t)
    (et_GasTipCap t).
Definition with_R (t : EthTransaction) (v : option Z) : EthTransaction :=
  mkEthTransaction (et_TxType t) (et_From t) (et_GasPrice t) (et_GasLimit t) (et_Hash t) (et_Input t)
    (et_Nonce t) (et_Value t) (et_V t) v (et_S t) (et_To t) (et_ChainID t) (et_AccessList t) (et_GasFeeCap t)
    (et_GasTipCap t).
Definition with_S (t : EthTransaction) (v : option Z) : EthTransaction :=
  mkEthTransaction (et_TxType t) (et_From t) (et_GasPrice t) (et_GasLimit t) (et_Hash t) (et_Input t)
    (et_Nonce t) (et_Value t) (et_V t) (et_R t) v (et_To t) (et_ChainID t) (et_AccessList t) (et_GasFeeCap t)
    (et_GasTipCap t).
Definition with_To (t : EthTransaction) (v : option address) : EthTransaction :=
  mkEthTransaction (et_TxType t) (et_From t) (et_GasPrice t) (et_GasLimit t) (et_Hash t) (et_Input t)
    (et_Nonce t) (et_Value t) (et_V t) (et_R t) (et_S t) v (et_ChainID t) (et_AccessList t) (et_GasFeeCap t)
    (et_GasTipCap t).
Definition with_ChainID (t : EthTransaction) (v : option Z) : EthTransaction :=
  mkEthTransaction (et_TxType t) (et_From t) (et_GasPrice t) (et_GasLimit t) (et_Hash t) (et_Input t)
    (et_Nonce t) (et_Value t) (et_V t) (et_R t) (et_S t) (et_To t) v (et_AccessList t) (et_GasFeeCap t)
    (et_GasTipCap t).
Definition with_AccessList (t : EthTransaction) (v : option AccessList) : EthTransaction :=
  mkEthTransaction (et_TxType t) (et_From t) (et_GasPrice t) (et_GasLimit t) (et_Hash t) (et_Input t)
    (et_Nonce t) (et_Value t) (et_V t) (et_R t) (et_S t) (et_To t) (et_ChainID t) v (et_GasFeeCap t)
    (et_GasTipCap t).
Definition with_GasFeeCap (t : EthTransaction) (v : option Z) : EthTransaction :=
  mkEthTransaction (et_TxType t) (et_From t) (et_GasPrice t) (et_GasLimit t) (et_Hash t) (et_Input t)
    (et_Nonce t) (et_Value t) (et_V t) (et_R t) (et_S t) (et_To t) (et_ChainID t) (et_AccessList t) v
    (et_GasTipCap t).
Definition with_GasTipCap (t : EthTransaction) (v : option Z) : EthTransaction :=
  mkEthTransaction (et_TxType t) (et_From t) (et_GasPrice t) (et_GasLimit t) (et_Hash t) (et_Input t)
    (et_Nonce t) (et_Value t) (et_V t) (et_R t) (et_S t) (et_To t) (et_ChainID t) (et_AccessList t)
    (et_GasFeeCap t) v.

Definition blank_transaction : EthTransaction := with_Nonce (with_TxType zero_transaction NilTransactionType) nilNonceValue.

(** The switch of [WithFields]. *)
Definition with_field (et transactionContent : EthTransaction) (param : string) : EthTransaction :=
  let dynamic := bool_decide (et_TxType et = DynamicFeeTransactionType) in
  if decide (param = "tx_contents.tx_hash"%string) then with_Hash transactionContent (et_Hash et) else
  if decide (param = "tx_contents.nonce"%string) then with_Nonce transactionContent (et_Nonce et) else
  if decide (param = "tx_contents.gas_price"%string) then
    if dynamic then transactionContent else with_GasPrice transactionContent (et_GasPrice et) else
  if decide (param = "tx_contents.gas"%string) then with_GasLimit transactionContent (et_GasLimit et) else
  if decide (param = "tx_contents.to"%string) then
    with_To transactionContent (match et_To et with None => Some NullEthAddress | to => to end) else
  if decide (param = "tx_contents.value"%string) then with_Value transactionContent (et_Value et) else
  if decide (param = "tx_contents.input"%string) then with_Input transactionContent (et_Input et) else
  if decide (param = "tx_contents.v"%string) then with_V transactionContent (et_V et) else
  if decide (param = "tx_contents.r"%string) then with_R transactionContent (et_R et) else
  if decide (param = "tx_contents.s"%string) then with_S transactionContent (et_S et) else
  if decide (param = "tx_contents.from"%string) then with_From transactionContent (et_From et) else
  if decide (param = "tx_contents.type"%string) then with_TxType transactionContent (et_TxType et) else
  if decide (param = "tx_contents.access_list"%string) then with_AccessList transactionContent (et_AccessList et) else
  if decide (param = "tx_contents.chain_id"%string) then with_ChainID transactionContent (et_ChainID et) else
  if decide (param = "tx_contents.max_fee_per_gas"%string) then
    if dynamic then with_GasFeeCap transactionContent (et_GasFeeCap et) else transactionContent else
  if decide (param = "tx_contents.max_priority_fee_per_gas"%string) then
    if dynamic then with_GasTipCap transactionContent (et_GasTipCap et) else transactionContent else
  transactionContent.

Definition WithFields (et : EthTransaction) (fields : list string) : EthTransaction :=
  foldl (with_field et) blank_transaction fields.

(** *** JSON *)
(** The JSON values that occur; an object is the map of its members. *)
Inductive json :=
  | JNull
  | JString (s : string)
  | JAccessList (l : AccessList).

Definition BigInt_MarshalJSON (bi : option Z) : json :=
  match bi with Some z => JString (ToLower (hexutil_EncodeBig z)) | None => JString "" end.
Definition UInt64_MarshalJSON (ui : Z) : json := JString (ToLower (hexutil_EncodeUint64 ui)).
Definition TransactionType_MarshalJSON (ui : Z) : json := JString (ToLower (hexutil_EncodeUint64 ui)).
Definition Bytes_MarshalJSON (b : list byte) : json := JString (ToLower (hexutil_Encode b)).
Definition Address_MarshalJSON (a : option address) : json :=
  match a with None => JString "0x" | Some p => JString (ToLower (addr_Hex (address_value p))) end.
Definition Hash_MarshalJSON (h : SHA256Hash) : json := JString (ToLower (to_string (SHA256Hash_Format h true))).

(** The members of [ethTxJSON]; [None] is a member that is omitted. *)
Definition json_members (et : EthTransaction) : list (string * option json) :=
  let optional {A} (o : option A) (f : A -> json) := f <$> o in
  let unless (P : Prop) {dec : Decision P} (j : json) := if decide P then None else Some j in
  [ ("type"%string, unless (et_TxType et = NilTransactionType) (TransactionType_MarshalJSON (et_TxType et)));
    ("nonce"%string, unless (et_Nonce et = nilNonceValue) (UInt64_MarshalJSON (et_Nonce et)));
    ("gas"%string, unless (et_GasLimit et = 0) (UInt64_MarshalJSON (et_GasLimit et)));
    ("value"%string, optional (et_Value et) (fun z => BigInt_MarshalJSON (Some z)));
    ("input"%string, optional (et_Input et) Bytes_MarshalJSON);
    ("v"%string, optional (et_V et) (fun z => BigInt_MarshalJSON (Some z)));
    ("r"%string, optional (et_R et) (fun z => BigInt_MarshalJSON (Some z)));
    ("s"%string, optional (et_S et) (fun z => BigInt_MarshalJSON (Some z)));
    ("to"%string, optional (et_To et) (fun a => Address_MarshalJSON (Some a)));
    ("from"%string, optional (et_From et) (fun a => Address_MarshalJSON (Some a)));
    ("gasPrice"%string, Some (match et_GasPrice et with Some z => BigInt_MarshalJSON (Some z) | None => JNull end));
    ("hash"%string, unless (et_Hash et = zero_hash) (Hash_MarshalJSON (et_Hash et)));
    ("chainId"%string, unless (et_TxType et = LegacyTransactionType) (BigInt_MarshalJSON (et_ChainID et)));
    ("accessList"%string, optional (et_AccessList et) JAccessList);
    ("maxFeePerGas"%string, optional (et_GasFeeCap et) (fun z => BigInt_MarshalJSON (Some z)));
    ("maxPriorityFeePerGas"%string, optional (et_GasTipCap et) (fun z => BigInt_MarshalJSON (Some z))) ].

Fixpoint json_object (members : list (string * option json)) : gmap string json :=
  match members with
  | [] => ∅
  | (key, Some j) :: members => <[key := j]> (json_object members)
  | (_, None) :: members => json_object members
  end.

Definition MarshalJSON (et : EthTransaction) : gmap string json :=
  let marshalled := json_object (json_members et) in
  match et_To et with
  | Some (AddressOf _) => marshalled
  | _ => <["to"%string := JNull]> marshalled
  end.
End EthTransaction.
Arguments EthTransaction : clear implicits.
