(* ===== verification/EthTransactionProps.v ===== *)
(** The properties of the users' view of Ethereum transactions. *)
From S2P Require Import Prelude Bytes Types EthTransaction.

(** ** Rounding *)
Lemma round53_exact z : 0 <= z <= 2 ^ 53 -> round53 z = z.
Proof.
  intros Hz. unfold round53. case_decide as Hk; [done|].
  assert (z = 2 ^ 53) as ->; [|by vm_compute].
  assert (z < 2 ^ 53 -> Z.log2 z < 53) as Hlog by (intros Hlt; destruct (decide (z = 0)) as [->|]; [by cbn|apply Z.log2_lt_pow2; lia]).
  lia.
Qed.

(** The result is a nearest multiple of the last place: half a place is the largest error. *)
Lemma round53_nearest z : 0 <= z -> 2 * Z.abs (round53 z - z) <= 2 ^ Z.max 0 (Z.log2 z - 52).
Proof.
  intros Hz. unfold round53. case_decide as Hk; [rewrite Z.sub_diag; pose proof (Z.pow_nonneg 2 (Z.max 0 (Z.log2 z - 52))); lia|].
  rewrite Z.max_r by lia. set (k := Z.log2 z - 52) in *.
  assert (0 < 2 ^ k) as Hpos by (apply Z.pow_pos_nonneg; lia).
  assert (2 ^ k = 2 * 2 ^ (k - 1)) as Hhalf by (rewrite <- Z.pow_succ_r by lia; f_equal; lia).
  pose proof (Z.div_mod z (2 ^ k) ltac:(lia)) as Hdm. pose proof (Z.mod_pos_bound z (2 ^ k) Hpos) as Hr.
  set (q := z / 2 ^ k) in *. set (r := z mod 2 ^ k) in *. case_decide as Hup.
  - replace ((q + 1) * 2 ^ k - z) with (2 ^ k - r) by lia. rewrite Z.abs_eq by lia. lia.
  - replace (q * 2 ^ k - z) with (- r) by lia. rewrite Z.abs_opp, Z.abs_eq by lia. lia.
Qed.

Lemma sgn_times_abs z : Z.sgn z * Z.abs z = z.
Proof. destruct z; cbn; lia. Qed.

Lemma float64_of_exact z : Z.abs z <= 2 ^ 53 -> float64_of z = Finite z.
Proof.
  intros Hz. unfold float64_of. rewrite round53_exact by lia. rewrite decide_False.
  - f_equal. apply sgn_times_abs.
  - intros Hbig. assert (2 ^ 53 < 2 ^ 1024) by (apply Z.pow_lt_mono_r; lia). lia.
Qed.

Section Props.
Context {Address AccessList : Type} (zero_address : Address) (addr_Hex addr_String : Address -> string).
Context (hexutil_Encode : list byte -> string) (hexutil_EncodeBig hexutil_EncodeUint64 : Z -> string).
Abbreviation EthTransaction := (EthTransaction Address AccessList).
Abbreviation Filters := (Filters zero_address addr_String hexutil_Encode).
Abbreviation filter_param := (filter_param zero_address addr_String hexutil_Encode).
Abbreviation MarshalJSON := (MarshalJSON zero_address addr_Hex hexutil_Encode hexutil_EncodeBig hexutil_EncodeUint64).
Implicit Types et : EthTransaction.

(** ** Filters *)
Lemma filter_param_outcome et param :
  (param = "value"%string /\ et_Value et = None -> filter_param et param = Panics NilDereference) /\
  (~ (param = "value"%string /\ et_Value et = None) -> exists v, filter_param et param = Ret v).
Proof.
  split.
  - intros [-> Hv]. unfold EthTransaction.filter_param. rewrite decide_True by done. by rewrite Hv.
  - intros Hne. unfold EthTransaction.filter_param.
    repeat (destruct (decide (param = _)); [try (by eexists)|]); [|by eexists].
    destruct (et_Value et); [by eexists|naive_solver].
Qed.

Lemma filter_param_value et z : et_Value et = Some z -> filter_param et "value" = Ret (Some (FFloat (float64_of z))).
Proof. intros Hz. unfold EthTransaction.filter_param. rewrite decide_True by done. by rewrite Hz. Qed.

Lemma Filters_loop_spec et filters m :
  ~ ("value"%string ∈ filters /\ et_Value et = None) ->
  exists m', Filters_loop zero_address addr_String hexutil_Encode et filters m = Ret m' /\
    forall k, m' !! k = match filter_param et k with
                        | Ret (Some v) => if decide (k ∈ filters) then Some v else m !! k
                        | _ => m !! k
                        end.
Proof.
  revert m. induction filters as [|param filters IH]; intros m Hne; cbn [Filters_loop].
  - exists m. split; [done|]. intros k. destruct (filter_param et k) as [[v|]| |]; done.
  - destruct (proj2 (filter_param_outcome et param)) as [v Hv]; [set_solver|]. rewrite Hv. go_simpl.
    destruct (IH (match v with Some v => <[param := v]> m | None => m end)) as (m' & Hrun & Hm'); [set_solver|].
    exists m'. split; [done|]. intros k. rewrite Hm'. destruct (decide (k = param)) as [->|Hk].
    + rewrite Hv. destruct v as [v|]; [|done]. rewrite lookup_insert_eq, (decide_True (P := param ∈ param :: filters)) by set_solver.
      by case_decide.
    + assert (match v with Some v => <[param := v]> m | None => m end !! k = m !! k) as ->
        by (destruct v; [by rewrite lookup_insert_ne|done]).
      destruct (filter_param et k) as [[v'|]| |]; [|done..].
      destruct (decide (k ∈ filters)); [rewrite decide_True by set_solver|rewrite decide_False by set_solver]; done.
Qed.

(** What [Filters] gives. It crashes exactly when the value is asked for and is nil, as it is in a
    transaction restricted to other fields; otherwise the map has a member for exactly the known names
    asked for, in whatever order and however often, except for a nil chain ID; amounts up to 2^53 are
    exact, and every other one is off by at most half a unit of the 53rd bit. *)
Theorem Filters_spec et filters :
  ("value"%string ∈ filters /\ et_Value et = None -> Filters et filters = Panics NilDereference) /\
  (~ ("value"%string ∈ filters /\ et_Value et = None) ->
     exists m, Filters et filters = Ret m /\
       (forall k, m !! k = match filter_param et k with Ret v => if decide (k ∈ filters) then v else None | _ => None end) /\
       (forall z, et_Value et = Some z -> "value"%string ∈ filters ->
          m !! "value"%string = Some (FFloat (float64_of z)) /\
          (Z.abs z <= 2 ^ 53 -> float64_of z = Finite z) /\
          (forall f, float64_of z = Finite f -> 2 * Z.abs (f - z) <= 2 ^ Z.max 0 (Z.log2 (Z.abs z) - 52)))).
Proof.
  split.
  - intros [Hin Hv]. unfold EthTransaction.Filters. generalize (∅ : gmap string filter_value).
    induction filters as [|param filters IH]; intros m; [by apply not_elem_of_nil in Hin|]. cbn [Filters_loop].
    destruct (decide (param = "value"%string)) as [->|Hne].
    + by rewrite (proj1 (filter_param_outcome et "value")).
    + destruct (proj2 (filter_param_outcome et param)) as [v ->]; [naive_solver|]. go_simpl. apply IH. set_solver.
  - intros Hne. destruct (Filters_loop_spec et filters ∅ Hne) as (m & Hrun & Hm). exists m. split; [done|].
    assert (forall k, m !! k = match filter_param et k with Ret v => if decide (k ∈ filters) then v else None | _ => None end) as Hk.
    { intros k. rewrite Hm, lookup_empty. destruct (filter_param et k) as [[v|]| |]; [done|by case_decide|done..]. }
    split; [done|]. intros z Hz Hin. split_and!.
    + by rewrite Hk, (filter_param_value et z), decide_True.
    + apply float64_of_exact.
    + intros f Hf. unfold float64_of in Hf. case_decide; [done|]. injection Hf as <-.
      pose proof (round53_nearest (Z.abs z) (Z.abs_nonneg z)) as Hn.
      assert (Z.sgn z * round53 (Z.abs z) - z = Z.sgn z * (round53 (Z.abs z) - Z.abs z)) as ->
        by (rewrite Z.mul_sub_distr_l; by rewrite sgn_times_abs).
      rewrite Z.abs_mul.
      assert (Z.abs (Z.sgn z) <= 1) by (destruct z; cbn; lia). nia.
Qed.

(** ** Chosen fields *)
Definition dynamic et : bool := bool_decide (et_TxType et = DynamicFeeTransactionType).

Lemma foldl_project {B} (P : EthTransaction -> B) (name : string) (applies : bool) (v : B) et acc fields :
  (forall acc param, P (with_field et acc param) = if decide (param = name /\ applies = true) then v else P acc) ->
  P (foldl (with_field et) acc fields) = if decide (name ∈ fields /\ applies = true) then v else P acc.
Proof.
  intros Hstep. revert acc. induction fields as [|param fields IH]; intros acc; cbn [foldl].
  - rewrite decide_False; [done|]. intros [Hin _]. by apply not_elem_of_nil in Hin.
  - rewrite IH, Hstep. repeat case_decide; set_solver.
Qed.

(** The switch of [with_field] as a table: what each name it knows makes of the transaction. *)
Definition field_table et acc : list (string * EthTransaction) :=
  [ ("tx_contents.tx_hash"%string, with_Hash acc (et_Hash et));
    ("tx_contents.nonce"%string, with_Nonce acc (et_Nonce et));
    ("tx_contents.gas_price"%string, if dynamic et then acc else with_GasPrice acc (et_GasPrice et));
    ("tx_contents.gas"%string, with_GasLimit acc (et_GasLimit et));
    ("tx_contents.to"%string, with_To acc (match et_To et with None => Some NullEthAddress | to => to end));
    ("tx_contents.value"%string, with_Value acc (et_Value et));
    ("tx_contents.input"%string, with_Input acc (et_Input et));
    ("tx_contents.v"%string, with_V acc (et_V et));
    ("tx_contents.r"%string, with_R acc (et_R et));
    ("tx_contents.s"%string, with_S acc (et_S et));
    ("tx_contents.from"%string, with_From acc (et_From et));
    ("tx_contents.type"%string, with_TxType acc (et_TxType et));
    ("tx_contents.access_list"%string, with_AccessList acc (et_AccessList et));
    ("tx_contents.chain_id"%string, with_ChainID acc (et_ChainID et));
    ("tx_contents.max_fee_per_gas"%string, if dynamic et then with_GasFeeCap acc (et_GasFeeCap et) else acc);
    ("tx_contents.max_priority_fee_per_gas"%string, if dynamic et then with_GasTipCap acc (et_GasTipCap et) else acc) ].

Lemma with_field_table et acc param :
  (param, with_field et acc param) ∈ field_table et acc \/
  with_field et acc param = acc /\ param ∉ (field_table et acc).*1.
Proof.
  unfold with_field, field_table, dynamic.
  repeat (match goal with |- context [decide (param = ?n)] => destruct (decide (param = n)) as [->|?] end;
          [left; repeat (apply list_elem_of_here || apply list_elem_of_further)|]).
  right. split; [done|]. cbn. repeat (apply not_elem_of_cons; split; [done|]). apply not_elem_of_nil.
Qed.

(** Each name overwrites a projection of its own only. *)
Ltac field_step :=
  intros acc param;
  match goal with |- context [with_field ?t acc param] => generalize (with_field_table t acc param) end;
  intros [Hin|[-> Hout]];
  [ unfold field_table in Hin; repeat (apply elem_of_cons in Hin as [[= Hname ->]|Hin]);
    [.. | by apply not_elem_of_nil in Hin]; subst param; 
    first [rewrite decide_False by (intros ?; destruct_and?; discriminate); by repeat case_match
          | unfold dynamic; try case_bool_decide; reflexivity]
  | rewrite decide_False; [done|];
    first [intros -> | intros [-> _]]; apply Hout; repeat (apply list_elem_of_here || apply list_elem_of_further) ].

Lemma foldl_project_always {B} (P : EthTransaction -> B) (name : string) (v : B) et acc fields :
  (forall acc param, P (with_field et acc param) = if decide (param = name) then v else P acc) ->
  P (foldl (with_field et) acc fields) = if decide (name ∈ fields) then v else P acc.
Proof.
  intros Hstep. rewrite (foldl_project P name true v).
  - by repeat case_decide; tauto.
  - intros acc' param. rewrite Hstep. by repeat case_decide; tauto.
Qed.

(** The switch overwrites a projection for its own name only. *)
Ltac project_field :=
  match goal with
  | |- ?P _ = if decide (?name ∈ _ /\ ?c = true) then ?v else _ => apply (foldl_project P name c v)
  | |- ?P _ = if decide (?name ∈ _) then ?v else _ => apply (foldl_project_always P name v)
  end; field_step.

Lemma WithFields_projections et fields :
  let r := WithFields et fields in
  et_TxType r = (if decide ("tx_contents.type"%string ∈ fields) then et_TxType et else NilTransactionType) /\
  et_From r = (if decide ("tx_contents.from"%string ∈ fields) then et_From et else None) /\
  et_GasPrice r = (if decide ("tx_contents.gas_price"%string ∈ fields /\ negb (dynamic et) = true) then et_GasPrice et else None) /\
  et_GasLimit r = (if decide ("tx_contents.gas"%string ∈ fields) then et_GasLimit et else 0) /\
  et_Hash r = (if decide ("tx_contents.tx_hash"%string ∈ fields) then et_Hash et else zero_hash) /\
  et_Input r = (if decide ("tx_contents.input"%string ∈ fields) then et_Input et else None) /\
  et_Nonce r = (if decide ("tx_contents.nonce"%string ∈ fields) then et_Nonce et else nilNonceValue) /\
  et_Value r = (if decide ("tx_contents.value"%string ∈ fields) then et_Value et else None) /\
  et_V r = (if decide ("tx_contents.v"%string ∈ fields) then et_V et else None) /\
  et_R r = (if decide ("tx_contents.r"%string ∈ fields) then et_R et else None) /\
  et_S r = (if decide ("tx_contents.s"%string ∈ fields) then et_S et else None) /\
  et_To r = (if decide ("tx_contents.to"%string ∈ fields) then match et_To et with None => Some NullEthAddress | to => to end else None) /\
  et_ChainID r = (if decide ("tx_contents.chain_id"%string ∈ fields) then et_ChainID et else None) /\
  et_AccessList r = (if decide ("tx_contents.access_list"%string ∈ fields) then et_AccessList et else None) /\
  et_GasFeeCap r = (if decide ("tx_contents.max_fee_per_gas"%string ∈ fields /\ dynamic et = true) then et_GasFeeCap et else None) /\
  et_GasTipCap r = (if decide ("tx_contents.max_priority_fee_per_gas"%string ∈ fields /\ dynamic et = true) then et_GasTipCap et else None).
Proof. cbn zeta. unfold WithFields. split_and!; project_field. Qed.

(** ** JSON *)
Lemma json_object_lookup (ms : list (string * option (json (AccessList:=AccessList)))) i k o :
  NoDup ms.*1 -> ms !! i = Some (k, o) -> json_object ms !! k = o.
Proof.
  revert i. induction ms as [|[k' o'] ms IH]; intros i Hnd Hi; [done|]. cbn in Hnd. apply NoDup_cons in Hnd as [Hk Hnd].
  destruct i as [|i]; simpl in Hi.
  - injection Hi as -> ->. destruct o as [j|]; cbn; [by rewrite lookup_insert_eq|].
    clear IH Hnd. induction ms as [|[k' [j|]] ms IH]; cbn; [done| |apply IH; set_solver].
    rewrite lookup_insert_ne by set_solver. apply IH. set_solver.
  - assert (k <> k') as Hne.
    { intros ->. apply Hk. apply list_elem_of_fmap. exists (k', o). split; [done|]. by eapply list_elem_of_lookup_2. }
    destruct o' as [j|]; cbn; [rewrite lookup_insert_ne by done|]; by eapply IH.
Qed.

Lemma json_object_dom (ms : list (string * option (json (AccessList:=AccessList)))) k j :
  json_object ms !! k = Some j -> k ∈ ms.*1.
Proof.
  induction ms as [|[k' [j'|]] ms IH]; cbn; [by rewrite lookup_empty| |intros Hk; right; by apply IH].
  intros [[-> _]|[_ Hk]]%lookup_insert_Some; [by left|right; by apply IH].
Qed.
Abbreviation members := (json_members zero_address addr_Hex hexutil_Encode hexutil_EncodeBig hexutil_EncodeUint64).

Lemma members_names et : NoDup (members et).*1.
Proof. apply (bool_decide_unpack _). by vm_compute. Qed.

(** The members other than "to" are not touched after the object is written. *)
Lemma MarshalJSON_other et i k o : k <> "to"%string -> members et !! i = Some (k, o) -> MarshalJSON et !! k = o.
Proof.
  intros Hk Hi. rewrite <- (json_object_lookup _ i k o (members_names et) Hi). unfold EthTransaction.MarshalJSON.
  destruct (et_To et) as [[|a]|]; rewrite ?lookup_insert_ne by done; done.
Qed.

Lemma MarshalJSON_to et : MarshalJSON et !! "to"%string =
  Some (match et_To et with Some (AddressOf a) => Address_MarshalJSON zero_address addr_Hex (Some (AddressOf a)) | _ => JNull end).
Proof.
  unfold EthTransaction.MarshalJSON. destruct (et_To et) as [[|a]|] eqn:Hto; [by rewrite lookup_insert_eq| |by rewrite lookup_insert_eq].
  rewrite (json_object_lookup _ 8 _ (Some (Address_MarshalJSON zero_address addr_Hex (Some (AddressOf a)))) (members_names et)); [done|].
  cbn. by rewrite Hto.
Qed.

(** The members of the JSON object that depend on the field of the same name only, with the condition of the
    field. *)
Definition plain_members et : list (string * string * bool) :=
  [ ("type", "tx_contents.type", true); ("nonce", "tx_contents.nonce", true); ("gas", "tx_contents.gas", true);
    ("value", "tx_contents.value", true); ("input", "tx_contents.input", true); ("v", "tx_contents.v", true);
    ("r", "tx_contents.r", true); ("s", "tx_contents.s", true); ("from", "tx_contents.from", true);
    ("hash", "tx_contents.tx_hash", true); ("accessList", "tx_contents.access_list", true);
    ("maxFeePerGas", "tx_contents.max_fee_per_gas", dynamic et);
    ("maxPriorityFeePerGas", "tx_contents.max_priority_fee_per_gas", dynamic et) ]%string.

Lemma MarshalJSON_members (t : EthTransaction) :
  MarshalJSON t !! "type"%string = (if decide (et_TxType t = NilTransactionType) then None else Some (TransactionType_MarshalJSON hexutil_EncodeUint64 (et_TxType t))) /\
  MarshalJSON t !! "nonce"%string = (if decide (et_Nonce t = nilNonceValue) then None else Some (UInt64_MarshalJSON hexutil_EncodeUint64 (et_Nonce t))) /\
  MarshalJSON t !! "gas"%string = (if decide (et_GasLimit t = 0) then None else Some (UInt64_MarshalJSON hexutil_EncodeUint64 (et_GasLimit t))) /\
  MarshalJSON t !! "value"%string = ((fun z => BigInt_MarshalJSON hexutil_EncodeBig (Some z)) <$> et_Value t) /\
  MarshalJSON t !! "input"%string = (Bytes_MarshalJSON hexutil_Encode <$> et_Input t) /\
  MarshalJSON t !! "v"%string = ((fun z => BigInt_MarshalJSON hexutil_EncodeBig (Some z)) <$> et_V t) /\
  MarshalJSON t !! "r"%string = ((fun z => BigInt_MarshalJSON hexutil_EncodeBig (Some z)) <$> et_R t) /\
  MarshalJSON t !! "s"%string = ((fun z => BigInt_MarshalJSON hexutil_EncodeBig (Some z)) <$> et_S t) /\
  MarshalJSON t !! "from"%string = ((fun a => Address_MarshalJSON zero_address addr_Hex (Some a)) <$> et_From t) /\
  MarshalJSON t !! "gasPrice"%string = (Some (from_option (fun z => BigInt_MarshalJSON hexutil_EncodeBig (Some z)) JNull (et_GasPrice t))) /\
  MarshalJSON t !! "hash"%string = (if decide (et_Hash t = zero_hash) then None else Some (Hash_MarshalJSON (et_Hash t))) /\
  MarshalJSON t !! "chainId"%string = (if decide (et_TxType t = LegacyTransactionType) then None else Some (BigInt_MarshalJSON hexutil_EncodeBig (et_ChainID t))) /\
  MarshalJSON t !! "accessList"%string = (JAccessList <$> et_AccessList t) /\
  MarshalJSON t !! "maxFeePerGas"%string = ((fun z => BigInt_MarshalJSON hexutil_EncodeBig (Some z)) <$> et_GasFeeCap t) /\
  MarshalJSON t !! "maxPriorityFeePerGas"%string = ((fun z => BigInt_MarshalJSON hexutil_EncodeBig (Some z)) <$> et_GasTipCap t).
Proof.
  split_and!; [ apply (MarshalJSON_other t 0) |
    apply (MarshalJSON_other t 1) |
    apply (MarshalJSON_other t 2) |
    apply (MarshalJSON_other t 3) |
    apply (MarshalJSON_other t 4) |
    apply (MarshalJSON_other t 5) |
    apply (MarshalJSON_other t 6) |
    apply (MarshalJSON_other t 7) |
    apply (MarshalJSON_other t 9) |
    apply (MarshalJSON_other t 10) |
    apply (MarshalJSON_other t 11) |
    apply (MarshalJSON_other t 12) |
    apply (MarshalJSON_other t 13) |
    apply (MarshalJSON_other t 14) |
    apply (MarshalJSON_other t 15) ]; solve [done | reflexivity].
Qed.

(** A member that is omitted for the blank value [b] of its field. *)
Lemma chosen {B C} (f : B -> option C) (P : Prop) `{Decision P} (c : bool) (a b p : B) :
  p = (if decide (P /\ c = true) then a else b) -> f b = None -> f p = if decide (P /\ c = true) then f a else None.
Proof. intros -> Hb. by case_decide. Qed.
Lemma chosen_always {B C} (f : B -> option C) (P : Prop) `{Decision P} (a b p : B) :
  p = (if decide P then a else b) -> f b = None -> f p = if decide (P /\ true = true) then f a else None.
Proof. intros -> Hb. destruct (decide P); [rewrite decide_True by done|rewrite decide_False by tauto]; done. Qed.

Lemma WithFields_plain_member et fields key name c :
  (key, name, c) ∈ plain_members et ->
  MarshalJSON (WithFields et fields) !! key = if decide (name ∈ fields /\ c = true) then MarshalJSON et !! key else None.
Proof.
  destruct (WithFields_projections et fields)
    as (Hty & Hfrom & _ & Hgas & Hhash & Hin & Hnonce & Hval & Hv & Hr & Hs & _ & _ & Hacl & Hfee & Htip).
  set (r := WithFields et fields) in *. clearbody r.
  destruct (MarshalJSON_members et) as (O1 & O2 & O3 & O4 & O5 & O6 & O7 & O8 & O9 & _ & O11 & _ & O13 & O14 & O15).
  destruct (MarshalJSON_members r)
    as (R1 & R2 & R3 & R4 & R5 & R6 & R7 & R8 & R9 & _ & R11 & _ & R13 & R14 & R15).
  intros Hk. unfold plain_members in Hk. repeat (apply elem_of_cons in Hk as [[= -> -> ->]|Hk]);
    [.. | by apply not_elem_of_nil in Hk].
  - rewrite R1, O1. exact (chosen_always (fun v => if decide (v = NilTransactionType) then None else Some (TransactionType_MarshalJSON hexutil_EncodeUint64 v)) _ _ _ _ Hty eq_refl).
  - rewrite R2, O2. exact (chosen_always (fun v => if decide (v = nilNonceValue) then None else Some (UInt64_MarshalJSON hexutil_EncodeUint64 v)) _ _ _ _ Hnonce eq_refl).
  - rewrite R3, O3. exact (chosen_always (fun v => if decide (v = 0) then None else Some (UInt64_MarshalJSON hexutil_EncodeUint64 v)) _ _ _ _ Hgas eq_refl).
  - rewrite R4, O4. exact (chosen_always (fun v => (fun z => BigInt_MarshalJSON hexutil_EncodeBig (Some z)) <$> v) _ _ _ _ Hval eq_refl).
  - rewrite R5, O5. exact (chosen_always (fmap (Bytes_MarshalJSON hexutil_Encode)) _ _ _ _ Hin eq_refl).
  - rewrite R6, O6. exact (chosen_always (fun v => (fun z => BigInt_MarshalJSON hexutil_EncodeBig (Some z)) <$> v) _ _ _ _ Hv eq_refl).
  - rewrite R7, O7. exact (chosen_always (fun v => (fun z => BigInt_MarshalJSON hexutil_EncodeBig (Some z)) <$> v) _ _ _ _ Hr eq_refl).
  - rewrite R8, O8. exact (chosen_always (fun v => (fun z => BigInt_MarshalJSON hexutil_EncodeBig (Some z)) <$> v) _ _ _ _ Hs eq_refl).
  - rewrite R9, O9. exact (chosen_always (fmap (fun a => Address_MarshalJSON zero_address addr_Hex (Some a))) _ _ _ _ Hfrom eq_refl).
  - rewrite R11, O11. exact (chosen_always (fun v => if decide (v = zero_hash) then None else Some (Hash_MarshalJSON v)) _ _ _ _ Hhash eq_refl).
  - rewrite R13, O13. exact (chosen_always (fmap JAccessList) _ _ _ _ Hacl eq_refl).
  - rewrite R14, O14. exact (chosen (fun v => (fun z => BigInt_MarshalJSON hexutil_EncodeBig (Some z)) <$> v) _ _ _ _ _ Hfee eq_refl).
  - rewrite R15, O15. exact (chosen (fun v => (fun z => BigInt_MarshalJSON hexutil_EncodeBig (Some z)) <$> v) _ _ _ _ _ Htip eq_refl).
Qed.

(** C40: What a user who asks for some fields of a transaction gets. A member that stands for one field is in
    the object exactly when it was asked for and the whole transaction has it, with the same value (the two
    fee caps for transactions with dynamic fees only). Three members do not follow the request: "to" is
    always there, null unless it was asked for and the transaction has a receiver; "gasPrice" is always
    there, null unless it was asked for and the transaction has no dynamic fees; and the chain ID is there,
    empty, unless the type was asked for and is the legacy one. Nothing else is in the object. *)
Theorem WithFields_json et fields :
  let m := MarshalJSON (WithFields et fields) in
  (forall key name c, (key, name, c) ∈ plain_members et ->
     m !! key = if decide (name ∈ fields /\ c = true) then MarshalJSON et !! key else None) /\
  m !! "to"%string = Some (match et_To et with
                           | Some (AddressOf a) => if decide ("tx_contents.to"%string ∈ fields)
                                                   then Address_MarshalJSON zero_address addr_Hex (Some (AddressOf a)) else JNull
                           | _ => JNull
                           end) /\
  m !! "gasPrice"%string = (if decide ("tx_contents.gas_price"%string ∈ fields /\ negb (dynamic et) = true)
                            then MarshalJSON et !! "gasPrice"%string else Some JNull) /\
  m !! "chainId"%string =
    (if decide ("tx_contents.type"%string ∈ fields /\ et_TxType et = LegacyTransactionType) then None
     else Some (BigInt_MarshalJSON hexutil_EncodeBig (if decide ("tx_contents.chain_id"%string ∈ fields) then et_ChainID et else None))) /\
  dom m ⊆ list_to_set (["to"; "gasPrice"; "chainId"]%string ++ (plain_members et).*1.*1).
Proof.
  destruct (WithFields_projections et fields) as (Hty & _ & Hgp & _ & _ & _ & _ & _ & _ & _ & _ & Hto & Hchain & _).
  destruct (MarshalJSON_members et) as (_ & _ & _ & _ & _ & _ & _ & _ & _ & O10 & _).
  destruct (MarshalJSON_members (WithFields et fields)) as (_ & _ & _ & _ & _ & _ & _ & _ & _ & R10 & _ & R12 & _).
  cbn zeta. split_and!.
  - apply WithFields_plain_member.
  - rewrite MarshalJSON_to, Hto. destruct (et_To et) as [[|a]|]; destruct (decide ("tx_contents.to"%string ∈ fields)); reflexivity.
  - rewrite R10, O10, Hgp.
    destruct (decide ("tx_contents.gas_price"%string ∈ fields /\ negb (dynamic et) = true)); reflexivity.
  - rewrite R12, Hchain, Hty. destruct (decide ("tx_contents.type"%string ∈ fields)) as [Ht|Ht].
    + destruct (decide (et_TxType et = LegacyTransactionType)) as [Hl|Hl];
        [rewrite (decide_True (P := _ /\ _)) by auto|rewrite (decide_False (P := _ /\ _)) by tauto]; reflexivity.
    + rewrite (decide_False (P := NilTransactionType = _)) by (by vm_compute).
      rewrite (decide_False (P := _ /\ _)) by tauto. reflexivity.
  - intros k [j Hj]%elem_of_dom. apply elem_of_list_to_set. destruct (decide (k = "to"%string)) as [->|Hk]; [by left|].
    assert (k ∈ (members (WithFields et fields)).*1) as Hin.
    { eapply json_object_dom. rewrite <- Hj. unfold EthTransaction.MarshalJSON.
      destruct (et_To _) as [[|a]|]; rewrite ?lookup_insert_ne by done; done. }
    cbn in Hin |- *. set_solver.
Qed.
End Props.

(** ** A transaction *)
Definition ex_et : EthTransaction Z unit :=
  mkEthTransaction DynamicFeeTransactionType (Some (AddressOf 7)) (Some 9) 21000 zero_hash None 3 (Some (2 ^ 53 + 1)) None None None
    None (Some 1) None (Some 11) (Some 2).
Abbreviation ex_Filters := (Filters 0 (fun _ => "0xA"%string) (fun _ => "0x"%string)).
Abbreviation ex_MarshalJSON := (MarshalJSON 0 (fun _ => "0xA"%string) (fun _ => "0x"%string) (fun _ => "0x1"%string) (fun _ => "0x2"%string)).

Lemma Filters_spec_witness :
  ~ ("value"%string ∈ ["gas_price"; "value"; "unknown"]%string /\ et_Value ex_et = None) /\
  (exists m, ex_Filters ex_et ["gas_price"; "value"; "unknown"]%string = Ret m /\
     m !! "gas_price"%string = Some (FInt (-1)) /\ m !! "value"%string = Some (FFloat (Finite (2 ^ 53))) /\ m !! "unknown"%string = None).
Proof.
  split; [by intros [_ [=]]|].
  destruct (Filters_spec 0 (fun _ => "0xA"%string) (fun _ => "0xA"%string) (fun _ => "0x"%string) ex_et ["gas_price"; "value"; "unknown"]%string)
    as [_ (m & Hrun & Hm & _)]; [by intros [_ [=]]|].
  exists m. split; [exact Hrun|]. rewrite !Hm. by vm_compute.
Defined.

Lemma WithFields_json_witness :
  let m := ex_MarshalJSON (WithFields ex_et ["tx_contents.nonce"]%string) in
  m !! "nonce"%string = Some (JString "0x2") /\ m !! "from"%string = None /\
  m !! "gasPrice"%string = Some JNull /\ m !! "to"%string = Some JNull /\ m !! "chainId"%string = Some (JString "").
Proof.
  destruct (WithFields_json 0 (fun _ => "0xA"%string) (fun _ => "0xA"%string) (fun _ => "0x"%string) (fun _ => "0x1"%string) (fun _ => "0x2"%string)
    ex_et ["tx_contents.nonce"]%string) as (Hplain & Hto & Hgas & Hchain & _).
  cbn zeta. rewrite Hto, Hgas, Hchain. split_and!; [|by vm_compute..|].
  - rewrite (Hplain "nonce"%string "tx_contents.nonce"%string true) by (right; left). by vm_compute.
  - by vm_compute.
Defined.
